(* ===== verification/_CoqProject ===== *)
-Q . S2P
Prelude.v
CString.v
Digits.v
Memory.v
Layout.v
Protocol.v
Ensures.v
Interfaces.v
Pmm.v
HeapSpec.v
Heap.v
HeapProofs.v
HeapTheorems.v
Sched.v
SchedTheorems.v
Machine.v
Switch.v
Platform.v
Pic.v
Keyboard.v
Vfs.v
Serial.v
Framebuffer.v
Terminal.v
Gdt.v
Panic.v
Idt.v
Exceptions.v
Structs.v
Kernel.v
Shell.v
ShellReplies.v
Display.v
Session.v
Boot.v
Limine.v
Running.v
Steps.v
ShellSteps.v
Preempt.v
Handling.v
Interleaving.v
Screen.v
Types.v
