(* ===== verification/Prelude.v ===== *)
(** * NovaOS: a verification development

    NovaOS is a small x86-64 kernel: the boot loader enters [_start], which
    initialises one subsystem after the other and ends in the input loop of a
    shell; afterwards the timer and keyboard interrupts drive everything.  This
    library models all of its C++ and assembly code that computes, component by
    component, and composes the components the way the code does.

    ** The parts

    Each file models the source named in its title; a definition carries the
    name of the function it translates, or, for a fragment of one, a name of its
    own and a comment.

    - [Prelude] (this file): machine integers, the fault monad, arrays, loops,
      ranges and bit lemmas.  [CString], [Digits]: C strings and number
      formatting.  [Memory]: byte-addressed memory.  [Layout]: how the compiler
      lays out a structure, and field access through a pointer.  [Ensures]: a
      program logic for state invariants.  [Steps]: programs that can be stopped
      between their steps, with a rely-guarantee logic.
    - [Interfaces]: the class [PageAllocator], which [Pmm] implements and the
      heap is proved against.  [Platform]: the class of port-mapped hardware
      (interrupt controllers, timer, UART), which the drivers are proved
      against, with the instance [board].
    - [Pmm]: [mm/pmm.cpp].  [Heap]: [mm/heap.cpp]; [HeapSpec] is the abstract
      list of blocks, [HeapProofs] the refinement, [HeapTheorems] the theorems.
    - [Sched], [SchedTheorems]: [sched/scheduler.cpp].  [Machine], [Switch]: a
      processor semantics for [sched/context_switch.asm] and
      [arch/x86_64/isr_stubs.asm].
    - [Pic]: [drivers/pic.cpp], [drivers/pit.cpp].  [Keyboard]:
      [drivers/keyboard.cpp].  [Framebuffer]: [drivers/framebuffer.cpp];
      [Terminal] is the abstract text terminal it implements.
      [Serial]: the UART part of [kernel_main.cpp].  [Vfs]: [fs/vfs.cpp].
    - [Gdt], [Idt]: [arch/x86_64/gdt.cpp], [arch/x86_64/idt.cpp].  [Panic]:
      [lib/panic.cpp].  [Exceptions]: an exception from the processor through the
      stub of [isr_stubs.asm] to the report.  [Structs]: the layouts of the
      structures that assembly or hardware reads.
    - [Kernel]: the static variables of all components side by side.  [Shell],
      [ShellReplies]: the commands of [shell/shell.cpp].  [Display]: their
      outputs on the terminal.  [Session]: what the interrupt stubs call, and the
      turns of [shell_task].  [Boot]: [_start] up to its [sti].  [Protocol]: the
      data of [limine.h].  [Limine]: the kernel's requests and their answers in
      memory, and what [_start] reads of them.  [Running]: an interrupt on the whole
      kernel, from the controller's acknowledgement through the gate and the stub to
      the [iretq] or to another task.  [ShellSteps]: [shell.cpp] again as programs
      whose steps are single variable accesses, characters and bytes.  [Preempt]:
      what interrupts may change between the steps, and what the steps show whatever
      comes.  [Handling]: a program in steps under any schedule of interrupts.
      [Interleaving]: from the [sti] on, interrupts between any two steps of
      [_start] and of the shell, and the ticker task of [kernel_main.cpp], as a step
      relation.  [Screen]: what the user sees first.  [Types]: the C types of all
      variables.

    ** How the code is modelled

    A computation over a state [S] is a function [S → res (A * S)] ([M]).  Its
    result is [Ok], [Fault] (an unmapped address, an index out of an array, a
    division by zero) or [NoFuel] (a loop not finished in the iterations
    given).  Where interrupts come between the steps of a computation, it is a
    [prog], and a theorem ([char_steps_run]) shows that its steps make up the
    computation.  The state of a component is a record of its static variables;
    [zoom] runs a component on the state of a larger one.  Integers are [Z] with
    each conversion or operation at its width written out ([u8] to [u64]).  The
    heap's block headers and the task stacks live in one byte-addressed memory
    and are reached by address; the console's and the panic code's framebuffer
    are the same memory ([panic_view]).  Ports are operations of [Platform].

    ** What is shown

    - Memory: [pmm_alloc] and [pmm_free] implement a set of free pages, which
      [pmm_init] builds from the memory map; [kmalloc] and [kfree] refine first
      fit with coalescing on the list of blocks, for every sequence of client
      calls, over any [PageAllocator].
    - Tasks: the table's invariant, round-robin order and fairness, the seeded
      stack; [context_switch] and the interrupt stubs on the machine.
    - Devices: remapping and masks of the interrupt controllers, the rate of the
      timer, the keyboard as a bounded queue, also with interrupts between a
      reader's steps, the text on the serial line; the console refines a text
      terminal, so that every pixel after any text is the picture of a grid of
      characters.
    - Descriptors and errors: the tables the processor reads; an exception from
      the interrupted state, over the frame in memory, to the report on the serial
      line; the panic.
    - The shell: every command against the list of outputs [reply]; a typed line
      from its first key to the next prompt, with the screen it leaves.
    - The boot protocol: its data mean the same to a kernel and a loader compiled
      with different settings; [_start] reads the loader's answers from memory.
    - The whole kernel: the state at the [sti] of [_start] and the log so far, with
      interrupts off before it; from there on, safety under every interleaving of
      interrupts and tasks; the first screen; a character handled under interrupts
      shows what it shows without; the two ways it goes on: with the ticker task it
      stops listening at the first task switch and only the ticker counts on,
      without a second task every interrupt is passed on, served and ended for ever.
      In every reachable state every variable has a value of its type.

    A predicate named after a component and [_rep] or [_ok] ([pmm_rep],
    [heap_rep], [sched_ok], [kb_rep], [vfs_rep], [fb_ok], [shell_ok], [ready]) is
    its invariant or its abstraction relation; [shows_term] relates the console to
    a terminal.

    ** Fuel

    Loops over a counted range are structural ([for_each] over [range]).  The
    others have fuel that a theorem shows to be enough: [HEAP_FUEL], one
    iteration per header that fits the pool; [mark_fuel], one per page of a
    region; [DEC_FUEL], one per digit of a 64-bit value; [SERIAL_FUEL], one more
    poll than the UART stays busy.  [TAB_FUEL] is enough for the tabs whose loop
    ends; for the others [fb_tab_hangs] shows that no amount is.
    [keyboard_getchar] waits as long as its list of scancodes lasts.

    ** What is not modelled

    - The loader itself.  Its answers are read before the boot sequence starts;
      that they lie where this does not write is the loader's promise.  Of
      [limine.h], targets with 32-bit pointers.
    - The addresses the linker chooses are a parameter ([link_map]).
    - Interrupts within a step: the access to a variable, a search of the file
      table, the drawing of one character, one wait for the UART, one byte sent.
      The parts of a step use no variable or port that an interrupt uses.  The boot
      sequence runs with interrupts off up to its [sti], and the panic code turns
      them off first.
    - The request lines of the interrupt controllers: that a device asks for an
      interrupt is a choice of the environment, at any step.  The controller
      passes it on when its line is not masked and no line of the same or a higher
      priority is in service, and the processor when its flag is set.  The lines
      other than the timer's and the keyboard's are masked, and the controllers
      raise no spurious interrupt.  The loader hands over with the interrupt flag
      clear and no line in service, which [boot_given] asks of it: the
      initialisation of the controllers is not documented to end a service.
    - Paging, caches and timing; the build files. *)
From stdpp Require Import base tactics list gmap strings numbers.

Local Open Scope Z_scope.

(** ** Machine integers

    An unsigned [w]-bit value of the C++ source is a [Z]; every conversion or
    arithmetic operation the source performs at width [w] goes through one of
    these. *)
Definition u8 (z : Z) : Z := z mod 2 ^ 8.
Definition u16 (z : Z) : Z := z mod 2 ^ 16.
Definition u32 (z : Z) : Z := z mod 2 ^ 32.
Definition u64 (z : Z) : Z := z mod 2 ^ 64.

Declare Scope nova_scope.
Delimit Scope nova_scope with nova.
Infix "&&&" := Z.land (at level 40, left associativity) : nova_scope.
Infix "|||" := Z.lor (at level 50, left associativity) : nova_scope.

(** ** Computations that can fault

    [Fault] is what the hardware turns into a CPU exception or the C++
    standard into undefined behaviour: an unmapped address, an array index out
    of range, a division by zero.  [NoFuel] is a loop that did not finish in
    the iterations it was given. *)
Inductive res (A : Type) : Type :=
| Ok (a : A)
| Fault
| NoFuel.
Global Arguments Ok {A} a.
Global Arguments Fault {A}.
Global Arguments NoFuel {A}.

Definition M (S A : Type) : Type := S → res (A * S).

#[global] Instance M_ret (S : Type) : MRet (M S) := λ A a s, Ok (a, s).
#[global] Instance M_bind (S : Type) : MBind (M S) := λ A B k m s,
  match m s with
  | Ok (a, s') => k a s'
  | Fault => Fault
  | NoFuel => NoFuel
  end.

Definition get {S : Type} : M S S := λ s, Ok (s, s).
Definition put {S : Type} (s : S) : M S unit := λ _, Ok ((), s).
Definition modify {S : Type} (f : S → S) : M S unit := λ s, Ok ((), f s).
Definition fault {S A : Type} : M S A := λ _, Fault.
Definition nofuel {S A : Type} : M S A := λ _, NoFuel.
Definition of_option {S A : Type} (o : option A) : M S A := λ s,
  match o with Some a => Ok (a, s) | None => Fault end.

(** Run a computation on one component of a larger state. *)
Definition zoom {S T A : Type} (prj : T → S) (upd : S → T → T) (m : M S A) : M T A :=
  λ t, match m (prj t) with
       | Ok (a, s) => Ok (a, upd s t)
       | Fault => Fault
       | NoFuel => NoFuel
       end.

(** The values [lo, lo+1, ..., lo+n-1] of a loop counter. *)
Fixpoint count_up (lo : Z) (n : nat) : list Z :=
  match n with O => [] | S n => lo :: count_up (lo + 1) n end.
Definition range (lo n : Z) : list Z := count_up lo (Z.to_nat n).

(** [for (i = 0; i < n; ++i) body(i)]: the body runs once per element. *)
Fixpoint for_each {S A : Type} (l : list A) (body : A → M S unit) : M S unit :=
  match l with
  | [] => mret tt
  | i :: l => body i ≫= λ _, for_each l body
  end.

(** ** Arrays

    A C array is a list; reading or writing outside it faults. *)
Definition arr_get {A : Type} (i : Z) : M (list A) A := λ l,
  if i <? 0 then Fault else of_option (l !! Z.to_nat i) l.
Definition arr_put {A : Type} (i : Z) (x : A) : M (list A) unit := λ l,
  if (0 <=? i) && (i <? Z.of_nat (length l)) then Ok ((), <[Z.to_nat i := x]> l) else Fault.

(** ** Bits *)

(** Index of the lowest set bit: the compiler builtin [__builtin_ctzll]. *)
Fixpoint ctz_pos (p : positive) : Z :=
  match p with
  | (q~0)%positive => 1 + ctz_pos q
  | _ => 0
  end.
Definition ctz (z : Z) : Z :=
  match z with Zpos p => ctz_pos p | _ => 0 end.

(** ** C strings

    A C string is the list of its characters (bytes, as [Z]); reading past the
    last one gives the terminator.  An embedded 0 ends it, as in C. *)
Definition chr (s : list Z) : Z := default 0 (head s).

Fixpoint cstr (s : string) : list Z :=
  match s with
  | EmptyString => []
  | String a s => Z.of_N (Ascii.N_of_ascii a) :: cstr s
  end.

(** No terminator inside: the list is exactly what a C reader sees. *)
Definition no_nul (s : list Z) : Prop := Forall (λ c, c ≠ 0) s.

(** * Lemmas *)

Lemma u8_range z : 0 ≤ u8 z < 2 ^ 8.
Proof. apply Z.mod_pos_bound; lia. Qed.
Lemma u16_range z : 0 ≤ u16 z < 2 ^ 16.
Proof. apply Z.mod_pos_bound; lia. Qed.
Lemma u32_range z : 0 ≤ u32 z < 2 ^ 32.
Proof. apply Z.mod_pos_bound; lia. Qed.
Lemma u64_range z : 0 ≤ u64 z < 2 ^ 64.
Proof. apply Z.mod_pos_bound; lia. Qed.
Lemma u8_small z : 0 ≤ z < 2 ^ 8 → u8 z = z.
Proof. apply Z.mod_small. Qed.
Lemma u16_small z : 0 ≤ z < 2 ^ 16 → u16 z = z.
Proof. apply Z.mod_small. Qed.
Lemma u32_small z : 0 ≤ z < 2 ^ 32 → u32 z = z.
Proof. apply Z.mod_small. Qed.
Lemma u64_small z : 0 ≤ z < 2 ^ 64 → u64 z = z.
Proof. apply Z.mod_small. Qed.

Create Rewrite HintDb width.
#[export] Hint Rewrite u8_small u16_small u32_small u64_small using lia : width.
(** Drop the truncations whose argument provably fits. *)
Ltac widths := autorewrite with width in *.

(** *** Monad equations *)
Section monad.
Context {S A B : Type}.

Lemma bind_ok (m : M S A) (k : A → M S B) s a s' :
  m s = Ok (a, s') → (m ≫= k) s = k a s'.
Proof. unfold mbind, M_bind. by intros ->. Qed.
Lemma bind_fault (m : M S A) (k : A → M S B) s :
  m s = Fault → (m ≫= k) s = Fault.
Proof. unfold mbind, M_bind. by intros ->. Qed.
Lemma bind_inv (m : M S A) (k : A → M S B) s r :
  (m ≫= k) s = Ok r → ∃ a s', m s = Ok (a, s') ∧ k a s' = Ok r.
Proof.
  unfold mbind, M_bind. destruct (m s) as [[a s']| |]; [|done..]. eauto.
Qed.
Lemma bind_cong (m m' : M S A) (k k' : A → M S B) s :
  m s = m' s → (∀ a s', k a s' = k' a s') → (m ≫= k) s = (m' ≫= k') s.
Proof. unfold mbind, M_bind. intros -> Hk. by destruct (m' s) as [[a s']| |]. Qed.
Lemma ret_ok (a : A) (s : S) : (mret a : M S A) s = Ok (a, s).
Proof. done. Qed.
End monad.

Lemma zoom_ok {S T A : Type} (prj : T → S) (upd : S → T → T) (m : M S A) t a s :
  m (prj t) = Ok (a, s) → zoom prj upd m t = Ok (a, upd s t).
Proof. unfold zoom. by intros ->. Qed.

(** *** Arrays *)
Lemma arr_get_ok {A : Type} (l : list A) i x :
  0 ≤ i → l !! Z.to_nat i = Some x → arr_get i l = Ok (x, l).
Proof.
  intros Hi Hx. unfold arr_get. destruct (Z.ltb_spec i 0); [lia|]. by rewrite Hx.
Qed.

Lemma arr_get_inv {A : Type} (l l' : list A) i x :
  arr_get i l = Ok (x, l') → 0 ≤ i < Z.of_nat (length l) ∧ l !! Z.to_nat i = Some x ∧ l' = l.
Proof.
  unfold arr_get. destruct (Z.ltb_spec i 0) as [|Hi]; [done|].
  destruct (l !! Z.to_nat i) as [y|] eqn:Hy; [|done]. cbn. intros [= <- <-].
  apply lookup_lt_Some in Hy as Hlt. split_and!; [lia|lia|done|done].
Qed.

Lemma arr_put_ok {A : Type} (l : list A) i x :
  0 ≤ i < Z.of_nat (length l) → arr_put i x l = Ok ((), <[Z.to_nat i := x]> l).
Proof.
  intros Hi. unfold arr_put.
  destruct (Z.leb_spec 0 i), (Z.ltb_spec i (Z.of_nat (length l))); cbn; done || lia.
Qed.

(** An index inside the array has an element. *)
Lemma arr_elem {A : Type} (l : list A) i :
  0 ≤ i < Z.of_nat (length l) → ∃ x, l !! Z.to_nat i = Some x.
Proof. intros Hi. apply lookup_lt_is_Some_2. lia. Qed.

Lemma for_each_app {S A : Type} (l1 l2 : list A) (body : A → M S unit) s :
  for_each (l1 ++ l2) body s = (for_each l1 body ≫= λ _, for_each l2 body) s.
Proof.
  revert s; induction l1 as [|i l1 IH]; intros s; [done|]. cbn.
  unfold mbind, M_bind in *. destruct (body i s) as [[? s']| |]; [|done..].
  apply IH.
Qed.

(** A loop whose body never faults keeps an invariant indexed by what it has
    already processed. *)
Lemma for_each_inv {S A : Type} (I : list A → S → Prop) (body : A → M S unit)
    (l : list A) s :
  (∀ done x rest s, l = done ++ x :: rest → I done s →
    ∃ s', body x s = Ok ((), s') ∧ I (done ++ [x]) s') →
  I [] s → ∃ s', for_each l body s = Ok ((), s') ∧ I l s'.
Proof.
  intros Hbody. assert (∀ rest done s, l = done ++ rest → I done s →
    ∃ s', for_each rest body s = Ok ((), s') ∧ I l s') as Hgen.
  { intros rest; induction rest as [|x rest IH]; intros dn s1 Hl HI.
    - exists s1. rewrite app_nil_r in Hl. by subst.
    - destruct (Hbody dn x rest s1 Hl HI) as (s2 & Hs2 & HI2). cbn [for_each].
      rewrite (bind_ok _ _ _ _ _ Hs2). apply (IH (dn ++ [x])); [|done].
      by rewrite Hl, <- app_assoc. }
  intros HI. by apply (Hgen l []).
Qed.

(** Step through a bind whose first computation has a known result. *)
Ltac step := erewrite bind_ok; [|try eassumption; try reflexivity]; cbv beta.

(** *** Bit lemmas *)
Lemma ctz_pos_nonneg p : 0 ≤ ctz_pos p.
Proof. induction p; simpl; lia. Qed.

Lemma ctz_pos_double_testbit p n :
  0 ≤ n → Z.testbit (Zpos (p~0)) (1 + n) = Z.testbit (Zpos p) n.
Proof.
  intros. rewrite Z.add_1_l, Pos2Z.inj_xO. apply Z.testbit_even_succ. done.
Qed.

Lemma ctz_nonneg z : 0 ≤ ctz z.
Proof. destruct z; simpl; [lia|apply ctz_pos_nonneg|lia]. Qed.

Lemma ctz_set z : 0 < z → Z.testbit z (ctz z) = true.
Proof.
  destruct z as [|p|p]; try lia. intros _. simpl.
  induction p as [p IH|p IH|]; [done| |done]. cbn [ctz_pos].
  rewrite ctz_pos_double_testbit by apply ctz_pos_nonneg. done.
Qed.

Lemma ctz_below z i : 0 < z → i < ctz z → Z.testbit z i = false.
Proof.
  destruct (decide (i < 0)); [intros; by apply Z.testbit_neg_r|].
  destruct z as [|p|p]; try lia. intros _. simpl.
  revert i n; induction p as [p IH|p IH|]; cbn [ctz_pos]; intros i Hi Hlt; try lia.
  destruct (decide (i = 0)) as [->|]; [done|].
  replace i with (1 + (i - 1)) by lia.
  rewrite ctz_pos_double_testbit by lia. apply IH; lia.
Qed.

Lemma ctz_bound z w : 0 < z < 2 ^ w → 0 ≤ w → ctz z < w.
Proof.
  intros [Hz Hw] Hw0. destruct (decide (ctz z < w)) as [|Hge]; [done|].
  pose proof (ctz_set z Hz) as Hset.
  rewrite Z.bits_above_log2 in Hset; [done|lia|].
  apply Z.log2_lt_pow2 in Hw; lia.
Qed.

(** Setting and clearing one bit of a 64-bit word. *)
Lemma testbit_set w p i :
  0 ≤ p → 0 ≤ i →
  Z.testbit (Z.lor w (Z.shiftl 1 p)) i = (Z.testbit w i || (i =? p)).
Proof.
  intros Hp Hi. rewrite Z.lor_spec, Z.shiftl_1_l, Z.pow2_bits_eqb by done.
  by rewrite (Z.eqb_sym p i).
Qed.

Lemma testbit_clear w p i :
  0 ≤ p → 0 ≤ i →
  Z.testbit (Z.land w (Z.lnot (Z.shiftl 1 p))) i = (Z.testbit w i && negb (i =? p)).
Proof.
  intros Hp Hi.
  rewrite Z.land_spec, Z.lnot_spec, Z.shiftl_1_l, Z.pow2_bits_eqb by done.
  by rewrite (Z.eqb_sym p i).
Qed.

Lemma testbit_u64 z i : 0 ≤ i < 64 → Z.testbit (u64 z) i = Z.testbit z i.
Proof. intros. apply Z.mod_pow2_bits_low. lia. Qed.

Lemma testbit_u64_high z i : 64 ≤ i → Z.testbit (u64 z) i = false.
Proof. intros. apply Z.mod_pow2_bits_high. lia. Qed.

(** [w & (1 << p)] tests bit [p]. *)
Lemma land_bit_test w p :
  0 ≤ p → negb (Z.land w (Z.shiftl 1 p) =? 0) = Z.testbit w p.
Proof.
  intros Hp. destruct (Z.testbit w p) eqn:E.
  - apply negb_true_iff, Z.eqb_neq. intros H0.
    assert (Z.testbit (Z.land w (Z.shiftl 1 p)) p = true) as Hb.
    { by rewrite Z.land_spec, E, Z.shiftl_1_l, Z.pow2_bits_true. }
    by rewrite H0, Z.testbit_0_l in Hb.
  - apply negb_false_iff, Z.eqb_eq, Z.bits_inj'. intros i Hi.
    rewrite Z.land_spec, Z.shiftl_1_l, Z.pow2_bits_eqb, Z.testbit_0_l by done.
    destruct (Z.eqb_spec p i) as [->|]; [by rewrite E|apply andb_false_r].
Qed.

(** Masking a 64-bit value with a complement computed at any larger width. *)
Lemma land_u64 a b : 0 ≤ a < 2 ^ 64 → Z.land a (u64 b) = Z.land a b.
Proof.
  intros Ha. apply Z.bits_inj'. intros i Hi. rewrite !Z.land_spec.
  destruct (decide (i < 64)); [by rewrite testbit_u64|].
  rewrite <- (Z.mod_small a (2 ^ 64)) by done.
  by rewrite Z.mod_pow2_bits_high by lia.
Qed.

(** A word has no bit at or above its width. *)
Lemma testbit_above w z i : 0 ≤ z < 2 ^ w → 0 ≤ w ≤ i → Z.testbit z i = false.
Proof.
  intros Hz Hi. rewrite <- (Z.mod_small z (2 ^ w)) by done.
  by apply Z.mod_pow2_bits_high.
Qed.

Lemma bounded_by_bits w z :
  0 ≤ w → 0 ≤ z → (∀ i, w ≤ i → Z.testbit z i = false) → z < 2 ^ w.
Proof.
  intros Hw Hz H. assert (z = z mod 2 ^ w) as ->.
  { apply Z.bits_inj'. intros i Hi. destruct (decide (i < w)).
    - by rewrite Z.mod_pow2_bits_low by lia.
    - rewrite Z.mod_pow2_bits_high by lia. apply H. lia. }
  apply Z.mod_pos_bound. lia.
Qed.

(** Two non-negative words with the same bits are the same word. *)
Lemma bits_eq a b : (∀ i, 0 ≤ i → Z.testbit a i = Z.testbit b i) → a = b.
Proof.
  intros H. apply Z.bits_inj'. intros i Hi. by apply H.
Qed.

(** *** Counter ranges *)
Lemma elem_of_range lo n i : i ∈ range lo n ↔ lo ≤ i < lo + n.
Proof.
  unfold range. destruct (decide (0 ≤ n)) as [Hn|Hn].
  - rewrite <- (Z2Nat.id n) at 2 by done.
    generalize (Z.to_nat n) as k. intros k. revert lo.
    induction k as [|k IH]; intros lo; cbn [count_up].
    + rewrite elem_of_nil. lia.
    + rewrite elem_of_cons, IH. lia.
  - replace (Z.to_nat n) with O by lia. cbn. rewrite elem_of_nil. lia.
Qed.

Lemma range_nil lo n : n ≤ 0 → range lo n = [].
Proof. intros. unfold range. by replace (Z.to_nat n) with O by lia. Qed.

Lemma range_cons lo n : 0 < n → range lo n = lo :: range (lo + 1) (n - 1).
Proof.
  intros. unfold range.
  by replace (Z.to_nat n) with (S (Z.to_nat (n - 1))) by lia.
Qed.

Lemma range_app lo n k :
  0 ≤ n → 0 ≤ k → range lo (n + k) = range lo n ++ range (lo + n) k.
Proof.
  intros Hn Hk. unfold range. rewrite Z2Nat.inj_add by done.
  rewrite <- (Z2Nat.id n) at 3 by done. generalize (Z.to_nat n) as i. intros i.
  revert lo; induction i as [|i IH]; intros lo; cbn [count_up Nat.add app].
  - f_equal. lia.
  - rewrite IH. do 3 f_equal. lia.
Qed.

Lemma range_snoc lo n : 0 ≤ n → range lo (n + 1) = range lo n ++ [lo + n].
Proof. intros. by rewrite range_app by lia. Qed.

Lemma NoDup_range lo n : NoDup (range lo n).
Proof.
  unfold range. generalize (Z.to_nat n) as k. intros k. revert lo.
  induction k as [|k IH]; intros lo; cbn; constructor; [|apply IH].
  intros Hin. assert (lo ∈ range (lo + 1) (Z.of_nat k)) as Hin'.
  { unfold range. by rewrite Nat2Z.id. }
  rewrite elem_of_range in Hin'. lia.
Qed.

Lemma length_range lo n : length (range lo n) = Z.to_nat n.
Proof.
  unfold range. generalize (Z.to_nat n) as k. intros k. revert lo.
  induction k as [|k IH]; intros lo; cbn; [done|]. by rewrite IH.
Qed.

(** A set of integers inside an interval is no larger than the interval. *)
Lemma size_bounded (F : gset Z) lo n :
  0 ≤ n → (∀ p, p ∈ F → lo ≤ p < lo + n) → Z.of_nat (size F) ≤ n.
Proof.
  intros Hn HF. assert (F ⊆ list_to_set (range lo n)) as Hsub.
  { intros p Hp. rewrite elem_of_list_to_set, elem_of_range. by apply HF. }
  apply subseteq_size in Hsub.
  rewrite size_list_to_set, length_range in Hsub by apply NoDup_range. lia.
Qed.

(** A prefix of a counter range is the range up to the next value. *)
Lemma range_split lo n xs x ys :
  range lo n = xs ++ x :: ys →
  x = lo + Z.of_nat (length xs) ∧ lo ≤ x < lo + n ∧ xs = range lo (x - lo).
Proof.
  unfold range. intros Hk.
  assert (∀ k lo xs, count_up lo k = xs ++ x :: ys →
    x = lo + Z.of_nat (length xs) ∧ (length xs < k)%nat ∧
    xs = count_up lo (length xs)) as Hgen.
  { clear. intros k; induction k as [|k IH]; intros lo [|y xs]; cbn; try done.
    - intros [= -> _]. split_and!; [lia|lia|done].
    - intros [= <- Hk]. destruct (IH _ _ Hk) as (-> & ? & Hxs).
      split_and!; [lia|lia|by rewrite <- Hxs]. }
  destruct (Hgen _ _ _ Hk) as (-> & Hlt & Hxs). split_and!; [done|lia|lia|].
  by replace (Z.to_nat (lo + Z.of_nat (length xs) - lo)) with (length xs) by lia.
Qed.

(** A property of every value in a range, checked by evaluation. *)
Lemma range_forallb (f : Z → bool) lo n i :
  forallb f (range lo n) = true → lo ≤ i < lo + n → f i = true.
Proof.
  intros H Hi. rewrite List.forallb_forall in H. apply H, list_elem_of_In, elem_of_range. done.
Qed.

(** *** C strings *)
Lemma no_nul_cons c s : no_nul (c :: s) ↔ c ≠ 0 ∧ no_nul s.
Proof. apply Forall_cons_iff. Qed.

Lemma cstr_app s t : cstr (s ++ t) = (cstr s ++ cstr t)%list.
Proof. induction s as [|a s IH]; cbn; [done|]. by rewrite <- IH. Qed.

Lemma cstr_bytes s : Forall (λ c, 0 ≤ c < 256) (cstr s).
Proof.
  induction s as [|a s IH]; cbn; constructor; [|done].
  pose proof (Ascii.N_ascii_bounded a). lia.
Qed.
