(* ===== verification/CString.v ===== *)
(** * C strings

    The string routines the kernel's files carry: the bounded copy that
    [scheduler.cpp] and [vfs.cpp] share, [streql] and [strstarts].  A C string
    is a list of characters whose text ends at the first 0 or, when there is
    none, at the end of the list. *)
From stdpp Require Import base tactics strings numbers list.
From S2P Require Import Prelude.

Local Open Scope Z_scope.

(** The text of a C string: what precedes the terminator. *)
Fixpoint c_text (s : list Z) : list Z :=
  match s with
  | [] => []
  | c :: s => if c =? 0 then [] else c :: c_text s
  end.

(** ** Operations *)

(** [for (; i < max - 1 && src[i]; ++i) dst[i] = src[i]]; the result is [i]. *)
Fixpoint copy_loop (i max : Z) (src : list Z) : M (list Z) Z :=
  if i <? u64 (max - 1) then
    match src with
    | [] => mret i
    | c :: src =>
        if c =? 0 then mret i else
        arr_put i c ≫= λ _, copy_loop (i + 1) max src
    end
  else mret i.

(** The loop runs while both characters are nonzero; then the two are compared. *)
Fixpoint streql (a b : list Z) : bool :=
  match a, b with
  | x :: a', y :: b' =>
      if negb (x =? 0) && negb (y =? 0) then
        if negb (x =? y) then false else streql a' b'
      else x =? y
  | _, _ => chr a =? chr b
  end.

(** The loop runs until the prefix ends or a character differs. *)
Fixpoint strstarts (str pre : list Z) : bool :=
  match pre with
  | [] => true
  | y :: pre' =>
      if y =? 0 then true else
      if negb (chr str =? y) then false else strstarts (tail str) pre'
  end.

(** ** Numbers in text

    The value of a digit character (decimal or upper-case hexadecimal), and of a
    string of digits in base [b]. *)
Definition digit (c : Z) : Z := if c <=? 57 then c - 48 else c - 55.
Definition num_value (b : Z) (ds : list Z) : Z := foldl (λ n c, b * n + digit c) 0 ds.
(** * Lemmas *)

Lemma c_text_no_nul s : no_nul (c_text s).
Proof.
  induction s as [|c s IH]; cbn; [constructor|].
  destruct (Z.eqb_spec c 0); [constructor|]. by constructor.
Qed.

Lemma c_text_id s : no_nul s → c_text s = s.
Proof.
  induction 1 as [|c s Hc Hs IH]; cbn; [done|].
  destruct (Z.eqb_spec c 0); [done|]. by rewrite IH.
Qed.

Lemma c_text_app s t : no_nul s → c_text (s ++ 0 :: t) = s.
Proof.
  induction 1 as [|c s Hc Hs IH]; cbn; [done|].
  destruct (Z.eqb_spec c 0); [done|]. by rewrite IH.
Qed.

Lemma c_text_app_l s t : no_nul s → c_text (s ++ t) = s ++ c_text t.
Proof.
  induction 1 as [|c s Hc Hs IH]; cbn; [done|]. destruct (Z.eqb_spec c 0); [done|]. by rewrite IH.
Qed.

Lemma c_text_chr s : chr s = chr (c_text s).
Proof. destruct s as [|c s]; [done|]. cbn. by destruct (Z.eqb_spec c 0). Qed.

(** The characters the bounded copy takes. *)
Definition copied (max : Z) (src : list Z) : list Z := take (Z.to_nat (max - 1)) (c_text src).

Lemma copied_no_nul max src : no_nul (copied max src).
Proof. apply Forall_take, c_text_no_nul. Qed.

Lemma copied_length max src : 1 ≤ max → Z.of_nat (length (copied max src)) ≤ max - 1.
Proof. intros. unfold copied. rewrite length_take. lia. Qed.

(** The loop from index [i]: it overwrites as many characters as fit. *)
Lemma copy_loop_eq max src : 1 ≤ max < 2 ^ 64 → ∀ pre rest,
  Z.of_nat (length pre + length rest) = max →
  let txt := take (Z.to_nat (max - 1) - length pre) (c_text src) in
  copy_loop (Z.of_nat (length pre)) max src (pre ++ rest) =
  Ok (Z.of_nat (length pre + length txt), pre ++ txt ++ drop (length txt) rest).
Proof.
  intros Hmax. induction src as [|c src IH]; intros pre rest Hlen txt; unfold txt; cbn [copy_loop];
    rewrite (u64_small (max - 1)) by lia;
    destruct (Z.ltb_spec (Z.of_nat (length pre)) (max - 1)) as [Hlt|Hge].
  - cbn. rewrite take_nil. cbn. by rewrite Nat.add_0_r.
  - cbn. rewrite take_nil. cbn. by rewrite Nat.add_0_r.
  - cbn [c_text]. destruct (Z.eqb_spec c 0) as [->|Hc].
    { rewrite take_nil. cbn. by rewrite Nat.add_0_r. }
    destruct rest as [|d rest]; [cbn [length] in Hlen; lia|].
    rewrite (bind_ok _ _ _ () (pre ++ c :: rest)).
    2:{ rewrite arr_put_ok by (rewrite length_app; cbn [length]; lia).
        rewrite Nat2Z.id. rewrite insert_app_r_alt by lia. by rewrite Nat.sub_diag. }
    specialize (IH (pre ++ [c]) rest). rewrite length_app in IH. cbn [length] in IH, Hlen.
    rewrite <- app_assoc in IH. cbn [app] in IH.
    replace (Z.of_nat (length pre) + 1) with (Z.of_nat (length pre + 1)) by lia.
    rewrite IH by lia.
    replace (Z.to_nat (max - 1) - length pre)%nat
      with (S (Z.to_nat (max - 1) - (length pre + 1))) by lia.
    cbn [take length drop app]. rewrite <- app_assoc. cbn [app]. do 3 f_equal. lia.
  - replace (Z.to_nat (max - 1) - length pre)%nat with 0%nat by lia.
    cbn. by rewrite Nat.add_0_r.
Qed.

(** The whole copy: the text that fits, a terminator, and the rest of the
    destination as it was. *)
Definition copy_result (max : Z) (src dst : list Z) : list Z :=
  copied max src ++ 0 :: drop (S (length (copied max src))) dst.

Lemma copy_str_ok max src dst :
  1 ≤ max < 2 ^ 64 → Z.of_nat (length dst) = max →
  (i ← copy_loop 0 max src; arr_put i 0) dst = Ok ((), copy_result max src dst).
Proof.
  intros Hmax Hlen. pose proof (copy_loop_eq max src Hmax [] dst Hlen) as H.
  cbn [length app] in H. rewrite Nat.sub_0_r in H. fold (copied max src) in H.
  rewrite (bind_ok _ _ _ _ _ H).
  pose proof (copied_length max src ltac:(lia)) as Hc.
  rewrite arr_put_ok by (rewrite length_app, length_drop; lia).
  unfold copy_result. rewrite Nat2Z.id. cbn [Nat.add].
  rewrite insert_app_r_alt by lia. rewrite Nat.sub_diag.
  destruct (drop (length (copied max src)) dst) as [|d r] eqn:Hd.
  { apply (f_equal length) in Hd. rewrite length_drop in Hd. cbn in Hd. lia. }
  cbn. do 3 f_equal. replace (S (length (copied max src))) with (length (copied max src) + 1)%nat by lia.
  rewrite <- drop_drop, Hd. done.
Qed.

Lemma copy_result_length max src dst :
  1 ≤ max → Z.of_nat (length dst) = max → length (copy_result max src dst) = length dst.
Proof.
  intros Hmax Hlen. pose proof (copied_length max src Hmax).
  unfold copy_result. rewrite length_app. cbn [length]. rewrite length_drop. lia.
Qed.

Lemma copy_result_text max src dst : c_text (copy_result max src dst) = copied max src.
Proof. apply c_text_app, copied_no_nul. Qed.

(** [streql] compares texts. *)
Lemma streql_spec a b : streql a b = bool_decide (c_text a = c_text b).
Proof.
  revert b; induction a as [|x a IH]; intros b.
  - cbn. destruct b as [|y b]; [done|]. cbn.
    destruct y; done.
  - destruct b as [|y b]; cbn [streql c_text].
    { cbn. destruct (Z.eqb_spec x 0); [by subst|]. done. }
    destruct (Z.eqb_spec x 0) as [->|Hx], (Z.eqb_spec y 0) as [->|Hy]; cbn.
    + done.
    + destruct y; done.
    + destruct x; done.
    + destruct (Z.eqb_spec x y) as [->|Hxy]; cbn.
      * rewrite IH. apply bool_decide_ext. split; [by intros ->|by intros [=]].
      * rewrite bool_decide_eq_false_2; [done|]. by intros [=].
Qed.

(** [strstarts] tests for a prefix of the text. *)
Lemma strstarts_spec s p : strstarts s p = bool_decide (c_text p `prefix_of` c_text s).
Proof.
  revert s; induction p as [|y p IH]; intros s; cbn [strstarts c_text].
  { symmetry. apply bool_decide_eq_true_2, prefix_nil. }
  destruct (Z.eqb_spec y 0) as [->|Hy].
  { symmetry. apply bool_decide_eq_true_2, prefix_nil. }
  destruct s as [|x s]; cbn [chr head default tail c_text].
  - destruct (Z.eqb_spec 0 y); [lia|]. cbn. symmetry.
    apply bool_decide_eq_false_2. apply prefix_nil_not.
  - destruct (Z.eqb_spec x y) as [->|Hxy]; cbn.
    + rewrite IH, Z.eqb_refl. destruct (Z.eqb_spec y 0); [done|]. cbn.
      apply bool_decide_ext. split; [apply prefix_cons|apply prefix_cons_inv_2].
    + destruct (Z.eqb_spec x y); [done|]. cbn.
      symmetry. apply bool_decide_eq_false_2. destruct (Z.eqb_spec x 0).
      * apply prefix_nil_not.
      * intros H%prefix_cons_inv_1. congruence.
Qed.

Lemma num_value_snoc b ds c : num_value b (ds ++ [c]) = b * num_value b ds + digit c.
Proof. unfold num_value. by rewrite foldl_app. Qed.
