(* ===== verification/Digits.v ===== *)
(** * Numbers as text

    The digit buffers of the decimal and hexadecimal formatters of
    [drivers/framebuffer.cpp] and [arch/x86_64/idt.cpp], with the decimal
    representation they are compared to. *)
From stdpp Require Import base tactics strings pretty numbers list.
From S2P Require Import Prelude CString.

Local Open Scope Z_scope.
Local Open Scope nova_scope.

(** ** Operations *)

(** Run on a local buffer; the result is what it holds in the end. *)
Definition on_local {S A : Type} (buf : list Z) (m : M (list Z) A) : M S (list Z) := λ s,
  match m buf with
  | Ok (_, buf) => Ok (buf, s)
  | Fault => Fault
  | NoFuel => NoFuel
  end.

Definition HEXDIGITS : list Z := cstr "0123456789ABCDEF".
Definition hex_digit (v : Z) : Z := default 0 (HEXDIGITS !! Z.to_nat (v &&& 0xF)).

(** [buf[i] = hex[v & 0xF]; v >>= 4;] for the indices given. *)
Fixpoint hex_loop (idx : list Z) (v : Z) : M (list Z) unit :=
  match idx with
  | [] => mret tt
  | i :: idx => arr_put i (hex_digit v) ≫= λ _, hex_loop idx (v ≫ 4)
  end.

(** [while (v) { buf[i++] = '0' + v % 10; v /= 10; }]; the result is [i]. *)
Fixpoint dec_loop (fuel : nat) (i v : Z) : M (list Z) Z :=
  if v =? 0 then mret i else
  match fuel with
  | O => nofuel
  | S fuel => arr_put i (48 + v `mod` 10) ≫= λ _, dec_loop fuel (i + 1) (v / 10)
  end.

(** [for (; j < k; ++j, --k)], swapping [buf[j]] and [buf[k]]. *)
Fixpoint swap_loop (fuel : nat) (j k : Z) : M (list Z) unit :=
  if j <? k then
    match fuel with
    | O => nofuel
    | S fuel =>
        t ← arr_get j;
        b ← arr_get k;
        arr_put j b ≫= λ _, arr_put k t ≫= λ _, swap_loop fuel (j + 1) (k - 1)
    end
  else mret tt.

(** A 64-bit value has at most 20 digits. *)
Definition DEC_FUEL : nat := 20.

Definition dec_buffer (v : Z) : M (list Z) unit :=
  i ← dec_loop DEC_FUEL 0 v;
  swap_loop DEC_FUEL 0 (i - 1) ≫= λ _, arr_put i 0.

(** ** Specification *)

(** The decimal representation of a number. *)
Definition decimal (v : Z) : list Z := cstr (pretty (Z.to_N v)).

Definition dec_digit (c : Z) : Prop := 48 ≤ c ≤ 57.

(** The [n] lowest hexadecimal digits of a word, the highest first. *)
Fixpoint hex_text (n : nat) (v : Z) : list Z :=
  match n with O => [] | S n => hex_text n (v ≫ 4) ++ [hex_digit v] end.

(** * Lemmas *)

(** *** Hexadecimal *)

Lemma hex_digit_byte v : 0 < hex_digit v < 256 ∧ hex_digit v ≠ 9.
Proof.
  unfold hex_digit. change 0xF with (Z.ones 4). rewrite Z.land_ones by lia.
  pose proof (Z.mod_pos_bound v (2 ^ 4) ltac:(lia)) as Hr. revert Hr.
  generalize (v `mod` 2 ^ 4). intros d Hd.
  pose proof (range_forallb (λ d, let h := default 0 (HEXDIGITS !! Z.to_nat d) in
    (0 <? h) && (h <? 256) && negb (h =? 9)) 0 16 d eq_refl ltac:(lia)) as H.
  cbv beta zeta in H. apply andb_true_iff in H as [H1 H2]. apply andb_true_iff in H1 as [H0 H1].
  apply negb_true_iff, Z.eqb_neq in H2. lia.
Qed.

Lemma digit_hex v : digit (hex_digit v) = v `mod` 16.
Proof.
  unfold hex_digit. change 0xF with (Z.ones 4). rewrite Z.land_ones by lia. change (2 ^ 4) with 16.
  pose proof (Z.mod_pos_bound v 16 ltac:(lia)) as Hr. revert Hr.
  generalize (v `mod` 16). intros d Hd.
  pose proof (range_forallb (λ d, digit (default 0 (HEXDIGITS !! Z.to_nat d)) =? d) 0 16 d
    eq_refl ltac:(lia)) as H. by apply Z.eqb_eq.
Qed.

Lemma hex_text_length n v : length (hex_text n v) = n.
Proof. revert v; induction n as [|n IH]; intros v; cbn; [done|]. rewrite length_app, IH. cbn. lia. Qed.

Lemma hex_text_value n v : 0 ≤ v → num_value 16 (hex_text n v) = v `mod` 16 ^ Z.of_nat n.
Proof.
  revert v; induction n as [|n IH]; intros v Hv; cbn [hex_text].
  { cbn. by rewrite Z.mod_1_r. }
  rewrite num_value_snoc, IH, digit_hex by (apply Z.shiftr_nonneg; lia).
  rewrite Z.shiftr_div_pow2 by lia. change (2 ^ 4) with 16.
  rewrite Nat2Z.inj_succ, Z.pow_succ_r by lia.
  rewrite (Z.rem_mul_r v 16) by lia. lia.
Qed.

Lemma hex_digits_all (P : Z → Prop) n v : (∀ v, P (hex_digit v)) → Forall P (hex_text n v).
Proof.
  intros HP. revert v; induction n as [|n IH]; intros v; cbn [hex_text]; [constructor|].
  apply Forall_app. split; [apply IH|]. by repeat constructor.
Qed.

Lemma hex_text_no_nul n v : no_nul (hex_text n v).
Proof. apply hex_digits_all. intros w. pose proof (hex_digit_byte w). lia. Qed.

(** *** Decimal *)

(** The digits, the lowest first. *)
Fixpoint low_digits (fuel : nat) (v : Z) : list Z :=
  match fuel with
  | O => []
  | S fuel => if v =? 0 then [] else 48 + v `mod` 10 :: low_digits fuel (v / 10)
  end.

(** The step of all three: a positive number below [10 ^ S fuel]. *)
Lemma dec_step fuel v : 0 ≤ v < 10 ^ Z.of_nat (S fuel) →
  0 ≤ v / 10 < 10 ^ Z.of_nat fuel ∧ 0 ≤ v `mod` 10 < 10.
Proof.
  rewrite Nat2Z.inj_succ, Z.pow_succ_r by lia. intros Hv.
  split; [|apply Z.mod_pos_bound; lia]. split; [apply Z.div_pos; lia|apply Z.div_lt_upper_bound; lia].
Qed.

Lemma low_digits_ok fuel v : 0 ≤ v < 10 ^ Z.of_nat fuel →
  Forall dec_digit (low_digits fuel v) ∧ num_value 10 (reverse (low_digits fuel v)) = v ∧
  (length (low_digits fuel v) ≤ fuel)%nat ∧
  (v ≠ 0 → ∃ c r, reverse (low_digits fuel v) = c :: r ∧ c ≠ 48).
Proof.
  revert v; induction fuel as [|fuel IH]; intros v Hv; cbn [low_digits].
  { change (10 ^ Z.of_nat 0) with 1 in Hv. assert (v = 0) as -> by lia. by split_and!. }
  destruct (Z.eqb_spec v 0) as [->|Hne]; [split_and!; [constructor|done|cbn; lia|done]|].
  destruct (dec_step fuel v Hv) as [Hq Hm]. destruct (IH _ Hq) as (Hd & Hval & Hlen & Hlead).
  rewrite reverse_cons. split; [|split; [|split]].
  - apply List.Forall_cons; [unfold dec_digit; lia|done].
  - rewrite num_value_snoc, Hval. unfold digit.
    destruct (Z.leb_spec (48 + v `mod` 10) 57); [|lia]. Z.div_mod_to_equations. lia.
  - cbn. lia.
  - intros _. destruct (decide (v / 10 = 0)) as [Hz|Hz].
    + rewrite Hz. exists (48 + v `mod` 10), []. split; [by destruct fuel|].
      Z.div_mod_to_equations. lia.
    + destruct (Hlead Hz) as (c & r & -> & Hc). by exists c, (r ++ [48 + v `mod` 10]).
Qed.

Lemma pretty_char d : 0 ≤ d < 10 → cstr (String (pretty_N_char (Z.to_N d)) EmptyString) = [48 + d].
Proof.
  intros Hd. pose proof (range_forallb (λ d,
    bool_decide (cstr (String (pretty_N_char (Z.to_N d)) EmptyString) = [48 + d])) 0 10 d eq_refl Hd) as H.
  by apply bool_decide_eq_true in H.
Qed.

Lemma low_digits_pretty fuel v s : 0 ≤ v < 10 ^ Z.of_nat fuel →
  cstr (pretty_N_go (Z.to_N v) s) = reverse (low_digits fuel v) ++ cstr s.
Proof.
  revert v s; induction fuel as [|fuel IH]; intros v s Hv; cbn [low_digits].
  { change (10 ^ Z.of_nat 0) with 1 in Hv. by assert (v = 0) as -> by lia. }
  destruct (Z.eqb_spec v 0) as [->|Hne]; [done|].
  destruct (dec_step fuel v Hv) as [Hq Hm]. rewrite pretty_N_go_step by lia.
  replace (Z.to_N v `div` 10)%N with (Z.to_N (v / 10)) by (rewrite Z2N.inj_div by lia; done).
  replace (Z.to_N v `mod` 10)%N with (Z.to_N (v `mod` 10)) by (rewrite Z2N.inj_mod by lia; done).
  rewrite IH by done. rewrite reverse_cons, <- app_assoc. f_equal.
  change (String ?c s) with (String c EmptyString +:+ s). by rewrite cstr_app, pretty_char.
Qed.

Lemma decimal_low v : 0 < v < 10 ^ Z.of_nat DEC_FUEL → decimal v = reverse (low_digits DEC_FUEL v).
Proof.
  intros Hv. unfold decimal, pretty, pretty_N. rewrite decide_False by lia.
  rewrite (low_digits_pretty DEC_FUEL) by lia. apply app_nil_r.
Qed.

Lemma DEC_FUEL_enough v : v < 2 ^ 64 → v < 10 ^ Z.of_nat DEC_FUEL.
Proof. change (10 ^ Z.of_nat DEC_FUEL) with 100000000000000000000. lia. Qed.

(** The representation denotes the number, without a leading zero. *)
Lemma decimal_ok v : 0 ≤ v < 2 ^ 64 →
  Forall dec_digit (decimal v) ∧ num_value 10 (decimal v) = v ∧
  1 ≤ Z.of_nat (length (decimal v)) ≤ 20 ∧ (v ≠ 0 → head (decimal v) ≠ Some 48).
Proof.
  intros Hv. destruct (decide (v = 0)) as [->|Hne].
  { split; [by repeat constructor|]. split; [done|]. split; [change (length (decimal 0)) with 1%nat; lia|done]. }
  assert (0 < v < 10 ^ Z.of_nat DEC_FUEL) as Hr by (split; [lia|apply DEC_FUEL_enough; lia]).
  rewrite (decimal_low v Hr).
  destruct (low_digits_ok DEC_FUEL v ltac:(lia)) as (Hd & Hval & Hlen & Hlead).
  destruct (Hlead Hne) as (c & r & He & Hc). split; [by apply Forall_reverse|]. split; [done|].
  rewrite He in *. split; [|by intros _ [=]].
  rewrite <- (length_reverse (low_digits _ _)), He in Hlen. unfold DEC_FUEL in Hlen. cbn in *. lia.
Qed.

(** *** The buffer *)

Lemma dec_loop_run fuel : ∀ v pre rest, 0 ≤ v < 10 ^ Z.of_nat fuel → (fuel ≤ length rest)%nat →
  dec_loop fuel (Z.of_nat (length pre)) v (pre ++ rest) =
  Ok (Z.of_nat (length (pre ++ low_digits fuel v)),
      pre ++ low_digits fuel v ++ drop (length (low_digits fuel v)) rest).
Proof.
  induction fuel as [|fuel IH]; intros v pre rest Hv Hlen; cbn [dec_loop low_digits].
  { change (10 ^ Z.of_nat 0) with 1 in Hv. assert (v = 0) as -> by lia. by rewrite app_nil_r. }
  destruct (Z.eqb_spec v 0) as [->|Hne]; [by rewrite app_nil_r|].
  destruct rest as [|x rest]; [cbn in Hlen; lia|]. set (c := 48 + v `mod` 10).
  rewrite (bind_ok _ _ _ () ((pre ++ [c]) ++ rest)).
  2:{ rewrite arr_put_ok by (rewrite length_app; cbn; lia). rewrite Nat2Z.id.
      rewrite insert_app_r_alt, Nat.sub_diag by lia. by rewrite <- app_assoc. }
  replace (Z.of_nat (length pre) + 1) with (Z.of_nat (length (pre ++ [c])))
    by (rewrite length_app; cbn; lia).
  cbn in Hlen. rewrite IH by (lia || by apply dec_step). by rewrite <- !app_assoc.
Qed.

(** Reversing a segment in place. *)
Lemma swap_loop_run fuel : ∀ pre mid rest, (length mid ≤ 2 * fuel + 1)%nat →
  swap_loop fuel (Z.of_nat (length pre)) (Z.of_nat (length (pre ++ mid)) - 1) (pre ++ mid ++ rest) =
  Ok ((), pre ++ reverse mid ++ rest).
Proof.
  induction fuel as [|fuel IH]; intros pre mid rest Hlen; cbn [swap_loop]; rewrite length_app.
  { destruct (Z.ltb_spec (Z.of_nat (length pre)) (Z.of_nat (length pre + length mid) - 1)); [lia|].
    destruct mid as [|x [|y mid]]; [done|done|cbn in Hlen; lia]. }
  destruct (Z.ltb_spec (Z.of_nat (length pre)) (Z.of_nat (length pre + length mid) - 1)) as [Hlt|Hge].
  2:{ destruct mid as [|x [|y mid]]; [done|done|cbn in Hge; lia]. }
  destruct mid as [|x mid]; [cbn in Hlt; lia|].
  destruct mid as [|y mid _] using rev_ind; [cbn in Hlt; lia|].
  cbn [length] in *. rewrite length_app in *. cbn [length] in *.
  rewrite (bind_ok _ _ _ x (pre ++ (x :: mid ++ [y]) ++ rest)).
  2:{ apply arr_get_ok; [lia|]. rewrite Nat2Z.id. by rewrite lookup_app_r, Nat.sub_diag by lia. }
  replace (Z.of_nat (length pre + S (length mid + 1)) - 1)
    with (Z.of_nat (length (pre ++ x :: mid))) by (rewrite length_app; cbn; lia).
  replace (pre ++ (x :: mid ++ [y]) ++ rest) with ((pre ++ x :: mid) ++ y :: rest)
    by (by rewrite <- !app_assoc; cbn; rewrite <- app_assoc).
  rewrite (bind_ok _ _ _ y ((pre ++ x :: mid) ++ y :: rest)).
  2:{ apply arr_get_ok; [lia|]. rewrite Nat2Z.id. by rewrite lookup_app_r, Nat.sub_diag by lia. }
  rewrite (bind_ok _ _ _ () ((pre ++ y :: mid) ++ y :: rest)).
  2:{ rewrite arr_put_ok by (rewrite !length_app; cbn; lia). rewrite Nat2Z.id, <- !app_assoc.
      by rewrite insert_app_r_alt, Nat.sub_diag by lia. }
  rewrite (bind_ok _ _ _ () ((pre ++ y :: mid) ++ x :: rest)).
  2:{ rewrite arr_put_ok by (rewrite !length_app; cbn; lia). rewrite Nat2Z.id.
      rewrite insert_app_r_alt by (rewrite !length_app; cbn; lia).
      by rewrite !length_app, Nat.sub_diag. }
  replace ((pre ++ y :: mid) ++ x :: rest) with ((pre ++ [y]) ++ mid ++ x :: rest)
    by (by rewrite <- !app_assoc).
  replace (Z.of_nat (length pre) + 1) with (Z.of_nat (length (pre ++ [y])))
    by (rewrite length_app; cbn; lia).
  replace (Z.of_nat (length (pre ++ x :: mid)) - 1) with (Z.of_nat (length ((pre ++ [y]) ++ mid)) - 1)
    by (rewrite !length_app; cbn; lia).
  rewrite IH by lia. rewrite reverse_cons, reverse_snoc, <- !app_assoc. done.
Qed.

(** The text the formatter leaves in its buffer of 21 characters. *)
Lemma dec_buffer_ok v buf : 0 < v < 2 ^ 64 → length buf = 21%nat →
  ∃ rest, dec_buffer v buf = Ok ((), decimal v ++ 0 :: rest).
Proof.
  intros Hv Hb. assert (0 < v < 10 ^ Z.of_nat DEC_FUEL) as Hr by (split; [lia|apply DEC_FUEL_enough; lia]).
  destruct (low_digits_ok DEC_FUEL v ltac:(lia)) as (_ & _ & Hlen & _).
  unfold dec_buffer. pose proof (dec_loop_run DEC_FUEL v [] buf) as E. cbn [app length] in E.
  rewrite (bind_ok _ _ _ _ _ (E ltac:(lia) ltac:(unfold DEC_FUEL; lia))). clear E.
  set (ds := low_digits DEC_FUEL v) in *.
  pose proof (swap_loop_run DEC_FUEL [] ds (drop (length ds) buf) ltac:(lia)) as E. cbn [app length] in E.
  rewrite (bind_ok _ _ _ _ _ E). rewrite (decimal_low v Hr). fold ds.
  destruct (drop (length ds) buf) as [|x rest] eqn:Hd.
  { apply (f_equal length) in Hd. rewrite length_drop, Hb in Hd. unfold DEC_FUEL in Hlen. cbn [length] in Hd. lia. }
  exists rest. rewrite arr_put_ok by (rewrite length_app, length_reverse; cbn; lia).
  rewrite Nat2Z.id, insert_app_r_alt, length_reverse, Nat.sub_diag by (rewrite length_reverse; lia). done.
Qed.
