(* ===== verification/Memory.v ===== *)
(** * The kernel's view of memory

    Byte-addressed virtual memory: [m !! a] is the byte mapped at address [a],
    and [None] means that no page is mapped there, so that an access faults.
    Loads and stores are little-endian, as on x86-64.  The heap keeps its block
    headers in this memory, and the scheduler its task stacks. *)
From stdpp Require Import base tactics list gmap numbers.
From S2P Require Import Prelude.

Local Open Scope Z_scope.

Abbreviation mem := (gmap Z Z).

Fixpoint load (n : nat) (a : Z) (m : mem) : option Z :=
  match n with
  | O => Some 0
  | S n => b ← m !! a; r ← load n (a + 1) m; Some (b + 256 * r)
  end.

Fixpoint store (n : nat) (a v : Z) (m : mem) : option mem :=
  match n with
  | O => Some m
  | S n =>
      match m !! a with
      | Some _ => store n (a + 1) (v / 256) (<[a := v mod 256]> m)
      | None => None
      end
  end.

(** The same, as faulting computations on a memory. *)
Definition ld (n : nat) (a : Z) : M mem Z := λ m, of_option (load n a m) m.
Definition st (n : nat) (a v : Z) : M mem unit := λ m,
  match store n a v m with Some m' => Ok ((), m') | None => Fault end.

(** Every byte of [a, a+n) is mapped. *)
Definition mapped (a n : Z) (m : mem) : Prop :=
  ∀ b, a ≤ b < a + n → is_Some (m !! b).

(** The two memories hold the same bytes on [a, a+n). *)
Definition same_bytes (a n : Z) (m m' : mem) : Prop :=
  ∀ b, a ≤ b < a + n → m' !! b = m !! b.

(** The two memories map the same addresses. *)
Definition same_dom (m m' : mem) : Prop :=
  ∀ b, is_Some (m' !! b) ↔ is_Some (m !! b).

(** Two byte ranges that do not overlap. *)
Definition disjoint (a n b k : Z) : Prop := a + n ≤ b ∨ b + k ≤ a.

(** [n] bytes of value [v] mapped from address [a]: a concrete memory. *)
Definition fill (a : Z) (n : Z) (v : Z) : mem :=
  foldr (λ b m, <[b := v]> m) ∅ (range a n).

(** * Lemmas *)

Lemma same_bytes_refl a n m : same_bytes a n m m.
Proof. by intros b. Qed.
Lemma same_bytes_trans a n m1 m2 m3 :
  same_bytes a n m1 m2 → same_bytes a n m2 m3 → same_bytes a n m1 m3.
Proof. intros H1 H2 b Hb. rewrite (H2 b Hb). by apply H1. Qed.
Lemma same_dom_refl m : same_dom m m.
Proof. by intros b. Qed.
Lemma same_dom_trans m1 m2 m3 : same_dom m1 m2 → same_dom m2 m3 → same_dom m1 m3.
Proof. intros H1 H2 b. rewrite (H2 b). apply H1. Qed.

Lemma mapped_same_dom a n m m' : same_dom m m' → mapped a n m → mapped a n m'.
Proof. intros Hd Hm b Hb. apply Hd. by apply Hm. Qed.

Lemma mapped_sub a n b k m : mapped a n m → a ≤ b → b + k ≤ a + n → mapped b k m.
Proof. intros Hm ?? c Hc. apply Hm. lia. Qed.

Lemma load_ext n a m m' :
  same_bytes a (Z.of_nat n) m m' → load n a m' = load n a m.
Proof.
  revert a; induction n as [|n IH]; intros a H; [done|]. cbn.
  rewrite (H a) by lia. rewrite IH; [done|]. intros b Hb. apply H. lia.
Qed.

Lemma load_mapped n a m : mapped a (Z.of_nat n) m → is_Some (load n a m).
Proof.
  revert a; induction n as [|n IH]; intros a H; cbn; [eauto|].
  destruct (H a) as [b ->]; [lia|]. cbn.
  destruct (IH (a + 1)) as [r ->]; [|cbn; eauto]. intros c Hc. apply H. lia.
Qed.

Lemma store_mapped n a v m :
  mapped a (Z.of_nat n) m → ∃ m', store n a v m = Some m'.
Proof.
  revert a v m; induction n as [|n IH]; intros a v m H; cbn; [eauto|].
  destruct (H a) as [b Hb]; [lia|]. rewrite Hb. apply IH. intros c Hc.
  rewrite lookup_insert_ne by lia. apply H. lia.
Qed.

Lemma store_frame n a v m m' b k :
  store n a v m = Some m' → disjoint a (Z.of_nat n) b k → same_bytes b k m m'.
Proof.
  revert a v m; induction n as [|n IH]; cbn; intros a v m Hst Hd c Hc.
  { by simplify_eq. }
  destruct (m !! a) eqn:Ha; [|done].
  assert (c ≠ a) by (destruct Hd; lia).
  erewrite (IH _ _ _ Hst); [by rewrite lookup_insert_ne by lia| |done].
  destruct Hd; [left|right]; lia.
Qed.

Lemma store_dom n a v m m' : store n a v m = Some m' → same_dom m m'.
Proof.
  revert a v m; induction n as [|n IH]; cbn; intros a v m Hst b.
  { by simplify_eq. }
  destruct (m !! a) as [x|] eqn:Ha; [|done].
  rewrite (IH _ _ _ Hst b). destruct (decide (a = b)) as [->|].
  - rewrite lookup_insert_eq, Ha. split; eauto.
  - by rewrite lookup_insert_ne.
Qed.

Lemma load_store n a v m m' :
  store n a v m = Some m' → load n a m' = Some (v mod 256 ^ Z.of_nat n).
Proof.
  revert a v m; induction n as [|n IH]; cbn [store load]; intros a v m Hst.
  { by rewrite Z.mod_1_r. }
  destruct (m !! a) eqn:Ha; [|done].
  assert (m' !! a = Some (v mod 256)) as ->.
  { erewrite (store_frame _ _ _ _ _ a 1 Hst); [apply lookup_insert_eq|right|]; lia. }
  rewrite (IH _ _ _ Hst). cbn. f_equal.
  rewrite Nat2Z.inj_succ, Z.pow_succ_r by lia.
  rewrite (Z.rem_mul_r v 256) by lia. lia.
Qed.

Lemma st_ok n a v m :
  mapped a (Z.of_nat n) m →
  ∃ m', st n a v m = Ok ((), m') ∧ load n a m' = Some (v mod 256 ^ Z.of_nat n) ∧
    same_dom m m' ∧
    ∀ b k, disjoint a (Z.of_nat n) b k → same_bytes b k m m'.
Proof.
  intros H. destruct (store_mapped n a v m H) as [m' Hm]. exists m'.
  unfold st. rewrite Hm. split_and!;
    eauto using load_store, store_dom, store_frame.
Qed.

Lemma ld_ok n a m v : load n a m = Some v → ld n a m = Ok (v, m).
Proof. unfold ld. by intros ->. Qed.

Lemma load_range n a m v :
  (∀ b x, m !! b = Some x → 0 ≤ x < 256) → load n a m = Some v →
  0 ≤ v < 256 ^ Z.of_nat n.
Proof.
  intros Hm. revert a v; induction n as [|n IH]; cbn [load]; intros a v Hl.
  { simplify_eq. lia. }
  destruct (m !! a) as [b|] eqn:Hb; [|done]. cbn in Hl.
  destruct (load n (a + 1) m) as [r|] eqn:Hr; [|done]. cbn in Hl. simplify_eq.
  apply Hm in Hb. apply IH in Hr.
  rewrite Nat2Z.inj_succ, Z.pow_succ_r by lia. lia.
Qed.

Lemma fill_lookup a n v b :
  fill a n v !! b = if decide (a ≤ b < a + n) then Some v else None.
Proof.
  unfold fill.
  assert (∀ l, foldr (λ b m, <[b:=v]> m) (∅ : mem) l !! b
               = if decide (b ∈ l) then Some v else None) as ->.
  { intros l; induction l as [|c l IH]; cbn [foldr].
    - rewrite lookup_empty. case_decide as Hin; [by apply elem_of_nil in Hin|done].
    - destruct (decide (c = b)) as [->|].
      + rewrite lookup_insert_eq, decide_True by set_solver. done.
      + rewrite lookup_insert_ne, IH by done. apply decide_ext. set_solver. }
  apply decide_ext. rewrite elem_of_range. lia.
Qed.

Lemma fill_mapped a n v : mapped a n (fill a n v).
Proof. intros b Hb. rewrite fill_lookup. case_decide; [eauto|lia]. Qed.
