(* ===== verification/Layout.v ===== *)
(** * C structures in memory

    How the compiler lays out a [struct] on x86-64, and the access to a field
    through a pointer: a load of the field's width at its offset. *)
From stdpp Require Import base tactics strings gmap numbers list.
From S2P Require Import Prelude Memory.

Local Open Scope Z_scope.

(** ** Layout *)

(** [Nested n a] is a structure of [n] bytes at a multiple of [a]. *)
Inductive ctype := U8 | U16 | U32 | U64 | I64 | Ptr | Arr (n : Z) (t : ctype) | Nested (n a : Z).

Fixpoint csize (t : ctype) : Z :=
  match t with
  | U8 => 1 | U16 => 2 | U32 => 4 | U64 | I64 | Ptr => 8
  | Arr n t => n * csize t
  | Nested n _ => n
  end.

(** Natural alignment, or none for [__attribute__((packed))]. *)
Fixpoint calign (packed : bool) (t : ctype) : Z :=
  if packed then 1 else
  match t with
  | U8 => 1 | U16 => 2 | U32 => 4 | U64 | I64 | Ptr => 8
  | Arr _ t => calign packed t
  | Nested _ a => Z.max 1 a
  end.

Record cstruct := Struct { st_packed : bool; st_fields : list (string * ctype) }.

Definition round_up (a n : Z) : Z := (n + a - 1) / a * a.

(** The fields from offset [off] on, with their offsets and sizes, and the first
    offset behind them. *)
Fixpoint place (packed : bool) (off : Z) (fs : list (string * ctype)) : list (string * (Z * Z)) * Z :=
  match fs with
  | [] => ([], off)
  | (f, t) :: fs =>
      let o := round_up (calign packed t) off in
      let '(l, last) := place packed (o + csize t) fs in ((f, (o, csize t)) :: l, last)
  end.

Definition fields (s : cstruct) : list (string * (Z * Z)) := (place (st_packed s) 0 (st_fields s)).1.
Definition salign (s : cstruct) : Z :=
  foldr (λ ft a, Z.max (calign (st_packed s) ft.2) a) 1 (st_fields s).
Definition sizeof (s : cstruct) : Z :=
  round_up (salign s) (place (st_packed s) 0 (st_fields s)).2.

(** A structure as a field. *)
Definition sub (s : cstruct) : ctype := Nested (sizeof s) (salign s).

Definition field_at (s : cstruct) (f : string) : option (Z * Z) :=
  snd ∘ snd <$> list_find (λ x, x.1 = f) (fields s).
Definition offset_of (s : cstruct) (f : string) : option Z := fst <$> field_at s f.

(** ** Access *)

(** [p->f]. *)
Definition get_field (s : cstruct) (p : Z) (f : string) : M mem Z :=
  match field_at s f with Some (o, n) => ld (Z.to_nat n) (p + o) | None => fault end.

(** An array of 64-bit words, or of pointers. *)
Definition words_at (p : Z) (ws : list Z) (m : mem) : Prop :=
  ∀ i w, ws !! i = Some w → load 8 (p + 8 * Z.of_nat i) m = Some w.

(** The field reads as [v]. *)
Definition field_is (s : cstruct) (p : Z) (f : string) (v : Z) (m : mem) : Prop :=
  get_field s p f m = Ok (v, m).

(** * Lemmas *)

Lemma get_field_ok s p f o n v m :
  field_at s f = Some (o, n) → load (Z.to_nat n) (p + o) m = Some v →
  get_field s p f m = Ok (v, m).
Proof. intros Hf Hl. unfold get_field. rewrite Hf. by apply ld_ok. Qed.

Lemma words_app p ws ws' m :
  words_at p (ws ++ ws') m ↔ words_at p ws m ∧ words_at (p + 8 * Z.of_nat (length ws)) ws' m.
Proof.
  split.
  - intros H. split; intros i w Hi.
    + apply H. by apply lookup_app_l_Some.
    + replace (p + 8 * Z.of_nat (length ws) + 8 * Z.of_nat i)
        with (p + 8 * Z.of_nat (length ws + i)) by lia.
      apply H. rewrite lookup_app_r by lia. by replace (length ws + i - length ws)%nat with i by lia.
  - intros [H H'] i w [Hi|[Hl Hi]]%lookup_app_Some; [by apply H|].
    apply H' in Hi. rewrite <- Hi. f_equal. lia.
Qed.

Lemma words_nil p m : words_at p [] m.
Proof. by intros i w. Qed.

Lemma words_cons p w ws m : load 8 p m = Some w → words_at (p + 8) ws m → words_at p (w :: ws) m.
Proof.
  intros Hw Hws [|i] v Hi; cbn in Hi; [injection Hi as <-; by replace (p + 8 * Z.of_nat 0) with p by lia|].
  apply Hws in Hi. rewrite <- Hi. f_equal. lia.
Qed.

(** *** Soundness of a layout *)

Lemma round_up_ge a n : 0 < a → n ≤ round_up a n.
Proof. intros Ha. unfold round_up. Z.div_mod_to_equations. nia. Qed.

Lemma round_up_divide a n : (a | round_up a n).
Proof. unfold round_up. apply Z.divide_factor_r. Qed.

Lemma calign_pos packed t : 0 < calign packed t.
Proof. destruct packed; [by destruct t|]. induction t; cbn [calign]; lia. Qed.

(** Sizes that are not negative. *)
Fixpoint sized (t : ctype) : Prop := 
  match t with Arr n t => 0 ≤ n ∧ sized t | Nested n _ => 0 ≤ n | _ => True end.

Lemma csize_nonneg t : sized t → 0 ≤ csize t.
Proof.
  induction t as [| | | | | |n t IH|n a]; cbn [csize sized]; try lia.
  intros [Hn Ht]. specialize (IH Ht). nia.
Qed.

Lemma place_sound packed fs : ∀ off l last, Forall (λ ft, sized ft.2) fs →
  place packed off fs = (l, last) →
  off ≤ last ∧
  Forall2 (λ ft x, x.1 = ft.1 ∧ x.2.2 = csize ft.2 ∧ (calign packed ft.2 | x.2.1)) fs l ∧
  (∀ x, x ∈ l → off ≤ x.2.1 ∧ 0 ≤ x.2.2 ∧ x.2.1 + x.2.2 ≤ last) ∧
  ∀ i j x y, (i < j)%nat → l !! i = Some x → l !! j = Some y → x.2.1 + x.2.2 ≤ y.2.1.
Proof.
  induction fs as [|[f t] fs IH]; intros off l last Hfs E; cbn [place] in E.
  { injection E as <- <-. split_and!; [lia|done|set_solver|intros i j x y _ Hi; done]. }
  apply Forall_cons_iff in Hfs as [Ht Hfs]. pose proof (csize_nonneg t Ht) as Hs.
  pose proof (round_up_ge (calign packed t) off (calign_pos _ _)) as Hge.
  destruct (place packed (round_up (calign packed t) off + csize t) fs) as [l' last'] eqn:E'.
  injection E as <- <-. destruct (IH _ _ _ Hfs E') as (Hlast & Hall & Hin & Hord).
  split; [lia|]. split; [|split].
  - constructor; [|exact Hall]. cbn. split_and!; [done|done|apply round_up_divide].
  - intros x [->|Hx]%elem_of_cons; cbn [fst snd]; [lia|]. destruct (Hin x Hx) as (? & ? & ?). lia.
  - intros [|i] [|j] x y Hij Hi Hj; [lia| |lia|]; cbn in Hi, Hj.
    + injection Hi as <-. cbn [fst snd]. apply list_elem_of_lookup_2 in Hj.
      destruct (Hin y Hj) as (? & _). lia.
    + eapply (Hord i j); [lia|done|done].
Qed.

(** In every structure the fields keep their order and widths, each at an
    address its type may have, without overlap and inside the structure. *)
Lemma layout_sound s : Forall (λ ft, sized ft.2) (st_fields s) →
  Forall2 (λ ft x, x.1 = ft.1 ∧ x.2.2 = csize ft.2 ∧ (calign (st_packed s) ft.2 | x.2.1))
    (st_fields s) (fields s) ∧
  (∀ x, x ∈ fields s → 0 ≤ x.2.1 ∧ x.2.1 + x.2.2 ≤ sizeof s) ∧
  ∀ i j x y, (i < j)%nat → fields s !! i = Some x → fields s !! j = Some y →
    x.2.1 + x.2.2 ≤ y.2.1.
Proof.
  intros Hs. unfold fields, sizeof. destruct (place _ 0 (st_fields s)) as [l last] eqn:E.
  destruct (place_sound _ _ _ _ _ Hs E) as (Hlast & Hall & Hin & Hord). cbn [fst snd].
  split; [exact Hall|]. split; [|exact Hord]. intros x Hx. destruct (Hin x Hx) as (? & ? & ?).
  split; [done|]. etransitivity; [eassumption|]. apply round_up_ge.
  unfold salign. clear. induction (st_fields s) as [|ft fs IH]; cbn [foldr]; lia.
Qed.
