(* ===== verification/Protocol.v ===== *)
(** * The boot protocol's data ([kernel/limine.h])

    The header as a whole: the identifiers, constants and structures of every
    request, as functions of what the preprocessor is given (plain integers for
    pointers, the API revision, the target), with what makes them a protocol:
    kernel and loader may be compiled with different settings. *)
From stdpp Require Import base tactics strings numbers list sets fin_sets.
From S2P Require Import Prelude Memory Layout.

Local Open Scope Z_scope.

(** ** Settings *)

(** The targets with 64-bit pointers that the header knows. *)
Inductive arch := X86_64 | AArch64 | RiscV64 | LoongArch64.

(** [LIMINE_NO_POINTERS], [LIMINE_API_REVISION], and the target. *)
Record config := Config { no_pointers : bool; api_revision : Z; target : arch }.

(** What the kernel is compiled with. *)
Definition kernel_config : config := Config false 0 X86_64.

(** ** Words *)

Definition LIMINE_REQUESTS_START_MARKER : list Z :=
  [0xf6b8f4b39de7d1ae; 0xfab91a6940fcb9cf; 0x785c6ed015d3e316; 0x181e920a7852b9d9].
Definition LIMINE_REQUESTS_END_MARKER : list Z := [0xadc0e0531bb10d03; 0x9572709f31764c62].

Definition LIMINE_BASE_REVISION (n : Z) : list Z := [0xf9562b2d5c95a6c8; 0x6a7b384944536bdc; n].
(** On the three words, once the loader has been there. *)
Definition LIMINE_BASE_REVISION_SUPPORTED (w : list Z) : bool := bool_decide (w !! 2%nat = Some 0).
Definition LIMINE_LOADED_BASE_REV_VALID (w : list Z) : bool :=
  negb (bool_decide (w !! 1%nat = Some 0x6a7b384944536bdc)).
Definition LIMINE_LOADED_BASE_REVISION (w : list Z) : option Z := w !! 1%nat.

Definition LIMINE_COMMON_MAGIC : list Z := [0xc7b1dd30df4c8b88; 0x0a82e883a194f07b].

Definition LIMINE_BOOTLOADER_INFO_REQUEST : list Z :=
  LIMINE_COMMON_MAGIC ++ [0xf55038d8e2a1202f; 0x279426fcf5f59740].
Definition LIMINE_FIRMWARE_TYPE_REQUEST : list Z :=
  LIMINE_COMMON_MAGIC ++ [0x8c2f75d90bef28a8; 0x7045a4688eac00c3].
Definition LIMINE_STACK_SIZE_REQUEST : list Z :=
  LIMINE_COMMON_MAGIC ++ [0x224ef0460a8e8926; 0xe1cb0fc25f46ea3d].
Definition LIMINE_HHDM_REQUEST : list Z :=
  LIMINE_COMMON_MAGIC ++ [0x48dcf1cb8ad2b852; 0x63984e959a98244b].
Definition LIMINE_FRAMEBUFFER_REQUEST : list Z :=
  LIMINE_COMMON_MAGIC ++ [0x9d5827dcd881dd75; 0xa3148604f6fab11b].
Definition LIMINE_TERMINAL_REQUEST : list Z :=
  LIMINE_COMMON_MAGIC ++ [0xc8ac59310c2b0844; 0xa68d0c7265d38878].
Definition LIMINE_PAGING_MODE_REQUEST : list Z :=
  LIMINE_COMMON_MAGIC ++ [0x95c1a0edab0944cb; 0xa4e5cb3842f7488a].
Definition LIMINE_5_LEVEL_PAGING_REQUEST : list Z :=
  LIMINE_COMMON_MAGIC ++ [0x94469551da9b3192; 0xebe5e86db7382888].
(** [LIMINE_SMP_REQUEST] before API revision 1. *)
Definition LIMINE_MP_REQUEST : list Z :=
  LIMINE_COMMON_MAGIC ++ [0x95a67b819a1b857e; 0xa0b61b723b6a73e0].
Definition LIMINE_MEMMAP_REQUEST : list Z :=
  LIMINE_COMMON_MAGIC ++ [0x67cf3d9d378a806f; 0xe304acdfc50c3c62].
Definition LIMINE_ENTRY_POINT_REQUEST : list Z :=
  LIMINE_COMMON_MAGIC ++ [0x13d86c035a1cd3e1; 0x2b0caa89d8f3026a].
(** [LIMINE_KERNEL_FILE_REQUEST] before API revision 2. *)
Definition LIMINE_EXECUTABLE_FILE_REQUEST : list Z :=
  LIMINE_COMMON_MAGIC ++ [0xad97e90e83f1ed67; 0x31eb5d1c5ff23b69].
Definition LIMINE_MODULE_REQUEST : list Z :=
  LIMINE_COMMON_MAGIC ++ [0x3e7e279702be32af; 0xca1c4f3bd1280cee].
Definition LIMINE_RSDP_REQUEST : list Z :=
  LIMINE_COMMON_MAGIC ++ [0xc5e77b6b397e7b43; 0x27637845accdcf3c].
Definition LIMINE_SMBIOS_REQUEST : list Z :=
  LIMINE_COMMON_MAGIC ++ [0x9e9046f11e095391; 0xaa4a520fefbde5ee].
Definition LIMINE_EFI_SYSTEM_TABLE_REQUEST : list Z :=
  LIMINE_COMMON_MAGIC ++ [0x5ceba5163eaaf6d6; 0x0a6981610cf65fcc].
Definition LIMINE_EFI_MEMMAP_REQUEST : list Z :=
  LIMINE_COMMON_MAGIC ++ [0x7df62a431d6872d5; 0xa4fcdfb3e57306c8].
Definition LIMINE_BOOT_TIME_REQUEST : list Z :=
  LIMINE_COMMON_MAGIC ++ [0x502746e184c088aa; 0xfbc5ec83e6327893].
(** [LIMINE_KERNEL_ADDRESS_REQUEST] before API revision 2. *)
Definition LIMINE_EXECUTABLE_ADDRESS_REQUEST : list Z :=
  LIMINE_COMMON_MAGIC ++ [0x71ba76863cc55f63; 0xb2644a48c516a487].
Definition LIMINE_DTB_REQUEST : list Z :=
  LIMINE_COMMON_MAGIC ++ [0xb40ddb48fb54bac7; 0x545081493f81ffb7].
Definition LIMINE_RISCV_BSP_HARTID_REQUEST : list Z :=
  LIMINE_COMMON_MAGIC ++ [0x1369359f025525f9; 0x2ff2a56178391bb6].

(** ** Constants *)

Definition LIMINE_MEDIA_TYPES : list (string * Z) :=
  [("GENERIC", 0); ("OPTICAL", 1); ("TFTP", 2)]%string.
Definition LIMINE_FIRMWARE_TYPES : list (string * Z) :=
  [("X86BIOS", 0); ("UEFI32", 1); ("UEFI64", 2); ("SBI", 3)]%string.
Definition LIMINE_FRAMEBUFFER_RGB : Z := 1.
Definition LIMINE_TERMINAL_CB : list (string * Z) :=
  [("DEC", 10); ("BELL", 20); ("PRIVATE_ID", 30); ("STATUS_REPORT", 40); ("POS_REPORT", 50);
   ("KBD_LEDS", 60); ("MODE", 70); ("LINUX", 80)]%string.
(** Out-of-band lengths of a terminal write: negative numbers as [uint64_t]. *)
Definition LIMINE_TERMINAL_OOB : list (string * Z) :=
  [("CTX_SIZE", u64 (-1)); ("CTX_SAVE", u64 (-2)); ("CTX_RESTORE", u64 (-3));
   ("FULL_REFRESH", u64 (-4)); ("OOB_OUTPUT_GET", u64 (-10)); ("OOB_OUTPUT_SET", u64 (-11))]%string.
Definition LIMINE_TERMINAL_OOB_OUTPUT : list (string * Z) :=
  [("OCRNL", Z.shiftl 1 0); ("OFDEL", Z.shiftl 1 1); ("OFILL", Z.shiftl 1 2); ("OLCUC", Z.shiftl 1 3);
   ("ONLCR", Z.shiftl 1 4); ("ONLRET", Z.shiftl 1 5); ("ONOCR", Z.shiftl 1 6); ("OPOST", Z.shiftl 1 7)]%string.
Definition LIMINE_MP_X2APIC : Z := Z.shiftl 1 0.
Definition LIMINE_INTERNAL_MODULE : list (string * Z) :=
  [("REQUIRED", Z.shiftl 1 0); ("COMPRESSED", Z.shiftl 1 1)]%string.

(** The modes of a target, with [LIMINE_PAGING_MODE_MIN] and
    [LIMINE_PAGING_MODE_DEFAULT]. *)
Definition LIMINE_PAGING_MODES (a : arch) : list (string * Z) :=
  match a with
  | X86_64 => [("X86_64_4LVL", 0); ("X86_64_5LVL", 1)]
  | AArch64 => [("AARCH64_4LVL", 0); ("AARCH64_5LVL", 1)]
  | RiscV64 => [("RISCV_SV39", 0); ("RISCV_SV48", 1); ("RISCV_SV57", 2)]
  | LoongArch64 => [("LOONGARCH64_4LVL", 0)]
  end%string.
Definition LIMINE_PAGING_MODE_MIN (a : arch) : Z := 0.
Definition LIMINE_PAGING_MODE_DEFAULT (a : arch) : Z :=
  match a with RiscV64 => 1 | X86_64 | AArch64 | LoongArch64 => 0 end.

Section header.
Context (cfg : config).

Definition LIMINE_PTR : ctype := if no_pointers cfg then U64 else Ptr.

(** [#if LIMINE_API_REVISION >= r] *)
Definition since {A} (r : Z) (new old : A) : A := if r <=? api_revision cfg then new else old.

Definition LIMINE_MEMMAP_TYPES : list (string * Z) :=
  [("USABLE", 0); ("RESERVED", 1); ("ACPI_RECLAIMABLE", 2); ("ACPI_NVS", 3); ("BAD_MEMORY", 4);
   ("BOOTLOADER_RECLAIMABLE", 5); (since 2 "EXECUTABLE_AND_MODULES" "KERNEL_AND_MODULES", 6);
   ("FRAMEBUFFER", 7)]%string.

(** ** Structures *)

(** The fields every request has, and then its own. *)
Definition request_with (own : list (string * ctype)) : cstruct := Struct false
  ([("id", Arr 4 U64); ("revision", U64); ("response", LIMINE_PTR)]%string ++ own).

Definition limine_uuid : cstruct := Struct false
  [("a", U32); ("b", U16); ("c", U16); ("d", Arr 8 U8)]%string.

Definition limine_file : cstruct := Struct false
  [("revision", U64); ("address", LIMINE_PTR); ("size", U64); ("path", LIMINE_PTR);
   ("cmdline", LIMINE_PTR); ("media_type", U32); ("unused", U32); ("tftp_ip", U32);
   ("tftp_port", U32); ("partition_index", U32); ("mbr_disk_id", U32);
   ("gpt_disk_uuid", sub limine_uuid); ("gpt_part_uuid", sub limine_uuid);
   ("part_uuid", sub limine_uuid)]%string.

Definition limine_bootloader_info_response : cstruct := Struct false
  [("revision", U64); ("name", LIMINE_PTR); ("version", LIMINE_PTR)]%string.
Definition limine_bootloader_info_request : cstruct := request_with [].

Definition limine_firmware_type_response : cstruct := Struct false
  [("revision", U64); ("firmware_type", U64)]%string.
Definition limine_firmware_type_request : cstruct := request_with [].

Definition limine_stack_size_response : cstruct := Struct false [("revision", U64)]%string.
Definition limine_stack_size_request : cstruct := request_with [("stack_size", U64)]%string.

Definition limine_hhdm_response : cstruct := Struct false
  [("revision", U64); ("offset", U64)]%string.
Definition limine_hhdm_request : cstruct := request_with [].

Definition limine_video_mode : cstruct := Struct false
  [("pitch", U64); ("width", U64); ("height", U64); ("bpp", U16); ("memory_model", U8);
   ("red_mask_size", U8); ("red_mask_shift", U8); ("green_mask_size", U8);
   ("green_mask_shift", U8); ("blue_mask_size", U8); ("blue_mask_shift", U8)]%string.
Definition limine_framebuffer_struct : cstruct := Struct false
  [("address", LIMINE_PTR); ("width", U64); ("height", U64); ("pitch", U64); ("bpp", U16);
   ("memory_model", U8); ("red_mask_size", U8); ("red_mask_shift", U8);
   ("green_mask_size", U8); ("green_mask_shift", U8); ("blue_mask_size", U8);
   ("blue_mask_shift", U8); ("unused", Arr 7 U8); ("edid_size", U64); ("edid", LIMINE_PTR);
   ("mode_count", U64); ("modes", LIMINE_PTR)]%string.
Definition limine_framebuffer_response : cstruct := Struct false
  [("revision", U64); ("framebuffer_count", U64); ("framebuffers", LIMINE_PTR)]%string.
Definition limine_framebuffer_request : cstruct := request_with [].

Definition limine_terminal : cstruct := Struct false
  [("columns", U64); ("rows", U64); ("framebuffer", LIMINE_PTR)]%string.
Definition limine_terminal_response : cstruct := Struct false
  [("revision", U64); ("terminal_count", U64); ("terminals", LIMINE_PTR); ("write", LIMINE_PTR)]%string.
Definition limine_terminal_request : cstruct := request_with [("callback", LIMINE_PTR)]%string.

Definition limine_paging_mode_response : cstruct := Struct false
  [("revision", U64); ("mode", U64)]%string.
Definition limine_paging_mode_request : cstruct :=
  request_with [("mode", U64); ("max_mode", U64); ("min_mode", U64)]%string.

Definition limine_5_level_paging_response : cstruct := Struct false [("revision", U64)]%string.
Definition limine_5_level_paging_request : cstruct := request_with [].

(** [struct LIMINE_MP(info)], [struct LIMINE_MP(response)]: one per target. *)
Definition limine_mp_info : cstruct := Struct false
  match target cfg with
  | X86_64 => [("processor_id", U32); ("lapic_id", U32); ("reserved", U64);
      ("goto_address", LIMINE_PTR); ("extra_argument", U64)]
  | AArch64 => [("processor_id", U32); ("reserved1", U32); ("mpidr", U64); ("reserved", U64);
      ("goto_address", LIMINE_PTR); ("extra_argument", U64)]
  | RiscV64 => [("processor_id", U64); ("hartid", U64); ("reserved", U64);
      ("goto_address", LIMINE_PTR); ("extra_argument", U64)]
  | LoongArch64 => [("reserved", U64)]
  end%string.
Definition limine_mp_response : cstruct := Struct false
  match target cfg with
  | X86_64 => [("revision", U64); ("flags", U32); ("bsp_lapic_id", U32); ("cpu_count", U64);
      ("cpus", LIMINE_PTR)]
  | AArch64 => [("revision", U64); ("flags", U64); ("bsp_mpidr", U64); ("cpu_count", U64);
      ("cpus", LIMINE_PTR)]
  | RiscV64 => [("revision", U64); ("flags", U64); ("bsp_hartid", U64); ("cpu_count", U64);
      ("cpus", LIMINE_PTR)]
  | LoongArch64 => [("cpu_count", U64); ("cpus", LIMINE_PTR)]
  end%string.
Definition limine_mp_request : cstruct := request_with [("flags", U64)]%string.

Definition limine_memmap_entry : cstruct := Struct false
  [("base", U64); ("length", U64); ("type", U64)]%string.
Definition limine_memmap_response : cstruct := Struct false
  [("revision", U64); ("entry_count", U64); ("entries", LIMINE_PTR)]%string.
Definition limine_memmap_request : cstruct := request_with [].

Definition limine_entry_point_response : cstruct := Struct false [("revision", U64)]%string.
Definition limine_entry_point_request : cstruct := request_with [("entry", LIMINE_PTR)]%string.

Definition limine_executable_file_response : cstruct := Struct false
  [("revision", U64); (since 2 "executable_file" "kernel_file", LIMINE_PTR)]%string.
Definition limine_executable_file_request : cstruct := request_with [].

Definition limine_internal_module : cstruct := Struct false
  [("path", LIMINE_PTR); ("cmdline", LIMINE_PTR); ("flags", U64)]%string.
Definition limine_module_response : cstruct := Struct false
  [("revision", U64); ("module_count", U64); ("modules", LIMINE_PTR)]%string.
Definition limine_module_request : cstruct :=
  request_with [("internal_module_count", U64); ("internal_modules", LIMINE_PTR)]%string.

Definition limine_rsdp_response : cstruct := Struct false
  [("revision", U64); ("address", since 1 U64 LIMINE_PTR)]%string.
Definition limine_rsdp_request : cstruct := request_with [].

Definition limine_smbios_response : cstruct := Struct false
  [("revision", U64); ("entry_32", since 1 U64 LIMINE_PTR); ("entry_64", since 1 U64 LIMINE_PTR)]%string.
Definition limine_smbios_request : cstruct := request_with [].

Definition limine_efi_system_table_response : cstruct := Struct false
  [("revision", U64); ("address", since 1 U64 LIMINE_PTR)]%string.
Definition limine_efi_system_table_request : cstruct := request_with [].

Definition limine_efi_memmap_response : cstruct := Struct false
  [("revision", U64); ("memmap", LIMINE_PTR); ("memmap_size", U64); ("desc_size", U64);
   ("desc_version", U64)]%string.
Definition limine_efi_memmap_request : cstruct := request_with [].

Definition limine_boot_time_response : cstruct := Struct false
  [("revision", U64); ("boot_time", I64)]%string.
Definition limine_boot_time_request : cstruct := request_with [].

Definition limine_executable_address_response : cstruct := Struct false
  [("revision", U64); ("physical_base", U64); ("virtual_base", U64)]%string.
Definition limine_executable_address_request : cstruct := request_with [].

Definition limine_dtb_response : cstruct := Struct false
  [("revision", U64); ("dtb_ptr", LIMINE_PTR)]%string.
Definition limine_dtb_request : cstruct := request_with [].

Definition limine_riscv_bsp_hartid_response : cstruct := Struct false
  [("revision", U64); ("bsp_hartid", U64)]%string.
Definition limine_riscv_bsp_hartid_request : cstruct := request_with [].

(** ** The requests together *)

(** A request: its name under the settings, its identifier, its structure, and
    the structure its [response] leads to. *)
Record request := Request { r_name : string; r_id : list Z; r_struct : cstruct; r_response : cstruct }.

Definition requests_table : list request := [
  Request "BOOTLOADER_INFO" LIMINE_BOOTLOADER_INFO_REQUEST limine_bootloader_info_request
    limine_bootloader_info_response;
  Request "FIRMWARE_TYPE" LIMINE_FIRMWARE_TYPE_REQUEST limine_firmware_type_request
    limine_firmware_type_response;
  Request "STACK_SIZE" LIMINE_STACK_SIZE_REQUEST limine_stack_size_request limine_stack_size_response;
  Request "HHDM" LIMINE_HHDM_REQUEST limine_hhdm_request limine_hhdm_response;
  Request "FRAMEBUFFER" LIMINE_FRAMEBUFFER_REQUEST limine_framebuffer_request
    limine_framebuffer_response;
  Request "TERMINAL" LIMINE_TERMINAL_REQUEST limine_terminal_request limine_terminal_response;
  Request "PAGING_MODE" LIMINE_PAGING_MODE_REQUEST limine_paging_mode_request
    limine_paging_mode_response;
  Request "5_LEVEL_PAGING" LIMINE_5_LEVEL_PAGING_REQUEST limine_5_level_paging_request
    limine_5_level_paging_response;
  Request (since 1 "MP" "SMP") LIMINE_MP_REQUEST limine_mp_request limine_mp_response;
  Request "MEMMAP" LIMINE_MEMMAP_REQUEST limine_memmap_request limine_memmap_response;
  Request "ENTRY_POINT" LIMINE_ENTRY_POINT_REQUEST limine_entry_point_request
    limine_entry_point_response;
  Request (since 2 "EXECUTABLE_FILE" "KERNEL_FILE") LIMINE_EXECUTABLE_FILE_REQUEST
    limine_executable_file_request limine_executable_file_response;
  Request "MODULE" LIMINE_MODULE_REQUEST limine_module_request limine_module_response;
  Request "RSDP" LIMINE_RSDP_REQUEST limine_rsdp_request limine_rsdp_response;
  Request "SMBIOS" LIMINE_SMBIOS_REQUEST limine_smbios_request limine_smbios_response;
  Request "EFI_SYSTEM_TABLE" LIMINE_EFI_SYSTEM_TABLE_REQUEST limine_efi_system_table_request
    limine_efi_system_table_response;
  Request "EFI_MEMMAP" LIMINE_EFI_MEMMAP_REQUEST limine_efi_memmap_request limine_efi_memmap_response;
  Request "BOOT_TIME" LIMINE_BOOT_TIME_REQUEST limine_boot_time_request limine_boot_time_response;
  Request (since 2 "EXECUTABLE_ADDRESS" "KERNEL_ADDRESS") LIMINE_EXECUTABLE_ADDRESS_REQUEST
    limine_executable_address_request limine_executable_address_response;
  Request "DTB" LIMINE_DTB_REQUEST limine_dtb_request limine_dtb_response;
  Request "RISCV_BSP_HARTID" LIMINE_RISCV_BSP_HARTID_REQUEST limine_riscv_bsp_hartid_request
    limine_riscv_bsp_hartid_response]%string.

(** All structures: those of the requests, and those only reached by pointers. *)
Definition structs : list cstruct :=
  (r_struct <$> requests_table) ++ (r_response <$> requests_table) ++
  [limine_uuid; limine_file; limine_video_mode; limine_framebuffer_struct; limine_terminal;
   limine_mp_info; limine_memmap_entry; limine_internal_module].

(** Which request four words in memory are. *)
Definition identify (w : list Z) : option request :=
  snd <$> list_find (λ r, r_id r = w) requests_table.
End header.

(** ** Specification *)

(** What two parties that exchange a structure have to agree on: where its
    fields are and how large it is, whatever their names and types. *)
Definition shape (s : cstruct) : list (Z * Z) * Z := (snd <$> fields s, sizeof s).

(** The same structure without padding between its fields and behind them. *)
Definition packed (s : cstruct) : cstruct := Struct true (st_fields s).

(** * Lemmas *)

(** A fact about the header holds for all settings if it holds for the two kinds of
    pointer, on each side of the two API revisions at which it changes, and on
    every target. *)
Ltac all_settings := intros [[] api []]; unfold structs, requests_table, limine_mp_info,
  limine_mp_response, limine_executable_file_response, limine_rsdp_response, limine_smbios_response,
  limine_efi_system_table_response, limine_rsdp_request, since; cbn [api_revision target];
  destruct (1 <=? api), (2 <=? api).

(** The shapes depend on the target only. *)
Lemma shape_target c : shape <$> structs c = shape <$> structs (Config false 0 (target c)).
Proof. revert c. all_settings; vm_compute; reflexivity. Qed.

Lemma unpadded c : Forall (λ s, fields s = fields (packed s)) (structs c).
Proof. revert c. all_settings; repeat (apply List.Forall_cons; [vm_compute; reflexivity|]); constructor. Qed.

(** Padding at the end: in one of them only. *)
Definition ends_unpadded (s : cstruct) : Prop :=
  sizeof (packed s) = sizeof s ∨ s = limine_video_mode ∧ sizeof (packed s) = 33 ∧ sizeof s = 40.

Lemma unpadded_ends c : Forall ends_unpadded (structs c).
Proof.
  revert c. all_settings; repeat (apply List.Forall_cons;
    [first [left; vm_compute; reflexivity|right; split; [reflexivity|split; vm_compute; reflexivity]]|]);
    constructor.
Qed.

Lemma request_fields c : Forall (λ r, field_at (r_struct r) <$> ["id"; "revision"; "response"]%string =
  Some <$> [(0, 32); (32, 8); (40, 8)]) (requests_table c).
Proof. revert c. all_settings; repeat (apply List.Forall_cons; [vm_compute; reflexivity|]); constructor. Qed.

Lemma identified c : Forall (λ r, identify c (r_id r) = Some r) (requests_table c).
Proof. repeat (apply List.Forall_cons; [reflexivity|]). constructor. Qed.

(** Within a group of constants no two have the same value, the flags are disjoint
    bits, and the default paging mode is one of the target's. *)
Lemma constants_distinct c a : Forall (λ g, NoDup g.*2) [LIMINE_MEDIA_TYPES; LIMINE_FIRMWARE_TYPES;
    LIMINE_TERMINAL_CB; LIMINE_TERMINAL_OOB; LIMINE_TERMINAL_OOB_OUTPUT; LIMINE_INTERNAL_MODULE;
    LIMINE_MEMMAP_TYPES c; LIMINE_PAGING_MODES a] ∧
  LIMINE_PAGING_MODE_MIN a ∈ (LIMINE_PAGING_MODES a).*2 ∧
  LIMINE_PAGING_MODE_DEFAULT a ∈ (LIMINE_PAGING_MODES a).*2 ∧
  foldr Z.lor 0 LIMINE_TERMINAL_OOB_OUTPUT.*2 = 0xFF.
Proof.
  split; [|by destruct a; split_and!; try set_solver].
  repeat (apply List.Forall_cons; [apply (bool_decide_unpack _); try (destruct a); vm_compute; exact I|]).
  constructor.
Qed.

(** * Properties *)

(** C11: the header is one protocol for all its users: with any two settings of pointers
    and API revision, on the same target, every structure has its fields at the
    same offsets with the same widths and has the same size; there is no padding
    between fields, so that packing a structure would move none of them, and only
    [limine_video_mode] is padded at its end, to 40 bytes from 33, so that the size of no
    other would change; the identifier, the revision and the response of every request are at 0, 32 and
    40; and the identifier tells the request. *)
Theorem protocol_layout (c c' : config) (H : target c = target c') :
  shape <$> structs c = shape <$> structs c' ∧
  (∀ s, s ∈ structs c → fields s = fields (packed s) ∧ ends_unpadded s) ∧
  (∀ r, r ∈ requests_table c →
     field_at (r_struct r) <$> ["id"; "revision"; "response"]%string =
       Some <$> [(0, 32); (32, 8); (40, 8)] ∧
     identify c (r_id r) = Some r).
Proof.
  split; [by rewrite (shape_target c), (shape_target c'), H|]. split.
  { intros s Hs. pose proof (unpadded c) as Hf. pose proof (unpadded_ends c) as He.
    rewrite Forall_forall in Hf, He. split; [by apply Hf|by apply He]. }
  intros r Hr.
  pose proof (request_fields c) as Hf. pose proof (identified c) as Hi.
  rewrite Forall_forall in Hf, Hi. split; [by apply Hf|by apply Hi].
Qed.

(** A loader built without pointers against API revision 2, and this kernel. *)
Lemma protocol_layout_witness :
  shape <$> structs (Config true 2 X86_64) = shape <$> structs kernel_config ∧
  r_name <$> identify kernel_config LIMINE_MP_REQUEST = Some "SMP"%string.
Proof.
  split; [exact (proj1 (protocol_layout (Config true 2 X86_64) kernel_config eq_refl))|].
  vm_compute. reflexivity.
Defined.
