(* ===== verification/Ensures.v ===== *)
(** * A program logic for state invariants

    [ensures P m Q]: a run of [m] from a state with [P] that returns, returns a
    value with [Q] and leaves a state with [P].  One rule per construct of the
    monad; a component contributes the rules of its operations to the hint
    database [ensures]. *)
From stdpp Require Import base tactics gmap numbers list.
From S2P Require Import Prelude Memory.

Local Open Scope Z_scope.

Definition ensures {S A : Type} (P : S → Prop) (m : M S A) (Q : A → Prop) : Prop :=
  ∀ s a s', P s → m s = Ok (a, s') → P s' ∧ Q a.

(** Only the state matters. *)
Abbreviation keeps P m := (ensures P m (λ _, True)).

(** A value of [n] bits. *)
Definition wide (n v : Z) : Prop := 0 ≤ v < 2 ^ n.

Create HintDb ensures.

(** * Rules *)

Section rules.
Context {S : Type} (P : S → Prop).

Lemma ensures_ret {A} (a : A) (Q : A → Prop) : Q a → ensures P (mret a) Q.
Proof. intros Ha s b s' Hs [= <- <-]. done. Qed.

Lemma ensures_bind {A B} (m : M S A) (k : A → M S B) Q R :
  ensures P m Q → (∀ a, Q a → ensures P (k a) R) → ensures P (m ≫= k) R.
Proof.
  intros Hm Hk s b s' Hs E. apply bind_inv in E as (a & s1 & E1 & E2).
  destruct (Hm s a s1 Hs E1) as [H1 Ha]. by apply (Hk a Ha s1).
Qed.

Lemma ensures_weaken {A} (m : M S A) (Q R : A → Prop) :
  ensures P m Q → (∀ a, Q a → R a) → ensures P m R.
Proof. intros Hm HR s a s' Hs E. destruct (Hm s a s' Hs E). auto. Qed.

Lemma ensures_keeps {A} (m : M S A) Q : ensures P m Q → keeps P m.
Proof. intros Hm. by eapply ensures_weaken. Qed.

Lemma ensures_get : ensures P get P.
Proof. by intros s a s' Hs [= <- <-]. Qed.

Lemma ensures_modify f : (∀ s, P s → P (f s)) → keeps P (modify f).
Proof. intros Hf s a s' Hs [= <- <-]. auto. Qed.

Lemma ensures_put s : P s → keeps P (put s).
Proof. by intros Hs s0 a s' _ [= <- <-]. Qed.

Lemma ensures_fault {A} (Q : A → Prop) : ensures P fault Q.
Proof. by intros s a s' _. Qed.
Lemma ensures_nofuel {A} (Q : A → Prop) : ensures P nofuel Q.
Proof. by intros s a s' _. Qed.

Lemma ensures_of_option {A} (o : option A) (Q : A → Prop) :
  (∀ a, o = Some a → Q a) → ensures P (of_option o) Q.
Proof. intros Ho s a s' Hs E. destruct o; [|done]. injection E as <- <-. auto. Qed.

Lemma ensures_for_each {A} (l : list A) body :
  (∀ x, x ∈ l → keeps P (body x)) → keeps P (for_each l body).
Proof.
  induction l as [|x l IH]; intros Hb; [by apply ensures_ret|]. cbn [for_each].
  eapply ensures_bind; [apply Hb, list_elem_of_here|]. intros [] _. apply IH.
  intros y Hy. apply Hb. by apply list_elem_of_further.
Qed.

(** A component of a larger state. *)
Lemma ensures_zoom {T A} (PT : T → Prop) (prj : T → S) upd (m : M S A) Q :
  ensures P m Q → (∀ t, PT t → P (prj t)) → (∀ s t, P s → PT t → PT (upd s t)) →
  ensures PT (zoom prj upd m) Q.
Proof.
  intros Hm Hp Hu t a t' Ht E. unfold zoom in E.
  destruct (m (prj t)) as [[b s]| |] eqn:Em; [|done..]. injection E as <- <-.
  destruct (Hm _ _ _ (Hp t Ht) Em). auto.
Qed.
End rules.

(** A computation on a part the invariant does not mention. *)
Lemma ensures_apart {S T A} (PT : T → Prop) (prj : T → S) upd (m : M S A) :
  (∀ s t, PT t → PT (upd s t)) → keeps PT (zoom prj upd m).
Proof. intros Hu. apply (ensures_zoom (λ _, True)); [by intros ?|auto..]. Qed.

(** *** Arrays *)

Lemma arr_get_ensures {A} (Q : A → Prop) i : ensures (Forall Q) (arr_get i) Q.
Proof.
  intros l a l' Hl E. apply arr_get_inv in E as (_ & Ha & ->). split; [done|].
  by eapply Forall_lookup_1.
Qed.

Lemma arr_put_ensures {A} (Q : A → Prop) i x : Q x → keeps (Forall Q) (arr_put i x).
Proof.
  intros Hx l a l' Hl. unfold arr_put. case_match; [|done]. intros [= <- <-]. split; [|done].
  by apply Forall_insert.
Qed.

(** *** Memory: every byte stays one *)

Definition bytes_ok (m : mem) : Prop := map_Forall (λ _ b, wide 8 b) m.

Lemma store_bytes n a v m m' : bytes_ok m → store n a v m = Some m' → bytes_ok m'.
Proof.
  revert a v m; induction n as [|n IH]; intros a v m Hm E; cbn [store] in E; [by injection E as <-|].
  destruct (m !! a) eqn:Ha; [|done]. apply (IH _ _ _) in E; [done|].
  apply map_Forall_insert_2; [|done]. unfold wide. change (2 ^ 8) with 256. by apply Z.mod_pos_bound.
Qed.

Lemma st_ensures n a v : keeps bytes_ok (st n a v).
Proof.
  intros m u m' Hm E. unfold st in E. destruct (store n a v m) eqn:Es; [|done].
  injection E as <- <-. split; [by eapply store_bytes|done].
Qed.

Lemma ld_ensures n a : ensures bytes_ok (ld n a) (wide (8 * Z.of_nat n)).
Proof.
  intros m v m' Hm E. unfold ld in E. destruct (load n a m) eqn:El; [|done].
  injection E as <- <-. split; [done|]. unfold wide. rewrite Z.pow_mul_r by lia.
  apply (load_range n a m); [|done]. intros b x Hx. exact (Hm b x Hx).
Qed.

Lemma fill_wide n a k v : wide n v → map_Forall (λ _ b, wide n b) (fill a k v).
Proof. intros Hv b x Hx. rewrite fill_lookup in Hx. case_decide; [by injection Hx as <-|done]. Qed.

(** *** Widths *)

Lemma wide_u8 v : wide 8 (u8 v). Proof. apply u8_range. Qed.
Lemma wide_u16 v : wide 16 (u16 v). Proof. apply u16_range. Qed.
Lemma wide_u32 v : wide 32 (u32 v). Proof. apply u32_range. Qed.
Lemma wide_u64 v : wide 64 (u64 v). Proof. apply u64_range. Qed.

Lemma wide_div n a b : 0 < b → wide n a → wide n (a / b).
Proof. unfold wide. intros. Z.div_mod_to_equations. nia. Qed.
Lemma wide_mod n a b : 0 ≤ b → wide n a → wide n (a `mod` b).
Proof.
  unfold wide. intros Hb Ha. destruct (decide (b = 0)) as [->|]; [by rewrite Z.mod_0_r_ext by done|].
  pose proof (Z.mod_pos_bound a b). pose proof (Z.mod_le a b). lia.
Qed.
Lemma wide_land n a b : 0 ≤ n → wide n a → 0 ≤ b → wide n (Z.land a b).
Proof.
  unfold wide. intros Hn Ha Hb. split; [apply Z.land_nonneg; lia|].
  apply bounded_by_bits; [lia|apply Z.land_nonneg; lia|].
  intros i Hi. by rewrite Z.land_spec, (testbit_above n) by lia.
Qed.
Lemma wide_lor n a b : 0 ≤ n → wide n a → wide n b → wide n (Z.lor a b).
Proof.
  unfold wide. intros Hn Ha Hb. split; [apply Z.lor_nonneg; lia|].
  apply bounded_by_bits; [lia|apply Z.lor_nonneg; lia|].
  intros i Hi. by rewrite Z.lor_spec, !(testbit_above n) by lia.
Qed.

Lemma wide_check n v : (0 <=? v) && (v <? 2 ^ n) = true → wide n v.
Proof. unfold wide. lia. Qed.

Lemma wide_if n (b : bool) x y : wide n x → wide n y → wide n (if b then x else y).
Proof. by destruct b. Qed.

(** * Automation *)

#[export] Hint Resolve wide_u8 wide_u16 wide_u32 wide_u64 wide_if : ensures.
#[export] Hint Extern 3 (wide _ _) => solve [unfold wide in *; lia] : ensures.
#[export] Hint Extern 4 (wide _ _) => by apply wide_check : ensures.
#[export] Hint Resolve arr_get_ensures arr_put_ensures st_ensures ld_ensures : ensures.

(** Decompose a computation; what is left are operations and side conditions. *)
Ltac ens_step :=
  match goal with
  | |- ensures _ (mret _) _ => apply ensures_ret
  | |- ensures _ fault _ => apply ensures_fault
  | |- ensures _ nofuel _ => apply ensures_nofuel
  | |- True => exact I
  | |- keeps _ (of_option _) => by apply ensures_of_option
  | |- ensures _ (get ≫= _) _ => eapply ensures_bind; [apply ensures_get|cbv beta; intros ? ?]
  | |- ensures _ (if ?b then _ else _) _ => destruct b eqn:?
  | |- ensures _ (match ?x with _ => _ end) _ => destruct x eqn:?
  | |- keeps _ (modify _) => apply ensures_modify; intros ? ?
  | |- keeps _ (put _) => apply ensures_put
  | |- keeps _ (for_each _ _) => apply ensures_for_each; intros ? ?
  | |- ensures _ (mbind _ ?m) _ =>
      eapply ensures_bind;
        [first [solve [eauto with ensures nocore] | apply (ensures_keeps _ _ (λ _, True))]|cbv beta; intros ? ?]
  | |- keeps _ _ => solve [eauto with ensures nocore | eapply ensures_keeps; eauto with ensures nocore]
  end.
Ltac ens := repeat ens_step.
