(* ===== verification/Interfaces.v ===== *)
(** * Interfaces between the components

    What one component promises to another, as type classes.  A client's
    theorems are proved against the class; the component that implements it
    provides the instance, whose fields are its own theorems. *)
From stdpp Require Import base tactics list gmap numbers.
From S2P Require Import Prelude Memory.

Local Open Scope Z_scope.

(** [p] is the lowest page of [F]. *)
Definition lowest (F : gset Z) (p : Z) : Prop := p ∈ F ∧ ∀ q, q ∈ F → p ≤ q.

(** A source of 4 KB physical pages: an allocator state represents the set of
    page numbers that are still free; allocation hands out the lowest one, by
    physical address, and 0 when there is none. *)
Class PageAllocator (P : Type) := {
  pa_alloc : M P Z;
  pa_rep : P → gset Z → Prop;
  (** address at which physical address 0 is mapped *)
  pa_hhdm : P → Z;
  pa_bound : ∀ s F p, pa_rep s F → p ∈ F → 0 ≤ p < 2 ^ 20;
  pa_alloc_some : ∀ s F p, pa_rep s F → lowest F p →
    ∃ s', pa_alloc s = Ok (4096 * p, s') ∧ pa_rep s' (F ∖ {[p]}) ∧
          pa_hhdm s' = pa_hhdm s;
  pa_alloc_none : ∀ s, pa_rep s ∅ → pa_alloc s = Ok (0, s)
}.

Lemma lowest_unique F p q : lowest F p → lowest F q → p = q.
Proof. intros [Hp Hp'] [Hq Hq']. specialize (Hp' q Hq). specialize (Hq' p Hp). lia. Qed.

(** A nonempty set of pages has a lowest one. *)
Lemma lowest_exists (F : gset Z) :
  F ≠ ∅ → (∀ p, p ∈ F → 0 ≤ p) → ∃ p, lowest F p.
Proof.
  intros HF Hpos. destruct (set_choose_L F HF) as [x Hx].
  assert (∀ n y, y ∈ F → (Z.to_nat y < n)%nat → ∃ p, lowest F p) as Hgen;
    [|by eapply (Hgen (S (Z.to_nat x))); [exact Hx|lia]].
  intros n; induction n as [|n IH]; intros y Hy Hn; [lia|].
  destruct (decide (set_Exists (λ q, q < y) F)) as [(q & Hq & Hlt)|Hno].
  - apply (IH q Hq). specialize (Hpos q Hq). lia.
  - exists y. split; [done|]. intros q Hq.
    destruct (decide (q < y)) as [Hlt|]; [|lia]. destruct Hno. by exists q.
Qed.
