(* ===== verification/Pmm.v ===== *)
(** * Physical memory manager ([kernel/mm/pmm.cpp], [kernel/mm/pmm.hpp])

    The bitmap page allocator: its state, [pmm_init], [pmm_alloc], [pmm_free]
    and the counters, then the set of free pages it implements and the
    interface [PageAllocator] it offers to the heap. *)
From stdpp Require Import base tactics list gmap numbers.
From S2P Require Import Prelude Memory Interfaces.

Local Open Scope Z_scope.
Local Open Scope nova_scope.

(** ** Data *)

Definition BITMAP_QWORDS : Z := 16384.
Definition LIMINE_MEMMAP_USABLE : Z := 0.

(** [struct limine_memmap_entry]. *)
Record memmap_entry := Entry { e_base : Z; e_length : Z; e_type : Z }.

(** The file's static variables.  [bitmap] maps the array's indices to its
    qwords: an index outside the array is outside the map. *)
Record pmm := Pmm {
  bitmap : gmap Z Z;
  s_total_pages : Z;
  s_free_pages : Z;
  g_hhdm_offset : Z
}.

Definition set_bitmap (b : gmap Z Z) (s : pmm) : pmm :=
  Pmm b (s_total_pages s) (s_free_pages s) (g_hhdm_offset s).
Definition set_total (n : Z) (s : pmm) : pmm :=
  Pmm (bitmap s) n (s_free_pages s) (g_hhdm_offset s).
Definition set_free (n : Z) (s : pmm) : pmm :=
  Pmm (bitmap s) (s_total_pages s) n (g_hhdm_offset s).
Definition set_hhdm (o : Z) (s : pmm) : pmm :=
  Pmm (bitmap s) (s_total_pages s) (s_free_pages s) o.

(** Zero-initialised statics: the state before [pmm_init]. *)
Definition pmm_boot : pmm := Pmm (fill 0 BITMAP_QWORDS 0) 0 0 0.

(** ** Operations *)

(** [bitmap[qi]] read and written; both fault outside the array. *)
Definition bm_get (qi : Z) : M pmm Z := λ s, of_option (bitmap s !! qi) s.
Definition bm_put (qi v : Z) : M pmm unit := λ s,
  match bitmap s !! qi with
  | Some _ => Ok ((), set_bitmap (<[qi := v]> (bitmap s)) s)
  | None => Fault
  end.

Definition bit_set (p : Z) : M pmm unit :=
  w ← bm_get (p / 64); bm_put (p / 64) (w ||| (1 ≪ (p mod 64))).
Definition bit_clear (p : Z) : M pmm unit :=
  w ← bm_get (p / 64); bm_put (p / 64) (w &&& u64 (Z.lnot (1 ≪ (p mod 64)))).
Definition bit_test (p : Z) : M pmm bool :=
  w ← bm_get (p / 64); mret (negb ((w &&& (1 ≪ (p mod 64))) =? 0)).

Definition free_incr : M pmm unit := modify (λ s, set_free (u64 (s_free_pages s + 1)) s).
Definition free_decr : M pmm unit := modify (λ s, set_free (u64 (s_free_pages s - 1)) s).

Definition pmm_hhdm_offset (s : pmm) : Z := g_hhdm_offset s.

Definition phys_to_virt (s : pmm) (phys : Z) : Z := u64 (phys + g_hhdm_offset s).
Definition virt_to_phys (s : pmm) (virt : Z) : Z := u64 (virt - g_hhdm_offset s).

(** First pass of [pmm_init]: the highest page any entry reaches. *)
Definition count_entry (e : memmap_entry) : M pmm unit :=
  modify (λ s,
    let last_page := u64 (e_base e + e_length e) / 4096 in
    if s_total_pages s <? last_page then set_total last_page s else s).

(** Second pass: the inner loop over the pages of one usable entry. *)
Fixpoint mark_pages (fuel : nat) (addr limit : Z) : M pmm unit :=
  if addr <? limit then
    match fuel with
    | O => nofuel
    | S fuel =>
        let page := addr / 4096 in
        (if page <? BITMAP_QWORDS * 64
         then bit_set page ≫= λ _, free_incr else mret tt) ≫= λ _,
        mark_pages fuel (u64 (addr + 4096)) limit
    end
  else mret tt.

Definition align_up (a : Z) : Z := u64 (a + 0xFFF) &&& u64 (Z.lnot 0xFFF).
Definition align_down (a : Z) : Z := a &&& u64 (Z.lnot 0xFFF).

(** The iterations the inner loop needs: one per page of the region. *)
Definition mark_fuel (base limit : Z) : nat := Z.to_nat ((limit - base + 4095) / 4096).

Definition mark_entry (e : memmap_entry) : M pmm unit :=
  if e_type e =? LIMINE_MEMMAP_USABLE then
    let base := align_up (e_base e) in
    let limit := align_down (u64 (e_base e + e_length e)) in
    mark_pages (mark_fuel base limit) base limit
  else mret tt.

Definition reserve_page (p : Z) : M pmm unit :=
  t ← bit_test p; if (t : bool) then bit_clear p ≫= λ _, free_decr else mret tt.

Definition pmm_init (hhdm_off : Z) (entries : list memmap_entry) : M pmm unit :=
  modify (set_hhdm hhdm_off) ≫= λ _,
  for_each (range 0 BITMAP_QWORDS) (λ i, bm_put i 0) ≫= λ _,
  for_each entries count_entry ≫= λ _,
  modify (λ s, if BITMAP_QWORDS * 64 <? s_total_pages s
               then set_total (BITMAP_QWORDS * 64) s else s) ≫= λ _,
  for_each entries mark_entry ≫= λ _,
  for_each (range 0 256) reserve_page.

(** The linear scan of [pmm_alloc]; 0 is [nullptr]. *)
Fixpoint alloc_scan (qis : list Z) : M pmm Z :=
  match qis with
  | [] => mret 0
  | qi :: qis =>
      w ← bm_get qi;
      if w =? 0 then alloc_scan qis else
      let bit := ctz w in
      let page := u64 (qi * 64 + bit) in
      bit_clear page ≫= λ _, free_decr ≫= λ _, mret (u64 (page * 4096))
  end.

Definition pmm_alloc : M pmm Z := alloc_scan (range 0 BITMAP_QWORDS).

Definition pmm_free (phys_addr : Z) : M pmm unit :=
  let page := phys_addr / 4096 in
  if BITMAP_QWORDS * 64 <=? page then mret tt else
  t ← bit_test page;
  if (t : bool) then mret tt else bit_set page ≫= λ _, free_incr.

Definition pmm_free_pages (s : pmm) : Z := s_free_pages s.
Definition pmm_total_pages (s : pmm) : Z := s_total_pages s.
Definition pmm_used_bytes (s : pmm) : Z := u64 (u64 (s_total_pages s - s_free_pages s) * 4096).

(** ** Specification: the set of free pages *)

Definition PAGES : Z := BITMAP_QWORDS * 64.

(** Page [p]'s bit in a bitmap. *)
Definition page_bit (bm : gmap Z Z) (p : Z) : bool :=
  Z.testbit (default 0 (bm !! (p / 64))) (p mod 64).

(** The array is allocated in full and holds 64-bit words. *)
Definition bitmap_wf (bm : gmap Z Z) : Prop :=
  ∀ qi, match bm !! qi with
        | Some w => 0 ≤ qi < BITMAP_QWORDS ∧ 0 ≤ w < 2 ^ 64
        | None => ¬ (0 ≤ qi < BITMAP_QWORDS)
        end.

(** [s] represents the set [F] of free pages. *)
Record pmm_rep (s : pmm) (F : gset Z) : Prop := {
  rep_wf : bitmap_wf (bitmap s);
  rep_bits : ∀ p, p ∈ F ↔ 0 ≤ p < PAGES ∧ page_bit (bitmap s) p = true;
  rep_count : s_free_pages s = Z.of_nat (size F)
}.

(** * Lemmas *)

(** ** The bitmap, bit by bit *)

Definition bm_set (bm : gmap Z Z) (p : Z) : gmap Z Z :=
  <[p / 64 := default 0 (bm !! (p / 64)) ||| (1 ≪ (p mod 64))]> bm.
Definition bm_clear (bm : gmap Z Z) (p : Z) : gmap Z Z :=
  <[p / 64 := default 0 (bm !! (p / 64)) &&& u64 (Z.lnot (1 ≪ (p mod 64)))]> bm.

Lemma wf_word bm p :
  bitmap_wf bm → 0 ≤ p < PAGES →
  ∃ w, bm !! (p / 64) = Some w ∧ 0 ≤ w < 2 ^ 64 ∧
       default 0 (bm !! (p / 64)) = w.
Proof.
  intros Hwf Hp. specialize (Hwf (p / 64)). unfold PAGES, BITMAP_QWORDS in *.
  destruct (bm !! (p / 64)) as [w|]; [naive_solver|].
  destruct Hwf. split; [apply Z.div_pos; lia|apply Z.div_lt_upper_bound; lia].
Qed.

Lemma mod64_range p : 0 ≤ p mod 64 < 64.
Proof. apply Z.mod_pos_bound. lia. Qed.
#[local] Hint Resolve mod64_range : core.

Section bits.
Context (bm : gmap Z Z) (Hwf : bitmap_wf bm).

Lemma wf_insert p w :
  0 ≤ p < PAGES → 0 ≤ w < 2 ^ 64 → bitmap_wf (<[p / 64 := w]> bm).
Proof.
  intros Hp Hw qi. destruct (wf_word bm p Hwf Hp) as (w' & Hw' & _).
  pose proof (Hwf qi) as Hqi. destruct (decide (p / 64 = qi)) as [<-|].
  - rewrite lookup_insert_eq. rewrite Hw' in Hqi. naive_solver.
  - by rewrite lookup_insert_ne.
Qed.

Lemma wf_set p : 0 ≤ p < PAGES → bitmap_wf (bm_set bm p).
Proof.
  intros Hp. apply wf_insert; [done|].
  destruct (wf_word bm p Hwf Hp) as (w & _ & Hw & ->).
  pose proof (mod64_range p). split; [apply Z.lor_nonneg; split; [lia|]|].
  - apply Z.shiftl_nonneg. lia.
  - apply bounded_by_bits; [lia| |].
    { apply Z.lor_nonneg; split; [lia|apply Z.shiftl_nonneg; lia]. }
    intros i Hi. rewrite testbit_set by lia.
    rewrite (testbit_above 64) by lia. by apply Z.eqb_neq; lia.
Qed.

Lemma wf_clear p : 0 ≤ p < PAGES → bitmap_wf (bm_clear bm p).
Proof.
  intros Hp. apply wf_insert; [done|].
  destruct (wf_word bm p Hwf Hp) as (w & _ & Hw & ->).
  rewrite land_u64 by lia. split; [apply Z.land_nonneg; by left; lia|].
  apply bounded_by_bits; [lia|apply Z.land_nonneg; by left; lia|].
  intros i Hi. by rewrite Z.land_spec, (testbit_above 64) by lia.
Qed.

(** Two pages of one word differ in their bit. *)
Lemma page_split p q : p / 64 = q / 64 → (q mod 64 =? p mod 64) = bool_decide (q = p).
Proof.
  intros Hd. case_bool_decide as Hq; [subst; apply Z.eqb_refl|].
  apply Z.eqb_neq. intros Hm. apply Hq.
  rewrite (Z.div_mod q 64), (Z.div_mod p 64) by lia. lia.
Qed.

Lemma page_bit_set p q :
  0 ≤ p < PAGES → page_bit (bm_set bm p) q = page_bit bm q || bool_decide (q = p).
Proof.
  intros Hp. unfold page_bit, bm_set. destruct (decide (p / 64 = q / 64)) as [Hd|Hd].
  - rewrite Hd, lookup_insert_eq. simpl.
    rewrite testbit_set by apply mod64_range. by rewrite (page_split p q Hd).
  - rewrite lookup_insert_ne by done.
    rewrite bool_decide_eq_false_2 by congruence. by rewrite orb_false_r.
Qed.

Lemma page_bit_clear p q :
  0 ≤ p < PAGES → page_bit (bm_clear bm p) q = page_bit bm q && negb (bool_decide (q = p)).
Proof.
  intros Hp. unfold page_bit, bm_clear.
  destruct (wf_word bm p Hwf Hp) as (w & Hw & Hr & _).
  destruct (decide (p / 64 = q / 64)) as [Hd|Hd].
  - rewrite <- Hd, lookup_insert_eq, Hw. simpl. rewrite land_u64 by done.
    rewrite testbit_clear by apply mod64_range. by rewrite (page_split p q Hd).
  - rewrite lookup_insert_ne by done.
    rewrite bool_decide_eq_false_2 by congruence. by rewrite andb_true_r.
Qed.
End bits.

(** The bitmap helpers never leave the array on a page below 4 GB. *)
Lemma bit_set_eq s p :
  bitmap_wf (bitmap s) → 0 ≤ p < PAGES →
  bit_set p s = Ok ((), set_bitmap (bm_set (bitmap s) p) s).
Proof.
  intros Hwf Hp. destruct (wf_word _ p Hwf Hp) as (w & Hw & _).
  unfold bit_set, bm_get, mbind, M_bind, of_option, bm_put, bm_set.
  by rewrite !Hw.
Qed.

Lemma bit_clear_eq s p :
  bitmap_wf (bitmap s) → 0 ≤ p < PAGES →
  bit_clear p s = Ok ((), set_bitmap (bm_clear (bitmap s) p) s).
Proof.
  intros Hwf Hp. destruct (wf_word _ p Hwf Hp) as (w & Hw & _).
  unfold bit_clear, bm_get, mbind, M_bind, of_option, bm_put, bm_clear.
  by rewrite !Hw.
Qed.

Lemma bit_test_eq s p :
  bitmap_wf (bitmap s) → 0 ≤ p < PAGES →
  bit_test p s = Ok (page_bit (bitmap s) p, s).
Proof.
  intros Hwf Hp. destruct (wf_word _ p Hwf Hp) as (w & Hw & _).
  unfold bit_test, bm_get, mbind, M_bind, of_option, mret, M_ret, page_bit.
  rewrite !Hw. by rewrite land_bit_test by apply mod64_range.
Qed.

(** ** The represented set *)

Section rep.
Context (s : pmm) (F : gset Z) (Hrep : pmm_rep s F).

Lemma rep_range p : p ∈ F → 0 ≤ p < PAGES.
Proof. intros Hp. by apply (rep_bits _ _ Hrep) in Hp as [? _]. Qed.

Lemma rep_page_bit p : 0 ≤ p < PAGES → page_bit (bitmap s) p = bool_decide (p ∈ F).
Proof.
  intros Hp. pose proof (rep_bits _ _ Hrep p) as Hb. case_bool_decide.
  - naive_solver.
  - apply not_true_is_false. naive_solver.
Qed.

Lemma rep_size : Z.of_nat (size F) ≤ PAGES.
Proof.
  apply (size_bounded _ 0); [done|]. intros p Hp. by apply rep_range in Hp.
Qed.

(** Freeing one page. *)
Lemma rep_add p :
  0 ≤ p < PAGES → p ∉ F →
  pmm_rep (set_free (u64 (s_free_pages s + 1)) (set_bitmap (bm_set (bitmap s) p) s))
          ({[p]} ∪ F).
Proof.
  intros Hp HpF. pose proof rep_size. destruct Hrep as [Hwf Hb Hc].
  split; cbn.
  - by apply wf_set.
  - intros q. rewrite elem_of_union, elem_of_singleton, (Hb q).
    rewrite page_bit_set by done. rewrite orb_true_iff, bool_decide_eq_true.
    naive_solver.
  - rewrite Hc, size_union, size_singleton by set_solver.
    unfold PAGES, BITMAP_QWORDS in *. rewrite u64_small; lia.
Qed.

(** Taking one page. *)
Definition taken (p : Z) : pmm :=
  set_free (u64 (s_free_pages s - 1)) (set_bitmap (bm_clear (bitmap s) p) s).

Lemma rep_remove p : p ∈ F → pmm_rep (taken p) (F ∖ {[p]}).
Proof.
  intros HpF. pose proof rep_size. pose proof (rep_range p HpF) as Hp.
  assert (size F = S (size (F ∖ {[p]}))) as Hsz.
  { rewrite (union_difference_L {[p]} F) at 1 by set_solver.
    by rewrite size_union, size_singleton by set_solver. }
  destruct Hrep as [Hwf Hb Hc]. split; cbn.
  - by apply wf_clear.
  - intros q. rewrite elem_of_difference, elem_of_singleton, (Hb q).
    rewrite page_bit_clear by done.
    rewrite andb_true_iff, negb_true_iff, bool_decide_eq_false. naive_solver.
  - unfold PAGES, BITMAP_QWORDS in *. rewrite Hc, u64_small; lia.
Qed.
End rep.

(** ** Allocation *)

(** A zero word holds no free page; the lowest bit of a nonzero word is the
    lowest free page of that word. *)
Lemma word_pages s F qi w :
  pmm_rep s F → bitmap s !! qi = Some w →
  (w = 0 → ∀ q, q ∈ F → q / 64 ≠ qi) ∧
  (w ≠ 0 → qi * 64 + ctz w ∈ F ∧
           ∀ q, q ∈ F → 64 * qi ≤ q → qi * 64 + ctz w ≤ q).
Proof.
  intros [Hwf Hb _] Hw. pose proof (Hwf qi) as Hqi. rewrite Hw in Hqi.
  destruct Hqi as [Hqi Hr]. unfold PAGES, BITMAP_QWORDS in *.
  assert (∀ q, q ∈ F → q / 64 = qi → Z.testbit w (q mod 64) = true) as Hin.
  { intros q Hq Hd. apply Hb in Hq as [_ Hq]. unfold page_bit in Hq.
    by rewrite Hd, Hw in Hq. }
  split.
  - intros -> q Hq Hd. specialize (Hin q Hq Hd). by rewrite Z.testbit_0_l in Hin.
  - intros Hne. assert (0 < w) as Hpos by lia.
    pose proof (ctz_nonneg w). pose proof (ctz_bound w 64 ltac:(lia) ltac:(lia)).
    assert ((qi * 64 + ctz w) / 64 = qi) as Hdiv.
    { symmetry. apply (Z.div_unique _ _ _ (ctz w)); lia. }
    assert ((qi * 64 + ctz w) mod 64 = ctz w) as Hmod.
    { symmetry. apply (Z.mod_unique _ _ qi); lia. }
    split.
    + apply Hb. unfold page_bit. rewrite Hdiv, Hmod, Hw. split; [lia|].
      by apply ctz_set.
    + intros q Hq Hlo. destruct (decide (q / 64 = qi)) as [Hd|Hd].
      * specialize (Hin q Hq Hd).
        destruct (decide (q mod 64 < ctz w)) as [Hlt|];
          [by rewrite ctz_below in Hin by lia|].
        pose proof (Z.div_mod q 64 ltac:(lia)). lia.
      * assert (qi ≤ q / 64) by (apply Z.div_le_lower_bound; lia).
        pose proof (Z.mul_div_le q 64). lia.
Qed.

Lemma alloc_scan_spec s F k n :
  pmm_rep s F → 0 ≤ k → 0 ≤ n → k + n = BITMAP_QWORDS →
  (∀ q, q ∈ F → 64 * k ≤ q) →
  (F = ∅ ∧ alloc_scan (range k n) s = Ok (0, s)) ∨
  (∃ p, lowest F p ∧ alloc_scan (range k n) s = Ok (4096 * p, taken s p)).
Proof.
  intros Hrep Hk Hn. revert k Hk.
  apply natlike_ind with (x := n); [| |done]; clear n Hn.
  - intros k Hk Hkn Hlo. left. rewrite range_nil by lia. split; [|done].
    apply set_eq. intros q. split; [|set_solver]. intros Hq.
    pose proof (rep_range _ _ Hrep q Hq). apply Hlo in Hq.
    unfold PAGES, BITMAP_QWORDS in *. lia.
  - intros n Hn IH k Hk Hkn Hlo. rewrite range_cons by lia.
    replace (Z.succ n - 1) with n by lia. cbn [alloc_scan].
    pose proof (rep_wf _ _ Hrep k) as Hwk.
    destruct (bitmap s !! k) as [w|] eqn:Hw; [|lia].
    destruct (word_pages s F k w Hrep Hw) as [Hz Hnz].
    rewrite (bind_ok _ _ _ w s) by (unfold bm_get, of_option; by rewrite Hw).
    destruct (Z.eqb_spec w 0) as [->|Hne].
    + apply IH; [lia|lia|]. intros q Hq. pose proof (Hz eq_refl q Hq).
      specialize (Hlo q Hq).
      assert (k ≤ q / 64) by (apply Z.div_le_lower_bound; lia).
      pose proof (Z.mul_div_le q 64). lia.
    + right. destruct (Hnz Hne) as [Hin Hmin]. exists (k * 64 + ctz w).
      split; [split; [done|]; intros q Hq; apply Hmin; [done|by apply Hlo]|].
      pose proof (rep_range _ _ Hrep _ Hin) as Hr.
      unfold PAGES, BITMAP_QWORDS in Hr.
      rewrite (u64_small (k * 64 + ctz w)) by lia.
      rewrite (bind_ok _ _ _ _ _ (bit_clear_eq s _ (rep_wf _ _ Hrep) Hr)).
      unfold free_decr, modify, mbind, M_bind, mret, M_ret. cbn.
      rewrite u64_small by lia. by rewrite Z.mul_comm.
Qed.

Lemma pmm_alloc_spec s F :
  pmm_rep s F →
  (F = ∅ ∧ pmm_alloc s = Ok (0, s)) ∨
  (∃ p, lowest F p ∧ pmm_alloc s = Ok (4096 * p, taken s p)).
Proof.
  intros Hrep. apply alloc_scan_spec; [done|lia|done|done|].
  intros q Hq. apply (rep_range _ _ Hrep) in Hq. lia.
Qed.

Lemma pmm_free_spec s F a :
  pmm_rep s F → 0 ≤ a →
  ∃ s', pmm_free a s = Ok ((), s') ∧
        pmm_rep s' (if decide (a / 4096 < PAGES) then {[a / 4096]} ∪ F else F) ∧
        (a / 4096 ∈ F → s' = s).
Proof.
  intros Hrep Ha. unfold pmm_free. fold PAGES.
  assert (0 ≤ a / 4096) by (apply Z.div_pos; lia).
  destruct (Z.leb_spec PAGES (a / 4096)).
  { exists s. rewrite decide_False by lia. done. }
  rewrite decide_True by done.
  rewrite (bind_ok _ _ _ _ _ (bit_test_eq s (a / 4096) (rep_wf _ _ Hrep) ltac:(lia))).
  rewrite (rep_page_bit _ _ Hrep) by lia. case_bool_decide as Hin.
  - exists s. split_and!; [done| |done].
    replace ({[a / 4096]} ∪ F) with F by set_solver. done.
  - eexists. split_and!; [|by apply rep_add|done].
    by rewrite (bind_ok _ _ _ _ _ (bit_set_eq s (a / 4096) (rep_wf _ _ Hrep) ltac:(lia))).
Qed.

(** ** Initialisation *)

Lemma align_down_eq a : 0 ≤ a < 2 ^ 64 → align_down a = 4096 * (a / 4096).
Proof.
  intros Ha. unfold align_down. rewrite land_u64 by done.
  change 0xFFF with (Z.ones 12). rewrite <- Z.ldiff_land, Z.ldiff_ones_r by lia.
  rewrite Z.shiftl_mul_pow2, Z.shiftr_div_pow2 by lia.
  change (2 ^ 12) with 4096. lia.
Qed.

Lemma align_up_eq a :
  0 ≤ a → a + 4095 < 2 ^ 64 → align_up a = 4096 * ((a + 4095) / 4096).
Proof.
  intros ? Ha. unfold align_up. rewrite u64_small by lia.
  apply align_down_eq. lia.
Qed.

(** What [mark_pages] adds: the pages of the region below 4 GB. *)
Lemma mark_pages_spec fuel :
  ∀ s F lo hi, pmm_rep s F → 0 ≤ lo ≤ hi → 4096 * hi < 2 ^ 64 →
  (Z.to_nat (hi - lo) ≤ fuel)%nat → (∀ p, lo ≤ p < hi → p ∉ F) →
  ∃ s' F', mark_pages fuel (4096 * lo) (4096 * hi) s = Ok ((), s') ∧ pmm_rep s' F' ∧
    (∀ p, p ∈ F' ↔ p ∈ F ∨ (lo ≤ p < hi ∧ p < PAGES)) ∧
    s_total_pages s' = s_total_pages s ∧ g_hhdm_offset s' = g_hhdm_offset s.
Proof.
  induction fuel as [|fuel IH]; intros s F lo hi Hrep Hlo Hhi Hfuel HF;
    cbn [mark_pages]; destruct (Z.ltb_spec (4096 * lo) (4096 * hi)) as [Hlt|Hge];
    try lia.
  1, 3: exists s, F; split_and!; [done..| |done|done];
        intros p; split; [naive_solver|]; intros [?|?]; [done|lia].
  replace (4096 * lo / 4096) with lo by (rewrite Z.mul_comm, Z.div_mul; lia).
  rewrite (u64_small (4096 * lo + 4096)) by lia.
  replace (4096 * lo + 4096) with (4096 * (lo + 1)) by lia. fold PAGES.
  destruct (Z.ltb_spec lo PAGES) as [Hp|Hp].
  - assert (lo ∉ F) as Hni by (apply HF; lia).
    pose proof (rep_add _ _ Hrep lo ltac:(lia) Hni) as Hrep1.
    rewrite (bind_ok _ _ s () (set_free (u64 (s_free_pages s + 1))
      (set_bitmap (bm_set (bitmap s) lo) s))).
    + destruct (IH _ _ (lo + 1) hi Hrep1) as (s' & F' & Hs' & Hr' & HF' & Ht & Hh);
        [lia|lia|lia| |].
      { intros p Hp'. assert (p ∉ F) by (apply HF; lia). set_solver by lia. }
      exists s', F'. split_and!; [done..| |done|done].
      intros p. rewrite HF', elem_of_union, elem_of_singleton.
      destruct (decide (p = lo)); [|assert (lo ≤ p ↔ lo + 1 ≤ p) by lia]; naive_solver lia.
    + by rewrite (bind_ok _ _ _ _ _ (bit_set_eq s lo (rep_wf _ _ Hrep) ltac:(lia))).
  - rewrite (bind_ok _ _ s () s) by done.
    destruct (IH s F (lo + 1) hi Hrep) as (s' & F' & Hs' & Hr' & HF' & Ht & Hh);
      [lia|lia|lia|intros p Hp'; apply HF; lia|].
    exists s', F'. split_and!; [done..| |done|done].
    intros p. rewrite HF'. split; intros [?|?]; auto; lia.
Qed.

(** Page [p] lies entirely inside the usable entry [e]. *)
Definition usable_page (e : memmap_entry) (p : Z) : Prop :=
  e_type e = LIMINE_MEMMAP_USABLE ∧ e_base e ≤ 4096 * p ∧
  4096 * p + 4096 ≤ e_base e + e_length e.

(** An entry describes a range of the 64-bit physical address space that does
    not touch its last page. *)
Definition entry_ok (e : memmap_entry) : Prop :=
  0 ≤ e_base e ∧ 0 ≤ e_length e ∧ e_base e + e_length e + 4095 < 2 ^ 64.

(** Limine's promise: usable entries do not overlap. *)
Definition usable_disjoint (es : list memmap_entry) : Prop :=
  ∀ i j e1 e2 p, es !! i = Some e1 → es !! j = Some e2 → i ≠ j →
    usable_page e1 p → ¬ usable_page e2 p.

(** The highest page any entry reaches. *)
Definition last_page (es : list memmap_entry) : Z :=
  foldr (λ e n, Z.max ((e_base e + e_length e) / 4096) n) 0 es.

Lemma usable_page_bounds e p :
  e_type e = LIMINE_MEMMAP_USABLE →
  usable_page e p ↔ (e_base e + 4095) / 4096 ≤ p < (e_base e + e_length e) / 4096.
Proof.
  intros Ht. unfold usable_page. split.
  - intros (_ & ? & ?). split.
    + apply Z.lt_succ_r, Z.div_lt_upper_bound; lia.
    + apply Z.lt_le_trans with (p + 1); [lia|]. apply Z.div_le_lower_bound; lia.
  - pose proof (Z.div_mod (e_base e + 4095) 4096 ltac:(lia)).
    pose proof (Z.mod_pos_bound (e_base e + 4095) 4096 ltac:(lia)).
    pose proof (Z.mul_div_le (e_base e + e_length e) 4096 ltac:(lia)).
    intros [??]. split_and!; [done|lia|lia].
Qed.

Lemma mark_entry_spec e s F :
  pmm_rep s F → entry_ok e → (∀ p, usable_page e p → p ∉ F) →
  ∃ s' F', mark_entry e s = Ok ((), s') ∧ pmm_rep s' F' ∧
    (∀ p, p ∈ F' ↔ p ∈ F ∨ (usable_page e p ∧ p < PAGES)) ∧
    s_total_pages s' = s_total_pages s ∧ g_hhdm_offset s' = g_hhdm_offset s.
Proof.
  intros Hrep (Hb & Hl & Hlim) HF. unfold mark_entry.
  destruct (Z.eqb_spec (e_type e) LIMINE_MEMMAP_USABLE) as [Ht|Ht].
  2: { exists s, F. split_and!; [done..| |done|done].
       unfold usable_page. naive_solver. }
  setoid_rewrite usable_page_bounds in HF; [|done].
  setoid_rewrite usable_page_bounds; [|done].
  rewrite align_up_eq, u64_small, align_down_eq by lia.
  set (lo := (e_base e + 4095) / 4096) in *.
  set (hi := (e_base e + e_length e) / 4096) in *.
  assert (0 ≤ lo) by (apply Z.div_pos; lia).
  assert (4096 * hi ≤ e_base e + e_length e) by (apply Z.mul_div_le; lia).
  destruct (decide (lo ≤ hi)) as [Hle|Hgt].
  - apply mark_pages_spec; [done|lia|lia| |done].
    unfold mark_fuel. apply Z2Nat.inj_le; [lia|apply Z.div_pos; lia|].
    apply Z.div_le_lower_bound; lia.
  - exists s, F. split_and!; [|done| |done|done].
    + destruct (mark_fuel _ _); cbn [mark_pages];
        by destruct (Z.ltb_spec (4096 * lo) (4096 * hi)); [lia|].
    + intros p. split; [naive_solver|]. intros [?|?]; [done|lia].
Qed.

Lemma reserve_page_spec p s F :
  pmm_rep s F → 0 ≤ p < PAGES →
  ∃ s', reserve_page p s = Ok ((), s') ∧ pmm_rep s' (F ∖ {[p]}) ∧
    s_total_pages s' = s_total_pages s ∧ g_hhdm_offset s' = g_hhdm_offset s.
Proof.
  intros Hrep Hp. unfold reserve_page.
  rewrite (bind_ok _ _ _ _ _ (bit_test_eq s p (rep_wf _ _ Hrep) Hp)).
  rewrite (rep_page_bit _ _ Hrep) by done. case_bool_decide as Hin.
  - exists (taken s p). split_and!; [|by apply rep_remove|done|done].
    by rewrite (bind_ok _ _ _ _ _ (bit_clear_eq s p (rep_wf _ _ Hrep) Hp)).
  - exists s. split_and!; [done| |done|done].
    replace (F ∖ {[p]}) with F by set_solver. done.
Qed.

(** The four loops of [pmm_init], each by its invariant. *)
Section init.
Context (s0 : pmm) (Hwf : bitmap_wf (bitmap s0)).

Lemma clear_loop :
  s_free_pages s0 = 0 →
  ∃ s, for_each (range 0 BITMAP_QWORDS) (λ i, bm_put i 0) s0 = Ok ((), s) ∧
    pmm_rep s ∅ ∧ s_total_pages s = s_total_pages s0 ∧
    g_hhdm_offset s = g_hhdm_offset s0.
Proof using Hwf.
  intros Hf. edestruct (for_each_inv (λ dn s, bitmap_wf (bitmap s) ∧
    (∀ q, q ∈ dn → bitmap s !! q = Some 0) ∧ s_free_pages s = 0 ∧
    s_total_pages s = s_total_pages s0 ∧ g_hhdm_offset s = g_hhdm_offset s0)
    (λ i, bm_put i 0) (range 0 BITMAP_QWORDS) s0) as (s & Hs & Hw & Hz & Hf' & Ht & Hh).
  - intros dn q rest s Hr (Hw & Hz & Hf' & Ht & Hh).
    apply range_split in Hr as (_ & Hq & _). pose proof (Hw q) as Hwq.
    destruct (bitmap s !! q) as [w|] eqn:Hl; [|lia].
    exists (set_bitmap (<[q := 0]> (bitmap s)) s). split_and!; cbn; try done.
    + unfold bm_put. by rewrite Hl.
    + intros q'. destruct (decide (q = q')) as [<-|].
      * rewrite lookup_insert_eq. lia.
      * rewrite lookup_insert_ne by done. apply Hw.
    + intros q'. rewrite elem_of_app, list_elem_of_singleton. intros Hq'.
      rewrite lookup_insert. case_decide; [done|]. apply Hz. naive_solver.
  - split_and!; [done| |done..]. intros q Hq. by apply elem_of_nil in Hq.
  - exists s. split_and!; [done| |done|done]. split; [done| |].
    + intros p. split; [by intros ?%not_elem_of_empty|]. intros [Hp Hbit].
      destruct (wf_word _ _ Hw Hp) as (w & Hpw & _). exfalso.
      unfold page_bit in Hbit. rewrite Hz in Hbit.
      * cbn in Hbit. by rewrite Z.testbit_0_l in Hbit.
      * rewrite elem_of_range. pose proof (Hw (p / 64)) as Hq.
        rewrite Hpw in Hq. lia.
    + by rewrite Hf', size_empty.
Qed.
End init.

Lemma count_loop es s :
  Forall entry_ok es → 0 ≤ s_total_pages s →
  for_each es count_entry s =
    Ok ((), set_total (Z.max (s_total_pages s) (last_page es)) s).
Proof.
  intros Hes. revert s; induction Hes as [|e es (Hb & Hl & Hlim) Hes IH]; intros s H0.
  { cbn. rewrite Z.max_l by lia. by destruct s. }
  cbn [for_each]. set (n := (e_base e + e_length e) / 4096).
  assert (0 ≤ n) by (apply Z.div_pos; lia).
  rewrite (bind_ok _ _ _ () (if s_total_pages s <? n then set_total n s else s)).
  2: { unfold count_entry, modify. by rewrite u64_small by lia. }
  assert (last_page (e :: es) = Z.max n (last_page es)) as -> by done.
  destruct (Z.ltb_spec (s_total_pages s) n); rewrite IH by (cbn; lia);
    unfold set_total; cbn; do 3 f_equal; lia.
Qed.

Lemma mark_loop es s :
  Forall entry_ok es → usable_disjoint es → pmm_rep s ∅ →
  ∃ s' F', for_each es mark_entry s = Ok ((), s') ∧ pmm_rep s' F' ∧
    (∀ p, p ∈ F' ↔ p < PAGES ∧ ∃ e, e ∈ es ∧ usable_page e p) ∧
    s_total_pages s' = s_total_pages s ∧ g_hhdm_offset s' = g_hhdm_offset s.
Proof.
  intros Hok Hdis Hrep.
  edestruct (for_each_inv (λ dn s', ∃ F', pmm_rep s' F' ∧
      (∀ p, p ∈ F' ↔ p < PAGES ∧ ∃ e, e ∈ dn ∧ usable_page e p) ∧
      s_total_pages s' = s_total_pages s ∧ g_hhdm_offset s' = g_hhdm_offset s)
    mark_entry es s) as (s' & Hs' & F' & H'); [| |by exists s', F'].
  - intros dn e rest s1 Hl (F1 & Hr1 & HF1 & Ht1 & Hh1).
    destruct (mark_entry_spec e s1 F1 Hr1) as (s2 & F2 & Hs2 & Hr2 & HF2 & Ht2 & Hh2).
    + apply (Forall_lookup_1 _ es (length dn)); [done|].
      rewrite Hl. by apply list_lookup_middle.
    + intros p Hp. rewrite HF1. intros [_ (e' & He' & Hp')].
      apply list_elem_of_lookup in He' as [i Hi].
      assert (i < length dn)%nat by (by eapply lookup_lt_Some).
      apply (Hdis i (length dn) e' e p); [| |lia|done|done].
      * rewrite Hl. by rewrite lookup_app_l.
      * rewrite Hl. by apply list_lookup_middle.
    + exists s2. split; [done|]. exists F2. split_and!; [done| |congruence|congruence].
      intros p. rewrite HF2, HF1. setoid_rewrite elem_of_app.
      setoid_rewrite list_elem_of_singleton. naive_solver.
  - exists ∅. split_and!; [done| |done|done]. intros p. split; [set_solver|].
    intros (_ & e & He & _). by apply elem_of_nil in He.
Qed.

Lemma reserve_loop s F :
  pmm_rep s F →
  ∃ s' F', for_each (range 0 256) reserve_page s = Ok ((), s') ∧ pmm_rep s' F' ∧
    (∀ p, p ∈ F' ↔ p ∈ F ∧ 256 ≤ p) ∧
    s_total_pages s' = s_total_pages s ∧ g_hhdm_offset s' = g_hhdm_offset s.
Proof.
  intros Hrep.
  edestruct (for_each_inv (λ dn s', ∃ F', pmm_rep s' F' ∧
      (∀ p, p ∈ F' ↔ p ∈ F ∧ p ∉ dn) ∧
      s_total_pages s' = s_total_pages s ∧ g_hhdm_offset s' = g_hhdm_offset s)
    reserve_page (range 0 256) s) as (s' & Hs' & F' & Hr & HF & Ht & Hh).
  - intros dn p rest s1 Hl (F1 & Hr1 & HF1 & Ht1 & Hh1).
    apply range_split in Hl as (_ & Hp & _).
    destruct (reserve_page_spec p s1 F1 Hr1) as (s2 & Hs2 & Hr2 & Ht2 & Hh2).
    { unfold PAGES, BITMAP_QWORDS. lia. }
    exists s2. split; [done|]. exists (F1 ∖ {[p]}).
    split_and!; [done| |congruence|congruence]. intros q.
    rewrite elem_of_difference, elem_of_singleton, HF1, elem_of_app,
      list_elem_of_singleton. tauto.
  - exists F. split_and!; [done| |done|done]. set_solver.
  - exists s', F'. split_and!; [done..| |done|done]. intros p.
    rewrite HF, elem_of_range. split; intros [Hp ?]; split; try done.
    + apply (rep_range _ _ Hrep) in Hp. lia.
    + lia.
Qed.

Lemma pmm_boot_wf : bitmap_wf (bitmap pmm_boot).
Proof.
  intros qi. cbn. rewrite fill_lookup. case_decide as H; unfold BITMAP_QWORDS in *; lia.
Qed.

(** From any state whose counters are still zero, as at boot. *)
Lemma pmm_init_rep off es s0 :
  bitmap_wf (bitmap s0) → s_free_pages s0 = 0 → s_total_pages s0 = 0 →
  Forall entry_ok es → usable_disjoint es →
  ∃ s F, pmm_init off es s0 = Ok ((), s) ∧ pmm_rep s F ∧
    (∀ p, p ∈ F ↔ 256 ≤ p < PAGES ∧ ∃ e, e ∈ es ∧ usable_page e p) ∧
    s_total_pages s = Z.min PAGES (last_page es) ∧ g_hhdm_offset s = off.
Proof.
  intros Hwf0 Hf0 Ht0 Hok Hdis. unfold pmm_init.
  rewrite (bind_ok _ _ _ () (set_hhdm off s0)) by done.
  destruct (clear_loop (set_hhdm off s0) Hwf0 Hf0)
    as (s1 & Hs1 & Hr1 & Ht1 & Hh1). rewrite (bind_ok _ _ _ _ _ Hs1).
  rewrite (bind_ok _ _ _ _ _ (count_loop es s1 Hok ltac:(rewrite Ht1; cbn; lia))).
  rewrite Ht1. cbn [s_total_pages set_hhdm]. rewrite Ht0.
  set (s2 := set_total _ s1). fold PAGES.
  set (s3 := if PAGES <? s_total_pages s2 then set_total PAGES s2 else s2).
  rewrite (bind_ok _ _ _ () s3) by done.
  assert (pmm_rep s3 ∅ ∧ s_total_pages s3 = Z.min PAGES (last_page es) ∧
          g_hhdm_offset s3 = off) as (Hr3 & Ht3 & Hh3).
  { assert (0 ≤ last_page es).
    { clear. unfold last_page. induction es; cbn; lia. }
    unfold s3. destruct (Z.ltb_spec PAGES (s_total_pages s2)) as [Hc|Hc];
      cbn in Hc |- *; (split_and!; [by destruct Hr1; split|lia|by rewrite Hh1]). }
  destruct (mark_loop es s3 Hok Hdis Hr3) as (s4 & F4 & Hs4 & Hr4 & HF4 & Ht4 & Hh4).
  rewrite (bind_ok _ _ _ _ _ Hs4).
  destruct (reserve_loop s4 F4 Hr4) as (s5 & F5 & Hs5 & Hr5 & HF5 & Ht5 & Hh5).
  exists s5, F5. split_and!; [done|done| |congruence|congruence].
  intros p. rewrite HF5, HF4. split.
  - intros [[Hp He] ?]. split; [lia|exact He].
  - intros [Hp He]. split; [split; [lia|exact He]|lia].
Qed.

(** ** The interface *)

#[export, refine] Instance pmm_page_allocator : PageAllocator pmm :=
  {| pa_alloc := pmm_alloc; pa_rep := pmm_rep; pa_hhdm := pmm_hhdm_offset |}.
Proof.
  - intros s F p Hrep Hp. by apply (rep_range s F Hrep).
  - intros s F p Hrep Hp. destruct (pmm_alloc_spec s F Hrep) as [[-> _]|(q & Hq & Hs)].
    { destruct Hp as [Hp _]. by apply not_elem_of_empty in Hp. }
    rewrite (lowest_unique F p q) by done. exists (taken s q).
    split_and!; [done| |done]. apply rep_remove; [done|]. by destruct Hq.
  - intros s Hrep. destruct (pmm_alloc_spec s ∅ Hrep) as [[_ Hs]|(q & [Hq _] & _)].
    + done.
    + by apply not_elem_of_empty in Hq.
Defined.

(** Clearing a set bit and setting it again restores the array. *)
Lemma bm_set_clear bm p :
  bitmap_wf bm → 0 ≤ p < PAGES → page_bit bm p = true → bm_set (bm_clear bm p) p = bm.
Proof.
  intros Hwf Hp Hbit. destruct (wf_word bm p Hwf Hp) as (w & Hw & Hr & _).
  unfold bm_set, bm_clear, page_bit in *. rewrite lookup_insert_eq, insert_insert_eq.
  rewrite Hw in *. cbn in *. apply insert_id. rewrite Hw. f_equal.
  apply bits_eq. intros i Hi. rewrite testbit_set by (done || apply mod64_range).
  rewrite land_u64, testbit_clear by (done || apply mod64_range).
  destruct (Z.eqb_spec i (p mod 64)) as [->|]; [by rewrite Hbit|].
  by rewrite andb_true_r, orb_false_r.
Qed.

(** A memory map with two usable regions, one of them in low memory, and a
    reserved region; what a small machine reports. *)
Definition demo_map : list memmap_entry :=
  [Entry 0 0x9F000 0; Entry 0xF0000 0x10000 1; Entry 0x100000 0x100000 0].

Lemma demo_ok : Forall entry_ok demo_map.
Proof. repeat apply List.Forall_cons; try done; unfold entry_ok; cbn; lia. Qed.

Lemma demo_disjoint : usable_disjoint demo_map.
Proof.
  intros i j e1 e2 p Hi Hj Hij (Ht1 & H1 & H1') (Ht2 & H2 & H2').
  destruct i as [|[|[|i]]]; cbn in Hi; simplify_eq; cbn in *; try done;
    destruct j as [|[|[|j]]]; cbn in Hj; simplify_eq; cbn in *; try done; lia.
Qed.

Lemma demo_pages p :
  (256 ≤ p < PAGES ∧ ∃ e, e ∈ demo_map ∧ usable_page e p) ↔ 256 ≤ p < 512.
Proof.
  unfold demo_map, PAGES, BITMAP_QWORDS. split.
  - intros [Hp (e & He & Hu & H1 & H2)]. rewrite !elem_of_cons in He.
    destruct He as [->|[->|[->|He]]]; cbn in Hu, H1, H2;
      [lia|done|lia|by apply elem_of_nil in He].
  - intros Hp. split; [lia|]. exists (Entry 0x100000 0x100000 0).
    split; [rewrite !elem_of_cons; tauto|]. unfold usable_page. cbn. split_and!; [done|lia|lia].
Qed.

(** The state the demo map leads to. *)
Lemma demo_state : ∃ s F, pmm_init 0 demo_map pmm_boot = Ok ((), s) ∧ pmm_rep s F ∧
  (∀ p, p ∈ F ↔ 256 ≤ p < 512) ∧ s_total_pages s = 512.
Proof.
  destruct (pmm_init_rep 0 demo_map pmm_boot pmm_boot_wf eq_refl eq_refl demo_ok demo_disjoint)
    as (s & F & Hs & Hr & HF & Ht & _).
  exists s, F. split; [exact Hs|]. clear Hs. split_and!; [exact Hr| |exact Ht].
  intros p. rewrite HF. apply demo_pages.
Qed.

#[global] Opaque pmm_boot pmm_init.

(** * Properties *)

(** C21: [pmm_alloc] returns the physical address of the lowest free page and
    marks exactly that page used, on every state that represents a set of free
    pages; with no free page it returns 0 and changes nothing.  It never
    faults: no array access leaves the bitmap. *)
Theorem pmm_alloc_lowest (s : pmm) (F : gset Z) (Hrep : pmm_rep s F) :
  (F = ∅ ∧ pmm_alloc s = Ok (0, s)) ∨
  (∃ p s', lowest F p ∧ pmm_alloc s = Ok (4096 * p, s') ∧ pmm_rep s' (F ∖ {[p]}) ∧
     s_total_pages s' = s_total_pages s ∧ g_hhdm_offset s' = g_hhdm_offset s).
Proof.
  destruct (pmm_alloc_spec s F Hrep) as [?|(p & Hp & Hs)]; [by left|right].
  exists p, (taken s p). split_and!; [done..| |done|done].
  apply rep_remove; [done|]. by destruct Hp.
Qed.

Lemma pmm_alloc_lowest_witness :
  ∃ s F, pmm_rep s F ∧ 300 ∈ F ∧
    ∃ s', pmm_alloc s = Ok (4096 * 256, s') ∧ pmm_rep s' (F ∖ {[256]}).
Proof.
  destruct demo_state as (s & F & _ & Hr & HF & _). exists s, F.
  split_and!; [done|apply HF; lia|].
  destruct (pmm_alloc_lowest s F Hr) as [[-> _]|(p & s' & [Hp Hl] & Hs & Hr' & _)].
  - assert (256 ∈ (∅ : gset Z)) as H by (apply HF; lia).
    by apply not_elem_of_empty in H.
  - assert (p = 256) as ->.
    { apply HF in Hp. assert (p ≤ 256) by (apply Hl, HF; lia). lia. }
    by exists s'.
Defined.

(** C22: after [pmm_init] on a memory map whose usable entries do not overlap,
    the free pages are exactly the 4 KB pages that lie entirely inside a usable
    entry, at or above 1 MB and below 4 GB; the free counter is their number,
    the total is the highest page of the map capped at 4 GB, and the HHDM
    offset is recorded.  The nested loops terminate and no bitmap access is out
    of range. *)
Theorem pmm_init_usable (off : Z) (es : list memmap_entry)
    (Hok : Forall entry_ok es) (Hdis : usable_disjoint es) :
  ∃ s F, pmm_init off es pmm_boot = Ok ((), s) ∧ pmm_rep s F ∧
    (∀ p, p ∈ F ↔ 256 ≤ p < PAGES ∧ ∃ e, e ∈ es ∧ usable_page e p) ∧
    pmm_free_pages s = Z.of_nat (size F) ∧
    pmm_total_pages s = Z.min PAGES (last_page es) ∧ pmm_hhdm_offset s = off.
Proof.
  destruct (pmm_init_rep off es pmm_boot pmm_boot_wf eq_refl eq_refl Hok Hdis)
    as (s & F & Hs & Hr & HF & Ht & Hh).
  exists s, F. exact (conj Hs (conj Hr (conj HF (conj (rep_count _ _ Hr) (conj Ht Hh))))).
Qed.

Lemma pmm_init_usable_witness :
  ∃ s F, pmm_init 0xFFFF800000000000 demo_map pmm_boot = Ok ((), s) ∧ pmm_rep s F.
Proof.
  destruct (pmm_init_usable 0xFFFF800000000000 demo_map demo_ok demo_disjoint)
    as (s & F & Hs & Hr & _). exists s, F. exact (conj Hs Hr).
Defined.

(** C23: [pmm_free] adds the page of its argument to the free set, does nothing
    for an address at or above 4 GB and changes nothing on a page that is
    already free, so a double free does not corrupt the free counter. *)
Theorem pmm_free_adds (s : pmm) (F : gset Z) (a : Z) (Hrep : pmm_rep s F) (Ha : 0 ≤ a) :
  ∃ s', pmm_free a s = Ok ((), s') ∧
    pmm_rep s' (if decide (a / 4096 < PAGES) then {[a / 4096]} ∪ F else F) ∧
    (a / 4096 ∈ F → s' = s).
Proof. by apply pmm_free_spec. Qed.

Lemma pmm_free_adds_witness :
  ∃ s F s', pmm_rep s F ∧ ¬ (700 ∈ F) ∧ pmm_free (4096 * 700) s = Ok ((), s') ∧
    pmm_rep s' ({[700]} ∪ F).
Proof.
  destruct demo_state as (s & F & _ & Hr & HF & _). exists s, F.
  destruct (pmm_free_adds s F (4096 * 700) Hr ltac:(lia)) as (s' & Hs' & Hr' & _).
  exists s'. split_and!; [done|rewrite HF; lia|done|done].
Defined.

(** Freeing the page that [pmm_alloc] just returned restores the
    manager's state exactly: bitmap, counters and offset. *)
Theorem pmm_alloc_free_roundtrip (s s' : pmm) (F : gset Z) (a : Z)
    (Hrep : pmm_rep s F) (Ha : pmm_alloc s = Ok (a, s')) (Hnz : a ≠ 0) :
  pmm_free a s' = Ok ((), s).
Proof.
  destruct (pmm_alloc_spec s F Hrep) as [[_ Hs]|(p & [Hp _] & Hs)];
    rewrite Hs in Ha; simplify_eq.
  pose proof (rep_range _ _ Hrep p Hp) as Hr.
  pose proof (rep_remove _ _ Hrep p Hp) as Hrep'.
  unfold pmm_free. fold PAGES.
  replace (4096 * p / 4096) with p by (rewrite Z.mul_comm, Z.div_mul; lia).
  destruct (Z.leb_spec PAGES p) as [|_]; [lia|].
  rewrite (bind_ok _ _ _ _ _ (bit_test_eq _ p (rep_wf _ _ Hrep') Hr)).
  rewrite (rep_page_bit _ _ Hrep'), bool_decide_eq_false_2 by (done || set_solver).
  rewrite (bind_ok _ _ _ _ _ (bit_set_eq _ p (rep_wf _ _ Hrep') Hr)).
  pose proof (rep_size _ _ Hrep). pose proof (rep_count _ _ Hrep) as Hc.
  assert (0 < s_free_pages s) as Hpos.
  { rewrite Hc. assert (size F ≠ 0)%nat; [|lia].
    intros H0%size_empty_inv. set_solver. }
  unfold free_incr, modify, taken, set_free, set_bitmap, PAGES, BITMAP_QWORDS in *; cbn.
  rewrite bm_set_clear by (apply (rep_bits _ _ Hrep) in Hp as [??]; try done; apply Hrep).
  rewrite (u64_small (s_free_pages s - 1)) by lia.
  rewrite u64_small by lia. destruct s; cbn in *. do 3 f_equal. lia.
Qed.

Lemma pmm_alloc_free_roundtrip_witness :
  ∃ s s', pmm_alloc s = Ok (0x100000, s') ∧ pmm_free 0x100000 s' = Ok ((), s).
Proof.
  destruct demo_state as (s & F & _ & Hr & HF & _).
  destruct (pmm_alloc_spec s F Hr) as [[-> _]|(p & [Hp Hl] & Hs)].
  - assert (256 ∈ (∅ : gset Z)) as H by (apply HF; lia).
    by apply not_elem_of_empty in H.
  - assert (p = 256) as ->.
    { apply HF in Hp. assert (p ≤ 256) by (apply Hl, HF; lia). lia. }
    exists s, (taken s 256). split; [exact Hs|].
    by apply (pmm_alloc_free_roundtrip s _ F).
Defined.

(** [pmm_free] has no guard for [nullptr]: it puts page 0 into the free
    set, and the next [pmm_alloc] hands out that page as the address 0, the
    value its callers read as out of memory, although other pages are free. *)
Theorem pmm_free_null (s : pmm) (F : gset Z) (Hrep : pmm_rep s F) (H0 : 0 ∉ F) :
  ∃ s1 s2, pmm_free 0 s = Ok ((), s1) ∧ pmm_alloc s1 = Ok (0, s2) ∧
    pmm_rep s1 ({[0]} ∪ F) ∧ pmm_rep s2 F.
Proof.
  destruct (pmm_free_spec s F 0 Hrep ltac:(lia)) as (s1 & Hs1 & Hr1 & _).
  change (0 / 4096) with 0 in Hr1. rewrite decide_True in Hr1 by done.
  destruct (pmm_alloc_spec s1 _ Hr1) as [[He _]|(p & [Hp Hl] & Hs)]; [set_solver|].
  assert (p = 0) as ->.
  { pose proof (rep_range _ _ Hr1 p Hp). assert (p ≤ 0) by (apply Hl; set_solver). lia. }
  exists s1, (taken s1 0). split_and!; [done..|].
  assert (F = ({[0]} ∪ F) ∖ {[0]}) as -> by set_solver. apply rep_remove; [done|set_solver].
Qed.

Lemma pmm_free_null_witness :
  ∃ s s1 s2, pmm_free_pages s = 256 ∧
    pmm_free 0 s = Ok ((), s1) ∧ pmm_alloc s1 = Ok (0, s2).
Proof.
  destruct demo_state as (s & F & _ & Hr & HF & _).
  destruct (pmm_free_null s F Hr) as (s1 & s2 & H1 & H2 & _); [rewrite HF; lia|].
  exists s, s1, s2. split_and!; [|done..].
  unfold pmm_free_pages. rewrite (rep_count _ _ Hr).
  replace F with (list_to_set (range 256 256) : gset Z).
  - rewrite size_list_to_set, length_range by apply NoDup_range. done.
  - apply set_eq. intros p. rewrite elem_of_list_to_set, elem_of_range, HF. lia.
Defined.
