(* ===== verification/HeapSpec.v ===== *)
(** * What the kernel heap promises

    The pool seen as a list of blocks, in address order: allocation and release
    on that list, the invariant they keep and what follows from it, with no
    memory and no pointers.  [HeapProofs] refines [Heap]'s pointer code to
    these operations. *)
From stdpp Require Import base tactics numbers list.
From S2P Require Import Prelude Memory.

Local Open Scope Z_scope.

(** A block: the bytes its user area has, and whether it is free.  Its header
    takes [HDR] bytes in front of the user area. *)
Record block := Blk { bsize : Z; bfree : bool }.
#[export] Instance block_eq_dec : EqDecision block.
Proof. solve_decision. Defined.

Definition HDR : Z := 32.
Definition POOL : Z := 64 * 4096.

(** Bytes a list of blocks occupies. *)
Definition span (bs : list block) : Z := foldr (λ b n, HDR + bsize b + n) 0 bs.

(** Offset of block [i]'s header from the start of the pool. *)
Definition off (bs : list block) (i : nat) : Z := span (take i bs).

(** A block is cut in two when the rest can hold a header and 32 bytes. *)
Definition split (n : Z) (b : block) : list block :=
  if n + HDR + 32 <=? bsize b
  then [Blk n false; Blk (bsize b - n - HDR) true]
  else [Blk (bsize b) false].

(** First fit: the offset of the user area handed out, and the new blocks. *)
Fixpoint spec_alloc (n : Z) (bs : list block) : option (Z * list block) :=
  match bs with
  | [] => None
  | b :: bs =>
      if bfree b && (n <=? bsize b) then Some (HDR, split n b ++ bs)
      else '(o, bs') ← spec_alloc n bs; Some (HDR + bsize b + o, b :: bs')
  end.

(** Join block [i] with its successor when both are free. *)
Definition coalesce (i : nat) (bs : list block) : list block :=
  match bs !! i, bs !! S i with
  | Some a, Some b =>
      if bfree a && bfree b
      then take i bs ++ Blk (bsize a + (HDR + bsize b)) true :: drop (S (S i)) bs
      else bs
  | _, _ => bs
  end.

(** Release block [i]: mark it free, then join it with both neighbours. *)
Definition mark_free (i : nat) (bs : list block) : list block :=
  alter (λ b, Blk (bsize b) true) i bs.
Definition spec_free (i : nat) (bs : list block) : list block :=
  let bs := coalesce i (mark_free i bs) in
  match i with
  | O => bs
  | S j => coalesce j bs
  end.

(** ** Invariants *)

(** Sizes are non-negative multiples of 8. *)
Definition block_ok (b : block) : Prop := 0 ≤ bsize b ∧ (8 | bsize b).
(** The blocks tile the pool exactly. *)
Definition pool_ok (bs : list block) : Prop := Forall block_ok bs ∧ span bs = POOL.

(** No two neighbours are both free. *)
Definition head_free (bs : list block) : bool :=
  match bs with b :: _ => bfree b | [] => false end.
Definition last_free (bs : list block) : bool :=
  match last bs with Some b => bfree b | None => false end.
Fixpoint coalesced (bs : list block) : Prop :=
  match bs with
  | [] => True
  | b :: bs => bfree b && head_free bs = false ∧ coalesced bs
  end.

(** The allocations in use, in address order: offset of the user area and its
    size. *)
Fixpoint lives (o : Z) (bs : list block) : list (Z * Z) :=
  match bs with
  | [] => []
  | b :: bs => (if bfree b then [] else [(o + HDR, bsize b)]) ++ lives (o + HDR + bsize b) bs
  end.

(** * Lemmas *)

Lemma span_app l r : span (l ++ r) = span l + span r.
Proof. unfold span. induction l as [|b l IH]; cbn; lia. Qed.

Lemma span_cons b r : span (b :: r) = HDR + bsize b + span r.
Proof. done. Qed.

Lemma span_nonneg bs : Forall block_ok bs → 0 ≤ span bs.
Proof.
  unfold HDR, block_ok. induction 1 as [|b bs [Hb _] Hbs IH]; [done|].
  rewrite span_cons. unfold HDR. lia.
Qed.

Lemma span_length bs : Forall block_ok bs → HDR * Z.of_nat (length bs) ≤ span bs.
Proof.
  induction 1 as [|b bs [Hb _] Hbs IH]; [done|]. rewrite span_cons.
  cbn [length]. unfold HDR in *. lia.
Qed.

Lemma span_divide bs : Forall block_ok bs → (8 | span bs).
Proof.
  induction 1 as [|b bs [_ Hb] Hbs IH]; [by apply Z.divide_0_r|].
  rewrite span_cons. apply Z.divide_add_r; [|done].
  apply Z.divide_add_r; [by exists 4|done].
Qed.

Lemma block_size_bound l b r :
  Forall block_ok (l ++ b :: r) → bsize b + HDR ≤ span (l ++ b :: r) - span l.
Proof.
  rewrite Forall_app, Forall_cons_iff. intros (Hl & Hb & Hr).
  rewrite span_app, span_cons. apply span_nonneg in Hr. lia.
Qed.

(** Looking a block up splits the list around it. *)
Lemma lookup_split (bs : list block) i b :
  bs !! i = Some b → ∃ l r, bs = l ++ b :: r ∧ length l = i ∧ off bs i = span l.
Proof.
  intros Hi. exists (take i bs), (drop (S i) bs). split_and!; [|..|done].
  - symmetry. by apply take_drop_middle.
  - apply length_take_le. apply lookup_lt_Some in Hi. lia.
Qed.

Lemma off_app l b r : off (l ++ b :: r) (length l) = span l.
Proof. unfold off. by rewrite take_app_length. Qed.

(** *** The blocks are disjoint *)

Lemma off_mono bs i j b :
  Forall block_ok bs → (i < j)%nat → bs !! i = Some b → is_Some (bs !! j) →
  off bs i + HDR + bsize b ≤ off bs j.
Proof.
  intros Hok Hij Hi [c Hj].
  destruct (lookup_split bs j c Hj) as (l & r & -> & Hl & ->). subst j.
  rewrite lookup_app_l in Hi by done.
  apply Forall_app in Hok as [Hok _].
  destruct (lookup_split l i b Hi) as (l1 & l2 & -> & <- & _).
  rewrite <- app_assoc. cbn. rewrite off_app, span_app, span_cons.
  apply Forall_app in Hok as [_ Hok]. apply Forall_cons_1 in Hok as [_ Hok].
  apply span_nonneg in Hok. lia.
Qed.

Lemma blocks_disjoint bs i j a b :
  Forall block_ok bs → bs !! i = Some a → bs !! j = Some b → i ≠ j →
  disjoint (off bs i) (HDR + bsize a) (off bs j) (HDR + bsize b).
Proof.
  intros Hok Hi Hj Hij. destruct (decide (i < j)%nat).
  - left. pose proof (off_mono bs i j a Hok ltac:(done) Hi ltac:(eauto)). lia.
  - right. pose proof (off_mono bs j i b Hok ltac:(lia) Hj ltac:(eauto)). lia.
Qed.

Lemma lives_app o l r : lives o (l ++ r) = lives o l ++ lives (o + span l) r.
Proof.
  revert o; induction l as [|b l IH]; intros o; cbn [lives app].
  - by rewrite Z.add_0_r.
  - rewrite IH, span_cons, <- app_assoc. by rewrite !Z.add_assoc.
Qed.

Lemma lives_lookup bs o n :
  (o, n) ∈ lives 0 bs ↔
  ∃ i b, bs !! i = Some b ∧ bfree b = false ∧ o = off bs i + HDR ∧ n = bsize b.
Proof.
  split.
  - assert (∀ p, (o, n) ∈ lives p bs → ∃ i b, bs !! i = Some b ∧ bfree b = false ∧
      o = p + off bs i + HDR ∧ n = bsize b) as H; [|by intros Hin; apply H in Hin].
    induction bs as [|b bs IH]; intros p; cbn [lives]; [by intros ?%elem_of_nil|].
    rewrite elem_of_app. intros [Hb|Hin].
    + destruct (bfree b) eqn:Hf; [by apply elem_of_nil in Hb|].
      apply list_elem_of_singleton in Hb as [= -> ->]. exists 0%nat, b.
      unfold off. cbn. split_and!; [done..| |done]. lia.
    + apply IH in Hin as (i & c & Hi & Hf & -> & ->). exists (S i), c.
      unfold off. cbn [take]. rewrite span_cons. split_and!; [done..| |done]. lia.
  - intros (i & b & Hi & Hf & -> & ->).
    destruct (lookup_split bs i b Hi) as (l & r & -> & _ & ->).
    rewrite lives_app, elem_of_app. right. cbn [lives]. rewrite Hf. by left.
Qed.

(** An allocation in use lies in the pool, behind its header. *)
Lemma lives_bounds bs o n :
  pool_ok bs → (o, n) ∈ lives 0 bs → HDR ≤ o ∧ 0 ≤ n ∧ o + n ≤ POOL ∧ (8 | o).
Proof.
  intros [Hok Hsp] (i & b & Hi & _ & -> & ->)%lives_lookup.
  destruct (lookup_split bs i b Hi) as (l & r & -> & _ & ->).
  pose proof (block_size_bound l b r Hok) as Hb. rewrite Hsp in Hb.
  apply Forall_app in Hok as [Hl Hbr]. apply Forall_cons_1 in Hbr as [[Hpos _] _].
  pose proof (span_nonneg l Hl). pose proof (span_divide l Hl). unfold HDR in *.
  split_and!; [lia..|]. apply Z.divide_add_r; [done|by exists 4].
Qed.

(** Two allocations in use never overlap. *)
Lemma lives_disjoint bs o1 n1 o2 n2 :
  Forall block_ok bs → (o1, n1) ∈ lives 0 bs → (o2, n2) ∈ lives 0 bs → o1 ≠ o2 →
  disjoint (o1 - HDR) (HDR + n1) (o2 - HDR) (HDR + n2).
Proof.
  intros Hok (i & a & Hi & _ & -> & ->)%lives_lookup (j & b & Hj & _ & -> & ->)%lives_lookup Hne.
  assert (i ≠ j) as Hij by (by intros ->).
  pose proof (blocks_disjoint bs i j a b Hok Hi Hj Hij) as Hd.
  unfold disjoint, HDR in *. lia.
Qed.

(** *** Allocation *)

Lemma split_ok n b :
  0 ≤ n → (8 | n) → block_ok b → n ≤ bsize b → Forall block_ok (split n b).
Proof.
  intros Hn Hd [Hb Hbd] Hle. unfold split, HDR.
  destruct (Z.leb_spec (n + 32 + 32) (bsize b)); repeat constructor; cbn; try done; try lia.
  apply Z.divide_sub_r; [|by exists 4]. by apply Z.divide_sub_r.
Qed.

Lemma split_span n b : span (split n b) = HDR + bsize b.
Proof. unfold split, HDR. case_match; cbn; unfold HDR; lia. Qed.

(** What first fit finds: the first free block that is large enough. *)
Lemma spec_alloc_split n bs o bs' :
  spec_alloc n bs = Some (o, bs') ↔
  ∃ l b r, bs = l ++ b :: r ∧ bs' = l ++ split n b ++ r ∧ o = span l + HDR ∧
    bfree b = true ∧ n ≤ bsize b ∧
    Forall (λ c, ¬ (bfree c = true ∧ n ≤ bsize c)) l.
Proof.
  revert o bs'; induction bs as [|c bs IH]; intros o bs'; cbn [spec_alloc].
  - split; [done|]. intros (l & b & r & H & _). by destruct l.
  - destruct (bfree c && (n <=? bsize c)) eqn:Hc.
    + apply andb_true_iff in Hc as [Hf Hle%Z.leb_le]. split.
      * intros [= <- <-]. exists [], c, bs. cbn. split_and!; try done; lia.
      * intros (l & b & r & Hbs & -> & -> & Hb & Hn & Hl).
        destruct l as [|c' l]; cbn in Hbs; simplify_eq; [done|].
        apply Forall_cons_1 in Hl as [Hl _]. by destruct Hl.
    + assert (¬ (bfree c = true ∧ n ≤ bsize c)) as Hc'.
      { intros [Hf Hle%Z.leb_le]. by rewrite Hf, Hle in Hc. }
      split.
      * destruct (spec_alloc n bs) as [[o1 bs1]|]; cbn; [|done].
        intros [= <- <-].
        destruct (proj1 (IH o1 bs1) eq_refl) as (l & b & r & -> & -> & -> & Hb & Hn & Hl).
        exists (c :: l), b, r. rewrite span_cons. split_and!; try done; [lia|].
        by constructor.
      * intros (l & b & r & Hbs & -> & -> & Hb & Hn & Hl).
        destruct l as [|c' l]; cbn in Hbs; simplify_eq; [by destruct Hc'|].
        apply Forall_cons_1 in Hl as [_ Hl].
        assert (spec_alloc n (l ++ b :: r) = Some (span l + HDR, l ++ split n b ++ r)) as ->.
        { apply IH. by exists l, b, r. }
        cbn -[span split]. rewrite span_cons. do 2 f_equal. lia.
Qed.

Lemma spec_alloc_none n bs :
  spec_alloc n bs = None ↔ Forall (λ b, ¬ (bfree b = true ∧ n ≤ bsize b)) bs.
Proof.
  induction bs as [|b bs IH]; cbn [spec_alloc]; [by split|].
  rewrite Forall_cons_iff, <- IH, <- Z.leb_le.
  destruct (bfree b), (n <=? bsize b), (spec_alloc n bs) as [[]|]; cbn; naive_solver.
Qed.

Lemma spec_alloc_pool n bs o bs' :
  0 ≤ n → (8 | n) → pool_ok bs → spec_alloc n bs = Some (o, bs') → pool_ok bs'.
Proof.
  intros Hn Hd [Hok Hsp] (l & b & r & -> & -> & -> & Hf & Hle & _)%spec_alloc_split.
  apply Forall_app in Hok as [Hl Hbr]. apply Forall_cons_1 in Hbr as [Hb Hr]. split.
  - rewrite !Forall_app. auto using split_ok.
  - rewrite <- Hsp, !span_app, split_span, span_cons. lia.
Qed.

(** The new allocation is added to the ones in use; no other changes. *)
Lemma spec_alloc_lives n bs o bs' :
  spec_alloc n bs = Some (o, bs') →
  ∃ k x y, lives 0 bs = x ++ y ∧ lives 0 bs' = x ++ (o, k) :: y ∧
           n ≤ k ∧ k < n + HDR + 32.
Proof.
  intros (l & b & r & -> & -> & -> & Hf & Hle & _)%spec_alloc_split.
  exists (if n + HDR + 32 <=? bsize b then n else bsize b), (lives 0 l),
    (lives (span l + (HDR + bsize b)) r).
  rewrite !lives_app, split_span. cbn [lives]. rewrite Hf. cbn [app].
  unfold split. destruct (Z.leb_spec (n + HDR + 32) (bsize b)); cbn [lives app bfree bsize].
  - split_and!; [by rewrite <- !Z.add_assoc..|lia|unfold HDR; lia].
  - split_and!; [by rewrite <- !Z.add_assoc..|lia|unfold HDR in *; lia].
Qed.

(** *** Release *)

Lemma coalesce_zip l a r :
  coalesce (length l) (l ++ a :: r) =
  match r with
  | c :: r' => if bfree a && bfree c
               then l ++ Blk (bsize a + (HDR + bsize c)) true :: r' else l ++ a :: r
  | [] => l ++ [a]
  end.
Proof.
  unfold coalesce. rewrite list_lookup_middle by done.
  rewrite lookup_app_r by lia. replace (S (length l) - length l)%nat with 1%nat by lia.
  destruct r as [|c r]; cbn; [done|].
  rewrite take_app_length. rewrite drop_app_ge by lia.
  by replace (S (S (length l)) - length l)%nat with 2%nat by lia.
Qed.

Lemma mark_free_zip l b r :
  mark_free (length l) (l ++ b :: r) = l ++ Blk (bsize b) true :: r.
Proof.
  unfold mark_free. rewrite alter_app_r_alt by lia.
  by replace (length l - length l)%nat with 0%nat by lia.
Qed.

(** Joining two free blocks changes neither the bytes covered nor the
    allocations in use. *)
Lemma coalesce_inv i bs :
  (∃ l a r, bs = l ++ a :: r ∧ length l = i) →
  span (coalesce i bs) = span bs ∧ lives 0 (coalesce i bs) = lives 0 bs ∧
  (Forall block_ok bs → Forall block_ok (coalesce i bs)).
Proof.
  intros (l & a & r & -> & <-). rewrite coalesce_zip.
  destruct r as [|c r]; [done|].
  destruct (bfree a && bfree c) eqn:H; [|done].
  apply andb_true_iff in H as [Ha Hc]. split_and!.
  - rewrite !span_app, !span_cons. cbn. unfold HDR. lia.
  - rewrite !lives_app. cbn [lives bfree bsize]. rewrite Ha, Hc. cbn [app].
    do 2 f_equal. unfold HDR. lia.
  - rewrite !Forall_app, !Forall_cons_iff. intros (Hl & [??] & [??] & Hr).
    unfold block_ok, HDR in *. cbn. split_and!; [done|lia| |done].
    apply Z.divide_add_r; [done|]. apply Z.divide_add_r; [by exists 4|done].
Qed.

Lemma coalesce_length i bs :
  (length (coalesce i bs) ≤ length bs)%nat ∧
  (i < length (coalesce i bs) ↔ i < length bs)%nat.
Proof.
  unfold coalesce. destruct (bs !! i) as [a|] eqn:Ha; [|done].
  destruct (bs !! S i) as [b|] eqn:Hb; [|done].
  destruct (bfree a && bfree b); [|done].
  apply lookup_lt_Some in Ha, Hb.
  rewrite length_app, length_take_le by lia. cbn [length]. rewrite length_drop. lia.
Qed.

(** Both joins, on the list cut at the released block. *)
Lemma spec_free_inv l b r :
  bfree b = false → pool_ok (l ++ b :: r) →
  pool_ok (spec_free (length l) (l ++ b :: r)) ∧
  lives 0 (spec_free (length l) (l ++ b :: r)) =
    lives 0 l ++ lives (span l + HDR + bsize b) r.
Proof.
  intros Hf [Hok Hsp]. unfold spec_free. rewrite mark_free_zip.
  destruct (coalesce_inv (length l) (l ++ Blk (bsize b) true :: r)) as (Hs1 & Hl1 & Hok1).
  { eauto. }
  assert (Forall block_ok (l ++ Blk (bsize b) true :: r)) as Hok0.
  { rewrite !Forall_app, !Forall_cons_iff in *. naive_solver. }
  specialize (Hok1 Hok0).
  assert (span (l ++ Blk (bsize b) true :: r) = POOL) as Hsp0.
  { by rewrite <- Hsp, !span_app, !span_cons. }
  assert (lives 0 (l ++ Blk (bsize b) true :: r)
          = lives 0 l ++ lives (span l + HDR + bsize b) r) as Hl0.
  { by rewrite lives_app. }
  destruct (length l) as [|j] eqn:Hj.
  { split; [split|]; congruence. }
  destruct (coalesce_inv j (coalesce (S j) (l ++ Blk (bsize b) true :: r)))
    as (Hs2 & Hl2 & Hok2).
  - destruct (lookup_lt_is_Some_2 (coalesce (S j) (l ++ Blk (bsize b) true :: r)) j) as [c Hc].
    { destruct (coalesce_length (S j) (l ++ Blk (bsize b) true :: r)) as [_ Hlt].
      rewrite length_app in Hlt. cbn in Hlt. lia. }
    destruct (lookup_split _ _ _ Hc) as (l' & r' & He & Hl' & _). by exists l', c, r'.
  - split; [split|]; [by apply Hok2|congruence|congruence].
Qed.

(** *** No two free neighbours *)

Lemma last_free_cons a b l : last_free (a :: b :: l) = last_free (b :: l).
Proof. done. Qed.

Lemma last_free_snoc l a : last_free (l ++ [a]) = bfree a.
Proof. unfold last_free. by rewrite last_snoc. Qed.

Lemma coalesced_app l r :
  coalesced (l ++ r) ↔ coalesced l ∧ coalesced r ∧ last_free l && head_free r = false.
Proof.
  induction l as [|a l IH]; cbn [app coalesced]; [tauto|]. rewrite IH.
  destruct l as [|b l]; [|rewrite last_free_cons; tauto].
  cbn. unfold last_free. cbn. rewrite andb_false_r. tauto.
Qed.

(** A free block in front of [r] swallows [r]'s head when that is free. *)
Definition join_right (f : block) (r : list block) : list block :=
  match r with
  | c :: r' => if bfree c then Blk (bsize f + (HDR + bsize c)) true :: r' else f :: r
  | [] => [f]
  end.

Lemma coalesce_free_zip l f r :
  bfree f = true → coalesce (length l) (l ++ f :: r) = l ++ join_right f r.
Proof.
  intros Hf. rewrite coalesce_zip. destruct r as [|c r]; [done|].
  rewrite Hf. cbn. by destruct (bfree c).
Qed.

Lemma coalesce_used_zip l a r :
  bfree a = false → coalesce (length l) (l ++ a :: r) = l ++ a :: r.
Proof. intros Ha. rewrite coalesce_zip. destruct r; [done|]. by rewrite Ha. Qed.

Lemma join_right_shape f r :
  bfree f = true → coalesced r →
  ∃ g r', join_right f r = g :: r' ∧ bfree g = true ∧ head_free r' = false ∧ coalesced r'.
Proof.
  intros Hf. destruct r as [|c r]; cbn; [by exists f, []|]. intros [Hc Hr].
  destruct (bfree c) eqn:E; eexists _, _; split_and!; try done.
  by split; [rewrite E|].
Qed.

(** [spec_free] on the list cut at the released block [b]. *)
Lemma spec_free_head b r :
  spec_free 0 (b :: r) = join_right (Blk (bsize b) true) r.
Proof. apply (coalesce_free_zip [] (Blk (bsize b) true) r). done. Qed.

Lemma spec_free_snoc l a b r :
  spec_free (S (length l)) (l ++ a :: b :: r) =
  coalesce (length l) (l ++ a :: join_right (Blk (bsize b) true) r).
Proof.
  unfold spec_free.
  assert (S (length l) = length (l ++ [a])) as Hlen by (rewrite length_app; cbn; lia).
  assert (l ++ a :: b :: r = (l ++ [a]) ++ b :: r) as -> by (by rewrite <- app_assoc).
  rewrite Hlen at 1 2. rewrite mark_free_zip, coalesce_free_zip by done.
  by rewrite <- app_assoc.
Qed.

(** Releasing a block leaves no two free neighbours. *)
Lemma spec_free_coalesced l b r :
  coalesced (l ++ b :: r) → coalesced (spec_free (length l) (l ++ b :: r)).
Proof.
  rewrite coalesced_app. cbn [coalesced]. intros (Hl & [_ Hr] & _).
  destruct (join_right_shape (Blk (bsize b) true) r) as (g & r' & Hj & Hg & Hr' & Hc); [done..|].
  destruct l as [|a l _] using rev_ind; [cbn [length app]; rewrite spec_free_head, Hj|].
  { split; [by rewrite Hg, Hr'|done]. }
  rewrite length_app, <- app_assoc. cbn [length app].
  rewrite Nat.add_1_r, spec_free_snoc, Hj.
  apply coalesced_app in Hl as (Hl & _ & Hla). cbn [head_free] in Hla.
  destruct (bfree a) eqn:Ha.
  - rewrite coalesce_free_zip by done. cbn [join_right]. rewrite Hg.
    rewrite andb_true_r in Hla. apply coalesced_app.
    split_and!; [done| |by rewrite Hla]. cbn [coalesced bfree]. by rewrite Hr'.
  - rewrite coalesce_used_zip by done. apply coalesced_app.
    split_and!; [done| |cbn [head_free]; by rewrite Ha, andb_false_r].
    cbn [coalesced head_free]. by rewrite Ha, Hg, Hr'.
Qed.

(** Allocation leaves no two free neighbours either. *)
Lemma spec_alloc_coalesced n bs o bs' :
  coalesced bs → spec_alloc n bs = Some (o, bs') → coalesced bs'.
Proof.
  intros Hc (l & b & r & -> & -> & -> & Hf & Hle & _)%spec_alloc_split.
  apply coalesced_app in Hc as (Hl & Hbr & Hlb). cbn in Hbr, Hlb.
  rewrite Hf in Hbr. destruct Hbr as [Hhr Hr].
  unfold split. case_match; rewrite !coalesced_app; cbn;
    rewrite ?andb_false_r; split_and!; try done; by rewrite Hhr.
Qed.

(** Releasing the block just allocated gives the old list back. *)
Lemma spec_alloc_free n bs o bs' :
  coalesced bs → spec_alloc n bs = Some (o, bs') →
  ∃ i b, bs' !! i = Some b ∧ bfree b = false ∧ o = off bs' i + HDR ∧ spec_free i bs' = bs.
Proof.
  intros Hc (l & b & r & -> & -> & -> & Hf & Hle & _)%spec_alloc_split.
  apply coalesced_app in Hc as (Hl & [Hbr _] & Hlb). cbn in Hbr, Hlb.
  rewrite Hf in Hbr, Hlb. cbn in Hbr. rewrite andb_true_r in Hlb.
  set (k := if n + HDR + 32 <=? bsize b then n else bsize b).
  assert (∃ r', split n b ++ r = Blk k false :: r' ∧
                join_right (Blk k true) r' = b :: r) as (r' & -> & Hj).
  { unfold split, k. destruct (n + HDR + 32 <=? bsize b); eexists; (split; [done|]).
    - cbn. f_equal. destruct b as [z f]; cbn in *. f_equal; [lia|done].
    - destruct r as [|c r]; cbn in *; [|rewrite Hbr]; by destruct b; cbn in *; subst. }
  exists (length l), (Blk k false).
  rewrite list_lookup_middle, off_app by done. split_and!; [done..|].
  destruct l as [|a l _] using rev_ind; [cbn [length app]; by rewrite spec_free_head|].
  rewrite last_free_snoc in Hlb. rewrite length_app, <- !app_assoc. cbn [length app].
  rewrite Nat.add_1_r, spec_free_snoc. cbn [bsize]. rewrite Hj.
  by rewrite coalesce_used_zip.
Qed.
