(* ===== verification/HeapProofs.v ===== *)
(** * The kernel heap implements its specification

    Refinement of [Heap]'s pointer code to [HeapSpec]'s block lists: what a
    header looks like in memory, what each store to a header changes, and for
    [kmalloc] and [kfree] that they compute the specification's result, keep the
    representation and touch no byte outside the block headers. *)
From stdpp Require Import base tactics numbers gmap list.
From S2P Require Import Prelude Memory Interfaces HeapSpec Heap.

Local Open Scope Z_scope.

(** ** Headers in memory *)

(** The five fields at a header's address. *)
Record raw := Raw {
  r_magic : option Z; r_size : option Z; r_free : option Z;
  r_next : option Z; r_prev : option Z
}.
Definition raw_of (m : mem) (a : Z) : raw :=
  Raw (load 4 a m) (load 4 (a + OFF_SIZE) m) (load 1 (a + OFF_FREE) m)
      (load 8 (a + OFF_NEXT) m) (load 8 (a + OFF_PREV) m).

Record hdr := Hdr { h_size : Z; h_free : bool; h_next : Z; h_prev : Z }.
Definition raw_hdr (h : hdr) : raw :=
  Raw (Some HEAP_MAGIC) (Some (h_size h)) (Some (Z.b2z (h_free h)))
      (Some (h_next h)) (Some (h_prev h)).

(** The headers a list of blocks has when it starts at [a]: [p] is the header
    before it and [nx] what its last header points to. *)
Fixpoint hdrs (p a : Z) (bs : list block) (nx : Z) : list (Z * hdr) :=
  match bs with
  | [] => []
  | b :: bs' =>
      let e := a + HDR + bsize b in
      (a, Hdr (bsize b) (bfree b) (match bs' with [] => nx | _ => e end) p) ::
      hdrs a e bs' nx
  end.

(** Address of the last header of a list, [p] when it is empty. *)
Fixpoint last_hdr (p a : Z) (bs : list block) : Z :=
  match bs with [] => p | b :: bs => last_hdr a (a + HDR + bsize b) bs end.

Definition hdrs_ok (m : mem) (L : list (Z * hdr)) : Prop :=
  Forall (λ x, raw_of m x.1 = raw_hdr x.2) L.

(** Where the pool may lie. *)
Definition base_ok (base : Z) : Prop :=
  HDR ≤ base ∧ (8 | base) ∧ base + POOL < 2 ^ 64.

(** The memory at [base] represents the blocks [bs]. *)
Record heap_mem (base : Z) (bs : list block) (m : mem) : Prop := {
  hm_base : base_ok base;
  hm_pool : pool_ok bs;
  hm_mapped : mapped base POOL m;
  hm_hdrs : hdrs_ok m (hdrs 0 base bs 0)
}.

Definition heap_rep (base : Z) (bs : list block) (h : heap) : Prop :=
  s_head h = base ∧ heap_mem base bs (hmem h).

(** Only bytes of the 32-byte headers at the addresses [A] may differ. *)
Definition wrote (A : list Z) (m m' : mem) : Prop :=
  same_dom m m' ∧
  ∀ b k, Forall (λ a, disjoint a HDR b k) A → same_bytes b k m m'.

(** The addresses of a list's headers. *)
Fixpoint addrs (a : Z) (bs : list block) : list Z :=
  match bs with [] => [] | b :: bs => a :: addrs (a + HDR + bsize b) bs end.

(** Only header bytes of the two block lists may differ. *)
Definition wrote_hdrs (base : Z) (bs bs' : list block) (m m' : mem) : Prop :=
  wrote (addrs base bs ++ addrs base bs') m m'.

(** * Lemmas *)

Lemma wrote_refl A m : wrote A m m.
Proof. split; [apply same_dom_refl|]. intros. apply same_bytes_refl. Qed.

Lemma wrote_trans A m1 m2 m3 : wrote A m1 m2 → wrote A m2 m3 → wrote A m1 m3.
Proof.
  intros [D1 W1] [D2 W2]. split; [by eapply same_dom_trans|].
  intros b k Hb. eapply same_bytes_trans; eauto.
Qed.

Lemma wrote_sub A B m m' : wrote A m m' → A ⊆ B → wrote B m m'.
Proof.
  intros [D W] HAB. split; [done|]. intros b k Hb. apply W.
  apply list.Forall_forall. intros a Ha. rewrite list.Forall_forall in Hb. auto.
Qed.

Lemma wrote_one a B m m' : wrote [a] m m' → a ∈ B → wrote B m m'.
Proof. intros HW Ha. apply (wrote_sub [a]); [done|]. set_solver. Qed.

Lemma wrote_mapped A b k m m' : wrote A m m' → mapped b k m → mapped b k m'.
Proof. intros [D _]. by apply mapped_same_dom. Qed.

Lemma raw_ext m m' a : same_bytes a HDR m m' → raw_of m' a = raw_of m a.
Proof.
  intros H. unfold raw_of, OFF_SIZE, OFF_FREE, OFF_NEXT, OFF_PREV.
  f_equal; apply load_ext; intros b Hb; apply H; unfold HDR; lia.
Qed.

Lemma wrote_raw A m m' b r :
  wrote A m m' → Forall (λ a, disjoint a HDR b HDR) A →
  raw_of m b = r → raw_of m' b = r.
Proof. intros [_ W] Hd <-. by apply raw_ext, W. Qed.

(** *** Field accesses *)

Section fields.
Context (m : mem) (a : Z) (h : hdr) (Hraw : raw_of m a = raw_hdr h).

Lemma get_magic_ok : get_magic a m = Ok (HEAP_MAGIC, m).
Proof using Hraw. injection Hraw. intros. by apply ld_ok. Qed.
Lemma get_size_ok : get_size a m = Ok (h_size h, m).
Proof using Hraw. injection Hraw. intros. by apply ld_ok. Qed.
Lemma get_free_ok : get_free a m = Ok (h_free h, m).
Proof using Hraw.
  injection Hraw. intros. unfold get_free. erewrite bind_ok by by apply ld_ok.
  by destruct (h_free h).
Qed.
Lemma get_next_ok : get_next a m = Ok (h_next h, m).
Proof using Hraw. injection Hraw. intros. by apply ld_ok. Qed.
Lemma get_prev_ok : get_prev a m = Ok (h_prev h, m).
Proof using Hraw. injection Hraw. intros. by apply ld_ok. Qed.
End fields.

Lemma set_field_ok n a o v m :
  mapped a HDR m → 0 ≤ o → o + Z.of_nat n ≤ HDR →
  ∃ m', st n (a + o) v m = Ok ((), m') ∧
        load n (a + o) m' = Some (v mod 256 ^ Z.of_nat n) ∧ wrote [a] m m' ∧
        ∀ n' o', disjoint o (Z.of_nat n) o' (Z.of_nat n') →
                 load n' (a + o') m' = load n' (a + o') m.
Proof.
  intros Hm Ho Hn. destruct (st_ok n (a + o) v m) as (m' & Hst & Hl & Hd & Hs).
  { eapply mapped_sub; [done|lia|lia]. }
  exists m'. split_and!; [done..| |].
  - split; [done|]. intros b k [Hb _]%Forall_cons_1. apply Hs.
    destruct Hb; [left|right]; lia.
  - intros n' o' Hdis. apply load_ext, Hs. destruct Hdis; [left|right]; lia.
Qed.

Ltac offs := unfold OFF_SIZE, OFF_FREE, OFF_NEXT, OFF_PREV, HDR, disjoint in *; lia.

(** What a store to one field leaves in the header: [Hl] is the field written,
    [Ho] the other fields. *)
Ltac raw_upd Hl Ho :=
  pose proof (Ho 4%nat 0) as Hmagic; rewrite ?Z.add_0_r in Hmagic;
  unfold raw_of; cbn [r_magic r_size r_free r_next r_prev];
  rewrite Hl, ?Z.mod_small by (cbn; lia);
  f_equal; (apply Hmagic || apply Ho); offs.

Section stores.
Context (m : mem) (a : Z) (Hm : mapped a HDR m).
Let r := raw_of m a.

Lemma set_magic_ok :
  ∃ m', set_magic a HEAP_MAGIC m = Ok ((), m') ∧ wrote [a] m m' ∧
    raw_of m' a = Raw (Some HEAP_MAGIC) (r_size r) (r_free r) (r_next r) (r_prev r).
Proof using Hm.
  destruct (set_field_ok 4 a 0 HEAP_MAGIC m Hm) as (m' & Hst & Hl & HW & Ho); [offs..|].
  rewrite Z.add_0_r in Hst, Hl. exists m'. split_and!; [done..|]. raw_upd Hl Ho.
Qed.
Lemma set_size_ok v :
  0 ≤ v < 2 ^ 32 →
  ∃ m', set_size a v m = Ok ((), m') ∧ wrote [a] m m' ∧
    raw_of m' a = Raw (r_magic r) (Some v) (r_free r) (r_next r) (r_prev r).
Proof using Hm.
  intros Hv. destruct (set_field_ok 4 a OFF_SIZE v m Hm) as (m' & Hst & Hl & HW & Ho); [offs..|].
  exists m'. split_and!; [done..|]. raw_upd Hl Ho.
Qed.
Lemma set_free_ok b :
  ∃ m', set_free a b m = Ok ((), m') ∧ wrote [a] m m' ∧
    raw_of m' a = Raw (r_magic r) (r_size r) (Some (Z.b2z b)) (r_next r) (r_prev r).
Proof using Hm.
  assert (0 ≤ Z.b2z b < 256) as Hv by (destruct b; cbn; lia).
  destruct (set_field_ok 1 a OFF_FREE (Z.b2z b) m Hm) as (m' & Hst & Hl & HW & Ho); [offs..|].
  exists m'. split_and!; [done..|]. raw_upd Hl Ho.
Qed.
Lemma set_next_ok v :
  0 ≤ v < 2 ^ 64 →
  ∃ m', set_next a v m = Ok ((), m') ∧ wrote [a] m m' ∧
    raw_of m' a = Raw (r_magic r) (r_size r) (r_free r) (Some v) (r_prev r).
Proof using Hm.
  intros Hv. destruct (set_field_ok 8 a OFF_NEXT v m Hm) as (m' & Hst & Hl & HW & Ho); [offs..|].
  exists m'. split_and!; [done..|]. raw_upd Hl Ho.
Qed.
Lemma set_prev_ok v :
  0 ≤ v < 2 ^ 64 →
  ∃ m', set_prev a v m = Ok ((), m') ∧ wrote [a] m m' ∧
    raw_of m' a = Raw (r_magic r) (r_size r) (r_free r) (r_next r) (Some v).
Proof using Hm.
  intros Hv. destruct (set_field_ok 8 a OFF_PREV v m Hm) as (m' & Hst & Hl & HW & Ho); [offs..|].
  exists m'. split_and!; [done..|]. raw_upd Hl Ho.
Qed.
End stores.

(** *** Lists of headers *)

Lemma hdrs_app p a l b r nx :
  hdrs p a (l ++ b :: r) nx =
  hdrs p a l (a + span l) ++ hdrs (last_hdr p a l) (a + span l) (b :: r) nx.
Proof.
  revert p a; induction l as [|c l IH]; intros p a; cbn [app last_hdr].
  - by rewrite Z.add_0_r.
  - assert (∀ e, match l ++ b :: r with [] => nx | _ => e end = e) as Hne.
    { intros e. by destruct l. }
    cbn [hdrs]. rewrite Hne. cbn [app]. rewrite IH, span_cons.
    replace (a + HDR + bsize c + span l) with (a + (HDR + bsize c + span l)) by lia.
    do 3 f_equal. destruct l as [|d l]; [cbn; lia|done].
Qed.

(** Where the headers of a list lie. *)
Lemma hdrs_bounds p a l nx x h :
  Forall block_ok l → (x, h) ∈ hdrs p a l nx → a ≤ x ∧ x + HDR ≤ a + span l.
Proof.
  intros Hok. revert p a; induction Hok as [|b l [Hb _] Hok IH]; intros p a; cbn [hdrs].
  { by intros ?%elem_of_nil. }
  apply span_nonneg in Hok. rewrite span_cons, elem_of_cons.
  intros [[= -> _]|Hin]; [unfold HDR in *; lia|].
  apply IH in Hin. unfold HDR in *. lia.
Qed.

(** Stores elsewhere keep a list of headers. *)
Lemma hdrs_ok_frame m m' p a l nx :
  Forall block_ok l →
  (∀ x r, a ≤ x → x + HDR ≤ a + span l → raw_of m x = r → raw_of m' x = r) →
  hdrs_ok m (hdrs p a l nx) → hdrs_ok m' (hdrs p a l nx).
Proof.
  intros Hok Hfr. unfold hdrs_ok. rewrite !list.Forall_forall. intros H [x h] Hin.
  pose proof (hdrs_bounds p a l nx x h Hok Hin) as [??].
  apply Hfr; [done..|]. by apply (H (x, h)).
Qed.

(** A new predecessor changes the [prev] field of the first header only. *)
Lemma hdrs_ok_reprev m m' p p' a c r nx :
  Forall block_ok (c :: r) →
  raw_of m' a = Raw (r_magic (raw_of m a)) (r_size (raw_of m a)) (r_free (raw_of m a))
                    (r_next (raw_of m a)) (Some p') →
  (∀ x rw, a + HDR ≤ x → raw_of m x = rw → raw_of m' x = rw) →
  hdrs_ok m (hdrs p a (c :: r) nx) → hdrs_ok m' (hdrs p' a (c :: r) nx).
Proof.
  intros Hok Ha Hfr. cbn [hdrs]. unfold hdrs_ok. rewrite !Forall_cons_iff. cbn [fst snd].
  intros [Hc Hr]. split; [by rewrite Ha, Hc|].
  apply Forall_cons_1 in Hok as [[Hpos _] Hok].
  eapply hdrs_ok_frame; [done| |exact Hr]. intros x rw ? _. apply Hfr. lia.
Qed.

Lemma last_hdr_bounds p a l :
  Forall block_ok l →
  (l = [] ∧ last_hdr p a l = p) ∨ (a ≤ last_hdr p a l ∧ last_hdr p a l + HDR ≤ a + span l).
Proof.
  intros Hok. revert p a; induction Hok as [|b l [Hb _] Hok IH]; intros p a; [by left|right].
  cbn [last_hdr]. rewrite span_cons. pose proof (span_nonneg l Hok).
  destruct (IH a (a + HDR + bsize b)) as [[-> ->]|[??]]; unfold HDR in *; cbn; lia.
Qed.

Lemma last_hdr_snoc p a l b : last_hdr p a (l ++ [b]) = a + span l.
Proof.
  revert p a; induction l as [|c l IH]; intros p a; cbn [app last_hdr].
  - by rewrite Z.add_0_r.
  - rewrite IH, span_cons. lia.
Qed.

Ltac all_disjoint :=
  cbv beta; repeat first [apply List.Forall_nil | apply List.Forall_cons]; offs.

(** After a store at one address: the other known headers are unchanged. *)
Ltac carry W :=
  match type of W with wrote _ ?m ?m' =>
    repeat match goal with
    | H : raw_of m _ = _ |- _ => apply (wrote_raw _ _ _ _ _ W) in H; [|all_disjoint]
    | H : mapped _ _ m |- _ => apply (wrote_mapped _ _ _ _ _ W) in H
    end
  end.

(** Run one store [L] at the address whose header [Hold] describes; the new
    memory is [m']. *)
Tactic Notation "store_step" constr(L) "at" hyp(Hold) "as" simple_intropattern(m') ident(W) :=
  let E := fresh "E" in let R := fresh "R" in
  destruct L as (m' & E & W & R);
  rewrite Hold in R; cbn [r_magic r_size r_free r_next r_prev raw_hdr] in R;
  rewrite (bind_ok _ _ _ _ _ E); clear E;
  clear Hold; rename R into Hold; carry W.

(** The conditional write of the backward link of a following block. *)
Lemma set_prev_link m hn nxt rn : 0 ≤ nxt < 2 ^ 64 →
  mapped (if hn =? 0 then nxt else hn) HDR m → raw_of m hn = rn →
  ∃ m', (if hn =? 0 then mret () else set_prev hn nxt) m = Ok ((), m') ∧
    wrote (if hn =? 0 then [] else [hn]) m m' ∧
    raw_of m' hn = if hn =? 0 then rn else
      Raw (r_magic rn) (r_size rn) (r_free rn) (r_next rn) (Some nxt).
Proof.
  intros Hx Hm Hn. destruct (Z.eqb_spec hn 0) as [->|Hne].
  - exists m. split_and!; [done|apply wrote_refl|done].
  - destruct (set_prev_ok m hn Hm nxt) as (m6 & E6 & W6 & R6); [done|].
    exists m6. split_and!; [done..|]. by rewrite R6, Hn.
Qed.

Lemma split_block_ok m cur size h rn :
  HDR ≤ cur → 0 ≤ size → size + HDR + 32 ≤ h_size h < 2 ^ 32 →
  cur + HDR + h_size h ≤ 2 ^ 64 → mapped cur (HDR + h_size h) m →
  raw_of m cur = raw_hdr h → raw_of m (h_next h) = rn →
  (h_next h = 0 ∨
   (h_next h = cur + HDR + h_size h ∧ h_next h < 2 ^ 64 ∧ mapped (h_next h) HDR m)) →
  ∃ m', split_block cur size m = Ok ((), m') ∧
    wrote (cur :: cur + HDR + size :: if h_next h =? 0 then [] else [h_next h]) m m' ∧
    raw_of m' cur = raw_hdr (Hdr size (h_free h) (cur + HDR + size) (h_prev h)) ∧
    raw_of m' (cur + HDR + size) = raw_hdr (Hdr (h_size h - size - HDR) true (h_next h) cur) ∧
    raw_of m' (h_next h) =
      if h_next h =? 0 then rn
      else Raw (r_magic rn) (r_size rn) (r_free rn) (r_next rn) (Some (cur + HDR + size)).
Proof.
  intros Hcur Hsz Hfit Htop Hmap Hc Hn Hnx. unfold split_block.
  change SIZEOF_HDR with HDR.
  rewrite (u64_small (cur + HDR)) by offs. rewrite (u64_small (cur + HDR + size)) by offs.
  remember (cur + HDR + size) as nxt eqn:Hnxt.
  assert (mapped cur HDR m) as Hmc by (apply (mapped_sub _ _ _ _ _ Hmap); offs).
  assert (mapped nxt HDR m) as Hmn by (apply (mapped_sub _ _ _ _ _ Hmap); offs).
  destruct (raw_of m nxt) as [x1 x2 x3 x4 x5] eqn:Hx.
  destruct h as [hs hf hn hp]; cbn [h_size h_free h_next h_prev raw_hdr] in *.
  assert (mapped (if hn =? 0 then nxt else hn) HDR m) as Hmh.
  { destruct Hnx as [->|(_ & _ & Hmh)]; [done|]. by case_match. }
  assert (disjoint nxt HDR hn HDR ∧ disjoint cur HDR hn HDR) as [Hd1 Hd2] by offs.
  store_step (set_magic_ok m nxt Hmn) at Hx as m1 W1.
  rewrite (bind_ok _ _ _ _ _ (get_size_ok _ _ (Hdr hs hf hn hp) Hc)). cbn [h_size].
  rewrite (u64_small (hs - size - HDR)), (u32_small (hs - size - HDR)) by offs.
  store_step (set_size_ok m1 nxt Hmn (hs - size - HDR) ltac:(offs)) at Hx as m2 W2.
  store_step (set_free_ok m2 nxt Hmn true) at Hx as m3 W3.
  rewrite (bind_ok _ _ _ _ _ (get_next_ok _ _ (Hdr hs hf hn hp) Hc)). cbn [h_next].
  store_step (set_next_ok m3 nxt Hmn hn ltac:(offs)) at Hx as m4 W4.
  store_step (set_prev_ok m4 nxt Hmn cur ltac:(offs)) at Hx as m5 W5.
  rewrite (bind_ok _ _ _ _ _ (get_next_ok _ _ (Hdr hs hf hn hp) Hc)). cbn [h_next].
  set (A := if hn =? 0 then [] else [hn]) in *.
  destruct (set_prev_link m5 hn nxt rn ltac:(offs) Hmh Hn) as (m6 & E6 & W6 & Hn6). fold A in W6.
  rewrite (bind_ok _ _ _ _ _ E6). clear E6 Hn.
  assert (Forall (λ a, disjoint a HDR cur HDR) A) as HA1 by (subst A; case_match; all_disjoint).
  assert (Forall (λ a, disjoint a HDR nxt HDR) A) as HA2 by (subst A; case_match; all_disjoint).
  apply (wrote_raw _ _ _ _ _ W6 HA1) in Hc. apply (wrote_raw _ _ _ _ _ W6 HA2) in Hx.
  apply (wrote_mapped _ _ _ _ _ W6) in Hmc.
  rename Hn6 into Hn.
  store_step (set_next_ok m6 cur Hmc nxt ltac:(offs)) at Hc as m7 W7.
  rewrite (u32_small size) by offs.
  destruct (set_size_ok m7 cur Hmc size) as (m8 & E8 & W8 & R8); [offs|].
  rewrite Hc in R8. carry W8. exists m8. rewrite R8. split_and!; try done.
  set (B := cur :: nxt :: A).
  repeat match goal with
  | W : wrote [_] ?m1 _ |- wrote B ?m1 _ =>
      eapply wrote_trans; [apply (wrote_one _ B _ _ W); set_solver|]; clear W
  | W : wrote A ?m1 _ |- wrote B ?m1 _ =>
      eapply wrote_trans; [apply (wrote_sub _ B _ _ W); set_solver|]; clear W
  end. apply wrote_refl.
Qed.

Lemma addrs_app a l r : addrs a (l ++ r) = addrs a l ++ addrs (a + span l) r.
Proof.
  revert a; induction l as [|b l IH]; intros a; cbn [app addrs].
  - by rewrite Z.add_0_r.
  - rewrite IH, span_cons. by rewrite !Z.add_assoc.
Qed.

(** ** The representation around one block *)

(** What the [next] field of block [b] holds when [r] follows it. *)
Definition next_of (cur : Z) (b : block) (r : list block) : Z :=
  match r with [] => 0 | _ => cur + HDR + bsize b end.

Section at_block.
Context (base : Z) (l : list block) (b : block) (r : list block) (m : mem).
Context (Hm : heap_mem base (l ++ b :: r) m).
Let cur := base + span l.
Let hb := Hdr (bsize b) (bfree b) (next_of cur b r) (last_hdr 0 base l).

Lemma at_hdrs :
  hdrs_ok m (hdrs 0 base l cur) ∧ raw_of m cur = raw_hdr hb ∧
  hdrs_ok m (hdrs cur (cur + HDR + bsize b) r 0).
Proof using Hm.
  destruct Hm as [_ _ _ H]. rewrite hdrs_app in H.
  apply Forall_app in H as [Hl H]. cbn [hdrs] in H.
  by apply Forall_cons_1 in H as [Hb Hr].
Qed.

Lemma at_raw : raw_of m cur = raw_hdr hb.
Proof using Hm. apply at_hdrs. Qed.

Lemma at_ok : Forall block_ok l ∧ block_ok b ∧ Forall block_ok r.
Proof using Hm.
  destruct Hm as [_ [H _] _ _]. apply Forall_app in H as [Hl H].
  by apply Forall_cons_1 in H.
Qed.

(** The block lies inside the pool. *)
Lemma at_bounds :
  HDR ≤ cur ∧ base ≤ cur ∧ 0 ≤ bsize b ∧ cur + HDR + bsize b ≤ base + POOL ∧
  cur + HDR + bsize b + span r = base + POOL ∧ base + POOL < 2 ^ 64 ∧ bsize b < 2 ^ 32.
Proof using Hm.
  destruct at_ok as (Hl & [Hb _] & Hr). destruct Hm as [(Hb1 & _ & Hb2) [_ Hsp] _ _].
  apply span_nonneg in Hl, Hr. rewrite span_app, span_cons in Hsp.
  unfold cur, POOL, HDR in *. lia.
Qed.

Lemma at_mapped a k : base ≤ a → a + k ≤ base + POOL → mapped a k m.
Proof using Hm. intros. by apply (mapped_sub base POOL); [apply Hm|..]. Qed.

Lemma at_aligned : (8 | cur).
Proof using Hm.
  destruct at_ok as (Hl & _ & _). destruct Hm as [(_ & Hb & _) _ _ _].
  apply Z.divide_add_r; [done|by apply span_divide].
Qed.
End at_block.

Lemma heap_mem_rebuild base bs bs' m m' :
  heap_mem base bs m → pool_ok bs' → same_dom m m' →
  hdrs_ok m' (hdrs 0 base bs' 0) → heap_mem base bs' m'.
Proof.
  intros [H1 H2 H3 H4] Hp Hd Hh. split; try done. by eapply mapped_same_dom.
Qed.

(** Changing the free flag of one block. *)
Lemma set_free_block base l b r m f :
  heap_mem base (l ++ b :: r) m →
  ∃ m', set_free (base + span l) f m = Ok ((), m') ∧ wrote [base + span l] m m' ∧
        heap_mem base (l ++ Blk (bsize b) f :: r) m'.
Proof.
  intros Hm. destruct (at_bounds base l b r m Hm) as (Hc & Hbc & Hb0 & Hb & Hsp & Htop & _).
  destruct (at_hdrs base l b r m Hm) as (Hl & Hcur & Hr).
  destruct (at_ok base l b r m Hm) as (Hlk & Hbk & Hrk).
  destruct (set_free_ok m (base + span l)) with (b := f) as (m' & E & W & R).
  { apply (at_mapped base l b r m Hm); offs. }
  exists m'. split_and!; [done..|]. rewrite Hcur in R.
  apply (heap_mem_rebuild base _ _ m m' Hm); [|by destruct W|].
  - destruct Hm as [_ [_ Hpool] _ _]. split.
    + apply Forall_app. split; [done|]. by constructor.
    + rewrite <- Hpool, !span_app, !span_cons. done.
  - rewrite hdrs_app. apply Forall_app. split; [|cbn [hdrs]; constructor; [exact R|]].
    + eapply hdrs_ok_frame; [done| |exact Hl]. intros x rw ??.
      apply (wrote_raw _ _ _ _ _ W). all_disjoint.
    + eapply hdrs_ok_frame; [done| |exact Hr]. cbn [bsize]. intros x rw ??.
      apply (wrote_raw _ _ _ _ _ W). all_disjoint.
Qed.

(** The header behind a block, when there is one. *)
Lemma next_cases base l b r m :
  heap_mem base (l ++ b :: r) m →
  let cur := base + span l in
  next_of cur b r = 0 ∨
  (next_of cur b r = cur + HDR + bsize b ∧ next_of cur b r < 2 ^ 64 ∧
   mapped (next_of cur b r) HDR m).
Proof.
  intros Hm cur. destruct r as [|c r]; [by left|right]. unfold next_of.
  destruct (at_bounds base l b _ m Hm) as (Hc & Hbc & Hb0 & Hb & Hsp & Htop & _).
  destruct (at_ok base l b _ m Hm) as (_ & _ & Hrk).
  apply Forall_cons_1 in Hrk as [[Hc0 _] Hrk]. apply span_nonneg in Hrk.
  rewrite span_cons in Hsp. fold cur in Hc, Hbc, Hb, Hsp.
  split_and!; [done|offs|]. apply (at_mapped base l b (c :: r) m Hm); offs.
Qed.

(** [split_block] cuts a block in two. *)
Lemma split_block_list base l b r m n :
  heap_mem base (l ++ b :: r) m → 0 ≤ n → (8 | n) → n + HDR + 32 ≤ bsize b →
  let bs' := l ++ Blk n (bfree b) :: Blk (bsize b - n - HDR) true :: r in
  ∃ m', split_block (base + span l) n m = Ok ((), m') ∧
    wrote (addrs base bs') m m' ∧ heap_mem base bs' m'.
Proof.
  intros Hm Hn Hd Hfit bs'.
  pose proof (at_bounds base l b r m Hm) as Hbd. cbv zeta in Hbd.
  destruct Hbd as (Hc & Hbc & Hb0 & Hb & Hsp & Htop & Hb32).
  destruct (at_hdrs base l b r m Hm) as (Hl & Hcur & Hr).
  destruct (at_ok base l b r m Hm) as (Hlk & [_ Hbd] & Hrk).
  pose proof (next_cases base l b r m Hm) as Hnx. cbv zeta in Hnx.
  remember (base + span l) as cur eqn:Hcureq.
  destruct (split_block_ok m cur n
    (Hdr (bsize b) (bfree b) (next_of cur b r) (last_hdr 0 base l)) _
    Hc Hn (conj Hfit Hb32) ltac:(cbn; offs) (at_mapped base l b r m Hm cur (HDR + bsize b) Hbc ltac:(offs)) Hcur eq_refl Hnx)
    as (m' & E & W & R1 & R2 & R3). cbn [h_size h_free h_next h_prev] in *.
  exists m'. split; [done|]. assert (wrote (addrs base bs') m m') as W'.
  { apply (wrote_sub _ _ _ _ W). subst bs'. rewrite addrs_app. cbn [addrs bsize].
    rewrite <- Hcureq. replace (cur + HDR + n + HDR + (bsize b - n - HDR)) with (cur + HDR + bsize b) by lia.
    destruct r as [|c r]; cbn [next_of addrs]; [set_solver|].
    destruct (cur + HDR + bsize b =? 0); set_solver. }
  split; [done|]. apply (heap_mem_rebuild base _ _ m m' Hm); [|by destruct W|].
  - destruct Hm as [_ [_ Hpool] _ _]. split.
    + apply Forall_app. split; [done|]. constructor; [by split|].
      constructor; [split; cbn; [offs|]|done].
      apply Z.divide_sub_r; [by apply Z.divide_sub_r|by exists 4].
    + rewrite <- Hpool. subst bs'. rewrite !span_app, !span_cons. cbn. lia.
  - subst bs'. rewrite hdrs_app, <- Hcureq. apply Forall_app. split.
    { eapply hdrs_ok_frame; [done| |exact Hl]. intros x rw ??.
      apply (wrote_raw _ _ _ _ _ W).
      destruct Hnx as [->|(Hnx & _)]; [change (0 =? 0) with true; cbv iota|rewrite Hnx; destruct (cur + HDR + bsize b =? 0)]; all_disjoint. }
    cbn [hdrs bsize bfree]. constructor; [exact R1|]. constructor; cbn [fst snd].
    { rewrite R2. unfold next_of. do 3 f_equal. destruct r; [done|]. lia. }
    replace (cur + HDR + n + HDR + (bsize b - n - HDR)) with (cur + HDR + bsize b) by lia.
    destruct r as [|c r]; [constructor|].
    cbn [next_of] in *. rewrite (proj2 (Z.eqb_neq (cur + HDR + bsize b) 0)) in R3, W by offs.
    eapply hdrs_ok_reprev; [done|exact R3| |exact Hr].
    intros x rw ?. apply (wrote_raw _ _ _ _ _ W). all_disjoint.
Qed.

(** ** [kmalloc] *)

(** Taking a free block that fits. *)
Lemma take_block base l b r m n :
  heap_mem base (l ++ b :: r) m → 0 ≤ n → (8 | n) → bfree b = true → n ≤ bsize b →
  let cur := base + span l in
  let bs' := l ++ HeapSpec.split n b ++ r in
  ∃ m' m'', (if n + HDR + 32 <=? bsize b then split_block cur n else mret tt) m = Ok ((), m') ∧
    set_free cur false m' = Ok ((), m'') ∧
    wrote_hdrs base (l ++ b :: r) bs' m m'' ∧ heap_mem base bs' m''.
Proof.
  intros Hm Hn Hd Hf Hle cur bs'. subst bs'. unfold HeapSpec.split.
  destruct (Z.leb_spec (n + HDR + 32) (bsize b)) as [Hfit|Hno].
  - destruct (split_block_list base l b r m n Hm Hn Hd Hfit) as (m' & E & W & Hm').
    rewrite Hf in Hm', W.
    destruct (set_free_block base l _ _ m' false Hm') as (m'' & E2 & W2 & Hm'').
    exists m', m''. split_and!; [done..| |done].
    unfold wrote_hdrs. cbn [app] in *. eapply wrote_trans.
    + apply (wrote_sub _ _ _ _ W). rewrite !addrs_app. cbn [addrs bsize]. set_solver.
    + apply (wrote_sub _ _ _ _ W2). rewrite !addrs_app. cbn [addrs bsize]. set_solver.
  - destruct (set_free_block base l b r m false Hm) as (m' & E & W & Hm').
    exists m, m'. split_and!; [done..| |done].
    apply (wrote_sub _ _ _ _ W). rewrite !addrs_app. cbn [addrs]. set_solver.
Qed.

(** The loop, from any block on. *)
Lemma kmalloc_scan_spec base n r :
  0 ≤ n → (8 | n) →
  ∀ fuel l m, heap_mem base (l ++ r) m → (length r ≤ fuel)%nat →
  match spec_alloc n r with
  | None => kmalloc_scan fuel n (match r with [] => 0 | _ => base + span l end) m = Ok (0, m)
  | Some (o, r') =>
      ∃ m', kmalloc_scan fuel n (match r with [] => 0 | _ => base + span l end) m
            = Ok (base + span l + o, m') ∧
        wrote_hdrs base (l ++ r) (l ++ r') m m' ∧ heap_mem base (l ++ r') m'
  end.
Proof.
  intros Hn Hd. induction r as [|b r IH]; intros fuel l m Hm Hfuel; cbn [spec_alloc].
  { by destruct fuel. }
  destruct fuel as [|fuel]; [cbn in Hfuel; lia|]. cbn [kmalloc_scan].
  pose proof (at_bounds base l b r m Hm) as Hbd. cbv zeta in Hbd.
  pose proof (at_raw base l b r m Hm) as Hcur. cbv zeta in Hcur.
  remember (base + span l) as cur eqn:Hcureq.
  destruct Hbd as (Hc & Hbc & Hb0 & Hb & Hsp & Htop & Hb32).
  rewrite (proj2 (Z.eqb_neq cur 0)) by offs.
  rewrite (bind_ok _ _ _ _ _ (get_magic_ok _ _ _ Hcur)), Z.eqb_refl. cbn [negb].
  rewrite (bind_ok _ _ _ _ _ (get_free_ok _ _ _ Hcur)). cbn [h_free].
  rewrite (bind_ok _ _ _ (bfree b && (n <=? bsize b)) m).
  2: { destruct (bfree b); [|done]. by rewrite (bind_ok _ _ _ _ _ (get_size_ok _ _ _ Hcur)). }
  destruct (bfree b && (n <=? bsize b)) eqn:Hfit.
  - apply andb_true_iff in Hfit as [Hf Hle%Z.leb_le].
    destruct (take_block base l b r m n Hm Hn Hd Hf Hle) as (m' & m'' & E1 & E2 & W & Hm').
    rewrite <- Hcureq in E1, E2. exists m''. split; [|done].
    rewrite (bind_ok _ _ _ _ _ (get_size_ok _ _ _ Hcur)). cbn [h_size].
    change SIZEOF_HDR with HDR. change MIN_SPLIT with 32.
    rewrite (u64_small (n + HDR)), (u64_small (n + HDR + 32)) by offs.
    rewrite (bind_ok _ _ _ _ _ E1), (bind_ok _ _ _ _ _ E2).
    rewrite u64_small by offs. done.
  - rewrite (bind_ok _ _ _ _ _ (get_next_ok _ _ _ Hcur)). cbn [h_next].
    assert (next_of cur b r = match r with [] => 0 | _ => base + span (l ++ [b]) end) as ->.
    { unfold next_of. destruct r; [done|]. rewrite span_app, span_cons. cbn. lia. }
    assert (l ++ b :: r = (l ++ [b]) ++ r) as He by by rewrite <- app_assoc.
    rewrite He in Hm. specialize (IH fuel (l ++ [b]) m Hm ltac:(cbn in Hfuel; lia)).
    destruct (spec_alloc n r) as [[o r']|]; cbn [mbind option_bind]; [|done].
    destruct IH as (m' & E & W & Hm'). exists m'.
    rewrite <- (app_assoc l [b] r'), <- He in W. rewrite <- app_assoc in Hm'.
    cbn [app] in W, Hm'. refine (conj _ (conj W Hm')).
    rewrite E. do 2 f_equal. rewrite span_app, span_cons. cbn. lia.
Qed.

Lemma align8_eq size : 0 ≤ size → size + 7 < 2 ^ 64 → align8 size = 8 * ((size + 7) / 8).
Proof.
  intros ? Hs. unfold align8. rewrite (u64_small (size + 7)), land_u64 by lia.
  change 7 with (Z.ones 3) at 2. rewrite <- Z.ldiff_land, Z.ldiff_ones_r by lia.
  rewrite Z.shiftl_mul_pow2, Z.shiftr_div_pow2 by lia. change (2 ^ 3) with 8. lia.
Qed.

Lemma align8_bounds size :
  0 ≤ size → size + 7 < 2 ^ 64 → size ≤ align8 size < size + 8 ∧ (8 | align8 size).
Proof.
  intros. rewrite align8_eq by done.
  pose proof (Z.div_mod (size + 7) 8 ltac:(lia)).
  pose proof (Z.mod_pos_bound (size + 7) 8 ltac:(lia)).
  split; [lia|]. apply Z.divide_factor_l.
Qed.

(** The rounded size is a multiple of 8 even when the rounding wraps. *)
Lemma align8_divide size : 0 ≤ align8 size ∧ (8 | align8 size).
Proof.
  unfold align8. pose proof (u64_range (size + 7)) as Hr. rewrite land_u64 by done.
  change 7 with (Z.ones 3) at 2 4. rewrite <- Z.ldiff_land, Z.ldiff_ones_r by lia.
  rewrite Z.shiftl_mul_pow2, Z.shiftr_div_pow2 by lia. change (2 ^ 3) with 8.
  split; [|apply Z.divide_factor_r]. apply Z.mul_nonneg_nonneg; [|lia].
  apply Z.div_pos; lia.
Qed.

(** A pool never holds more headers than the loop's fuel. *)
Lemma pool_length bs : pool_ok bs → (length bs ≤ HEAP_FUEL)%nat.
Proof.
  intros [Hok Hsp]. apply span_length in Hok. rewrite Hsp in Hok.
  unfold HEAP_FUEL, POOL, HDR in *. lia.
Qed.

(** [kmalloc] computes the specification's first fit. *)
Lemma kmalloc_spec base bs h size :
  heap_rep base bs h → 0 < size →
  match spec_alloc (align8 size) bs with
  | None => kmalloc size h = Ok (0, h)
  | Some (o, bs') =>
      ∃ m', kmalloc size h = Ok (base + o, Heap base m') ∧
        wrote_hdrs base bs bs' (hmem h) m' ∧ heap_rep base bs' (Heap base m')
  end.
Proof.
  intros [Hh Hm] Hs. destruct h as [hd m]; cbn [s_head hmem] in *. subst hd.
  destruct (align8_divide size) as [Hn Hd]. unfold kmalloc.
  rewrite (proj2 (Z.eqb_neq size 0)) by lia.
  rewrite (bind_ok _ _ _ (Heap base m) (Heap base m)) by done. unfold zoom. cbn [s_head hmem].
  pose proof (kmalloc_scan_spec base _ bs Hn Hd HEAP_FUEL [] m Hm
    (pool_length bs (hm_pool _ _ _ Hm))) as H. cbn [app] in H.
  assert (match bs with [] => 0 | _ => base + span [] end = base) as Hb.
  { destruct bs; [|cbn; lia]. by destruct (hm_pool _ _ _ Hm). }
  rewrite Hb in H. destruct (spec_alloc (align8 size) bs) as [[o bs']|].
  - destruct H as (m' & E & W & Hm'). exists m'. rewrite E. refine (conj _ (conj W (conj eq_refl Hm'))).
    unfold set_hmem. cbn. do 2 f_equal. lia.
  - by rewrite H.
Qed.

(** ** [kfree] *)

(** The stores of [merge_next] when both blocks are free. *)
Lemma merge_next_ok m cur h k rn :
  HDR ≤ cur → 0 ≤ h_size h → 0 ≤ h_size k → h_size h + HDR + h_size k < 2 ^ 32 →
  h_free h = true → h_free k = true → h_next h = cur + HDR + h_size h →
  mapped cur HDR m → raw_of m cur = raw_hdr h →
  raw_of m (h_next h) = raw_hdr k → raw_of m (h_next k) = rn →
  (h_next k = 0 ∨
   (h_next k = h_next h + HDR + h_size k ∧ h_next k < 2 ^ 64 ∧ mapped (h_next k) HDR m)) →
  ∃ m', merge_next cur m = Ok ((), m') ∧
    wrote (cur :: if h_next k =? 0 then [] else [h_next k]) m m' ∧
    raw_of m' cur = raw_hdr (Hdr (h_size h + (HDR + h_size k)) true (h_next k) (h_prev h)) ∧
    raw_of m' (h_next k) =
      if h_next k =? 0 then rn
      else Raw (r_magic rn) (r_size rn) (r_free rn) (r_next rn) (Some cur).
Proof.
  intros Hcur Hs1 Hs2 Hs Hf1 Hf2 Hnx Hmc Hc Hk Hn Hnn. unfold merge_next.
  destruct h as [hs hf hn hp], k as [ks kf kn kp]; cbn [h_size h_free h_next h_prev] in *.
  subst hf kf. rewrite (proj2 (Z.eqb_neq cur 0)) by offs.
  assert (mapped (if kn =? 0 then cur else kn) HDR m) as Hmk.
  { destruct Hnn as [->|(_ & _ & Hmk)]; [done|]. by destruct (kn =? 0). }
  assert (disjoint cur HDR kn HDR) as Hd by offs.
  rewrite (bind_ok _ _ _ _ _ (get_next_ok _ _ _ Hc)). cbn [h_next].
  rewrite (proj2 (Z.eqb_neq hn 0)) by offs.
  rewrite (bind_ok _ _ _ _ _ (get_free_ok _ _ _ Hc)). cbn [h_free negb].
  rewrite (bind_ok _ _ _ _ _ (get_free_ok _ _ _ Hk)). cbn [h_free negb].
  rewrite (bind_ok _ _ _ _ _ (get_size_ok _ _ _ Hc)). cbn [h_size].
  rewrite (bind_ok _ _ _ _ _ (get_size_ok _ _ _ Hk)). cbn [h_size].
  change SIZEOF_HDR with HDR.
  rewrite (u64_small (HDR + ks)), (u32_small (hs + (HDR + ks))) by offs.
  store_step (set_size_ok m cur Hmc (hs + (HDR + ks)) ltac:(offs)) at Hc as m1 W1.
  rewrite (bind_ok _ _ _ _ _ (get_next_ok _ _ _ Hk)). cbn [h_next].
  store_step (set_next_ok m1 cur Hmc kn ltac:(offs)) at Hc as m2 W2.
  rewrite (bind_ok _ _ _ _ _ (get_next_ok _ _ (Hdr (hs + (HDR + ks)) true kn hp) Hc)).
  cbn [h_next].
  destruct (Z.eqb_spec kn 0) as [->|Hne].
  - exists m2. split_and!; [done| |done..]. apply (wrote_trans _ _ m1); done.
  - destruct (set_prev_ok m2 kn Hmk cur) as (m3 & E3 & W3 & R3); [offs|].
    rewrite Hn in R3. carry W3. exists m3. split_and!; [done| |done..].
    eapply wrote_trans; [apply (wrote_one _ _ _ _ W1); set_solver|].
    eapply wrote_trans; [apply (wrote_one _ _ _ _ W2); set_solver|].
    apply (wrote_one _ _ _ _ W3); set_solver.
Qed.

(** [merge_next] does nothing unless both blocks are free. *)
Lemma merge_next_idle m cur h :
  cur ≠ 0 → raw_of m cur = raw_hdr h →
  (h_next h = 0 ∨ h_free h = false ∨
   ∃ k, raw_of m (h_next h) = raw_hdr k ∧ h_free k = false) →
  merge_next cur m = Ok ((), m).
Proof.
  intros Hc Hraw Hcase. unfold merge_next. rewrite (proj2 (Z.eqb_neq cur 0)) by done.
  rewrite (bind_ok _ _ _ _ _ (get_next_ok _ _ _ Hraw)).
  destruct (Z.eqb_spec (h_next h) 0) as [|Hn]; [done|].
  rewrite (bind_ok _ _ _ _ _ (get_free_ok _ _ _ Hraw)).
  destruct (h_free h) eqn:Hf; [|done]. cbn [negb].
  destruct Hcase as [?|[?|(k & Hk & Hkf)]]; [done..|].
  rewrite (bind_ok _ _ _ _ _ (get_free_ok _ _ _ Hk)). by rewrite Hkf.
Qed.

(** Joining two free neighbours. *)
(** The blocks after a join still tile the pool. *)
Lemma join_pool base l b c r m :
  heap_mem base (l ++ b :: c :: r) m →
  pool_ok (l ++ Blk (bsize b + (HDR + bsize c)) true :: r).
Proof.
  intros Hm. destruct (at_ok base l b (c :: r) m Hm) as (Hl & [Hb0 Hb] & Hr).
  apply Forall_cons_1 in Hr as [[Hc0 Hc] Hr]. destruct Hm as [_ [_ Hpool] _ _]. split.
  - apply Forall_app. split; [done|]. constructor; [split; cbn; [offs|]|done].
    apply Z.divide_add_r; [done|]. apply Z.divide_add_r; [by exists 4|done].
  - rewrite <- Hpool, !span_app, !span_cons. cbn. lia.
Qed.

Lemma merge_next_join base l b c r m :
  heap_mem base (l ++ b :: c :: r) m → bfree b = true → bfree c = true →
  ∃ m', merge_next (base + span l) m = Ok ((), m') ∧
    wrote (addrs base (l ++ b :: c :: r)) m m' ∧
    heap_mem base (l ++ Blk (bsize b + (HDR + bsize c)) true :: r) m'.
Proof.
  intros Hm Hfb Hfc.
  assert (l ++ b :: c :: r = (l ++ [b]) ++ c :: r) as He by by rewrite <- app_assoc.
  pose proof (at_bounds base l b (c :: r) m Hm) as Hbd. cbv zeta in Hbd.
  destruct (at_hdrs base l b (c :: r) m Hm) as (Hl & Hcur & Hr).
  destruct (at_ok base l b (c :: r) m Hm) as (Hlk & [_ Hbdiv] & Hrk).
  apply Forall_cons_1 in Hrk as [[Hc0 Hcdiv] Hrk].
  rewrite He in Hm. pose proof (next_cases base (l ++ [b]) c r m Hm) as Hnc.
  pose proof (at_raw base (l ++ [b]) c r m Hm) as Hk. cbv zeta in Hnc, Hk.
  rewrite <- He in Hm. rewrite span_app, span_cons in Hnc, Hk. cbn [span foldr] in Hnc, Hk.
  replace (base + (span l + (HDR + bsize b + 0))) with (base + span l + HDR + bsize b)
    in Hnc, Hk by lia.
  remember (base + span l) as cur eqn:Hcureq.
  destruct Hbd as (Hcr & Hbc & Hb0 & Hb & Hsp & Htop & Hb32).
  rewrite span_cons in Hsp. pose proof (span_nonneg r Hrk) as Hr0.
  set (nx := next_of (cur + HDR + bsize b) c r) in *.
  destruct (merge_next_ok m cur
    (Hdr (bsize b) (bfree b) (cur + HDR + bsize b) (last_hdr 0 base l))
    (Hdr (bsize c) (bfree c) nx (last_hdr 0 base (l ++ [b]))) (raw_of m nx) Hcr Hb0 Hc0
    ltac:(cbn; unfold POOL in *; offs) Hfb Hfc eq_refl
    (at_mapped base l b (c :: r) m Hm cur HDR Hbc ltac:(offs)) Hcur Hk eq_refl Hnc)
    as (m' & E & W & R1 & R2). cbn [h_size h_free h_next h_prev] in *.
  exists m'. split; [done|]. split.
  { apply (wrote_sub _ _ _ _ W). rewrite addrs_app. cbn [addrs]. rewrite <- Hcureq.
    subst nx. destruct r as [|d r]; cbn [next_of addrs]; [set_solver|].
    destruct (cur + HDR + bsize b + HDR + bsize c =? 0); set_solver. }
  apply (heap_mem_rebuild base _ _ m m' Hm); [|by destruct W|].
  - by apply (join_pool base l b c r m).
  - rewrite hdrs_app, <- Hcureq. apply Forall_app. split.
    { eapply hdrs_ok_frame; [done| |exact Hl]. intros x rw ??.
      apply (wrote_raw _ _ _ _ _ W).
      destruct Hnc as [->|(-> & _)]; [change (0 =? 0) with true; cbv iota|
        destruct (cur + HDR + bsize b + HDR + bsize c =? 0)]; all_disjoint. }
    cbn [hdrs bsize bfree]. constructor; cbn [fst snd].
    { rewrite R1. do 2 f_equal. subst nx. destruct r; [done|]. cbn [next_of]. lia. }
    replace (cur + HDR + (bsize b + (HDR + bsize c)))
      with (cur + HDR + bsize b + HDR + bsize c) by lia.
    apply Forall_cons_1 in Hr as [_ Hr]. destruct r as [|d r]; [constructor|].
    subst nx. cbn [next_of] in *.
    rewrite (proj2 (Z.eqb_neq (cur + HDR + bsize b + HDR + bsize c) 0)) in R2, W by offs.
    eapply hdrs_ok_reprev; [done|exact R2| |exact Hr].
    intros x rw ?. apply (wrote_raw _ _ _ _ _ W). all_disjoint.
Qed.

(** On the represented list, [merge_next] is [coalesce]. *)
Lemma merge_next_list base l b r m :
  heap_mem base (l ++ b :: r) m →
  ∃ m', merge_next (base + span l) m = Ok ((), m') ∧
    wrote (addrs base (l ++ b :: r)) m m' ∧
    heap_mem base (coalesce (length l) (l ++ b :: r)) m'.
Proof.
  intros Hm. rewrite coalesce_zip.
  pose proof (at_raw base l b r m Hm) as Hcur. cbv zeta in Hcur.
  destruct (at_bounds base l b r m Hm) as (Hc & _).
  destruct r as [|c r]; [|destruct (bfree b) eqn:Hfb; [destruct (bfree c) eqn:Hfc|]]; cbn [andb].
  - exists m. split_and!; [|apply wrote_refl|done].
    eapply merge_next_idle; [offs|exact Hcur|by left].
  - by apply merge_next_join.
  - exists m. split_and!; [|apply wrote_refl|done].
    eapply merge_next_idle; [offs|exact Hcur|]. right; right. cbn [h_next next_of].
    assert (l ++ b :: c :: r = (l ++ [b]) ++ c :: r) as He by by rewrite <- app_assoc.
    rewrite He in Hm. pose proof (at_raw base (l ++ [b]) c r m Hm) as Hk. cbv zeta in Hk.
    rewrite span_app, span_cons in Hk. cbn [span foldr] in Hk.
    replace (base + (span l + (HDR + bsize b + 0))) with (base + span l + HDR + bsize b)
      in Hk by lia.
    eexists. split; [exact Hk|exact Hfc].
  - exists m. split_and!; [|apply wrote_refl|done].
    eapply merge_next_idle; [offs|exact Hcur|by right; left].
Qed.

Lemma addrs_join a f r : addrs a (join_right f r) ⊆ addrs a (f :: r).
Proof.
  destruct r as [|c r]; [done|]. cbn [join_right].
  destruct (bfree c); [|done]. cbn [addrs bsize].
  replace (a + HDR + (bsize f + (HDR + bsize c))) with (a + HDR + bsize f + HDR + bsize c) by lia.
  set_solver.
Qed.

(** The last step of [kfree]: joining with the block in front, if any. *)
Lemma merge_prev_list base l b r m :
  heap_mem base (l ++ join_right (Blk (bsize b) true) r) m →
  ∃ m', (p ← get_prev (base + span l); if p =? 0 then mret tt else
         p ← get_prev (base + span l); merge_next p) m = Ok ((), m') ∧
    wrote (addrs base (l ++ b :: r)) m m' ∧
    heap_mem base (spec_free (length l) (l ++ b :: r)) m'.
Proof.
  set (f := Blk (bsize b) true). intros Hm.
  assert (∃ g r2, join_right f r = g :: r2) as (g & r2 & Hj).
  { destruct r as [|c r]; cbn; [eauto|]. destruct (bfree c); eauto. }
  pose proof (addrs_join (base + span l) f r) as Hsub. rewrite Hj in Hm, Hsub.
  pose proof (at_raw base l g r2 m Hm) as Hg. cbv zeta in Hg.
  rewrite (bind_ok _ _ _ _ _ (get_prev_ok _ _ _ Hg)). cbn [h_prev].
  destruct l as [|a l _] using rev_ind.
  - exists m. split_and!; [done|apply wrote_refl|].
    cbn [length app]. rewrite spec_free_head. fold f. by rewrite Hj.
  - rewrite last_hdr_snoc in Hg |- *. rewrite <- app_assoc in Hm.
    rewrite length_app, <- !app_assoc. cbn [length app] in Hm |- *.
    rewrite Nat.add_1_r, spec_free_snoc. fold f. rewrite Hj.
    destruct (at_bounds base l a (g :: r2) m Hm) as (Hc2 & _).
    rewrite (proj2 (Z.eqb_neq (base + span l) 0)) by offs.
    rewrite (bind_ok _ _ _ _ _ (get_prev_ok _ _ _ Hg)). cbn [h_prev].
    destruct (merge_next_list base l a (g :: r2) m Hm) as (m3 & E3 & W3 & Hm3).
    exists m3. split_and!; [done| |done].
    apply (wrote_sub _ _ _ _ W3). rewrite !addrs_app in *. cbn [addrs] in *.
    rewrite span_app, span_cons in Hsub. cbn [span foldr] in Hsub.
    replace (base + (span l + (HDR + bsize a + 0))) with (base + span l + HDR + bsize a)
      in Hsub by lia. set_solver.
Qed.

(** Releasing the block [b] in use. *)
Lemma kfree_spec base l b r h :
  heap_rep base (l ++ b :: r) h → bfree b = false →
  ∃ m', kfree (base + span l + HDR) h = Ok ((), Heap base m') ∧
    wrote (addrs base (l ++ b :: r)) (hmem h) m' ∧
    heap_rep base (spec_free (length l) (l ++ b :: r)) (Heap base m').
Proof.
  intros [Hh Hm] Hf. destruct h as [hd m]; cbn [s_head hmem] in *. subst hd.
  pose proof (at_raw base l b r m Hm) as Hcur. cbv zeta in Hcur.
  destruct (at_bounds base l b r m Hm) as (Hc & _ & Hb0 & Hb & _ & Htop & _).
  destruct (set_free_block base l b r m true Hm) as (m1 & E1 & W1 & Hm1).
  destruct (merge_next_list base l _ r m1 Hm1) as (m2 & E2 & W2 & Hm2).
  set (f := Blk (bsize b) true) in *. rewrite coalesce_free_zip in Hm2 by done.
  destruct (merge_prev_list base l b r m2 Hm2) as (m3 & E3 & W3 & Hm3).
  exists m3. unfold kfree, zoom. cbn [hmem]. rewrite (proj2 (Z.eqb_neq _ 0)) by offs.
  change SIZEOF_HDR with HDR. rewrite u64_small by offs.
  replace (base + span l + HDR - HDR) with (base + span l) by lia.
  rewrite (bind_ok _ _ _ _ _ (get_magic_ok _ _ _ Hcur)), Z.eqb_refl. cbn [negb].
  rewrite (bind_ok _ _ _ _ _ (get_free_ok _ _ _ Hcur)). cbn [h_free]. rewrite Hf.
  rewrite (bind_ok _ _ _ _ _ E1), (bind_ok _ _ _ _ _ E2), E3.
  refine (conj eq_refl (conj _ (conj eq_refl Hm3))).
  assert (addrs base (l ++ f :: r) = addrs base (l ++ b :: r)) as Ha by by rewrite !addrs_app.
  rewrite Ha in W2. apply (wrote_trans _ _ m1); [|by apply (wrote_trans _ _ m2)].
  apply (wrote_one _ _ _ _ W1). rewrite addrs_app. cbn [addrs]. set_solver.
Qed.

(** A block that is already free is left alone. *)
Lemma kfree_idle base l b r h :
  heap_rep base (l ++ b :: r) h → bfree b = true →
  kfree (base + span l + HDR) h = Ok ((), h).
Proof.
  intros [Hh Hm] Hf. destruct h as [hd m]; cbn [s_head hmem] in *. subst hd.
  pose proof (at_raw base l b r m Hm) as Hcur. cbv zeta in Hcur.
  destruct (at_bounds base l b r m Hm) as (Hc & _ & Hb0 & Hb & _ & Htop & _).
  unfold kfree, zoom. cbn [hmem]. rewrite (proj2 (Z.eqb_neq _ 0)) by offs.
  change SIZEOF_HDR with HDR. rewrite u64_small by offs.
  replace (base + span l + HDR - HDR) with (base + span l) by lia.
  rewrite (bind_ok _ _ _ _ _ (get_magic_ok _ _ _ Hcur)), Z.eqb_refl. cbn [negb].
  rewrite (bind_ok _ _ _ _ _ (get_free_ok _ _ _ Hcur)). cbn [h_free]. by rewrite Hf.
Qed.

(** ** Headers and user areas *)

Lemma elem_of_addrs a bs x :
  x ∈ addrs a bs ↔ ∃ j b, bs !! j = Some b ∧ x = a + off bs j.
Proof.
  revert a; induction bs as [|b bs IH]; intros a; cbn [addrs].
  - split; [by intros ?%elem_of_nil|]. intros (j & b & Hj & _). by destruct j.
  - rewrite elem_of_cons, IH. split.
    + intros [->|(j & c & Hj & ->)].
      * exists 0%nat, b. unfold off. cbn. split; [done|lia].
      * exists (S j), c. unfold off. cbn [take]. rewrite span_cons. split; [done|lia].
    + intros ([|j] & c & Hj & ->); cbn in Hj; [left; unfold off; cbn; lia|right].
      exists j, c. unfold off. cbn [take]. rewrite span_cons. split; [done|lia].
Qed.

Lemma hdrs_addrs p a bs nx x h : (x, h) ∈ hdrs p a bs nx → x ∈ addrs a bs.
Proof.
  revert p a; induction bs as [|b bs IH]; intros p a; cbn [hdrs addrs].
  { by intros ?%elem_of_nil. }
  rewrite !elem_of_cons. intros [[= -> _]|Hin]; [by left|right]. by eapply IH.
Qed.

(** No allocation in use overlaps a header. *)
Lemma live_hdr_disjoint base bs o n x :
  Forall block_ok bs → (o, n) ∈ lives 0 bs → x ∈ addrs base bs →
  disjoint x HDR (base + o) n.
Proof.
  intros Hok (i & b & Hi & _ & -> & ->)%lives_lookup (j & c & Hj & ->)%elem_of_addrs.
  destruct (decide (i = j)) as [->|Hij]; [left; lia|].
  pose proof (blocks_disjoint bs i j b c Hok Hi Hj Hij) as Hd.
  pose proof (Forall_lookup_1 _ _ _ _ Hok Hj) as [Hc _].
  unfold disjoint, HDR in *. lia.
Qed.

Lemma live_hdrs_disjoint base bs o n :
  Forall block_ok bs → (o, n) ∈ lives 0 bs →
  Forall (λ x, disjoint x HDR (base + o) n) (addrs base bs).
Proof.
  intros Hok Hin. apply list.Forall_forall. intros x Hx. by eapply live_hdr_disjoint.
Qed.

(** Bytes of an allocation in use before and after are not written. *)
Lemma wrote_hdrs_live base bs bs' o n m m' :
  wrote_hdrs base bs bs' m m' → Forall block_ok bs → Forall block_ok bs' →
  (o, n) ∈ lives 0 bs → (o, n) ∈ lives 0 bs' → same_bytes (base + o) n m m'.
Proof.
  intros [_ W] Hok Hok' Hin Hin'. apply W. apply Forall_app.
  split; by apply live_hdrs_disjoint.
Qed.

(** A client that writes inside its allocation cannot harm the heap. *)
Lemma heap_mem_client base bs o n m m' :
  heap_mem base bs m → (o, n) ∈ lives 0 bs → same_dom m m' →
  (∀ b k, disjoint (base + o) n b k → same_bytes b k m m') → heap_mem base bs m'.
Proof.
  intros Hm Hin Hd Hs. apply (heap_mem_rebuild base _ _ _ _ Hm); [apply Hm|done|].
  unfold hdrs_ok. apply list.Forall_forall. intros [x h] Hx. cbn [fst snd].
  destruct (hm_pool _ _ _ Hm) as [Hok _].
  pose proof (live_hdr_disjoint base bs o n x Hok Hin (hdrs_addrs _ _ _ _ _ _ Hx)) as Hdis.
  rewrite (raw_ext m m').
  - pose proof (hm_hdrs _ _ _ Hm) as Hh. unfold hdrs_ok in Hh.
    rewrite list.Forall_forall in Hh. by apply (Hh (x, h)).
  - apply Hs. unfold disjoint in *. lia.
Qed.
