(* ===== verification/HeapTheorems.v ===== *)
(** * What holds of the kernel heap

    The heap's theorems: refinement of [kmalloc] and [kfree] to the block
    list, safety of what is handed out, release after allocation, the sizes
    that wrap around, [kzalloc], [heap_init] over any page allocator, and the
    invariant of every sequence of client operations. *)
From stdpp Require Import base tactics numbers gmap list.
From S2P Require Import Prelude Memory Interfaces Pmm HeapSpec Heap HeapProofs.

Local Open Scope Z_scope.

(** ** Client operations

    The heap together with the allocations its clients hold, each the pointer
    they were given and the bytes behind it that they may use. *)
Definition cstate : Type := heap * list (Z * Z).

(** The sizes for which rounding up to 8 does not wrap around. *)
Definition size_ok (size : Z) : Prop := 0 < size ≤ 2 ^ 64 - 8.

(** The bytes a client may use of what it asked for: all, or none when the rounding
    wraps around to 0. *)
Definition usable (size : Z) : Z := Z.min size (align8 size).

Inductive client_step : cstate → cstate → Prop :=
| step_malloc size p h h' A :
    0 ≤ size < 2 ^ 64 → kmalloc size h = Ok (p, h') → p ≠ 0 →
    client_step (h, A) (h', (p, usable size) :: A)
| step_malloc_null size h h' A :
    0 ≤ size < 2 ^ 64 → kmalloc size h = Ok (0, h') → client_step (h, A) (h', A)
| step_free p n h h' A1 A2 :
    kfree p h = Ok ((), h') →
    client_step (h, A1 ++ (p, n) :: A2) (h', A1 ++ A2)
| step_write p n a v h m' A :
    (p, n) ∈ A → p ≤ a < p + n → st 1 a v (hmem h) = Ok ((), m') →
    client_step (h, A) (Heap (s_head h) m', A).

(** What every state between client operations satisfies. *)
Definition client_inv (base : Z) (c : cstate) : Prop :=
  ∃ bs L, heap_rep base bs (fst c) ∧ coalesced bs ∧ L ≡ₚ lives 0 bs ∧
    Forall2 (λ x y, fst x = base + fst y ∧ 0 ≤ snd x ≤ snd y) (snd c) L.

(** One free block that fills the pool. *)
Definition fresh_pool : list block := [Blk (POOL - HDR) true].

(** * Lemmas *)

Lemma fresh_pool_ok : pool_ok fresh_pool.
Proof.
  split; [|done]. apply List.Forall_cons; [|done].
  split; unfold POOL, HDR; cbn [bsize]; [lia|by exists 32764].
Qed.

Lemma fresh_pool_coalesced : coalesced fresh_pool.
Proof. done. Qed.

(** A pool of zero bytes with one free block: the state [heap_init] leaves. *)
Lemma put_head_ok base m :
  base_ok base → mapped base POOL m →
  ∃ m', put_head base m = Ok ((), m') ∧ heap_mem base fresh_pool m' ∧
    ∀ b k, disjoint base HDR b k → same_bytes b k m m'.
Proof.
  intros Hb Hmap. assert (mapped base HDR m) as Hh.
  { eapply mapped_sub; [exact Hmap|lia|unfold POOL, HDR; lia]. }
  assert (∃ r, raw_of m base = r) as [r Hr] by eauto.
  unfold put_head.
  store_step (set_magic_ok m base Hh) at Hr as m1 W1.
  store_step (set_size_ok m1 base Hh (POOL - HDR) ltac:(unfold POOL, HDR; lia))
    at Hr as m2 W2.
  store_step (set_free_ok m2 base Hh true) at Hr as m3 W3.
  store_step (set_next_ok m3 base Hh 0 ltac:(lia)) at Hr as m4 W4.
  destruct (set_prev_ok m4 base Hh 0 ltac:(lia)) as (m5 & E5 & W5 & R5).
  rewrite Hr in R5. cbn in R5. exists m5.
  destruct (wrote_trans _ _ _ _ W1 (wrote_trans _ _ _ _ W2 (wrote_trans _ _ _ _ W3
    (wrote_trans _ _ _ _ W4 W5)))) as [Hd Hs].
  split; [exact E5|]. split.
  - split; [done|apply fresh_pool_ok|exact (wrote_mapped _ _ _ _ _ W5 Hmap)|].
    apply List.Forall_cons; [|done]. exact R5.
  - intros b k Hdis. apply Hs. apply List.Forall_cons; [exact Hdis|done].
Qed.

(** Clearing a mapped range byte by byte. *)
Lemma zero_bytes_ok n a m :
  mapped a (Z.of_nat n) m →
  ∃ m', zero_bytes n a m = Ok ((), m') ∧ same_dom m m' ∧
    (∀ b, a ≤ b < a + Z.of_nat n → m' !! b = Some 0) ∧
    ∀ b k, disjoint a (Z.of_nat n) b k → same_bytes b k m m'.
Proof.
  revert a m; induction n as [|n IH]; intros a m Hm; cbn [zero_bytes].
  { exists m. split_and!; [done|apply same_dom_refl|lia|]. intros. apply same_bytes_refl. }
  destruct (st_ok 1 a 0 m) as (m1 & E1 & Hl & Hd1 & Hs1).
  { eapply mapped_sub; [exact Hm|lia|lia]. }
  rewrite (bind_ok _ _ _ _ _ E1).
  destruct (IH (a + 1) m1) as (m2 & E2 & Hd2 & Hz & Hs2).
  { apply (mapped_same_dom _ _ m); [done|]. eapply mapped_sub; [exact Hm|lia|lia]. }
  exists m2. split; [done|]. split; [by eapply same_dom_trans|]. split.
  - intros b Hb. destruct (decide (b = a)) as [->|]; [|apply Hz; lia].
    assert (disjoint (a + 1) (Z.of_nat n) a 1) as Hdis by (unfold disjoint; lia).
    rewrite (Hs2 a 1 Hdis a) by lia.
    cbn [load] in Hl. destruct (m1 !! a) as [x|]; [|done].
    cbn in Hl. injection Hl as Hl. change (0 mod 256 ^ Z.of_nat 1) with 0 in Hl. f_equal. lia.
  - intros b k Hdis. unfold disjoint in *. eapply same_bytes_trans; [apply Hs1|apply Hs2]; lia.
Qed.

(** ** Live allocations *)

Lemma live_range base bs o n :
  base_ok base → pool_ok bs → (o, n) ∈ lives 0 bs →
  base + HDR ≤ base + o ∧ base + o + n ≤ base + POOL ∧ (8 | base + o).
Proof.
  intros (Hb & H8 & Hmax) Hok Hin.
  destruct (lives_bounds bs o n Hok Hin) as (? & ? & ? & ?).
  split_and!; [lia|lia|by apply Z.divide_add_r].
Qed.

Lemma live_mapped base bs o n m :
  heap_mem base bs m → (o, n) ∈ lives 0 bs → mapped (base + o) n m.
Proof.
  intros Hm Hin. destruct (live_range base bs o n) as (? & ? & _); [apply Hm..|done|].
  eapply mapped_sub; [apply Hm|unfold HDR in *; lia|lia].
Qed.

(** The allocations start at different offsets. *)
Lemma lives_offsets bs o x y :
  Forall block_ok bs → lives o bs = x ++ y →
  Forall (λ a, Forall (λ b, fst a + snd a + HDR ≤ fst b) y) x.
Proof.
  intros Hok. assert (∀ p bs, Forall block_ok bs →
    Forall (λ b, p + HDR ≤ fst b) (lives p bs)) as Hlow.
  { intros p bs' H. revert p. induction H as [|b bs' [Hb _] _ IH]; intros p; [done|].
    cbn [lives]. apply Forall_app. split.
    - destruct (bfree b); [done|]. repeat constructor; cbn; lia.
    - eapply Forall_impl; [apply IH|]. intros c ?. unfold HDR in *. cbn in *. lia. }
  revert o x; induction Hok as [|b bs [Hb _] Hok IH]; intros o x Hx; cbn [lives] in Hx.
  { destruct x; [done|discriminate]. }
  destruct (bfree b); [by apply (IH _ _ Hx)|].
  destruct x as [|a x]; cbn in Hx; [done|]. injection Hx as <- Hx.
  apply Forall_cons_iff. split; [|by apply (IH _ _ Hx)]. cbn.
  pose proof (Hlow (o + HDR + bsize b) bs Hok) as H. rewrite Hx in H.
  apply Forall_app in H as [_ H]. eapply Forall_impl; [exact H|]. cbn. lia.
Qed.

Lemma lives_NoDup bs : Forall block_ok bs → NoDup (fst <$> lives 0 bs).
Proof.
  intros Hok. pose proof (lives_offsets bs 0) as H.
  assert (∀ o n, (o, n) ∈ lives 0 bs → 0 ≤ n) as Hpos.
  { intros o n (i & b & Hi & _ & _ & ->)%lives_lookup.
    by apply (Forall_lookup_1 _ _ _ _ Hok) in Hi as [? _]. }
  assert (∀ l x, lives 0 bs = x ++ l → NoDup (fst <$> l)) as Hgen;
    [|by apply (Hgen _ [])].
  intros l; induction l as [|[o n] l IH]; intros x Hx; [constructor|].
  cbn. apply NoDup_cons. split; [|apply (IH (x ++ [(o, n)])); by rewrite <- app_assoc].
  intros ([o' n'] & -> & Hin)%list_elem_of_fmap.
  assert (0 ≤ n) by (apply (Hpos o'); rewrite Hx; set_solver).
  specialize (H (x ++ [(o', n)]) l Hok). rewrite <- app_assoc in H. specialize (H Hx).
  apply Forall_app in H as [_ H]. apply Forall_cons_1 in H as [H _].
  apply (proj1 (list.Forall_forall _ _)) with (x := (o', n')) in H; [|done].
  cbn in H. unfold HDR in *. lia.
Qed.

(** A block that allocation adds to the allocations in use overlaps none of the
    old ones, which stay. *)
Lemma lives_fresh bs bs' x y o k o' n' :
  Forall block_ok bs' → lives 0 bs = x ++ y → lives 0 bs' = x ++ (o, k) :: y →
  (o', n') ∈ lives 0 bs → (o', n') ∈ lives 0 bs' ∧ disjoint o k o' n'.
Proof.
  intros Hok Hx Hy Hin. assert ((o', n') ∈ lives 0 bs') as Hin'.
  { rewrite Hy, elem_of_app, elem_of_cons. rewrite Hx, elem_of_app in Hin. tauto. }
  split; [done|]. assert ((o, k) ∈ lives 0 bs') as Hin2 by (rewrite Hy, elem_of_app, elem_of_cons; tauto).
  cut (o ≠ o'); [intros Ho; pose proof (lives_disjoint bs' o k o' n' Hok Hin2 Hin' Ho);
    unfold disjoint, HDR in *; lia|].
  - intros ->. pose proof (lives_NoDup bs' Hok) as Hnd.
    rewrite Hy, fmap_app in Hnd. cbn in Hnd.
    rewrite <- Permutation_middle in Hnd. apply NoDup_cons in Hnd as [Hnot _].
    apply Hnot. rewrite <- fmap_app, <- Hx.
    apply (list_elem_of_fmap_2 fst (lives 0 bs) (o', n')). done.
Qed.

(** ** One client operation *)

(** [kmalloc] on a represented heap: what every success gives. *)
Lemma kmalloc_live base bs h size p h' :
  heap_rep base bs h → coalesced bs → 0 ≤ size →
  kmalloc size h = Ok (p, h') → p ≠ 0 →
  ∃ bs' k x y, heap_rep base bs' h' ∧ coalesced bs' ∧
    wrote_hdrs base bs bs' (hmem h) (hmem h') ∧
    spec_alloc (align8 size) bs = Some (p - base, bs') ∧
    lives 0 bs = x ++ y ∧ lives 0 bs' = x ++ (p - base, k) :: y ∧ align8 size ≤ k.
Proof.
  intros Hrep Hc Hs0 HE Hp. assert (0 < size) as Hs.
  { destruct (decide (size = 0)) as [->|]; [by injection HE|lia]. }
  pose proof (kmalloc_spec base bs h size Hrep Hs) as H.
  destruct (spec_alloc (align8 size) bs) as [[o bs']|] eqn:Ha; [|congruence].
  destruct H as (m' & HE' & W & Hrep'). rewrite HE' in HE. injection HE as <- <-.
  destruct (spec_alloc_lives _ _ _ _ Ha) as (k & x & y & Hx & Hy & Hk & _).
  exists bs', k, x, y. replace (base + o - base) with o by lia.
  refine (conj Hrep' (conj _ (conj W (conj eq_refl (conj Hx (conj Hy Hk)))))).
  by eapply spec_alloc_coalesced.
Qed.

(** [kfree] of a live allocation. *)
Lemma kfree_live base bs h o n :
  heap_rep base bs h → coalesced bs → (o, n) ∈ lives 0 bs →
  ∃ bs' h', kfree (base + o) h = Ok ((), h') ∧ heap_rep base bs' h' ∧ coalesced bs' ∧
    wrote (addrs base bs) (hmem h) (hmem h') ∧ lives 0 bs ≡ₚ (o, n) :: lives 0 bs'.
Proof.
  intros Hrep Hc (i & b & Hi & Hb & -> & ->)%lives_lookup.
  destruct (lookup_split bs i b Hi) as (l & r & -> & <- & ->).
  destruct (kfree_spec base l b r h Hrep Hb) as (m' & HE & W & Hrep').
  exists (spec_free (length l) (l ++ b :: r)), (Heap base m').
  rewrite Z.add_assoc.
  refine (conj HE (conj Hrep' (conj (spec_free_coalesced l b r Hc) (conj W _)))).
  destruct Hrep as [_ Hrep].
  destruct (spec_free_inv l b r Hb (hm_pool _ _ _ Hrep)) as [_ ->].
  rewrite lives_app. cbn [lives]. rewrite Hb. cbn [app]. rewrite Z.add_0_l.
  symmetry. apply Permutation_middle.
Qed.

(** What a heap operation leaves of the allocations in use before and after. *)
Lemma heap_rep_blocks base bs h : heap_rep base bs h → Forall block_ok bs.
Proof. by intros [_ [_ [Hok _] _ _]]. Qed.

(** ** Every operation keeps the client invariant *)

Lemma usable_bounds size : 0 ≤ size → 0 ≤ usable size ≤ align8 size.
Proof.
  intros Hs. unfold usable. assert (0 ≤ align8 size) by (apply Z.land_nonneg; left; apply u64_range). lia.
Qed.

Lemma usable_ok size : size_ok size → usable size = size.
Proof. intros [Hs Hw]. destruct (align8_bounds size) as [? _]; [lia..|]. unfold usable. lia. Qed.

Lemma client_inv_malloc base h A size p h' :
  client_inv base (h, A) → 0 ≤ size → kmalloc size h = Ok (p, h') → p ≠ 0 →
  client_inv base (h', (p, usable size) :: A).
Proof.
  intros (bs & L & Hrep & Hc & HL & HA) Hs HE Hp. cbn [fst snd] in *.
  destruct (kmalloc_live base bs h size p h' Hrep Hc Hs HE Hp)
    as (bs' & k & x & y & Hrep' & Hc' & _ & _ & Hx & Hy & Hk).
  exists bs', ((p - base, k) :: L). split; [done|]. split; [done|]. split.
  - rewrite Hy, <- Permutation_middle. by rewrite HL, Hx.
  - constructor; [|done]. pose proof (usable_bounds size Hs). cbn [fst snd]. lia.
Qed.

Lemma client_inv_free base h A1 A2 p n h' :
  client_inv base (h, A1 ++ (p, n) :: A2) → kfree p h = Ok ((), h') →
  client_inv base (h', A1 ++ A2).
Proof.
  intros (bs & L & Hrep & Hc & HL & HA) HE. cbn [fst snd] in *.
  apply Forall2_app_inv_l in HA as (L1 & L2' & HA1 & HA2 & ->).
  apply Forall2_cons_inv_l in HA2 as ([o k] & L2 & [Hp _] & HA2 & ->). cbn in Hp. subst p.
  rewrite <- Permutation_middle in HL.
  destruct (kfree_live base bs h o k Hrep Hc) as (bs' & h'' & HE' & Hrep' & Hc' & _ & HL').
  { rewrite <- HL. set_solver. }
  rewrite HE' in HE. injection HE as ->.
  exists bs', (L1 ++ L2). split; [done|]. split; [done|]. split.
  - rewrite <- HL in HL'. by apply Permutation_cons_inv in HL'.
  - by apply Forall2_app.
Qed.

Lemma client_inv_write base h A p n a v m' :
  client_inv base (h, A) → (p, n) ∈ A → p ≤ a < p + n → st 1 a v (hmem h) = Ok ((), m') →
  client_inv base (Heap (s_head h) m', A).
Proof.
  intros (bs & L & [Hhd Hm] & Hc & HL & HA) Hin Ha HE. cbn [fst snd] in *.
  exists bs, L. split; [|done]. split; [done|]. cbn [hmem].
  apply list_elem_of_lookup_1 in Hin as [i Hi].
  destruct (Forall2_lookup_l _ _ _ _ _ HA Hi) as ([o k] & HLi & [Hp Hn]). cbn [fst snd] in *.
  assert ((o, k) ∈ lives 0 bs) as Hlive.
  { rewrite <- HL. by apply list_elem_of_lookup_2 with i. }
  unfold st in HE. destruct (store 1 a v (hmem h)) as [m1|] eqn:Hst; [|done].
  injection HE as ->.
  apply (heap_mem_client base bs o k _ _ Hm Hlive); [by eapply store_dom|].
  intros b j Hdis. eapply store_frame; [exact Hst|]. unfold disjoint in *. lia.
Qed.

Lemma client_inv_step base c c' : client_inv base c → client_step c c' → client_inv base c'.
Proof.
  intros Hinv Hstep. destruct Hstep as [size p h h' A Hs HE Hp|size h h' A Hs HE|
    p n h h' A1 A2 HE|p n a v h m' A Hin Ha HE].
  - eapply client_inv_malloc; [done|lia|done..].
  - destruct Hinv as (bs & L & Hrep & Hinv). exists bs, L. split; [|done].
    cbn [fst] in *. destruct (decide (size = 0)) as [->|Hs0]; [by injection HE as <-|].
    pose proof (kmalloc_spec base bs h size Hrep ltac:(lia)) as H. destruct (spec_alloc (align8 size) bs) as [[o bs']|] eqn:Ha; [|congruence].
    destruct H as (m' & HE' & _). rewrite HE' in HE. injection HE as HE _.
    apply spec_alloc_split in Ha as (l & b & r & -> & _ & -> & _).
    destruct (at_bounds base l b r (hmem h)) as (? & _); [apply Hrep|]. unfold HDR in *. lia.
  - by eapply client_inv_free.
  - by eapply client_inv_write.
Qed.

(** What the invariant says of the allocations held. *)
Lemma client_inv_alloc base h A i p n :
  client_inv base (h, A) → A !! i = Some (p, n) →
  base + HDR ≤ p ∧ 0 ≤ n ∧ p + n ≤ base + POOL ∧ (8 | p) ∧ mapped p n (hmem h).
Proof.
  intros (bs & L & [_ Hm] & Hc & HL & HA) Hi. cbn [fst snd] in *.
  destruct (Forall2_lookup_l _ _ _ _ _ HA Hi) as ([o k] & HLi & [Hp Hn]). cbn in Hp, Hn. subst p.
  assert ((o, k) ∈ lives 0 bs) as Hin by (rewrite <- HL; by apply list_elem_of_lookup_2 with i).
  destruct (live_range base bs o k) as (? & ? & ?); [apply Hm..|done|].
  split_and!; [done|lia|lia|done|].
  eapply mapped_sub; [by eapply live_mapped|lia|lia].
Qed.

Lemma client_inv_disjoint base h A i j p1 n1 p2 n2 :
  client_inv base (h, A) → A !! i = Some (p1, n1) → A !! j = Some (p2, n2) → i ≠ j →
  disjoint (p1 - HDR) (HDR + n1) (p2 - HDR) (HDR + n2).
Proof.
  intros (bs & L & [_ Hm] & Hc & HL & HA) Hi Hj Hij. cbn [fst snd] in *.
  destruct (hm_pool _ _ _ Hm) as [Hok _].
  destruct (Forall2_lookup_l _ _ _ _ _ HA Hi) as ([o1 k1] & HLi & [Hp1 Hn1]).
  destruct (Forall2_lookup_l _ _ _ _ _ HA Hj) as ([o2 k2] & HLj & [Hp2 Hn2]).
  cbn in Hp1, Hn1, Hp2, Hn2. subst p1 p2.
  assert (o1 ≠ o2) as Ho.
  { intros ->. apply Hij. apply (NoDup_lookup (fst <$> L) i j o2).
    - rewrite HL. by apply lives_NoDup.
    - by rewrite list_lookup_fmap, HLi.
    - by rewrite list_lookup_fmap, HLj. }
  destruct (lives_disjoint bs o1 k1 o2 k2) as [?|?]; [done|rewrite <- HL; eauto using list_elem_of_lookup_2..|done| |];
    unfold disjoint; lia.
Qed.

(** ** A concrete heap, as [heap_init] leaves it *)

Lemma demo_base : base_ok 4096.
Proof. unfold base_ok, HDR, POOL. split_and!; [lia|by exists 512|lia]. Qed.

Lemma demo_heap : ∃ h, heap_rep 4096 fresh_pool h.
Proof.
  destruct (put_head_ok 4096 (fill 4096 POOL 0) demo_base (fill_mapped _ _ _))
    as (m & _ & Hm & _). exists (Heap 4096 m). by split.
Qed.

(** The first allocation from it. *)
Lemma demo_alloc :
  ∃ h h', heap_rep 4096 fresh_pool h ∧ kmalloc 100 h = Ok (4096 + 32, h') ∧
    heap_rep 4096 [Blk 104 false; Blk (POOL - 32 - 104 - 32) true] h'.
Proof.
  destruct demo_heap as [h Hh]. exists h.
  destruct (kmalloc_spec 4096 fresh_pool h 100 Hh ltac:(lia)) as (m' & HE & _ & Hrep).
  exists (Heap 4096 m'). exact (conj Hh (conj HE Hrep)).
Qed.

Lemma demo_client : ∃ h, client_inv 4096 (h, []).
Proof.
  destruct demo_heap as [h Hh]. exists h, fresh_pool, [].
  exact (conj Hh (conj fresh_pool_coalesced (conj (Permutation_refl _) (List.Forall2_nil _)))).
Qed.

(** ** [heap_init] over any page allocator *)

Section init.
Context {P : Type} `{PA : PageAllocator P}.

(** Taking [n] more pages: the set shrinks and the heap is untouched. *)
Lemma take_pages n s F h :
  pa_rep s F →
  ∃ s' F', for_each (count_up 1 n) (λ _, page_alloc ≫= λ _, mret tt) (s, h)
           = Ok ((), (s', h)) ∧
    pa_rep s' F' ∧ F' ⊆ F ∧ pa_hhdm s' = pa_hhdm s.
Proof.
  generalize 1 as k. revert s F; induction n as [|n IH]; intros s F k Hrep; cbn [count_up for_each].
  { exists s, F. done. }
  assert (∃ a s1 F1, pa_alloc s = Ok (a, s1) ∧ pa_rep s1 F1 ∧ F1 ⊆ F ∧ pa_hhdm s1 = pa_hhdm s)
    as (a & s1 & F1 & Ha & Hrep1 & HF1 & Hh1).
  { destruct (decide (F = ∅)) as [->|HF].
    - exists 0, s, ∅. split; [by apply pa_alloc_none|done].
    - destruct (lowest_exists F HF) as [p Hp].
      { intros p Hp. by apply (pa_bound s F p Hrep). }
      destruct (pa_alloc_some s F p Hrep Hp) as (s1 & ? & ? & ?).
      exists (4096 * p), s1, (F ∖ {[p]}). split_and!; [done..|set_solver|done]. }
  destruct (IH s1 F1 (k + 1) Hrep1) as (s2 & F2 & HE & Hrep2 & HF2 & Hh2).
  exists s2, F2. split; [|split_and!; [done|set_solver|congruence]].
  unfold page_alloc, zoom, mbind, M_bind in *. cbn [fst]. rewrite Ha. exact HE.
Qed.

(** The same when the lowest free pages are consecutive. *)
Lemma take_run n s F h q :
  pa_rep s F → (∀ p, p ∈ F → q ≤ p) → (∀ i, 0 ≤ i < Z.of_nat n → q + i ∈ F) →
  ∃ s', for_each (count_up 1 n) (λ _, page_alloc ≫= λ _, mret tt) (s, h)
        = Ok ((), (s', h)) ∧
    pa_rep s' (F ∖ list_to_set (range q (Z.of_nat n))) ∧ pa_hhdm s' = pa_hhdm s.
Proof.
  generalize 1 as k. revert s F q; induction n as [|n IH]; intros s F q k Hrep Hlow Hin;
    cbn [count_up for_each].
  { exists s. rewrite range_nil by lia. cbn [list_to_set]. by rewrite difference_empty_L. }
  assert (q ∈ F) as Hq by (replace q with (q + 0) by lia; apply Hin; lia).
  destruct (pa_alloc_some s F q Hrep) as (s1 & Ha & Hrep1 & Hh1); [done|].
  destruct (IH s1 (F ∖ {[q]}) (q + 1) (k + 1) Hrep1) as (s2 & HE & Hrep2 & Hh2).
  { intros p. rewrite elem_of_difference, elem_of_singleton. intros [Hp ?].
    specialize (Hlow p Hp). lia. }
  { intros i Hi. rewrite elem_of_difference, elem_of_singleton.
    split; [|lia]. replace (q + 1 + i) with (q + (i + 1)) by lia. apply Hin. lia. }
  exists s2. split; [|split; [|congruence]].
  - unfold page_alloc, zoom, mbind, M_bind in *. cbn [fst]. rewrite Ha. exact HE.
  - rewrite (range_cons q) by lia. cbn [list_to_set].
    replace (Z.of_nat (S n) - 1) with (Z.of_nat n) by lia.
    by rewrite <- difference_difference_l_L.
Qed.

(** The rest of [heap_init] once the pages have been taken. *)
Lemma heap_init_tail s F h p :
  pa_rep s F → lowest F p → p ≠ 0 →
  base_ok (4096 * p + pa_hhdm s) → mapped (4096 * p + pa_hhdm s) POOL (hmem h) →
  ∀ s1 s', pa_alloc s = Ok (4096 * p, s1) → pa_hhdm s' = pa_hhdm s →
  for_each (range 1 (HEAP_PAGES - 1)) (λ _, page_alloc ≫= λ _, mret tt) (s1, h)
    = Ok ((), (s', h)) →
  ∃ h', heap_init (s, h) = Ok ((), (s', h')) ∧
    heap_rep (4096 * p + pa_hhdm s) fresh_pool h'.
Proof.
  intros Hrep [Hp _] Hp0 Hb Hm s1 s' Ha Hh HE.
  pose proof (pa_bound s F p Hrep Hp) as Hr.
  destruct (put_head_ok _ _ Hb Hm) as (m' & HE' & Hm' & _).
  exists (Heap (4096 * p + pa_hhdm s) m'). split; [|by split].
  unfold heap_init. erewrite bind_ok; [|unfold page_alloc, zoom; cbn [fst]; by rewrite Ha].
  destruct (Z.eqb_spec (4096 * p) 0) as [|_]; [lia|].
  unfold set_pages. cbn [snd]. rewrite (bind_ok _ _ _ _ _ HE).
  unfold zoom, put, get, mbind, M_bind. cbn [fst snd hmem]. rewrite Hh.
  rewrite (u64_small (4096 * p + pa_hhdm s))
    by (destruct Hb as (? & _ & ?); unfold HDR, POOL in *; lia).
  by rewrite HE'.
Qed.
End init.

(** Pages from the physical memory manager that are not one run. *)
Lemma demo_gap : ∃ s F, pmm_rep s F ∧ pmm_hhdm_offset s = 0 ∧ lowest F 256 ∧ ¬ (257 ∈ F) ∧ 258 ∈ F.
Proof.
  destruct (pmm_init_rep 0 demo_map pmm_boot pmm_boot_wf eq_refl eq_refl demo_ok demo_disjoint)
    as (s & F & _ & Hr & HF0 & _ & Hh).
  assert (∀ p, p ∈ F ↔ 256 ≤ p < 512) as HF by (intros p; rewrite HF0; apply demo_pages).
  assert (257 ∈ F) as Hin by (apply HF; lia).
  exists (taken s 257), (F ∖ {[257]}). split; [by apply rep_remove|]. split; [exact Hh|].
  split_and!; [split; [apply elem_of_difference; split; [apply HF; lia|set_solver]|]| |].
  - intros q [Hq%HF _]%elem_of_difference. lia.
  - set_solver.
  - apply elem_of_difference. split; [apply HF; lia|set_solver].
Qed.

Lemma heap_init_ok (P : Type) (PA : PageAllocator P) (s : P) (F : gset Z) (h : heap) (p : Z)
    (Hrep : pa_rep s F) (Hp : lowest F p) (Hp0 : p ≠ 0)
    (Hrun : ∀ i, 0 ≤ i < HEAP_PAGES → p + i ∈ F)
    (Hb : base_ok (4096 * p + pa_hhdm s)) (Hm : mapped (4096 * p + pa_hhdm s) POOL (hmem h)) :
  ∃ s' h', heap_init (s, h) = Ok ((), (s', h')) ∧
    heap_rep (4096 * p + pa_hhdm s) fresh_pool h' ∧
    pa_rep s' (F ∖ list_to_set (range p HEAP_PAGES)).
Proof.
  destruct (pa_alloc_some s F p Hrep Hp) as (s1 & Ha & Hr1 & Hh1).
  destruct (take_run 63 s1 (F ∖ {[p]}) h (p + 1) Hr1) as (s2 & HE & Hr2 & Hh2).
  { intros q [Hq Hne]%elem_of_difference. destruct Hp as [_ Hp].
    specialize (Hp q Hq). rewrite elem_of_singleton in Hne. lia. }
  { intros i Hi. rewrite elem_of_difference, elem_of_singleton. split; [|lia].
    replace (p + 1 + i) with (p + (i + 1)) by lia. apply Hrun. unfold HEAP_PAGES. lia. }
  destruct (heap_init_tail s F h p Hrep Hp Hp0 Hb Hm s1 s2 Ha ltac:(congruence) HE)
    as (h' & HE' & Hr').
  exists s2, h'. split; [exact HE'|]. split; [exact Hr'|].
  rewrite (range_cons p) by (unfold HEAP_PAGES; lia). cbn [list_to_set].
  by rewrite <- difference_difference_l_L.
Qed.

(** * Properties *)

(** C14: on a heap that represents a list of blocks, [kmalloc] does what first
    fit on the list does for the size rounded up to 8: it returns the address
    the specification chooses and leaves memory that represents the
    specification's blocks, having written block headers only; when no free
    block is large enough it returns null and changes nothing.  The scan ends
    within its fuel. *)
Theorem kmalloc_refines (base : Z) (bs : list block) (h : heap) (size : Z)
    (Hrep : heap_rep base bs h) (Hs : 0 < size) :
  match spec_alloc (align8 size) bs with
  | None => kmalloc size h = Ok (0, h)
  | Some (o, bs') =>
      ∃ h', kmalloc size h = Ok (base + o, h') ∧ heap_rep base bs' h' ∧
        wrote_hdrs base bs bs' (hmem h) (hmem h')
  end.
Proof.
  pose proof (kmalloc_spec base bs h size Hrep Hs) as H.
  destruct (spec_alloc (align8 size) bs) as [[o bs']|]; [|done].
  destruct H as (m' & HE & W & Hr). exists (Heap base m'). exact (conj HE (conj Hr W)).
Qed.

Lemma kmalloc_refines_witness :
  ∃ h h', heap_rep 4096 fresh_pool h ∧ kmalloc 100 h = Ok (4096 + 32, h') ∧
    heap_rep 4096 [Blk 104 false; Blk (POOL - 32 - 104 - 32) true] h'.
Proof.
  destruct demo_heap as [h Hh].
  destruct (kmalloc_refines 4096 fresh_pool h 100 Hh ltac:(lia)) as (h' & HE & Hr & _).
  exists h, h'. exact (conj Hh (conj HE Hr)).
Defined.

(** C15: [kfree] of the user pointer of a block in use does what the
    specification's release does (mark the block free and join it with both
    free neighbours), writes block headers only, and never faults. *)
Theorem kfree_refines (base : Z) (bs : list block) (h : heap) (i : nat) (b : block)
    (Hrep : heap_rep base bs h) (Hi : bs !! i = Some b) (Hb : bfree b = false) :
  ∃ h', kfree (base + off bs i + HDR) h = Ok ((), h') ∧ heap_rep base (spec_free i bs) h' ∧
    wrote (addrs base bs) (hmem h) (hmem h').
Proof.
  destruct (lookup_split bs i b Hi) as (l & r & -> & <- & ->).
  destruct (kfree_spec base l b r h Hrep Hb) as (m' & HE & W & Hr).
  exists (Heap base m'). exact (conj HE (conj Hr W)).
Qed.

Lemma kfree_refines_witness :
  ∃ h h', heap_rep 4096 [Blk 104 false; Blk (POOL - 32 - 104 - 32) true] h ∧
    kfree (4096 + 32) h = Ok ((), h') ∧ heap_rep 4096 fresh_pool h'.
Proof.
  destruct demo_alloc as (_ & h & _ & _ & Hr).
  destruct (kfree_refines _ _ h 0 _ Hr eq_refl eq_refl) as (h' & HE & Hr' & _).
  exists h, h'. exact (conj Hr (conj HE Hr')).
Defined.

(** C17: a non-null [kmalloc] result is 8-aligned, lies inside the pool together
    with the bytes its client may use, all of them mapped, overlaps no allocation in
    use, and the call changes no byte of any allocation in use; these are all the
    [size] bytes asked for, except for the seven largest sizes, whose rounding wraps around (see
    [kmalloc_wraps]). *)
Theorem kmalloc_safe (base : Z) (bs : list block) (h h' : heap) (size p : Z)
    (Hrep : heap_rep base bs h) (Hc : coalesced bs) (Hs : 0 ≤ size < 2 ^ 64)
    (HE : kmalloc size h = Ok (p, h')) (Hp : p ≠ 0) :
  let k := usable size in
  (size ≤ 2 ^ 64 - 8 → k = size) ∧
  (8 | p) ∧ base + HDR ≤ p ∧ p + k ≤ base + POOL ∧ mapped p k (hmem h') ∧
  ∀ o n, (o, n) ∈ lives 0 bs →
    disjoint p k (base + o) n ∧ same_bytes (base + o) n (hmem h) (hmem h').
Proof.
  intros z. assert (size ≠ 0) as Hs0 by (intros ->; by injection HE).
  pose proof (usable_bounds size (proj1 Hs)) as Hz. fold z in Hz.
  split; [intros Hw; apply usable_ok; unfold size_ok; lia|]. destruct Hs as [Hs _].
  destruct (kmalloc_live _ _ _ _ _ _ Hrep Hc Hs HE Hp)
    as (bs' & k & x & y & Hrep' & Hc' & W & _ & Hx & Hy & Hk).
  pose proof (heap_rep_blocks _ _ _ Hrep) as Hok.
  pose proof (heap_rep_blocks _ _ _ Hrep') as Hok'.
  assert ((p - base, k) ∈ lives 0 bs') as Hin.
  { rewrite Hy, elem_of_app, elem_of_cons. tauto. }
  destruct Hrep' as [_ Hm'].
  destruct (live_range base bs' (p - base) k) as (H1 & H2 & H8); [apply Hm'..|done|].
  replace (base + (p - base)) with p in * by lia.
  split; [done|]. split; [lia|]. split; [lia|]. split.
  { eapply mapped_sub; [by eapply (live_mapped base bs' (p - base) k)|lia|lia]. }
  intros o n Hon. destruct (lives_fresh _ _ _ _ _ _ o n Hok' Hx Hy Hon) as [Hon' Hdis].
  split; [unfold disjoint in *; lia|]. by eapply wrote_hdrs_live.
Qed.

Lemma kmalloc_safe_witness :
  ∃ h p h', kmalloc 500 h = Ok (p, h') ∧ (8 | p) ∧ p + 500 ≤ 4096 + POOL ∧
    disjoint p 500 (4096 + 32) 104.
Proof.
  destruct demo_alloc as (_ & h & _ & _ & Hr).
  destruct (kmalloc_spec _ _ h 500 Hr ltac:(lia)) as (m' & HE & _ & _).
  exists h, (4096 + 168), (Heap 4096 m').
  destruct (kmalloc_safe 4096 _ h (Heap 4096 m') 500 (4096 + 168) Hr)
    as (Hk & H8 & _ & Hhi & _ & Hd).
  - done.
  - lia.
  - exact HE.
  - done.
  - rewrite (Hk ltac:(lia)) in Hhi, Hd. destruct (Hd 32 104) as [Hdis _]; [exact (list_elem_of_here (32, 104) [])|].
    exact (conj HE (conj H8 (conj Hhi Hdis))).
Defined.

(** C18: freeing what [kmalloc] just returned brings back the heap it had: the
    memory represents the same list of blocks again, the split block joined,
    and no byte outside block headers has changed. *)
Theorem kmalloc_kfree (base : Z) (bs : list block) (h h' : heap) (size p : Z)
    (Hrep : heap_rep base bs h) (Hc : coalesced bs) (Hs : 0 ≤ size)
    (HE : kmalloc size h = Ok (p, h')) (Hp : p ≠ 0) :
  ∃ h'' bs', kfree p h' = Ok ((), h'') ∧ heap_rep base bs h'' ∧
    wrote (addrs base bs ++ addrs base bs') (hmem h) (hmem h'').
Proof.
  destruct (kmalloc_live _ _ _ _ _ _ Hrep Hc Hs HE Hp)
    as (bs' & k & x & y & Hrep' & Hc' & W & Ha & _).
  destruct (spec_alloc_free _ _ _ _ Hc Ha) as (i & b & Hi & Hb & Ho & Hf).
  destruct (lookup_split bs' i b Hi) as (l & r & -> & <- & Hoff).
  rewrite Hoff in Ho.
  destruct (kfree_spec base l b r h' Hrep' Hb) as (m' & HE' & W' & Hr).
  exists (Heap base m'), (l ++ b :: r).
  replace p with (base + span l + HDR) by lia. rewrite Hf in Hr.
  refine (conj HE' (conj Hr _)). eapply wrote_trans; [exact W|].
  eapply wrote_sub; [exact W'|]. set_solver.
Qed.

Lemma kmalloc_kfree_witness :
  ∃ h h' h'', kmalloc 100 h = Ok (4096 + 32, h') ∧ kfree (4096 + 32) h' = Ok ((), h'') ∧
    heap_rep 4096 fresh_pool h''.
Proof.
  destruct demo_alloc as (h & h' & Hr & HE & _).
  destruct (kmalloc_kfree _ _ _ _ 100 _ Hr fresh_pool_coalesced ltac:(lia)
    HE ltac:(lia)) as (h'' & _ & HE' & Hr' & _).
  exists h, h', h''. exact (conj HE (conj HE' Hr')).
Defined.

(** C20: the rounding in [kmalloc] wraps around for the seven largest sizes: a
    request for [2^64 - k] bytes, [k] from 1 to 7, on a heap with any free
    block succeeds and hands out a block of fewer than 64 bytes. *)
Theorem kmalloc_wraps (base : Z) (bs : list block) (h : heap) (k : Z)
    (Hrep : heap_rep base bs h) (Hk : 1 ≤ k ≤ 7)
    (Hfree : Exists (λ b, bfree b = true) bs) :
  ∃ p n h' bs', kmalloc (2 ^ 64 - k) h = Ok (p, h') ∧ p ≠ 0 ∧ heap_rep base bs' h' ∧
    (p - base, n) ∈ lives 0 bs' ∧ n < 64.
Proof.
  pose proof (kmalloc_spec base bs h (2 ^ 64 - k) Hrep ltac:(lia)) as H.
  assert (align8 (2 ^ 64 - k) = 0) as Hal.
  { unfold align8. replace (u64 (2 ^ 64 - k + 7)) with (7 - k).
    - assert (k = 1 ∨ k = 2 ∨ k = 3 ∨ k = 4 ∨ k = 5 ∨ k = 6 ∨ k = 7)
        as [->|[->|[->|[->|[->|[->| ->]]]]]] by lia; reflexivity.
    - unfold u64. replace (2 ^ 64 - k + 7) with (7 - k + 1 * 2 ^ 64) by lia.
      rewrite Z.mod_add by lia. rewrite Z.mod_small by lia. done. }
  rewrite Hal in H. destruct (spec_alloc 0 bs) as [[o bs']|] eqn:Ha.
  - destruct H as (m' & HE & _ & Hr).
    destruct (spec_alloc_lives _ _ _ _ Ha) as (n & x & y & _ & Hy & _ & Hn).
    exists (base + o), n, (Heap base m'), bs'. split; [exact HE|].
    assert ((o, n) ∈ lives 0 bs') as Hin by (rewrite Hy, elem_of_app, elem_of_cons; tauto).
    pose proof Hr as [_ Hm].
    destruct (live_range base bs' o n) as (? & _); [apply Hm..|done|].
    destruct (hm_base _ _ _ Hm) as (Hb & _).
    split; [unfold HDR in *; lia|]. split; [exact Hr|].
    replace (base + o - base) with o by lia. unfold HDR in Hn. split; [done|lia].
  - apply spec_alloc_none in Ha. pose proof (heap_rep_blocks _ _ _ Hrep) as Hok.
    apply list.Exists_exists in Hfree as (b & Hb & Hbf).
    rewrite list.Forall_forall in Ha, Hok.
    destruct (Ha b Hb). split; [done|]. by apply Hok.
Qed.

Lemma kmalloc_wraps_witness :
  ∃ h p n h' bs', kmalloc 0xFFFFFFFFFFFFFFFF h = Ok (p, h') ∧ p ≠ 0 ∧
    heap_rep 4096 bs' h' ∧ (p - 4096, n) ∈ lives 0 bs' ∧ n < 64.
Proof.
  destruct demo_heap as [h Hh]. exists h.
  destruct (kmalloc_wraps 4096 fresh_pool h 1 Hh ltac:(lia)
    ltac:(by left)) as (p & n & h' & bs' & H).
  exists p, n, h', bs'. exact H.
Defined.

(** A non-null [kzalloc] result points to [size] zero bytes inside the
    pool, and the bytes of every allocation in use are unchanged. *)
Theorem kzalloc_zeroes (base : Z) (bs : list block) (h : heap) (size : Z)
    (Hrep : heap_rep base bs h) (Hc : coalesced bs) (Hs : size_ok size) :
  ∃ p h' bs', kzalloc size h = Ok (p, h') ∧ heap_rep base bs' h' ∧ coalesced bs' ∧
    (p = 0 ↔ spec_alloc (align8 size) bs = None) ∧
    (p ≠ 0 → (∀ a, p ≤ a < p + size → hmem h' !! a = Some 0) ∧
       ∀ o n, (o, n) ∈ lives 0 bs →
         (o, n) ∈ lives 0 bs' ∧ same_bytes (base + o) n (hmem h) (hmem h')).
Proof.
  pose proof (kmalloc_spec base bs h size Hrep ltac:(apply Hs)) as H.
  destruct (spec_alloc (align8 size) bs) as [[o bs']|] eqn:Ha.
  2:{ exists 0, h, bs. split; [unfold kzalloc; by rewrite (bind_ok _ _ _ _ _ H)|].
      refine (conj Hrep (conj Hc (conj (conj (λ _, eq_refl) (λ _, eq_refl)) _))).
      by intros []. }
  destruct H as (m1 & HE & W & Hrep').
  destruct (align8_bounds size) as [Hal _]; [destruct Hs; lia..|].
  destruct (spec_alloc_lives _ _ _ _ Ha) as (k & x & y & Hx & Hy & Hk & _).
  assert ((o, k) ∈ lives 0 bs') as Hin by (rewrite Hy, elem_of_app, elem_of_cons; tauto).
  pose proof (heap_rep_blocks _ _ _ Hrep) as Hok.
  pose proof (heap_rep_blocks _ _ _ Hrep') as Hok'.
  destruct Hrep' as [_ Hm]. cbn [hmem] in *. unfold size_ok in Hs.
  destruct (live_range base bs' o k) as (Hlo & Hhi & _); [apply Hm..|done|].
  destruct (zero_bytes_ok (Z.to_nat size) (base + o) m1) as (m2 & HE2 & Hd & Hz & Hsame).
  { eapply mapped_sub; [by eapply (live_mapped base bs' o k)|lia|lia]. }
  exists (base + o), (Heap base m2), bs'.
  destruct (hm_base _ _ _ Hm) as (Hb & _).
  split; [|split; [split; [done|]|split; [by eapply spec_alloc_coalesced|split; [split; [intros ?; exfalso; unfold HDR in *; lia|discriminate]|]]]].
  - unfold kzalloc. rewrite (bind_ok _ _ _ _ _ HE).
    destruct (Z.eqb_spec (base + o) 0) as [|_]; [unfold HDR in *; lia|].
    unfold zoom, mbind, M_bind. cbn [hmem]. by rewrite HE2.
  - apply (heap_mem_client base bs' o k m1 m2 Hm Hin Hd).
    intros b j Hdis. apply Hsame. unfold disjoint in *. lia.
  - intros _. split; [intros a Hin'; apply Hz; lia|]. intros o' n' Hin0.
    destruct (lives_fresh _ _ _ _ _ _ o' n' Hok' Hx Hy Hin0) as [Hin' Hdis].
    split; [done|]. eapply same_bytes_trans; [by eapply wrote_hdrs_live|].
    apply Hsame. unfold disjoint in *. lia.
Qed.

Lemma kzalloc_zeroes_witness :
  ∃ h p h', kzalloc 24 h = Ok (p, h') ∧ p ≠ 0 ∧ ∀ a, p ≤ a < p + 24 → hmem h' !! a = Some 0.
Proof.
  destruct demo_heap as [h Hh].
  destruct (kzalloc_zeroes 4096 fresh_pool h 24 Hh fresh_pool_coalesced
    ltac:(unfold size_ok; lia)) as (p & h' & bs' & HE & _ & _ & [Hz _] & Hp).
  assert (p ≠ 0) as Hp0 by (intros H0%Hz; discriminate H0).
  exists h, p, h'. exact (conj HE (conj Hp0 (proj1 (Hp Hp0)))).
Defined.

(** C16: from a state that satisfies the client invariant (a freshly
    initialised heap with nothing allocated does), whatever sequence of
    allocations of any [size_t], releases of live pointers and writes inside live allocations
    the clients perform, their allocations stay pairwise disjoint, headers included, 8-aligned,
    mapped and inside the pool, and the next [kmalloc] of any size or [kfree] of
    any live pointer returns without a fault.  An allocation extends over the size asked
    for, except that a client whose size is one of the seven that [kmalloc] wraps around
    may not write to what it is given ([usable], and see [kmalloc_wraps]). *)
Theorem client_reachable (base : Z) (c0 c : cstate)
    (H0 : client_inv base c0) (Hsteps : rtc client_step c0 c) :
  (∀ i p n, snd c !! i = Some (p, n) →
     base + HDR ≤ p ∧ 0 ≤ n ∧ p + n ≤ base + POOL ∧ (8 | p) ∧ mapped p n (hmem (fst c)) ∧
     ∃ h', kfree p (fst c) = Ok ((), h')) ∧
  (∀ i j p1 n1 p2 n2, snd c !! i = Some (p1, n1) → snd c !! j = Some (p2, n2) → i ≠ j →
     disjoint (p1 - HDR) (HDR + n1) (p2 - HDR) (HDR + n2)) ∧
  (∀ size, 0 ≤ size → ∃ p h', kmalloc size (fst c) = Ok (p, h')) ∧
  (∀ size, 0 < size ≤ 2 ^ 64 - 8 → usable size = size).
Proof.
  assert (client_inv base c) as Hinv.
  { clear -H0 Hsteps. induction Hsteps; eauto using client_inv_step. }
  clear c0 H0 Hsteps. destruct c as [h A]. cbn [fst snd]. split; [|split; [|split; [|exact usable_ok]]].
  - intros i p n Hi. destruct (client_inv_alloc base h A i p n Hinv Hi) as (? & ? & ? & ? & ?).
    split_and!; [done..|].
    destruct Hinv as (bs & L & Hrep & Hc & HL & HA). cbn [fst snd] in *.
    destruct (Forall2_lookup_l _ _ _ _ _ HA Hi) as ([o k] & HLi & [Hp _]). cbn in Hp. subst p.
    destruct (kfree_live base bs h o k Hrep Hc) as (_ & h' & HE & _); [|by exists h'].
    rewrite <- HL. by apply list_elem_of_lookup_2 with i.
  - intros i j p1 n1 p2 n2. by apply (client_inv_disjoint base h A).
  - intros size Hs. destruct (decide (size = 0)) as [->|]; [by exists 0, h|].
    destruct Hinv as (bs & L & Hrep & _).
    pose proof (kmalloc_spec base bs h size Hrep ltac:(lia)) as H. cbn [fst] in *.
    destruct (spec_alloc (align8 size) bs) as [[o bs']|]; [|by exists 0, h].
    destruct H as (m' & HE & _). by exists (base + o), (Heap base m').
Qed.

Lemma client_reachable_witness :
  ∃ h h' A, kmalloc 100 h = Ok (4096 + 32, h') ∧ A = [(4096 + 32, 100)] ∧
    ∃ h'', kfree (4096 + 32) h' = Ok ((), h'').
Proof.
  destruct demo_alloc as (h & h' & Hr & HE & _).
  exists h, h', [(4096 + 32, 100)]. split; [exact HE|]. split; [done|].
  destruct (client_reachable 4096 (h, []) (h', [(4096 + 32, 100)])) as [Hlive _].
  - exists fresh_pool, [].
    exact (conj Hr (conj fresh_pool_coalesced (conj (Permutation_refl _) (List.Forall2_nil _)))).
  - apply rtc_once. apply (step_malloc 100); [lia|exact HE|lia].
  - destruct (Hlive 0%nat (4096 + 32) 100 eq_refl) as (_ & _ & _ & _ & _ & Hf). exact Hf.
Defined.

(** C19: over any page allocator whose 64 lowest free pages are consecutive,
    [heap_init] takes exactly those pages and leaves a heap with one free block
    that fills them, at their address in the higher half. *)
Theorem heap_init_fresh (P : Type) (PA : PageAllocator P) (s : P) (F : gset Z) (h : heap) (p : Z)
    (Hrep : pa_rep s F) (Hp : lowest F p) (Hp0 : p ≠ 0)
    (Hrun : ∀ i, 0 ≤ i < HEAP_PAGES → p + i ∈ F)
    (Hb : base_ok (4096 * p + pa_hhdm s)) (Hm : mapped (4096 * p + pa_hhdm s) POOL (hmem h)) :
  ∃ s' h', heap_init (s, h) = Ok ((), (s', h')) ∧
    heap_rep (4096 * p + pa_hhdm s) fresh_pool h' ∧
    pa_rep s' (F ∖ list_to_set (range p HEAP_PAGES)).
Proof. by apply heap_init_ok. Qed.

Lemma heap_init_fresh_witness :
  ∃ s h s' h', heap_init (s, h) = Ok ((), (s', h')) ∧ heap_rep 0x100000 fresh_pool h' ∧
    pmm_free_pages s = 256.
Proof.
  destruct (pmm_init_rep 0 demo_map pmm_boot pmm_boot_wf eq_refl eq_refl demo_ok demo_disjoint)
    as (s & F & _ & Hr & HF & _ & Hh).
  assert (∀ p, p ∈ F ↔ 256 ≤ p < 512) as HF' by (intros p; rewrite HF; apply demo_pages).
  assert (4096 * 256 + pa_hhdm s = 0x100000) as Hbase by (cbn; unfold pmm_hhdm_offset; lia).
  destruct (heap_init_fresh pmm pmm_page_allocator s F (Heap 0 (fill 0x100000 POOL 0)) 256 Hr)
    as (s' & h' & HE & Hr' & _).
  - split; [apply HF'; lia|]. intros q Hq%HF'. lia.
  - lia.
  - intros i Hi. apply HF'. unfold HEAP_PAGES in Hi. lia.
  - rewrite Hbase. unfold base_ok, HDR, POOL. split_and!; [lia|by exists 131072|lia].
  - rewrite Hbase. apply fill_mapped.
  - rewrite Hbase in Hr'. exists s, (Heap 0 (fill 0x100000 POOL 0)), s', h'.
    refine (conj HE (conj Hr' _)). unfold pmm_free_pages. rewrite (rep_count _ _ Hr).
    replace F with (list_to_set (range 256 256) : gset Z).
    + rewrite size_list_to_set, length_range by apply NoDup_range. done.
    + apply set_eq. intros p. rewrite elem_of_list_to_set, elem_of_range, HF'. lia.
Defined.

(** [heap_init] assumes that the 64 pages it takes are consecutive and
    never looks at the addresses it is given: when a page [q] among the 64 that
    follow the lowest free one was not free, so that the heap never owned it,
    the heap it sets up covers that page all the same. *)
Theorem heap_init_gap (P : Type) (PA : PageAllocator P) (s : P) (F : gset Z) (h : heap) (p q : Z)
    (Hrep : pa_rep s F) (Hp : lowest F p) (Hp0 : p ≠ 0)
    (Hq : p < q < p + HEAP_PAGES) (Hfree : q ∉ F)
    (Hb : base_ok (4096 * p + pa_hhdm s)) (Hm : mapped (4096 * p + pa_hhdm s) POOL (hmem h)) :
  ∃ s' h' F', heap_init (s, h) = Ok ((), (s', h')) ∧ pa_rep s' F' ∧ F' ⊆ F ∧
    heap_rep (4096 * p + pa_hhdm s) fresh_pool h' ∧
    s_head h' ≤ 4096 * q + pa_hhdm s ∧ 4096 * (q + 1) + pa_hhdm s ≤ s_head h' + POOL.
Proof.
  destruct (pa_alloc_some s F p Hrep Hp) as (s1 & Ha & Hr1 & Hh1).
  destruct (take_pages 63 s1 (F ∖ {[p]}) h Hr1) as (s2 & F2 & HE & Hr2 & HF2 & Hh2).
  destruct (heap_init_tail s F h p Hrep Hp Hp0 Hb Hm s1 s2 Ha ltac:(congruence) HE)
    as (h' & HE' & Hr').
  exists s2, h', F2. split; [exact HE'|]. split; [exact Hr2|]. split; [set_solver|].
  split; [exact Hr'|]. destruct Hr' as [-> _]. unfold HEAP_PAGES, POOL in *. lia.
Qed.

Lemma heap_init_gap_witness :
  ∃ s h s' h' F, pmm_rep s F ∧ 258 ∈ F ∧ ¬ (257 ∈ F) ∧ heap_init (s, h) = Ok ((), (s', h')) ∧
    s_head h' ≤ 4096 * 257 + pmm_hhdm_offset s ∧
    4096 * 258 + pmm_hhdm_offset s ≤ s_head h' + POOL.
Proof.
  destruct demo_gap as (s & F & Hr & Hh & Hp & Hq & Hin).
  assert (4096 * 256 + pa_hhdm s = 0x100000) as Hbase.
  { change (pa_hhdm s) with (pmm_hhdm_offset s). rewrite Hh. lia. }
  destruct (heap_init_gap pmm pmm_page_allocator s F (Heap 0 (fill 0x100000 POOL 0)) 256 257 Hr Hp)
    as (s' & h' & F' & HE & _ & _ & _ & Hlo & Hhi).
  - lia.
  - unfold HEAP_PAGES. lia.
  - exact Hq.
  - rewrite Hbase. unfold base_ok, HDR, POOL. split_and!; [lia|by exists 131072|lia].
  - rewrite Hbase. apply fill_mapped.
  - exists s, (Heap 0 (fill 0x100000 POOL 0)), s', h', F.
    exact (conj Hr (conj Hin (conj Hq (conj HE (conj Hlo Hhi))))).
Defined.
