(* ===== verification/Sched.v ===== *)
(** * Round-robin scheduler ([kernel/sched/scheduler.cpp], [task.hpp])

    The task table, [sched_init], [sched_create_task] with the stack it seeds,
    and the timer tick that picks the next task.  The switch itself is machine
    code: [sched_tick] returns which switch it asks for, and [Switch] performs
    it. *)
From stdpp Require Import base tactics strings gmap numbers list.
From S2P Require Import Prelude CString Memory Interfaces Heap.

Local Open Scope Z_scope.

(** ** Data *)

Inductive TaskState := READY | RUNNING | BLOCKED | DEAD.
#[export] Instance TaskState_eq_dec : EqDecision TaskState.
Proof. solve_decision. Defined.

Record Task := MkTask {
  t_rsp : Z; t_stack_base : Z; t_state : TaskState; t_id : Z; t_name : list Z
}.

Definition TASK_STACK_PAGES : Z := 4.
Definition MAX_TASKS : Z := 16.
Definition SCHED_SLICE : Z := 2.
Definition SIZEOF_NAME : Z := 24.

Record sched := Sched {
  s_tasks : list Task; s_count : Z; s_current : Z; s_ticks : Z
}.

(** [enum class TaskState : uint8_t], the value stored in memory. *)
Definition state_val (st : TaskState) : Z :=
  match st with READY => 0 | RUNNING => 1 | BLOCKED => 2 | DEAD => 3 end.

(** Zero-initialised statics. *)
Definition task_boot : Task := MkTask 0 0 READY 0 (replicate 24 0).
Definition sched_boot : sched := Sched (replicate (Z.to_nat MAX_TASKS) task_boot) 0 0 0.

Definition set_rsp (v : Z) (t : Task) : Task :=
  MkTask v (t_stack_base t) (t_state t) (t_id t) (t_name t).
Definition set_stack (v : Z) (t : Task) : Task :=
  MkTask (t_rsp t) v (t_state t) (t_id t) (t_name t).
Definition set_state (v : TaskState) (t : Task) : Task :=
  MkTask (t_rsp t) (t_stack_base t) v (t_id t) (t_name t).
Definition set_id (v : Z) (t : Task) : Task :=
  MkTask (t_rsp t) (t_stack_base t) (t_state t) v (t_name t).
Definition set_name (v : list Z) (t : Task) : Task :=
  MkTask (t_rsp t) (t_stack_base t) (t_state t) (t_id t) v.

Definition set_tasks (l : list Task) (s : sched) : sched :=
  Sched l (s_count s) (s_current s) (s_ticks s).
Definition set_count (n : Z) (s : sched) : sched :=
  Sched (s_tasks s) n (s_current s) (s_ticks s).
Definition set_current (n : Z) (s : sched) : sched :=
  Sched (s_tasks s) (s_count s) n (s_ticks s).
Definition set_ticks (n : Z) (s : sched) : sched :=
  Sched (s_tasks s) (s_count s) (s_current s) n.

(** ** Operations *)

(** [s_tasks[i]], and an assignment to one of its fields. *)
Definition task (i : Z) : M sched Task := zoom s_tasks set_tasks (arr_get i).
Definition upd_task (i : Z) (f : Task → Task) : M sched unit :=
  zoom s_tasks set_tasks (t ← arr_get i; arr_put i (f t)).

Definition copy_str (src : list Z) (max : Z) : M (list Z) unit :=
  i ← copy_loop 0 max src; arr_put i 0.

(** [copy_str] into the name of task [i]. *)
Definition copy_name (i : Z) (name : list Z) : M sched unit :=
  t ← task i;
  match copy_str name SIZEOF_NAME (t_name t) with
  | Ok (_, n) => upd_task i (set_name n)
  | Fault => fault
  | NoFuel => nofuel
  end.

Definition zero_mem (p n : Z) : M mem unit := zero_bytes (Z.to_nat n) p.

(** The scheduler and the heap its stacks come from. *)
Abbreviation sys := (sched * heap)%type.
Definition on_sched {A} (m : M sched A) : M sys A := zoom fst (λ s t, (s, snd t)) m.
Definition on_heap {A} (m : M heap A) : M sys A := zoom snd (λ h t, (fst t, h)) m.
Definition on_mem {A} (m : M mem A) : M sys A := on_heap (zoom hmem set_hmem m).

(** [*--sp = v]; the result is the new [sp]. *)
Definition push_word (sp v : Z) : M mem Z :=
  st 8 (u64 (sp - 8)) v ≫= λ _, mret (u64 (sp - 8)).

(** [*--sp = v] for each word of a list. *)
Fixpoint push_words (vs : list Z) (sp : Z) : M mem Z :=
  match vs with
  | [] => mret sp
  | v :: vs => sp ← push_word sp v; push_words vs sp
  end.

Definition setup_initial_stack (i entry : Z) : M sys unit :=
  p ← on_heap (kmalloc (TASK_STACK_PAGES * 4096));
  on_sched (upd_task i (set_stack p)) ≫= λ _,
  if p =? 0 then mret tt else
  on_mem (zero_mem p (TASK_STACK_PAGES * 4096)) ≫= λ _,
  sp ← on_mem (push_words [entry; 0; 0; 0; 0; 0; 0] (u64 (p + TASK_STACK_PAGES * 4096)));
  on_sched (upd_task i (set_rsp sp)).

Definition sched_init : M sched unit :=
  upd_task 0 (set_id 0) ≫= λ _,
  upd_task 0 (set_state RUNNING) ≫= λ _,
  upd_task 0 (set_stack 0) ≫= λ _,
  upd_task 0 (set_rsp 0) ≫= λ _,
  copy_name 0 (cstr "idle") ≫= λ _,
  modify (set_count 1) ≫= λ _,
  modify (set_current 0).

(** Every value a [uint32_t] function returns for failure. *)
Definition NO_TASK : Z := 0xFFFFFFFF.

Definition sched_create_task (entry_fn : Z) (name : list Z) : M sys Z :=
  s ← on_sched get;
  if MAX_TASKS <=? s_count s then mret NO_TASK else
  let i := s_count s in
  on_sched (upd_task i (set_id i)) ≫= λ _,
  on_sched (upd_task i (set_state READY)) ≫= λ _,
  on_sched (copy_name i name) ≫= λ _,
  setup_initial_stack i entry_fn ≫= λ _,
  t ← on_sched (task i);
  if t_stack_base t =? 0 then mret NO_TASK else
  on_sched (modify (set_count (u32 (i + 1)))) ≫= λ _,
  mret i.

(** The loop that looks for a READY task, [n] iterations from [next]. *)
Fixpoint find_ready (n : nat) (next : Z) : M sched Z :=
  match n with
  | O => mret next
  | S n =>
      t ← task next;
      if bool_decide (t_state t = READY) then mret next else
      s ← get;
      find_ready n (u32 (next + 1) `mod` s_count s)
  end.

(** The tick; [Some (prev, next)] asks for [context_switch(&s_tasks[prev].rsp,
    s_tasks[next].rsp)]. *)
Definition sched_tick : M sched (option (Z * Z)) :=
  modify (λ s, set_ticks (u32 (s_ticks s + 1)) s) ≫= λ _,
  s ← get;
  if negb (s_ticks s `mod` SCHED_SLICE =? 0) then mret None else
  if s_count s <=? 1 then mret None else
  t ← task (s_current s);
  (if bool_decide (t_state t = RUNNING)
   then upd_task (s_current s) (set_state READY) else mret tt) ≫= λ _,
  next ← find_ready (Z.to_nat (s_count s)) (u32 (s_current s + 1) `mod` s_count s);
  if next =? s_current s then
    upd_task (s_current s) (set_state RUNNING) ≫= λ _, mret None
  else
    let prev := s_current s in
    modify (set_current next) ≫= λ _,
    upd_task next (set_state RUNNING) ≫= λ _,
    mret (Some (prev, next)).

Definition sched_current_id (s : sched) : Z := s_current s.
Definition sched_task_count (s : sched) : Z := s_count s.

(** ** Invariant *)

(** The state of task [i], READY for an index outside the table. *)
Definition state_of (s : sched) (i : Z) : TaskState :=
  default READY (t_state <$> s_tasks s !! Z.to_nat i).

(** The table is whole, the indices are in range, and exactly the current task
    among the [s_count] live ones is RUNNING. *)
Record sched_ok (s : sched) : Prop := {
  so_len : Z.of_nat (length (s_tasks s)) = MAX_TASKS;
  so_count : 1 ≤ s_count s ≤ MAX_TASKS;
  so_current : 0 ≤ s_current s < s_count s;
  so_running : ∀ i, 0 ≤ i < s_count s → (state_of s i = RUNNING ↔ i = s_current s);
  so_names : Forall (λ t, Z.of_nat (length (t_name t)) = SIZEOF_NAME) (s_tasks s)
}.

(** * Lemmas *)

Lemma task_ok s i :
  0 ≤ i < Z.of_nat (length (s_tasks s)) →
  ∃ t, task i s = Ok (t, s) ∧ s_tasks s !! Z.to_nat i = Some t ∧ t_state t = state_of s i.
Proof.
  intros Hi. destruct (arr_elem _ i Hi) as [t Ht]. exists t.
  unfold task, zoom, state_of. rewrite (arr_get_ok _ i t), Ht by (lia || done).
  by destruct s.
Qed.

Definition upd (i : Z) (f : Task → Task) (s : sched) : sched :=
  set_tasks (alter f (Z.to_nat i) (s_tasks s)) s.

Lemma upd_task_ok s i f :
  0 ≤ i < Z.of_nat (length (s_tasks s)) → upd_task i f s = Ok ((), upd i f s).
Proof.
  intros Hi. destruct (arr_elem _ i Hi) as [t Ht]. unfold upd_task, zoom, upd.
  rewrite (bind_ok _ _ _ t (s_tasks s)) by (apply arr_get_ok; [lia|done]).
  rewrite arr_put_ok by lia. do 2 f_equal. f_equal. symmetry.
  apply list_eq. intros j. destruct (decide (j = Z.to_nat i)) as [->|Hj].
  - rewrite list_lookup_alter_eq, list_lookup_insert_eq, Ht by lia. done.
  - by rewrite list_lookup_alter_ne, list_lookup_insert_ne by done.
Qed.

Lemma upd_length i f s : length (s_tasks (upd i f s)) = length (s_tasks s).
Proof. apply length_alter. Qed.

Lemma upd_lookup i f s j :
  s_tasks (upd i f s) !! j = if decide (j = Z.to_nat i) then f <$> s_tasks s !! j else s_tasks s !! j.
Proof.
  cbn. destruct (decide _) as [->|]; [apply list_lookup_alter_eq|by apply list_lookup_alter_ne].
Qed.

Lemma state_upd_state i v s j :
  0 ≤ i < Z.of_nat (length (s_tasks s)) → 0 ≤ j →
  state_of (upd i (set_state v) s) j = if decide (j = i) then v else state_of s j.
Proof.
  intros Hi Hj. unfold state_of. rewrite upd_lookup.
  destruct (decide (j = i)) as [->|Hne].
  - rewrite decide_True by done. destruct (arr_elem _ i Hi) as [t ->]. done.
  - by rewrite decide_False by lia.
Qed.

Lemma names_upd i f s :
  (∀ t, t_name (f t) = t_name t) →
  Forall (λ t, Z.of_nat (length (t_name t)) = SIZEOF_NAME) (s_tasks s) →
  Forall (λ t, Z.of_nat (length (t_name t)) = SIZEOF_NAME) (s_tasks (upd i f s)).
Proof.
  intros Hf H. apply list.Forall_lookup_2. intros j t. rewrite upd_lookup.
  destruct (decide _).
  - intros (t' & Ht & ->)%fmap_Some. rewrite Hf. by apply (Forall_lookup_1 _ _ _ _ H Ht).
  - apply (Forall_lookup_1 _ _ _ _ H).
Qed.

Lemma mod_next a c : 0 < c → ((a `mod` c) + 1) `mod` c = (a + 1) `mod` c.
Proof. intros. by rewrite Z.add_mod_idemp_l by lia. Qed.

(** The search: the first READY task from [a mod count] on, within [n] steps. *)
Lemma find_ready_spec s n a :
  0 < s_count s ≤ MAX_TASKS → Z.of_nat (length (s_tasks s)) = MAX_TASKS →
  (∃ j, 0 ≤ j < Z.of_nat n ∧ find_ready n (a `mod` s_count s) s = Ok ((a + j) `mod` s_count s, s) ∧
     state_of s ((a + j) `mod` s_count s) = READY ∧
     ∀ k, 0 ≤ k < j → state_of s ((a + k) `mod` s_count s) ≠ READY) ∨
  (find_ready n (a `mod` s_count s) s = Ok ((a + Z.of_nat n) `mod` s_count s, s) ∧
   ∀ k, 0 ≤ k < Z.of_nat n → state_of s ((a + k) `mod` s_count s) ≠ READY).
Proof.
  intros Hc Hl. revert a; induction n as [|n IH]; intros a; cbn [find_ready].
  { right. split; [by rewrite Z.add_0_r|lia]. }
  pose proof (Z.mod_pos_bound a (s_count s) ltac:(lia)) as Hb.
  destruct (task_ok s (a `mod` s_count s)) as (t & Ht & _ & Hst); [lia|].
  rewrite (bind_ok _ _ _ _ _ Ht), Hst. case_bool_decide as Hr.
  { left. exists 0. split; [lia|]. rewrite Z.add_0_r. split; [done|]. split; [done|lia]. }
  rewrite (bind_ok _ _ _ s s) by done.
  rewrite u32_small by (unfold MAX_TASKS in *; lia). rewrite mod_next by lia.
  assert (∀ k, 0 ≤ k < 1 → state_of s ((a + k) `mod` s_count s) ≠ READY) as H0.
  { intros k Hk. by replace (a + k) with a by lia. }
  destruct (IH (a + 1)) as [(j & Hj & HE & Hjr & Hk)|[HE Hk]].
  - left. exists (j + 1). replace (a + (j + 1)) with (a + 1 + j) by lia.
    split; [lia|]. split; [done|]. split; [done|]. intros k ?.
    destruct (decide (k < 1)); [apply H0; lia|].
    replace (a + k) with (a + 1 + (k - 1)) by lia. apply Hk. lia.
  - right. replace (a + Z.of_nat (S n)) with (a + 1 + Z.of_nat n) by lia. split; [done|].
    intros k ?. destruct (decide (k < 1)); [apply H0; lia|].
    replace (a + k) with (a + 1 + (k - 1)) by lia. apply Hk. lia.
Qed.

(** The next task of the round robin: the first READY one after the current. *)
Definition next_ready (s : sched) (next : Z) : Prop :=
  ∃ j, 0 < j < s_count s ∧ next = (s_current s + j) `mod` s_count s ∧
    state_of s next = READY ∧
    ∀ k, 0 < k < j → state_of s ((s_current s + k) `mod` s_count s) ≠ READY.

Definition none_ready (s : sched) : Prop :=
  ∀ k, 0 < k < s_count s → state_of s ((s_current s + k) `mod` s_count s) ≠ READY.

(** Another index than the current one, one full turn aside. *)
Lemma turn_ne s j :
  sched_ok s → 0 < j < s_count s → (s_current s + j) `mod` s_count s ≠ s_current s.
Proof.
  intros Hok Hj Heq. pose proof (so_current _ Hok) as Hc.
  assert ((s_current s + j) `mod` s_count s = s_current s + j ∨
          (s_current s + j) `mod` s_count s = s_current s + j - s_count s) as H; [|lia].
  destruct (Z.lt_ge_cases (s_current s + j) (s_count s)).
  - left. apply Z.mod_small. lia.
  - right. replace (s_current s + j) with (s_current s + j - s_count s + 1 * s_count s) at 1 by lia.
    rewrite Z.mod_add by lia. apply Z.mod_small. lia.
Qed.

Lemma turn_full s : sched_ok s → (s_current s + s_count s) `mod` s_count s = s_current s.
Proof.
  intros Hok. pose proof (so_current _ Hok).
  replace (s_current s + s_count s) with (s_current s + 1 * s_count s) by lia.
  rewrite Z.mod_add by lia. apply Z.mod_small. lia.
Qed.

Definition slice_ends (s : sched) : Prop := u32 (s_ticks s + 1) `mod` SCHED_SLICE = 0.
#[export] Instance slice_ends_dec s : Decision (slice_ends s).
Proof. unfold slice_ends. apply _. Defined.

Definition ticked (s : sched) : sched := set_ticks (u32 (s_ticks s + 1)) s.

(** The states the tick leaves: after a switch, and when nothing else is READY. *)
Definition switched (next : Z) (s : sched) : sched :=
  upd next (set_state RUNNING)
    (set_current next (upd (s_current s) (set_state READY) (ticked s))).
Definition stayed (s : sched) : sched :=
  upd (s_current s) (set_state RUNNING) (upd (s_current s) (set_state READY) (ticked s)).

Lemma tick_idle s :
  ¬ slice_ends s ∨ s_count s ≤ 1 → sched_tick s = Ok (None, ticked s).
Proof.
  intros H. unfold sched_tick. rewrite (bind_ok _ _ _ () (ticked s)) by done.
  rewrite (bind_ok _ _ _ (ticked s) (ticked s)) by done.
  change (s_ticks (ticked s)) with (u32 (s_ticks s + 1)).
  change (s_count (ticked s)) with (s_count s). unfold slice_ends in H.
  destruct (Z.eqb_spec (u32 (s_ticks s + 1) `mod` SCHED_SLICE) 0); [|done].
  destruct H; [done|]. cbn [negb]. by destruct (Z.leb_spec (s_count s) 1); [|lia].
Qed.

Section tick.
Context (s : sched) (Hok : sched_ok s) (Hs : slice_ends s) (Hn : 1 < s_count s).
Let s1 := ticked s.
Let s2 := upd (s_current s) (set_state READY) s1.

Lemma s2_state i :
  0 ≤ i → state_of s2 i = if decide (i = s_current s) then READY else state_of s i.
Proof using Hok.
  intros Hi. unfold s2. rewrite state_upd_state; [done| |done].
  pose proof (so_current _ Hok). pose proof (so_count _ Hok). pose proof (so_len _ Hok).
  unfold MAX_TASKS in *. cbn. lia.
Qed.

Lemma s2_turn k :
  0 < k < s_count s →
  state_of s2 ((s_current s + k) `mod` s_count s) = state_of s ((s_current s + k) `mod` s_count s).
Proof using Hok.
  intros Hk. rewrite s2_state, decide_False; [done|by apply turn_ne|].
  apply Z.mod_pos_bound. pose proof (so_count _ Hok). clear Hn. lia.
Qed.

(** The tick up to the search. *)
Lemma tick_search :
  sched_tick s =
  (next ← find_ready (Z.to_nat (s_count s)) ((s_current s + 1) `mod` s_count s);
   if next =? s_current s then upd_task (s_current s) (set_state RUNNING) ≫= λ _, mret None
   else modify (set_current next) ≫= λ _, upd_task next (set_state RUNNING) ≫= λ _,
        mret (Some (s_current s, next))) s2.
Proof using Hok Hs Hn.
  pose proof (so_current _ Hok) as Hc. pose proof (so_count _ Hok) as Hcnt.
  pose proof (so_len _ Hok) as Hl. unfold MAX_TASKS in *.
  unfold sched_tick. rewrite (bind_ok _ _ _ () s1) by done.
  rewrite (bind_ok _ _ _ s1 s1) by done.
  change (s_ticks s1) with (u32 (s_ticks s + 1)). unfold slice_ends in Hs. rewrite Hs.
  change (s_count s1) with (s_count s). change (s_current s1) with (s_current s).
  destruct (Z.leb_spec (s_count s) 1); [lia|]. cbn [negb Z.eqb].
  destruct (task_ok s1 (s_current s)) as (t & Ht & _ & Hst); [cbn; lia|].
  rewrite (bind_ok _ _ _ _ _ Ht), Hst.
  change (state_of s1 (s_current s)) with (state_of s (s_current s)).
  rewrite bool_decide_eq_true_2 by (by apply (so_running _ Hok)).
  rewrite (bind_ok _ _ _ () s2) by (apply upd_task_ok; cbn; lia).
  by rewrite u32_small by lia.
Qed.

Lemma tick_slice :
  (∃ next, next_ready s next ∧ sched_tick s = Ok (Some (s_current s, next), switched next s)) ∨
  (none_ready s ∧ sched_tick s = Ok (None, stayed s)).
Proof using Hok Hs Hn.
  pose proof (so_current _ Hok) as Hc. pose proof (so_count _ Hok) as Hcnt.
  pose proof (so_len _ Hok) as Hl. unfold MAX_TASKS in *. rewrite tick_search.
  assert (∀ a, find_ready (Z.to_nat (s_count s)) ((s_current s + 1) `mod` s_count s) s2
               = Ok (a, s2) → a = s_current s →
    (next ← find_ready (Z.to_nat (s_count s)) ((s_current s + 1) `mod` s_count s);
     if next =? s_current s then upd_task (s_current s) (set_state RUNNING) ≫= λ _, mret None
     else modify (set_current next) ≫= λ _, upd_task next (set_state RUNNING) ≫= λ _,
          mret (Some (s_current s, next))) s2 = Ok (None, stayed s)) as Hstay.
  { intros a HE ->. rewrite (bind_ok _ _ _ _ _ HE), Z.eqb_refl.
    by rewrite (bind_ok _ _ _ () (stayed s)) by (apply upd_task_ok; unfold s2; rewrite upd_length; cbn; lia). }
  assert (0 < s_count s2 ≤ MAX_TASKS) as Hc2 by (unfold MAX_TASKS; cbn; lia).
  assert (Z.of_nat (length (s_tasks s2)) = MAX_TASKS) as Hl2 by (unfold s2; by rewrite upd_length).
  pose proof (find_ready_spec s2 (Z.to_nat (s_count s)) (s_current s + 1) Hc2 Hl2) as Hf.
  change (s_count s2) with (s_count s) in Hf. rewrite Z2Nat.id in Hf by lia.
  destruct Hf as [(j & Hj & HE & Hr & Hk)|[HE Hk]].
  2:{ exfalso. apply (Hk (s_count s - 1)); [lia|].
      replace (s_current s + 1 + (s_count s - 1)) with (s_current s + s_count s) by lia.
      rewrite turn_full, s2_state, decide_True by (done || lia). done. }
  replace (s_current s + 1 + j) with (s_current s + (j + 1)) in HE, Hr by lia.
  assert (∀ k, 0 < k < j + 1 → state_of s2 ((s_current s + k) `mod` s_count s) ≠ READY) as Hk'.
  { intros k ?. replace (s_current s + k) with (s_current s + 1 + (k - 1)) by lia. apply Hk. lia. }
  destruct (decide (j + 1 = s_count s)) as [Hfull|Hpart].
  - right. rewrite Hfull in *. rewrite turn_full in HE by done. split.
    + intros k Hkk. rewrite <- s2_turn by done. by apply Hk'.
    + by apply (Hstay _ HE).
  - left. exists ((s_current s + (j + 1)) `mod` s_count s).
    pose proof (turn_ne s (j + 1) Hok ltac:(lia)) as Hne.
    pose proof (Z.mod_pos_bound (s_current s + (j + 1)) (s_count s) ltac:(lia)) as Hb. split.
    + exists (j + 1). split_and!; [lia|lia|done|by rewrite <- s2_turn by lia|].
      intros k Hkk. rewrite <- s2_turn by lia. by apply Hk'.
    + rewrite (bind_ok _ _ _ _ _ HE).
      destruct (Z.eqb_spec ((s_current s + (j + 1)) `mod` s_count s) (s_current s)); [done|].
      set (next := (s_current s + (j + 1)) `mod` s_count s) in *.
      rewrite (bind_ok _ _ _ () (set_current next s2)) by done.
      by rewrite (bind_ok _ _ _ () (switched next s))
        by (apply upd_task_ok; cbn [s_tasks set_current set_tasks]; unfold s2; rewrite upd_length; cbn; lia).
Qed.
End tick.

(** What the tick leaves of each task's state. *)
Lemma switched_state s next i :
  sched_ok s → 0 ≤ next < s_count s → 0 ≤ i →
  state_of (switched next s) i =
  if decide (i = next) then RUNNING else
  if decide (i = s_current s) then READY else state_of s i.
Proof.
  intros Hok Hnext Hi. pose proof (so_current _ Hok) as Hc. pose proof (so_count _ Hok).
  pose proof (so_len _ Hok). unfold MAX_TASKS in *. unfold switched. rewrite state_upd_state.
  - destruct (decide (i = next)); [done|]. change (state_of (set_current next ?x)) with (state_of x).
    by apply s2_state.
  - cbn. rewrite length_alter. lia.
  - done.
Qed.

Lemma stayed_state s i :
  sched_ok s → 0 ≤ i → state_of (stayed s) i = state_of s i.
Proof.
  intros Hok Hi. pose proof (so_current _ Hok) as Hc. pose proof (so_count _ Hok).
  pose proof (so_len _ Hok). unfold MAX_TASKS in *. unfold stayed. rewrite state_upd_state.
  - destruct (decide (i = s_current s)) as [->|]; [symmetry; by apply (so_running _ Hok)|].
    by rewrite s2_state, decide_False by done.
  - cbn. rewrite length_alter. lia.
  - done.
Qed.

Lemma ticked_ok s : sched_ok s → sched_ok (ticked s).
Proof. by intros []; split. Qed.

Lemma switched_ok s next :
  sched_ok s → 0 ≤ next < s_count s → sched_ok (switched next s).
Proof.
  intros Hok Hnext. split.
  - unfold switched. rewrite upd_length. cbn [s_tasks set_current]. rewrite upd_length. apply Hok.
  - apply Hok.
  - done.
  - intros i Hi. cbn [s_count switched upd set_tasks set_current ticked] in Hi.
    rewrite switched_state by (done || lia). cbn [s_current switched upd set_tasks set_current].
    repeat case_decide; [done..|]. split; [|done]. intros Hr.
    apply (so_running _ Hok) in Hr; [done|exact Hi].
  - unfold switched. apply names_upd; [done|]. cbn [s_tasks set_current].
    apply names_upd; [done|]. apply Hok.
Qed.

Lemma stayed_ok s : sched_ok s → sched_ok (stayed s).
Proof.
  intros Hok. split.
  - unfold stayed. rewrite !upd_length. apply Hok.
  - apply Hok.
  - apply Hok.
  - intros i Hi. rewrite stayed_state by (done || lia). by apply Hok.
  - unfold stayed. apply names_upd; [done|]. apply names_upd; [done|]. apply Hok.
Qed.

Lemma next_ready_range s next : sched_ok s → next_ready s next → 0 ≤ next < s_count s ∧ next ≠ s_current s.
Proof.
  intros Hok (j & Hj & -> & _). split; [apply Z.mod_pos_bound; lia|]. by apply turn_ne.
Qed.

(** The tick always succeeds and keeps the invariant. *)
Lemma tick_total s : sched_ok s → ∃ o s', sched_tick s = Ok (o, s') ∧ sched_ok s'.
Proof.
  intros Hok. destruct (decide (slice_ends s ∧ 1 < s_count s)) as [[Hs Hn]|Hno].
  - destruct (tick_slice s Hok Hs Hn) as [(next & Hnext & HE)|[_ HE]].
    + eexists _, _. split; [exact HE|apply switched_ok; [done|by apply next_ready_range..]].
    + eexists _, _. split; [exact HE|by apply stayed_ok].
  - eexists _, _. split; [apply tick_idle|by apply ticked_ok].
    destruct (decide (slice_ends s)); [right|by left].
    destruct (Z.le_gt_cases (s_count s) 1); [done|]. destruct Hno. split; [done|lia].
Qed.
