(* ===== verification/SchedTheorems.v ===== *)
(** * What holds of the scheduler

    Task creation over the heap, the invariant and the choice of the timer
    tick, and round-robin fairness. *)
From stdpp Require Import base tactics strings numbers gmap list.
From S2P Require Import Prelude CString Memory Interfaces HeapSpec Heap HeapProofs HeapTheorems Sched.

Local Open Scope Z_scope.

(** * Lemmas *)

Lemma sched_boot_init :
  sched_init sched_boot =
  Ok ((), Sched (MkTask 0 0 RUNNING 0 (cstr "idle" ++ replicate 20 0) ::
                 replicate 15 task_boot) 1 0 0).
Proof. vm_compute. reflexivity. Qed.

Lemma sched_boot_ok : ∃ s, sched_init sched_boot = Ok ((), s) ∧ sched_ok s.
Proof.
  eexists. split; [apply sched_boot_init|]. split; [done|cbn; unfold MAX_TASKS; lia|cbn; lia| |].
  - cbn [s_count s_current]. intros i Hi. assert (i = 0) as -> by lia. done.
  - cbn [s_tasks]. apply Forall_cons_iff. split; [done|].
    apply Forall_replicate. done.
Qed.

(** ** The seeded stack *)

(** A stack that [context_switch] can switch to for the first time: six zero
    words and the entry point. *)
Definition fresh_stack (entry rsp : Z) (m : mem) : Prop :=
  (∀ i, 0 ≤ i < 6 → load 8 (rsp + 8 * i) m = Some 0) ∧ load 8 (rsp + 48) m = Some entry.

Lemma push_words_ok vs sp m :
  8 * Z.of_nat (length vs) ≤ sp < 2 ^ 64 → Forall (λ v, 0 ≤ v < 2 ^ 64) vs →
  mapped (sp - 8 * Z.of_nat (length vs)) (8 * Z.of_nat (length vs)) m →
  ∃ m', push_words vs sp m = Ok (sp - 8 * Z.of_nat (length vs), m') ∧ same_dom m m' ∧
    (∀ i v, vs !! i = Some v → load 8 (sp - 8 * (Z.of_nat i + 1)) m' = Some v) ∧
    ∀ b k, disjoint (sp - 8 * Z.of_nat (length vs)) (8 * Z.of_nat (length vs)) b k →
           same_bytes b k m m'.
Proof.
  revert sp m; induction vs as [|v vs IH]; intros sp m Hsp Hvs Hm; cbn [push_words].
  { exists m. split; [by rewrite Z.sub_0_r|]. split; [apply same_dom_refl|].
    split; [done|]. intros. apply same_bytes_refl. }
  cbn [length] in *. apply Forall_cons_iff in Hvs as [Hv Hvs].
  assert (u64 (sp - 8) = sp - 8) as Hu by (apply u64_small; lia).
  destruct (st_ok 8 (sp - 8) v m) as (m1 & E1 & Hl & Hd1 & Hs1).
  { eapply mapped_sub; [exact Hm|lia|lia]. }
  rewrite (bind_ok _ _ _ (sp - 8) m1).
  2:{ unfold push_word. rewrite Hu. by rewrite (bind_ok _ _ _ _ _ E1). }
  destruct (IH (sp - 8) m1) as (m2 & E2 & Hd2 & Hl2 & Hs2); [lia|done| |].
  { apply (mapped_same_dom _ _ m); [done|]. eapply mapped_sub; [exact Hm|lia|lia]. }
  exists m2. split; [rewrite E2; do 2 f_equal; lia|]. split; [by eapply same_dom_trans|]. split.
  - intros [|i] w Hw; cbn in Hw.
    + injection Hw as ->. replace (sp - 8 * (Z.of_nat 0 + 1)) with (sp - 8) by lia.
      rewrite (load_ext 8 _ m1); [rewrite Hl|].
      * f_equal. apply Z.mod_small. exact Hv.
      * apply Hs2. unfold disjoint. lia.
    + replace (sp - 8 * (Z.of_nat (S i) + 1)) with (sp - 8 - 8 * (Z.of_nat i + 1)) by lia.
      by apply Hl2.
  - intros b k Hdis. eapply same_bytes_trans; [apply Hs1|apply Hs2]; unfold disjoint in *; lia.
Qed.

Lemma fresh_stack_ext entry rsp m m' :
  fresh_stack entry rsp m → same_bytes rsp 56 m m' → fresh_stack entry rsp m'.
Proof.
  intros [Hz He] Hs. split.
  - intros i Hi. rewrite (load_ext 8 _ m); [by apply Hz|]. intros b Hb. apply Hs. lia.
  - rewrite (load_ext 8 _ m); [done|]. intros b Hb. apply Hs. lia.
Qed.

(** Zeroing an allocation and seeding its top. *)
Lemma seed_stack_ok p entry m :
  0 ≤ entry < 2 ^ 64 → 0 < p → p + 16384 < 2 ^ 64 → mapped p 16384 m →
  ∃ m1 m2, zero_mem p (TASK_STACK_PAGES * 4096) m = Ok ((), m1) ∧
    push_words [entry; 0; 0; 0; 0; 0; 0] (u64 (p + TASK_STACK_PAGES * 4096)) m1
      = Ok (p + 16384 - 56, m2) ∧
    fresh_stack entry (p + 16384 - 56) m2 ∧ same_dom m m2 ∧
    ∀ b k, disjoint p 16384 b k → same_bytes b k m m2.
Proof.
  intros He Hp Hmax Hm. change (TASK_STACK_PAGES * 4096) with 16384. unfold zero_mem.
  destruct (zero_bytes_ok (Z.to_nat 16384) p m) as (m1 & E1 & Hd1 & _ & Hs1).
  { by rewrite Z2Nat.id by lia. }
  rewrite Z2Nat.id in Hs1 by lia. rewrite u64_small by lia.
  destruct (push_words_ok [entry; 0; 0; 0; 0; 0; 0] (p + 16384) m1)
    as (m2 & E2 & Hd2 & Hl2 & Hs2); cbn [length] in *.
  - lia.
  - repeat (apply Forall_cons_iff; split; [lia|]). done.
  - apply (mapped_same_dom _ _ m); [done|]. eapply mapped_sub; [exact Hm|lia|lia].
  - exists m1, m2. split; [exact E1|]. split; [exact E2|]. split; [|split].
    + split.
      * intros i Hi. specialize (Hl2 (Z.to_nat (6 - i)) 0).
        replace (p + 16384 - 56 + 8 * i)
          with (p + 16384 - 8 * (Z.of_nat (Z.to_nat (6 - i)) + 1)) by lia.
        apply Hl2. assert (i = 0 ∨ i = 1 ∨ i = 2 ∨ i = 3 ∨ i = 4 ∨ i = 5)
          as [->|[->|[->|[->|[->| ->]]]]] by lia; reflexivity.
      * specialize (Hl2 0%nat entry eq_refl).
        by replace (p + 16384 - 56 + 48) with (p + 16384 - 8 * (Z.of_nat 0 + 1)) by lia.
    + by eapply same_dom_trans.
    + intros b k Hdis. eapply same_bytes_trans; [by apply Hs1|apply Hs2].
      unfold disjoint in *. lia.
Qed.

(** ** Task creation *)

Lemma upd_upd i f g s : upd i f (upd i g s) = upd i (f ∘ g) s.
Proof. unfold upd, set_tasks. cbn. f_equal. apply list_alter_alter_eq. Qed.

Lemma upd_ext i f g s :
  (∀ t, s_tasks s !! Z.to_nat i = Some t → f t = g t) → upd i f s = upd i g s.
Proof. intros H. unfold upd. f_equal. by apply list_alter_ext. Qed.

Lemma copy_name_ok s i name :
  0 ≤ i < Z.of_nat (length (s_tasks s)) →
  Forall (λ t, Z.of_nat (length (t_name t)) = SIZEOF_NAME) (s_tasks s) →
  copy_name i name s = Ok ((), upd i (λ t, set_name (copy_result SIZEOF_NAME name (t_name t)) t) s).
Proof.
  intros Hi Hn. destruct (task_ok s i Hi) as (t & Ht & Hl & _). unfold copy_name.
  rewrite (bind_ok _ _ _ _ _ Ht). unfold copy_str.
  rewrite copy_str_ok; [|done|by apply (Forall_lookup_1 _ _ _ _ Hn Hl)].
  rewrite upd_task_ok by done. do 2 f_equal. apply upd_ext. intros t' Ht'. by simplify_eq.
Qed.

(** The task [sched_create_task] writes. *)
Definition new_task (i rsp p : Z) (name : list Z) (t : Task) : Task :=
  MkTask rsp p READY i (copy_result SIZEOF_NAME name (t_name t)).

Lemma create_task_ok s i rsp p name :
  sched_ok s → i = s_count s → i < MAX_TASKS →
  sched_ok (set_count (i + 1) (upd i (new_task i rsp p name) s)) ∧
  sched_ok (upd i (new_task i rsp p name) s).
Proof.
  intros Hok -> Hi. pose proof (so_len _ Hok) as Hl. pose proof (so_count _ Hok) as Hc.
  pose proof (so_current _ Hok) as Hcur.
  assert (∀ j, 0 ≤ j ≤ s_count s →
    state_of (upd (s_count s) (new_task (s_count s) rsp p name) s) j = RUNNING ↔
    j = s_current s) as Hst.
  { intros j Hj. unfold state_of. rewrite upd_lookup. case_decide as Heq.
    - assert (j = s_count s) as -> by lia. destruct (arr_elem (s_tasks s) (s_count s)) as [t ->];
        [lia|]. cbn. split; [done|lia].
    - apply (so_running _ Hok). lia. }
  assert (Forall (λ t, Z.of_nat (length (t_name t)) = SIZEOF_NAME)
    (s_tasks (upd (s_count s) (new_task (s_count s) rsp p name) s))) as Hn.
  { apply list.Forall_lookup_2. intros j t. rewrite upd_lookup. case_decide.
    - intros (t' & Ht & ->)%fmap_Some. cbn [t_name new_task].
      apply (Forall_lookup_1 _ _ _ _ (so_names _ Hok)) in Ht.
      rewrite copy_result_length by (unfold SIZEOF_NAME in *; lia). done.
    - apply (Forall_lookup_1 _ _ _ _ (so_names _ Hok)). }
  split; split; cbn [s_count s_current set_count upd set_tasks s_tasks] in *.
  1,6: by rewrite length_alter.
  1,5: lia.
  1,4: lia.
  1,3: intros j Hj; apply Hst; lia.
  1,2: exact Hn.
Qed.

Lemma on_sched_ok {A} (m : M sched A) s h a s' :
  m s = Ok (a, s') → on_sched m (s, h) = Ok (a, (s', h)).
Proof. intros H. unfold on_sched, zoom. cbn [fst]. by rewrite H. Qed.
Lemma on_heap_ok {A} (m : M heap A) s h a h' :
  m h = Ok (a, h') → on_heap m (s, h) = Ok (a, (s, h')).
Proof. intros H. unfold on_heap, zoom. cbn [snd]. by rewrite H. Qed.
Lemma on_mem_ok {A} (m : M mem A) s h a m' :
  m (hmem h) = Ok (a, m') → on_mem m (s, h) = Ok (a, (s, Heap (s_head h) m')).
Proof. intros H. unfold on_mem. apply on_heap_ok. unfold zoom. by rewrite H. Qed.

(** All entries of the table but the next free one, the current task and the
    ticks are as before. *)
Definition others_kept (s s' : sched) : Prop :=
  (∀ j, j ≠ Z.to_nat (s_count s) → s_tasks s' !! j = s_tasks s !! j) ∧
  s_current s' = s_current s ∧ s_ticks s' = s_ticks s.

Lemma others_upd f s : others_kept s (upd (s_count s) f s).
Proof. split; [|done]. intros j Hj. by rewrite upd_lookup, decide_False. Qed.

Section create.
Context (s : sched) (h : heap) (base : Z) (bs : list block) (entry : Z) (name : list Z).
Context (Hok : sched_ok s) (Hroom : s_count s < MAX_TASKS).
Context (Hrep : heap_rep base bs h) (Hc : coalesced bs) (He : 0 ≤ entry < 2 ^ 64).
Let i := s_count s.
Let s3 := upd i (λ t, new_task i (t_rsp t) (t_stack_base t) name t) s.

Lemma count_in : 0 ≤ i < Z.of_nat (length (s_tasks s)).
Proof using Hok Hroom. rewrite (so_len _ Hok). pose proof (so_count _ Hok). unfold i. lia. Qed.

(** The table once the identity, state and name are in place. *)
Lemma create_prefix :
  sched_create_task entry name (s, h) =
  (setup_initial_stack i entry ≫= λ _,
   t ← on_sched (task i);
   if t_stack_base t =? 0 then mret NO_TASK else
   on_sched (modify (set_count (u32 (i + 1)))) ≫= λ _, mret i) (s3, h).
Proof using Hok Hroom.
  pose proof count_in as Hi. unfold sched_create_task.
  rewrite (bind_ok _ _ _ s (s, h)) by done.
  destruct (Z.leb_spec MAX_TASKS (s_count s)); [lia|]. fold i.
  rewrite (bind_ok _ _ _ _ _ (on_sched_ok _ _ h _ _ (upd_task_ok s i (set_id i) Hi))).
  rewrite (bind_ok _ _ _ _ _ (on_sched_ok _ _ h _ _
    (upd_task_ok (upd i (set_id i) s) i (set_state READY) ltac:(rewrite upd_length; done)))).
  erewrite bind_ok; [|apply on_sched_ok, copy_name_ok].
  - by rewrite !upd_upd.
  - by rewrite !upd_length.
  - apply names_upd; [done|]. apply names_upd; [done|]. apply Hok.
Qed.

Lemma s3_stack p rsp :
  upd i (set_rsp rsp) (upd i (set_stack p) s3) = upd i (new_task i rsp p name) s.
Proof. unfold s3. rewrite !upd_upd. by apply upd_ext. Qed.

Lemma create_task_null :
  kmalloc 16384 h = Ok (0, h) →
  ∃ s', sched_create_task entry name (s, h) = Ok (NO_TASK, (s', h)) ∧ sched_ok s' ∧
        s_count s' = s_count s ∧ others_kept s s'.
Proof using Hok Hroom.
  intros H. pose proof count_in as Hi. rewrite create_prefix.
  exists (upd i (set_stack 0) s3).
  assert (∀ x, 0 ≤ i < Z.of_nat (length (s_tasks (upd i x s3)))) as Hi3.
  { intros x. unfold s3. by rewrite !upd_length. }
  split.
  - unfold setup_initial_stack. change (TASK_STACK_PAGES * 4096) with 16384.
    rewrite (bind_ok _ _ _ () (upd i (set_stack 0) s3, h)).
    2:{ rewrite (bind_ok _ _ _ _ _ (on_heap_ok _ s3 h _ _ H)).
        by rewrite (bind_ok _ _ _ _ _ (on_sched_ok _ _ h _ _
          (upd_task_ok s3 i (set_stack 0) ltac:(unfold s3; rewrite upd_length; done)))). }
    destruct (task_ok (upd i (set_stack 0) s3) i (Hi3 _)) as (t & Ht & Hl & _).
    rewrite (bind_ok _ _ _ _ _ (on_sched_ok _ _ h _ _ Ht)).
    rewrite upd_lookup, decide_True in Hl by done.
    apply fmap_Some in Hl as (t' & _ & ->). done.
  - assert (others_kept s (upd i (set_stack 0) s3)) as Hk.
    { unfold s3. rewrite upd_upd. apply others_upd. }
    split; [|split; [done|exact Hk]]. unfold s3. rewrite upd_upd.
    pose proof (so_len _ Hok). destruct (arr_elem (s_tasks s) i) as [t0 Ht0]; [done|].
    rewrite (upd_ext i _ (new_task i (t_rsp t0) 0 name)).
    + by apply create_task_ok.
    + intros t' Ht'. by simplify_eq.
Qed.

(** The run once the heap has found a block at [p]: the stack is seeded, the
    entry completed and counted. *)
Lemma create_run p m0 m1 m2 : p ≠ 0 →
  kmalloc 16384 h = Ok (p, Heap base m0) →
  zero_mem p 16384 m0 = Ok ((), m1) →
  push_words [entry; 0; 0; 0; 0; 0; 0] (u64 (p + 16384)) m1 = Ok (p + 16384 - 56, m2) →
  sched_create_task entry name (s, h) =
    Ok (i, (set_count (i + 1) (upd i (new_task i (p + 16384 - 56) p name) s), Heap base m2)).
Proof using Hok Hroom.
  intros Hp HE E1 E2. pose proof count_in as Hi. rewrite create_prefix.
  assert (0 ≤ i < Z.of_nat (length (s_tasks s3))) as Hi2 by (unfold s3; by rewrite upd_length).
  unfold setup_initial_stack. change (TASK_STACK_PAGES * 4096) with 16384 in *.
  rewrite (bind_ok _ _ _ () (upd i (new_task i (p + 16384 - 56) p name) s, Heap base m2)).
  2:{ rewrite (bind_ok _ _ _ _ _ (on_heap_ok _ s3 h _ _ HE)).
      rewrite (bind_ok _ _ _ _ _ (on_sched_ok _ _ (Heap base m0) _ _
        (upd_task_ok s3 i (set_stack p) Hi2))).
      destruct (Z.eqb_spec p 0); [done|].
      rewrite (bind_ok _ _ _ _ _ (on_mem_ok _ _ (Heap base m0) _ _ E1)).
      rewrite (bind_ok _ _ _ _ _ (on_mem_ok _ _ (Heap base m1) _ _ E2)).
      rewrite (on_sched_ok _ _ _ _ _ (upd_task_ok (upd i (set_stack p) s3) i
        (set_rsp (p + 16384 - 56)) ltac:(rewrite upd_length; done))).
      by rewrite s3_stack. }
  set (s5 := upd i _ s).
  destruct (task_ok s5 i) as (t & Ht & Hl & _); [unfold s5; by rewrite upd_length|].
  rewrite (bind_ok _ _ _ _ _ (on_sched_ok _ _ _ _ _ Ht)).
  unfold s5 in Hl. rewrite upd_lookup, decide_True in Hl by done.
  apply fmap_Some in Hl as (t' & _ & ->). cbn [t_stack_base new_task].
  destruct (Z.eqb_spec p 0); [done|].
  rewrite u32_small by (pose proof (so_len _ Hok); unfold MAX_TASKS in *; lia). done.
Qed.

Lemma create_task_some o bs' :
  spec_alloc 16384 bs = Some (o, bs') →
  ∃ s' h', sched_create_task entry name (s, h) = Ok (s_count s, (s', h')) ∧
    s' = set_count (i + 1) (upd i (new_task i (base + o + 16384 - 56) (base + o) name) s) ∧
    sched_ok s' ∧ heap_rep base bs' h' ∧ coalesced bs' ∧
    fresh_stack entry (base + o + 16384 - 56) (hmem h') ∧
    (8 | base + o) ∧ base ≤ base + o ∧ base + o + 16384 ≤ base + POOL ∧
    ∀ o' n', (o', n') ∈ lives 0 bs → (o', n') ∈ lives 0 bs' ∧
      disjoint (base + o) 16384 (base + o') n' ∧
      same_bytes (base + o') n' (hmem h) (hmem h').
Proof using Hok Hroom Hrep Hc He.
  intros Ha.
  pose proof (kmalloc_spec base bs h 16384 Hrep ltac:(lia)) as H.
  change (align8 16384) with 16384 in H. rewrite Ha in H.
  destruct H as (m0 & HE & W & Hrep').
  destruct (spec_alloc_lives _ _ _ _ Ha) as (k & x & y & Hx & Hy & Hk & _).
  assert ((o, k) ∈ lives 0 bs') as Hin by (rewrite Hy, elem_of_app, elem_of_cons; tauto).
  pose proof (heap_rep_blocks _ _ _ Hrep) as Hb. pose proof (heap_rep_blocks _ _ _ Hrep') as Hb'.
  destruct Hrep' as [_ Hm]. cbn [hmem] in *.
  destruct (live_range base bs' o k) as (Hlo & Hhi & H8); [apply Hm..|done|].
  destruct (hm_base _ _ _ Hm) as (Hbase & _ & Hmax). unfold HDR, POOL in *.
  destruct (seed_stack_ok (base + o) entry m0) as (m1 & m2 & E1 & E2 & Hfr & Hd & Hs); [lia..| |].
  { eapply mapped_sub; [by eapply (live_mapped base bs' o k)|lia|lia]. }
  exists (set_count (i + 1) (upd i (new_task i (base + o + 16384 - 56) (base + o) name) s)),
    (Heap base m2).
  split; [|split; [done|split; [by apply create_task_ok|]]].
  - by apply (create_run (base + o) m0 m1 m2 ltac:(lia) HE E1 E2).
  - split; [split; [done|]|].
    { apply (heap_mem_client base bs' o k m0 m2 Hm Hin Hd).
      intros b j Hdis. apply Hs. unfold disjoint in *. lia. }
    split; [by eapply spec_alloc_coalesced|]. split; [exact Hfr|].
    split; [exact H8|]. split; [lia|]. split; [lia|].
    intros o' n' Hin0. destruct (lives_fresh _ _ _ _ _ _ o' n' Hb' Hx Hy Hin0) as [Hin' Hdis].
    split; [done|]. split; [unfold disjoint in *; lia|].
    eapply same_bytes_trans; [by eapply wrote_hdrs_live|].
    apply Hs. unfold disjoint in *. lia.
Qed.
End create.

(** ** Successive ticks *)

Fixpoint run_ticks (n : nat) : M sched unit :=
  match n with
  | O => mret tt
  | S n => sched_tick ≫= λ _, run_ticks n
  end.

(** Every task but the current one is READY. *)
Definition all_ready (s : sched) : Prop :=
  ∀ i, 0 ≤ i < s_count s → i ≠ s_current s → state_of s i = READY.

Lemma slice_parity s : slice_ends s ↔ (s_ticks s + 1) `mod` 2 = 0.
Proof. unfold slice_ends, u32, SCHED_SLICE. Z.div_mod_to_equations. lia. Qed.

(** With everything READY the round robin moves on by one. *)
Lemma all_ready_next s next :
  sched_ok s → all_ready s → 1 < s_count s → next_ready s next →
  next = (s_current s + 1) `mod` s_count s.
Proof.
  intros Hok Hall Hn (j & Hj & -> & _ & Hk).
  destruct (decide (j = 1)) as [->|]; [done|]. exfalso. apply (Hk 1); [lia|].
  apply Hall; [apply Z.mod_pos_bound; lia|apply turn_ne; [done|lia]].
Qed.

Lemma two_ticks s :
  sched_ok s → all_ready s → s_ticks s `mod` 2 = 0 →
  ∃ s', run_ticks 2 s = Ok ((), s') ∧ sched_ok s' ∧ all_ready s' ∧ s_ticks s' `mod` 2 = 0 ∧
    s_count s' = s_count s ∧ s_current s' = (s_current s + 1) `mod` s_count s.
Proof.
  intros Hok Hall Hpar. pose proof (so_current _ Hok) as Hcur. pose proof (so_count _ Hok) as Hc.
  assert (¬ slice_ends s) as Hno by (rewrite slice_parity; Z.div_mod_to_equations; lia).
  cbn [run_ticks]. rewrite (bind_ok _ _ _ _ _ (tick_idle s (or_introl Hno))).
  pose proof (ticked_ok s Hok) as Hok1.
  assert (s_ticks (ticked s) `mod` 2 = 1) as Hpar1.
  { cbn. unfold u32. Z.div_mod_to_equations. lia. }
  assert (slice_ends (ticked s)) as Hs by (rewrite slice_parity; Z.div_mod_to_equations; lia).
  assert (u32 (s_ticks (ticked s) + 1) `mod` 2 = 0) as Hpar2.
  { unfold u32. Z.div_mod_to_equations. lia. }
  destruct (decide (1 < s_count s)) as [Hn|Hn].
  2:{ exists (ticked (ticked s)).
      assert (s_count (ticked s) ≤ 1) as H1 by (change (s_count s ≤ 1); lia).
      rewrite (bind_ok _ _ _ _ _ (tick_idle (ticked s) (or_intror H1))).
      split; [done|]. split; [by apply ticked_ok|]. split; [exact Hall|].
      split; [exact Hpar2|]. split; [done|]. cbn.
      replace (s_count s) with 1 by lia. rewrite Z.mod_1_r. lia. }
  destruct (tick_slice (ticked s) Hok1 Hs Hn) as [(next & Hnext & HE)|[Hnone _]].
  2:{ exfalso. apply (Hnone 1); [change (0 < 1 < s_count s); lia|].
      apply (Hall ((s_current s + 1) `mod` s_count s));
        [apply Z.mod_pos_bound; lia|apply turn_ne; [done|lia]]. }
  destruct (next_ready_range _ _ Hok1 Hnext) as [Hr Hne].
  rewrite (bind_ok _ _ _ _ _ HE). exists (switched next (ticked s)).
  split; [done|]. split; [by apply switched_ok|]. split; [|split; [exact Hpar2|split; [done|]]].
  - intros i Hi Hine. rewrite switched_state by (done || lia).
    change (s_current (switched next (ticked s))) with next in Hine.
    rewrite decide_False by done. case_decide as Hd; [done|]. by apply Hall.
  - by apply (all_ready_next (ticked s)).
Qed.

Lemma run_ticks_app n k s :
  run_ticks (n + k) s = (run_ticks n ≫= λ _, run_ticks k) s.
Proof.
  revert s; induction n as [|n IH]; intros s; cbn [run_ticks Nat.add]; [done|].
  unfold mbind, M_bind in *. destruct (sched_tick s) as [[? s']| |]; [|done..]. apply IH.
Qed.

(** The boot scheduler with one more task. *)
Lemma demo_sched_heap :
  ∃ s h, sched_ok s ∧ heap_rep 4096 fresh_pool h ∧ s_count s = 1 ∧ s_current s = 0 ∧
         s_ticks s = 0 ∧ all_ready s.
Proof.
  destruct sched_boot_ok as (s & HE & Hok). destruct demo_heap as [h Hh].
  rewrite sched_boot_init in HE. injection HE as <-. eexists _, h.
  split; [exact Hok|]. split; [exact Hh|]. split; [done|]. split; [done|]. split; [done|].
  intros i Hi Hne. cbn in Hi, Hne. lia.
Qed.

Lemma demo_two_tasks :
  ∃ s, sched_ok s ∧ s_count s = 2 ∧ s_current s = 0 ∧ s_ticks s = 0 ∧ all_ready s.
Proof.
  destruct demo_sched_heap as (s & h & Hok & Hh & Hc & Hcur & Ht & _).
  destruct (create_task_ok s 1 0 0 [] Hok) as [Hok' _]; [by rewrite Hc|done|].
  eexists. split; [exact Hok'|]. split; [done|]. split; [exact Hcur|]. split; [exact Ht|].
  intros i Hi Hne. cbn in Hi, Hne. rewrite Hcur in Hne. assert (i = 1) as -> by lia.
  unfold state_of. cbn [set_count s_tasks]. rewrite upd_lookup, decide_True by done.
  destruct (arr_elem (s_tasks s) 1) as [t Ht']; [by rewrite (so_len _ Hok)|].
  by rewrite Ht'.
Qed.

(** * Properties *)

(** C24: the timer tick keeps the scheduler's invariant (exactly the current
    task is RUNNING) and never faults; between slices, with one task, or with
    no other READY task the current task goes on; at the end of a slice the
    next task is the first READY one after the current in cyclic order, the old
    one becomes READY, the new one RUNNING, and no other state changes. *)
Theorem sched_tick_ok (s : sched) (Hok : sched_ok s) :
  ∃ o s', sched_tick s = Ok (o, s') ∧ sched_ok s' ∧ s_count s' = s_count s ∧
    s_ticks s' = u32 (s_ticks s + 1) ∧
    match o with
    | None => s_current s' = s_current s ∧ (∀ i, 0 ≤ i → state_of s' i = state_of s i) ∧
              (slice_ends s → none_ready s)
    | Some (prev, next) =>
        slice_ends s ∧ prev = s_current s ∧ next = s_current s' ∧ next ≠ prev ∧
        next_ready s next ∧
        ∀ i, 0 ≤ i → state_of s' i = if decide (i = next) then RUNNING else
                       if decide (i = prev) then READY else state_of s i
    end.
Proof.
  destruct (decide (slice_ends s ∧ 1 < s_count s)) as [[Hs Hn]|Hno].
  - destruct (tick_slice s Hok Hs Hn) as [(next & Hnext & HE)|[Hnone HE]].
    + destruct (next_ready_range s next Hok Hnext) as [Hr Hne].
      exists (Some (s_current s, next)), (switched next s).
      split; [exact HE|]. split; [by apply switched_ok|]. split; [done|]. split; [done|].
      split; [done|]. split; [done|]. split; [done|]. split; [done|]. split; [done|].
      intros i Hi. by apply switched_state.
    + exists None, (stayed s). split; [exact HE|]. split; [by apply stayed_ok|].
      split; [done|]. split; [done|]. split; [done|]. split; [|done].
      intros i Hi. by apply stayed_state.
  - exists None, (ticked s).
    assert (¬ slice_ends s ∨ s_count s ≤ 1) as H.
    { destruct (decide (slice_ends s)); [right|by left].
      destruct (Z.le_gt_cases (s_count s) 1); [done|]. destruct Hno. split; [done|lia]. }
    split; [by apply tick_idle|]. split; [by apply ticked_ok|]. split; [done|].
    split; [done|]. split; [done|]. split; [done|]. intros Hs k Hk. destruct H; [done|lia].
Qed.

Lemma sched_tick_ok_witness :
  ∃ s s1, sched_ok s ∧ sched_tick s = Ok (None, s1) ∧ sched_ok s1.
Proof.
  destruct demo_two_tasks as (s & Hok & _ & _ & Ht & _). exists s.
  destruct (sched_tick_ok s Hok) as (o & s1 & HE & Hok1 & _ & _ & Ho).
  exists s1. split; [exact Hok|]. destruct o as [[prev next]|]; [|by split].
  destruct Ho as [Hs _]. unfold slice_ends in Hs. rewrite Ht in Hs. vm_compute in Hs. discriminate.
Defined.

(** C25: with every task READY, [k] time slices ([2 k] ticks) move the current task
    on by [k] places in cyclic order, so each of the [s_count] tasks runs once
    in every [s_count] slices; the tick counter may wrap around meanwhile. *)
Theorem round_robin (s : sched) (k : nat)
    (Hok : sched_ok s) (Hall : all_ready s) (Hpar : s_ticks s `mod` SCHED_SLICE = 0) :
  ∃ s', run_ticks (2 * k) s = Ok ((), s') ∧ sched_ok s' ∧ all_ready s' ∧
    s_current s' = (s_current s + Z.of_nat k) `mod` s_count s.
Proof.
  cut (∃ s', run_ticks (2 * k) s = Ok ((), s') ∧ sched_ok s' ∧ all_ready s' ∧
    s_ticks s' `mod` 2 = 0 ∧ s_count s' = s_count s ∧
    s_current s' = (s_current s + Z.of_nat k) `mod` s_count s); [naive_solver|].
  unfold SCHED_SLICE in Hpar. pose proof (so_current _ Hok).
  induction k as [|k (s1 & HE & Hok1 & Hall1 & Hpar1 & Hc1 & Hcur1)].
  - exists s. split; [done|]. split; [done|]. split; [done|]. split; [done|]. split; [done|].
    rewrite Z.add_0_r. symmetry. by apply Z.mod_small.
  - destruct (two_ticks s1 Hok1 Hall1 Hpar1) as (s2 & HE2 & Hok2 & Hall2 & Hpar2 & Hc2 & Hcur2).
    exists s2. split; [|split; [done|split; [done|split; [done|split; [congruence|]]]]].
    + replace (2 * S k)%nat with (2 * k + 2)%nat by lia.
      rewrite run_ticks_app, (bind_ok _ _ _ _ _ HE). exact HE2.
    + rewrite Hcur2, Hcur1, Hc1, mod_next by lia. f_equal. lia.
Qed.

Lemma round_robin_witness :
  ∃ s s', s_current s = 0 ∧ run_ticks 6 s = Ok ((), s') ∧ s_current s' = 1.
Proof.
  destruct demo_two_tasks as (s & Hok & Hc & Hcur & Ht & Hall).
  destruct (round_robin s 3 Hok Hall ltac:(by rewrite Ht)) as (s' & HE & _ & _ & Hcur').
  exists s, s'. split; [exact Hcur|]. split; [exact HE|]. by rewrite Hcur', Hcur, Hc.
Defined.

(** C26: with room in the table, [sched_create_task] either finds no memory and
    returns 0xFFFFFFFF with the count and the heap unchanged, or returns the
    next id and appends a READY task whose 16 KB stack is a new allocation, in use on
    top of all those that were and overlapping none of them,
    seeded so that the first switch to it pops six zeros and returns to the
    entry point, and whose name is the first 23 characters.  In both cases every
    other task, the current task and the tick counter, the scheduler's
    invariant, the heap's and the bytes of every allocation in use are kept. *)
Theorem sched_create_ok (s : sched) (h : heap) (base : Z) (bs : list block) (entry : Z)
    (name : list Z) (Hok : sched_ok s) (Hroom : s_count s < MAX_TASKS)
    (Hrep : heap_rep base bs h) (Hc : coalesced bs) (He : 0 ≤ entry < 2 ^ 64) :
  ∃ id s' h', sched_create_task entry name (s, h) = Ok (id, (s', h')) ∧ sched_ok s' ∧
    others_kept s s' ∧
    ((id = NO_TASK ∧ spec_alloc 16384 bs = None ∧ s_count s' = s_count s ∧ h' = h) ∨
     (id = s_count s ∧ s_count s' = s_count s + 1 ∧ ∃ t bs',
       s_tasks s' !! Z.to_nat id = Some t ∧ t_state t = READY ∧ t_id t = id ∧
       c_text (t_name t) = take 23 (c_text name) ∧
       t_rsp t = t_stack_base t + 16384 - 56 ∧ (8 | t_stack_base t) ∧
       fresh_stack entry (t_rsp t) (hmem h') ∧ heap_rep base bs' h' ∧ coalesced bs' ∧
       (∃ k, 16384 ≤ k ∧ lives 0 bs' ≡ₚ (t_stack_base t - base, k) :: lives 0 bs) ∧
       ∀ o n, (o, n) ∈ lives 0 bs →
         disjoint (t_stack_base t) 16384 (base + o) n ∧
         same_bytes (base + o) n (hmem h) (hmem h'))).
Proof.
  destruct (spec_alloc 16384 bs) as [[o bs']|] eqn:Ha.
  - destruct (create_task_some s h base bs entry name Hok Hroom Hrep Hc He o bs' Ha)
      as (s' & h' & HE & -> & Hok' & Hrep' & Hc' & Hfr & H8 & _ & _ & Hl).
    exists (s_count s), (set_count (s_count s + 1)
      (upd (s_count s) (new_task (s_count s) (base + o + 16384 - 56) (base + o) name) s)), h'.
    split; [exact HE|]. split; [exact Hok'|]. split; [exact (others_upd _ s)|].
    right. split; [done|]. split; [done|].
    destruct (spec_alloc_lives _ _ _ _ Ha) as (k & x & y & Hx & Hy & Hk & _).
    destruct (arr_elem (s_tasks s) (s_count s)) as [t0 Ht0]; [by apply count_in|].
    exists (new_task (s_count s) (base + o + 16384 - 56) (base + o) name t0), bs'.
    split; [cbn [set_count s_tasks]; by rewrite upd_lookup, decide_True, Ht0 by done|].
    split; [done|]. split; [done|]. split; [apply copy_result_text|].
    split; [done|]. split; [exact H8|]. split; [exact Hfr|]. split; [exact Hrep'|].
    split; [exact Hc'|]. split; [|intros o' n' Ho; apply (Hl o' n' Ho)].
    exists k. split; [exact Hk|]. cbn [t_stack_base new_task].
    replace (base + o - base) with o by lia. by rewrite Hx, Hy, Permutation_middle.
  - pose proof (kmalloc_spec base bs h 16384 Hrep ltac:(lia)) as Hnull.
    change (align8 16384) with 16384 in Hnull. rewrite Ha in Hnull.
    destruct (create_task_null s h entry name Hok Hroom Hnull) as (s' & HE & Hok' & Hcnt & Hk).
    exists NO_TASK, s', h. split; [exact HE|]. split; [exact Hok'|]. split; [exact Hk|]. left. done.
Qed.

Lemma sched_create_ok_witness :
  ∃ s h s' h', sched_create_task 0xFFFFFFFF80001000 (cstr "ticker") (s, h) = Ok (1, (s', h')) ∧
    sched_ok s' ∧ s_count s' = 2.
Proof.
  destruct demo_sched_heap as (s & h & Hok & Hh & Hc & _).
  destruct (sched_create_ok s h 4096 fresh_pool 0xFFFFFFFF80001000 (cstr "ticker") Hok)
    as (id & s' & h' & HE & Hok' & _ & [(_ & Ha & _)|(-> & Hc' & _)]).
  - by rewrite Hc.
  - exact Hh.
  - exact fresh_pool_coalesced.
  - lia.
  - vm_compute in Ha. discriminate.
  - rewrite Hc in HE, Hc'. exists s, h, s', h'. by split.
Defined.
