(* ===== verification/Machine.v ===== *)
(** * The processor, as far as the kernel's assembly uses it

    The sixteen general registers, [rip], [rflags], the two segment selectors
    of an interrupt frame and memory; the instructions that occur in
    [isr_stubs.asm] and [context_switch.asm]; and how the processor enters an
    interrupt handler through an interrupt gate.  A called C++ function is an
    argument of the semantics: what the assembly relies on is that it respects
    the System V calling convention. *)
From stdpp Require Import base tactics numbers gmap list.
From S2P Require Import Prelude Memory.

Local Open Scope Z_scope.
Local Open Scope nova_scope.

(** ** Data *)

Inductive reg :=
| RAX | RBX | RCX | RDX | RSI | RDI | RBP | RSP
| R8 | R9 | R10 | R11 | R12 | R13 | R14 | R15.
#[export] Instance reg_eq_dec : EqDecision reg.
Proof. solve_decision. Defined.

Record machine := Mach {
  regs : reg → Z; rip : Z; rflags : Z; cs : Z; ss : Z; mmem : mem
}.

Definition set_reg (r : reg) (v : Z) (m : machine) : machine :=
  Mach (λ r', if decide (r' = r) then v else regs m r') (rip m) (rflags m) (cs m) (ss m) (mmem m).
Definition set_rip (v : Z) (m : machine) : machine :=
  Mach (regs m) v (rflags m) (cs m) (ss m) (mmem m).
Definition set_rflags (v : Z) (m : machine) : machine :=
  Mach (regs m) (rip m) v (cs m) (ss m) (mmem m).
Definition set_cs (v : Z) (m : machine) : machine :=
  Mach (regs m) (rip m) (rflags m) v (ss m) (mmem m).
Definition set_ss (v : Z) (m : machine) : machine :=
  Mach (regs m) (rip m) (rflags m) (cs m) v (mmem m).
Definition set_mmem (v : mem) (m : machine) : machine :=
  Mach (regs m) (rip m) (rflags m) (cs m) (ss m) v.

(** The interrupt flag, bit 9 of [rflags]. *)
Definition IF : Z := 9.
Definition int_enabled (m : machine) : bool := Z.testbit (rflags m) IF.

(** The C++ functions the stubs call. *)
Inductive fn := pit_tick_handler | keyboard_irq_handler | pic_send_eoi | sched_tick | isr_handler.

Inductive instr :=
| Push (r : reg) | PushI (v : Z) | Pop (r : reg)
| MovRR (dst src : reg) | MovRI (dst : reg) (v : Z) | Store (base src : reg)
| AddI (dst : reg) (v : Z) | Call (f : fn) | Ret | Iretq.

(** ** Semantics *)

Definition push (v : Z) : M machine unit :=
  m ← get;
  let sp := u64 (regs m RSP - 8) in
  zoom mmem set_mmem (st 8 sp v) ≫= λ _,
  modify (set_reg RSP sp).

Definition pop : M machine Z :=
  m ← get;
  v ← zoom mmem set_mmem (ld 8 (regs m RSP));
  modify (set_reg RSP (u64 (regs m RSP + 8))) ≫= λ _, mret v.

(** [iretq] pops [rip], [cs], [rflags], [rsp] and [ss]. *)
Definition iretq : M machine unit :=
  ip ← pop; c ← pop; fl ← pop; sp ← pop; s ← pop;
  modify (λ m, set_ss s (set_reg RSP sp (set_rflags fl (set_cs c (set_rip ip m))))).

(** Entry through an interrupt gate: the stack is aligned to 16, the frame is
    pushed and [IF] is cleared. *)
Definition enter_interrupt (handler : Z) : M machine unit :=
  m ← get;
  modify (set_reg RSP (regs m RSP &&& u64 (Z.lnot 15))) ≫= λ _,
  for_each [ss m; regs m RSP; rflags m; cs m; rip m] push ≫= λ _,
  modify (λ m, set_rip handler (set_rflags (rflags m &&& u64 (Z.lnot (1 ≪ IF))) m)).

Section exec.
Context (call : fn → M machine unit).

Definition exec (i : instr) : M machine unit :=
  match i with
  | Push r => m ← get; push (regs m r)
  | PushI v => push v
  | Pop r => v ← pop; modify (set_reg r v)
  | MovRR d s => modify (λ m, set_reg d (regs m s) m)
  | MovRI d v => modify (set_reg d v)
  | Store b s => m ← get; zoom mmem set_mmem (st 8 (regs m b) (regs m s))
  | AddI d v => modify (λ m, set_reg d (u64 (regs m d + v)) m)
  | Call f => call f
  | Ret => ip ← pop; modify (set_rip ip)
  | Iretq => iretq
  end.

(** A straight-line routine. *)
Definition run (code : list instr) : M machine unit := for_each code exec.
End exec.

(** ** The calling convention *)

Definition callee_saved : list reg := [RBX; RBP; RSP; R12; R13; R14; R15].

(** The function returns with the callee-saved registers, the selectors, the
    mapped addresses and the bytes in [rsp, top) as they were. *)
Definition returns (f : M machine unit) (top : Z) : Prop :=
  ∀ m, ∃ m', f m = Ok ((), m') ∧ (∀ r, r ∈ callee_saved → regs m' r = regs m r) ∧
    cs m' = cs m ∧ ss m' = ss m ∧ same_dom (mmem m) (mmem m') ∧
    same_bytes (regs m RSP) (top - regs m RSP) (mmem m) (mmem m').

Definition wf_regs (m : machine) : Prop := ∀ r, 0 ≤ regs m r < 2 ^ 64.

(** * Lemmas *)

Lemma regs_set_reg r v m r' : regs (set_reg r v m) r' = if decide (r' = r) then v else regs m r'.
Proof. done. Qed.

(** One word pushed. *)
Lemma push_ok v m :
  8 ≤ regs m RSP < 2 ^ 64 → 0 ≤ v < 2 ^ 64 → mapped (regs m RSP - 8) 8 (mmem m) →
  ∃ mm, push v m = Ok ((), set_reg RSP (regs m RSP - 8) (set_mmem mm m)) ∧
    load 8 (regs m RSP - 8) mm = Some v ∧ same_dom (mmem m) mm ∧
    ∀ b k, disjoint (regs m RSP - 8) 8 b k → same_bytes b k (mmem m) mm.
Proof.
  intros Hsp Hv Hm. destruct (st_ok 8 (regs m RSP - 8) v (mmem m)) as (mm & HE & Hl & Hd & Hs);
    [done|]. exists mm. rewrite Z.mod_small in Hl by exact Hv.
  split; [|by split_and!]. unfold push. rewrite (bind_ok _ _ _ m m) by done.
  rewrite (u64_small (regs m RSP - 8)) by lia.
  rewrite (bind_ok _ _ _ () (set_mmem mm m)); [done|].
  unfold zoom. by rewrite HE.
Qed.

Lemma push_regs v m m' r : push v m = Ok ((), m') → r ≠ RSP → regs m' r = regs m r.
Proof.
  unfold push, get, zoom, modify, mbind, M_bind. intros H Hr.
  destruct (st 8 _ v (mmem m)) as [[? mm]| |]; [|done..]. injection H as <-.
  rewrite regs_set_reg. by rewrite decide_False.
Qed.

Lemma pop_ok v m :
  0 ≤ regs m RSP → regs m RSP + 8 < 2 ^ 64 → load 8 (regs m RSP) (mmem m) = Some v →
  pop m = Ok (v, set_reg RSP (regs m RSP + 8) m).
Proof.
  intros H0 H1 Hl. unfold pop. rewrite (bind_ok _ _ _ m m) by done.
  rewrite (bind_ok _ _ _ v m).
  - by rewrite u64_small by lia.
  - unfold zoom. rewrite (ld_ok _ _ _ _ Hl). by destruct m.
Qed.

(** The control state outside the general registers is the same. *)
Definition same_ctl (m m' : machine) : Prop :=
  rip m' = rip m ∧ rflags m' = rflags m ∧ cs m' = cs m ∧ ss m' = ss m.

(** A run of pushed values, the first one on top. *)
Lemma push_vals_ok vs m :
  8 * Z.of_nat (length vs) ≤ regs m RSP < 2 ^ 64 → Forall (λ v, 0 ≤ v < 2 ^ 64) vs →
  mapped (regs m RSP - 8 * Z.of_nat (length vs)) (8 * Z.of_nat (length vs)) (mmem m) →
  ∃ m', for_each vs push m = Ok ((), m') ∧ same_ctl m m' ∧
    regs m' RSP = regs m RSP - 8 * Z.of_nat (length vs) ∧
    (∀ r, r ≠ RSP → regs m' r = regs m r) ∧
    (∀ i v, vs !! i = Some v →
       load 8 (regs m RSP - 8 * (Z.of_nat i + 1)) (mmem m') = Some v) ∧
    same_dom (mmem m) (mmem m') ∧
    ∀ b k, disjoint (regs m RSP - 8 * Z.of_nat (length vs)) (8 * Z.of_nat (length vs)) b k →
           same_bytes b k (mmem m) (mmem m').
Proof.
  revert m; induction vs as [|v vs IH]; intros m Hsp Hvs Hm.
  { exists m. split; [done|]. split; [done|]. split; [cbn; lia|]. split; [done|].
    split; [done|]. split; [apply same_dom_refl|]. intros. apply same_bytes_refl. }
  cbn [length] in *. apply Forall_cons_iff in Hvs as [Hv Hvs].
  destruct (push_ok v m) as (mm & HE & Hl & Hd & Hs); [lia|exact Hv| |].
  { eapply mapped_sub; [exact Hm|lia|lia]. }
  set (m1 := set_reg RSP (regs m RSP - 8) (set_mmem mm m)) in *.
  assert (regs m1 RSP = regs m RSP - 8) as Hsp1 by done.
  destruct (IH m1) as (m' & HE' & Hc' & Hsp' & Hr' & Hl' & Hd' & Hs').
  - lia.
  - exact Hvs.
  - apply (mapped_same_dom _ _ (mmem m)); [exact Hd|]. eapply mapped_sub; [exact Hm|lia|lia].
  - exists m'. rewrite Hsp1 in *. split; [|split; [exact Hc'|split; [lia|]]].
    { cbn [for_each]. rewrite (bind_ok _ _ _ () m1); [exact HE'|exact HE]. }
    split; [|split; [|split]].
    + intros r' ?. rewrite Hr' by done. unfold m1. by rewrite regs_set_reg, decide_False.
    + intros [|i] w Hi; cbn in Hi.
      * injection Hi as <-. replace (regs m RSP - 8 * (Z.of_nat 0 + 1)) with (regs m RSP - 8) by lia.
        rewrite (load_ext 8 _ (mmem m1)); [exact Hl|].
        apply Hs'. unfold disjoint. lia.
      * replace (regs m RSP - 8 * (Z.of_nat (S i) + 1))
          with (regs m RSP - 8 - 8 * (Z.of_nat i + 1)) by lia.
        exact (Hl' i w Hi).
    + by eapply same_dom_trans.
    + intros b k Hdis. eapply same_bytes_trans; [apply Hs|apply Hs']; unfold disjoint in *; lia.
Qed.

Section code.
Context (call : fn → M machine unit).

(** Pushing registers is pushing their values. *)
Lemma pushes_vals rs v m :
  RSP ∉ rs → (∀ r, r ∈ rs → regs m r = v r) → run call (Push <$> rs) m = for_each (v <$> rs) push m.
Proof.
  revert m; induction rs as [|r rs IH]; intros m Hnot Hv; [done|].
  apply not_elem_of_cons in Hnot as [Hr Hnot].
  cbn [fmap list_fmap run for_each exec].
  assert (exec call (Push r) m = push (v r) m) as He.
  { cbn [exec]. rewrite (bind_ok _ _ _ m m) by done. by rewrite Hv by left. }
  transitivity ((push (v r) ≫= λ _, run call (Push <$> rs)) m).
  { unfold mbind, M_bind. by rewrite <- He. }
  unfold mbind, M_bind.
  destruct (push (v r) m) as [[[] m1]| |] eqn:Hp; [|done..].
  apply IH; [done|]. intros r' Hr'. rewrite (push_regs _ _ _ _ Hp) by (intros ->; done).
  apply Hv. by right.
Qed.

(** A run of pushes: the registers lie below the old stack pointer, the first
    one pushed on top. *)
Lemma pushes_ok rs m :
  8 * Z.of_nat (length rs) ≤ regs m RSP < 2 ^ 64 → wf_regs m → RSP ∉ rs →
  mapped (regs m RSP - 8 * Z.of_nat (length rs)) (8 * Z.of_nat (length rs)) (mmem m) →
  ∃ m', run call (Push <$> rs) m = Ok ((), m') ∧ same_ctl m m' ∧
    regs m' RSP = regs m RSP - 8 * Z.of_nat (length rs) ∧
    (∀ r, r ≠ RSP → regs m' r = regs m r) ∧
    (∀ i r, rs !! i = Some r →
       load 8 (regs m RSP - 8 * (Z.of_nat i + 1)) (mmem m') = Some (regs m r)) ∧
    same_dom (mmem m) (mmem m') ∧
    ∀ b k, disjoint (regs m RSP - 8 * Z.of_nat (length rs)) (8 * Z.of_nat (length rs)) b k →
           same_bytes b k (mmem m) (mmem m').
Proof.
  intros Hsp Hwf Hnot Hm.
  destruct (push_vals_ok (regs m <$> rs) m) as (m' & HE & Hc & Hsp' & Hr & Hl & Hd & Hs).
  - by rewrite length_fmap.
  - apply Forall_fmap, list.Forall_forall. intros r _. apply Hwf.
  - by rewrite length_fmap.
  - rewrite length_fmap in *. exists m'. rewrite (pushes_vals rs (regs m)) by done.
    split; [exact HE|]. split; [exact Hc|]. split; [exact Hsp'|]. split; [exact Hr|].
    split; [|by split]. intros i r Hi. apply Hl. by rewrite list_lookup_fmap, Hi.
Qed.

(** A run of pops: each register takes the word it meets. *)
Lemma pops_ok rs v m :
  0 ≤ regs m RSP → regs m RSP + 8 * Z.of_nat (length rs) < 2 ^ 64 → RSP ∉ rs → NoDup rs →
  (∀ i r, rs !! i = Some r → load 8 (regs m RSP + 8 * Z.of_nat i) (mmem m) = Some (v r)) →
  ∃ m', run call (Pop <$> rs) m = Ok ((), m') ∧ same_ctl m m' ∧ mmem m' = mmem m ∧
    regs m' RSP = regs m RSP + 8 * Z.of_nat (length rs) ∧
    (∀ r, r ∈ rs → regs m' r = v r) ∧
    ∀ r, r ∉ rs → r ≠ RSP → regs m' r = regs m r.
Proof.
  revert m; induction rs as [|r rs IH]; intros m H0 H1 Hnot Hnd Hl.
  { exists m. split; [done|]. split; [done|]. split; [done|]. split; [cbn; lia|].
    split; [|done]. intros r Hr. by apply not_elem_of_nil in Hr. }
  cbn [length] in *. apply not_elem_of_cons in Hnot as [Hr Hnot].
  apply NoDup_cons in Hnd as [Hin Hnd].
  assert (load 8 (regs m RSP) (mmem m) = Some (v r)) as Hl0.
  { rewrite <- (Hl 0%nat r eq_refl). f_equal. lia. }
  set (m1 := set_reg r (v r) (set_reg RSP (regs m RSP + 8) m)).
  assert (regs m1 RSP = regs m RSP + 8) as Hsp1.
  { unfold m1. rewrite !regs_set_reg, decide_False by done. by rewrite decide_True. }
  destruct (IH m1) as (m' & HE' & Hc' & Hm' & Hsp' & Hv' & Hr').
  - lia.
  - lia.
  - done.
  - done.
  - intros i r' Hi. rewrite Hsp1. rewrite <- (Hl (S i) r' Hi). f_equal. lia.
  - exists m'. split; [|split; [exact Hc'|split; [exact Hm'|split; [lia|split]]]].
    + cbn [fmap list_fmap run for_each exec]. rewrite (bind_ok _ _ _ () m1); [exact HE'|].
      by rewrite (bind_ok _ _ _ _ _ (pop_ok (v r) m H0 ltac:(lia) Hl0)).
    + intros r' [->|Hr0]%elem_of_cons; [|by apply Hv'].
      rewrite Hr' by done. unfold m1. by rewrite regs_set_reg, decide_True.
    + intros r' [Hne Hn]%not_elem_of_cons Hsp. rewrite Hr' by done.
      unfold m1. by rewrite !regs_set_reg, !decide_False.
Qed.

Lemma run_app c1 c2 m : run call (c1 ++ c2) m = (run call c1 ≫= λ _, run call c2) m.
Proof. apply for_each_app. Qed.

Lemma run_one i m m' : exec call i m = Ok ((), m') → run call [i] m = Ok ((), m').
Proof. intros H. cbn [run for_each]. unfold run, for_each. by rewrite (bind_ok _ _ _ _ _ H). Qed.
End code.
