(* ===== verification/Switch.v ===== *)
(** * Context switch and interrupt stubs ([context_switch.asm], [isr_stubs.asm])

    The assembly routines as instruction lists for [Machine]: what
    [context_switch] saves and restores, that an interrupt is transparent to
    the code it interrupts, and where [isr_handler] finds the registers. *)
From stdpp Require Import base tactics strings numbers gmap list.
From S2P Require Import Prelude CString Memory Interfaces HeapSpec Heap HeapProofs HeapTheorems Sched SchedTheorems Machine.

Local Open Scope Z_scope.
Local Open Scope nova_scope.

(** ** The routines *)

Definition context_switch : list instr := [
  Push RBX; Push RBP; Push R12; Push R13; Push R14; Push R15;
  Store RDI RSP;
  MovRR RSP RSI;
  Pop R15; Pop R14; Pop R13; Pop R12; Pop RBP; Pop RBX;
  Ret].

Definition push_all : list instr := [
  Push RAX; Push RBX; Push RCX; Push RDX; Push RSI; Push RDI; Push RBP; Push R8;
  Push R9; Push R10; Push R11; Push R12; Push R13; Push R14; Push R15].

Definition pop_all : list instr := [
  Pop R15; Pop R14; Pop R13; Pop R12; Pop R11; Pop R10; Pop R9; Pop R8;
  Pop RBP; Pop RDI; Pop RSI; Pop RDX; Pop RCX; Pop RBX; Pop RAX].

Definition irq_stub_0 : list instr :=
  push_all ++ [Call pit_tick_handler; MovRI RDI 0; Call pic_send_eoi; Call Machine.sched_tick] ++
  pop_all ++ [Iretq].

Definition irq_stub_1 : list instr :=
  push_all ++ [Call keyboard_irq_handler; MovRI RDI 1; Call pic_send_eoi] ++
  pop_all ++ [Iretq].

Definition isr_common_stub : list instr :=
  push_all ++ [MovRR RDI RSP; Call isr_handler] ++ pop_all ++ [AddI RSP 16; Iretq].

(** The vectors for which the processor pushes an error code itself. *)
Definition has_errcode (n : Z) : bool :=
  bool_decide (n ∈ [8; 10; 11; 12; 13; 14; 17; 21; 30]).

Definition isr_stub (n : Z) : list instr :=
  (if has_errcode n then [PushI n] else [PushI 0; PushI n]) ++ isr_common_stub.

(** Offsets of [struct InterruptFrame]'s fields. *)
Definition FRAME_REGS : list reg :=
  [R15; R14; R13; R12; R11; R10; R9; R8; RBP; RDI; RSI; RDX; RCX; RBX; RAX].
Definition OFF_VECTOR : Z := 120.
Definition OFF_ERROR : Z := 128.
Definition OFF_RIP : Z := 136.

(** ** The interrupt flag *)

Definition if_set (fl : Z) : bool := Z.testbit fl IF.
(** What an interrupt gate leaves of [rflags]. *)
Definition clear_if (fl : Z) : Z := fl &&& u64 (Z.lnot (1 ≪ IF)).

(** * Lemmas *)

Definition switch_regs : list reg := [RBX; RBP; R12; R13; R14; R15].
Definition all_regs : list reg :=
  [RAX; RBX; RCX; RDX; RSI; RDI; RBP; R8; R9; R10; R11; R12; R13; R14; R15].

Lemma context_switch_eq :
  context_switch =
  (Push <$> switch_regs) ++ [Store RDI RSP; MovRR RSP RSI] ++ (Pop <$> reverse switch_regs) ++ [Ret].
Proof. reflexivity. Qed.

Lemma push_all_eq : push_all = Push <$> all_regs.
Proof. reflexivity. Qed.
Lemma pop_all_eq : pop_all = Pop <$> reverse all_regs.
Proof. reflexivity. Qed.

Lemma all_regs_spec r : r ∈ all_regs ↔ r ≠ RSP.
Proof. split; [intros Hr ->|intros Hr]; [|destruct r; try done]; unfold all_regs in *; set_solver. Qed.

Lemma all_regs_NoDup : NoDup (reverse all_regs).
Proof. apply (bool_decide_unpack _). vm_compute. exact I. Qed.
Lemma switch_regs_NoDup : NoDup (reverse switch_regs).
Proof. apply (bool_decide_unpack _). vm_compute. exact I. Qed.

(** The frame [context_switch] leaves on a stack: six registers and the address
    it returns to. *)
Definition saved_frame (v : reg → Z) (ip rsp : Z) (m : mem) : Prop :=
  (∀ i r, reverse switch_regs !! i = Some r → load 8 (rsp + 8 * Z.of_nat i) m = Some (v r)) ∧
  load 8 (rsp + 48) m = Some ip.

Lemma fresh_saved_frame entry rsp m :
  fresh_stack entry rsp m → saved_frame (λ _, 0) entry rsp m.
Proof.
  intros [Hz He]. split; [|done]. intros i r Hi. apply Hz.
  apply lookup_lt_Some in Hi. change (length (reverse switch_regs)) with 6%nat in Hi. lia.
Qed.

Lemma saved_frame_ext v ip rsp m m' :
  saved_frame v ip rsp m → same_bytes rsp 56 m m' → saved_frame v ip rsp m'.
Proof.
  intros [Hr Hi] Hs. split.
  - intros i r Hir. rewrite (load_ext 8 _ m); [by apply Hr|].
    apply lookup_lt_Some in Hir. change (length (reverse switch_regs)) with 6%nat in Hir.
    intros b Hb. apply Hs. lia.
  - rewrite (load_ext 8 _ m); [done|]. intros b Hb. apply Hs. lia.
Qed.

(** The pushed words read from the new stack pointer up. *)
Lemma reverse_words (rs : list reg) (v : reg → Z) sp m :
  (∀ i r, rs !! i = Some r → load 8 (sp - 8 * (Z.of_nat i + 1)) m = Some (v r)) →
  ∀ i r, reverse rs !! i = Some r →
    load 8 (sp - 8 * Z.of_nat (length rs) + 8 * Z.of_nat i) m = Some (v r).
Proof.
  intros H i r Hi. apply lookup_lt_Some in Hi as Hlt. rewrite length_reverse in Hlt.
  rewrite reverse_lookup in Hi by done. rewrite <- (H _ _ Hi). f_equal. lia.
Qed.

Section switch.
Context (call : fn → M machine unit).

(** The exchange of the stack pointers. *)
Lemma swap_ok m1 : mapped (regs m1 RDI) 8 (mmem m1) → 0 ≤ regs m1 RSP < 2 ^ 64 →
  ∃ mm, run call [Store RDI RSP; MovRR RSP RSI] m1 =
      Ok ((), set_reg RSP (regs m1 RSI) (set_mmem mm m1)) ∧
    load 8 (regs m1 RDI) mm = Some (regs m1 RSP) ∧ same_dom (mmem m1) mm ∧
    ∀ b k, disjoint (regs m1 RDI) 8 b k → same_bytes b k (mmem m1) mm.
Proof.
  intros Hm Hr. destruct (st_ok 8 (regs m1 RDI) (regs m1 RSP) (mmem m1) Hm) as (mm & E & Hl & Hd & Hs).
  exists mm. split; [|split; [|by split]].
  - cbn [run for_each exec]. rewrite (bind_ok _ _ _ () (set_mmem mm m1)); [done|].
    rewrite (bind_ok _ _ _ m1 m1) by done. unfold zoom. by rewrite E.
  - rewrite Hl. f_equal. apply Z.mod_small. change (256 ^ Z.of_nat 8) with (2 ^ 64). lia.
Qed.

(** The way out through a frame. *)
Lemma restore_ok m v ip :
  let sp := regs m RSP in
  0 ≤ sp → sp + 56 < 2 ^ 64 → saved_frame v ip sp (mmem m) →
  ∃ m', run call ((Pop <$> reverse switch_regs) ++ [Ret]) m = Ok ((), m') ∧
    rip m' = ip ∧ rflags m' = rflags m ∧ cs m' = cs m ∧ ss m' = ss m ∧
    regs m' RSP = sp + 56 ∧ (∀ r, r ∈ switch_regs → regs m' r = v r) ∧ mmem m' = mmem m.
Proof.
  intros sp H0 Hsp [Hf Hip].
  destruct (pops_ok call (reverse switch_regs) v m)
    as (m3 & E3 & (Hrip3 & Hfl3 & Hcs3 & Hss3) & Hm3 & Hsp3 & Hv3 & Hr3).
  { exact H0. } { change (length (reverse switch_regs)) with 6%nat. fold sp. lia. }
  { unfold switch_regs. cbn. set_solver. } { apply switch_regs_NoDup. } { exact Hf. }
  change (length (reverse switch_regs)) with 6%nat in Hsp3. fold sp in Hsp3.
  change (8 * Z.of_nat 6) with 48 in Hsp3.
  exists (set_rip ip (set_reg RSP (sp + 56) m3)). split.
  - rewrite run_app, (bind_ok _ _ _ _ _ E3). apply run_one. cbn [exec].
    rewrite (bind_ok _ _ _ _ _ (pop_ok ip m3 ltac:(lia) ltac:(lia)
      ltac:(rewrite Hsp3, Hm3; exact Hip))).
    rewrite Hsp3. by replace (sp + 48 + 8) with (sp + 56) by lia.
  - do 5 (split; [done|]). split; [|done]. intros r Hr. cbn [regs set_rip set_reg].
    rewrite decide_False by (intros ->; unfold switch_regs in Hr; set_solver).
    apply Hv3. by apply elem_of_reverse.
Qed.

(** [context_switch] on a stack with room, to a stack that holds a frame. *)
Lemma switch_ok m v ip :
  let sp := regs m RSP in let slot := regs m RDI in let new := regs m RSI in
  wf_regs m → 48 ≤ sp → new + 56 < 2 ^ 64 →
  mapped (sp - 48) 48 (mmem m) → mapped slot 8 (mmem m) →
  disjoint slot 8 new 56 → disjoint (sp - 48) 48 new 56 → disjoint slot 8 (sp - 48) 56 →
  saved_frame v ip new (mmem m) →
  ∃ m', run call context_switch m = Ok ((), m') ∧ rip m' = ip ∧ rflags m' = rflags m ∧
    cs m' = cs m ∧ ss m' = ss m ∧
    regs m' RSP = new + 56 ∧ (∀ r, r ∈ switch_regs → regs m' r = v r) ∧
    load 8 slot (mmem m') = Some (sp - 48) ∧
    (∀ i r, reverse switch_regs !! i = Some r →
       load 8 (sp - 48 + 8 * Z.of_nat i) (mmem m') = Some (regs m r)) ∧
    same_dom (mmem m) (mmem m') ∧
    ∀ b k, disjoint (sp - 48) 48 b k → disjoint slot 8 b k → same_bytes b k (mmem m) (mmem m').
Proof.
  intros sp slot new Hwf Hsp Hnew Hm Hms Hd1 Hd2 Hd3 Hfr.
  pose proof (Hwf RSP) as Hspr. fold sp in Hspr. pose proof (Hwf RSI) as Hnr. fold new in Hnr.
  destruct (pushes_ok call switch_regs m) as (m1 & E1 & (Hrip1 & Hfl1 & Hcs1 & Hss1) & Hsp1 & Hr1 & Hl1 & Hdm1 & Hs1);
    [cbn [length switch_regs]; fold sp; lia|done|unfold switch_regs; set_solver|exact Hm|].
  cbn [length switch_regs] in *. change (8 * Z.of_nat 6) with 48 in *. fold sp in Hsp1, Hl1, Hs1.
  assert (regs m1 RDI = slot) as Hdi by (by apply Hr1).
  assert (regs m1 RSI = new) as Hsi by (by apply Hr1).
  destruct (swap_ok m1) as (mm & E2 & Hl2 & Hdm2 & Hs2);
    [rewrite Hdi; by apply (mapped_same_dom _ _ (mmem m))|rewrite Hsp1; lia|].
  rewrite Hdi in Hl2, Hs2. rewrite Hsi in E2. rewrite Hsp1 in Hl2.
  set (m2 := set_reg RSP new (set_mmem mm m1)) in *.
  assert (regs m2 RSP = new) as Hsp2 by done.
  assert (same_bytes new 56 (mmem m) mm) as Hnew2.
  { eapply same_bytes_trans; [by apply Hs1|by apply Hs2]. }
  destruct (restore_ok m2 v ip) as (m3 & E3 & Hrip & Hfl & Hcs & Hss & Hsp3 & Hv3 & Hm3);
    [rewrite Hsp2; lia|by rewrite Hsp2|rewrite Hsp2; exact (saved_frame_ext _ _ _ _ _ Hfr Hnew2)|].
  rewrite Hsp2 in Hsp3. change (mmem m2) with mm in Hm3.
  exists m3. rewrite Hm3. split.
  { rewrite context_switch_eq, run_app, (bind_ok _ _ _ _ _ E1), run_app.
    by rewrite (bind_ok _ _ _ _ _ E2). }
  split; [exact Hrip|]. split; [exact (eq_trans Hfl Hfl1)|].
  split; [exact (eq_trans Hcs Hcs1)|]. split; [exact (eq_trans Hss Hss1)|].
  split; [exact Hsp3|]. split; [exact Hv3|]. split; [exact Hl2|]. split; [|split].
  - intros i r Hi. rewrite (load_ext 8 _ (mmem m1)); [by apply (reverse_words switch_regs _ _ _ Hl1)|].
    apply lookup_lt_Some in Hi. change (length (reverse switch_regs)) with 6%nat in Hi.
    apply Hs2. unfold disjoint in *. lia.
  - by eapply same_dom_trans.
  - intros b k Hb1 Hb2. eapply same_bytes_trans; [by apply Hs1|by apply Hs2].
Qed.
End switch.

(** ** Entering and leaving an interrupt *)

(** The stack pointer the frame is pushed at: the top of the interrupted
    stack, aligned down to 16. *)
Definition frame_top (m : machine) : Z := regs m RSP &&& u64 (Z.lnot 15).

(** What the processor requires of the interrupted machine: values that fit
    their registers, and room for the frame and fifteen registers. *)
Record interruptible (m : machine) : Prop := {
  int_regs : wf_regs m;
  int_ctl : Forall (λ v, 0 ≤ v < 2 ^ 64) [ss m; rflags m; cs m; rip m];
  int_room : 176 ≤ frame_top m;
  int_mapped : mapped (frame_top m - 176) 176 (mmem m)
}.

Lemma frame_top_range m : wf_regs m → 0 ≤ frame_top m < 2 ^ 64.
Proof.
  intros Hwf. pose proof (Hwf RSP) as H. unfold frame_top. split.
  - apply Z.land_nonneg. left. lia.
  - apply bounded_by_bits; [lia|apply Z.land_nonneg; left; lia|].
    intros i Hi. by rewrite Z.land_spec, (testbit_above 64) by lia.
Qed.

(** The five words of the frame. *)
Definition int_frame (m : machine) (mm : mem) : Prop :=
  let t := frame_top m in
  load 8 (t - 40) mm = Some (rip m) ∧ load 8 (t - 32) mm = Some (cs m) ∧
  load 8 (t - 24) mm = Some (rflags m) ∧ load 8 (t - 16) mm = Some (regs m RSP) ∧
  load 8 (t - 8) mm = Some (ss m).

Lemma int_frame_ext m mm mm' :
  int_frame m mm → same_bytes (frame_top m - 40) 40 mm mm' → int_frame m mm'.
Proof.
  intros (H1 & H2 & H3 & H4 & H5) Hs.
  assert (∀ a, frame_top m - 40 ≤ a → a + 8 ≤ frame_top m → load 8 a mm' = load 8 a mm) as He.
  { intros a ? ?. apply load_ext. intros b Hb. apply Hs. lia. }
  split_and!; rewrite He by lia; done.
Qed.

Lemma enter_ok m handler :
  interruptible m →
  ∃ m', enter_interrupt handler m = Ok ((), m') ∧ rip m' = handler ∧
    rflags m' = clear_if (rflags m) ∧ regs m' RSP = frame_top m - 40 ∧
    (∀ r, r ≠ RSP → regs m' r = regs m r) ∧ int_frame m (mmem m') ∧
    same_dom (mmem m) (mmem m') ∧
    ∀ b k, disjoint (frame_top m - 40) 40 b k → same_bytes b k (mmem m) (mmem m').
Proof.
  intros [Hwf Hctl Hroom Hmap]. pose proof (frame_top_range m Hwf) as Ht.
  set (t := frame_top m) in *. set (m0 := set_reg RSP t m).
  assert (regs m0 RSP = t) as Hsp0 by done.
  destruct (push_vals_ok [ss m; regs m RSP; rflags m; cs m; rip m] m0)
    as (m1 & HE & (Hrip & Hfl & Hcs & Hss) & Hsp & Hr & Hl & Hd & Hs); cbn [length] in *;
    change (8 * Z.of_nat 5) with 40 in *; try rewrite Hsp0.
  - lia.
  - rewrite !Forall_cons_iff in Hctl. destruct Hctl as (? & ? & ? & ? & _).
    repeat (apply List.Forall_cons; [first [assumption|apply Hwf]|]). done.
  - eapply mapped_sub; [exact Hmap|lia|lia].
  - rewrite Hsp0 in Hsp, Hl, Hs. exists (set_rip handler (set_rflags (rflags m1 &&& u64 (Z.lnot (1 ≪ IF))) m1)).
    split; [|split; [done|split; [cbn; by rewrite Hfl|split; [exact Hsp|]]]].
    + unfold enter_interrupt. rewrite (bind_ok _ _ _ m m) by done.
      rewrite (bind_ok _ _ _ () m0) by done. by rewrite (bind_ok _ _ _ _ _ HE).
    + split; [|split; [|split; [exact Hd|exact Hs]]].
      * intros r Hne. cbn. rewrite Hr by done. unfold m0. by rewrite regs_set_reg, decide_False.
      * unfold int_frame. fold t. cbn [mmem set_rip set_rflags].
        split_and!; [rewrite <- (Hl 4%nat _ eq_refl)|rewrite <- (Hl 3%nat _ eq_refl)|
          rewrite <- (Hl 2%nat _ eq_refl)|rewrite <- (Hl 1%nat _ eq_refl)|
          rewrite <- (Hl 0%nat _ eq_refl)]; f_equal; lia.
Qed.

Lemma iretq_ok m m0 :
  wf_regs m0 → regs m RSP = frame_top m0 - 40 → 40 ≤ frame_top m0 →
  int_frame m0 (mmem m) →
  ∃ m', iretq m = Ok ((), m') ∧ rip m' = rip m0 ∧ rflags m' = rflags m0 ∧ cs m' = cs m0 ∧
    ss m' = ss m0 ∧ regs m' RSP = regs m0 RSP ∧ (∀ r, r ≠ RSP → regs m' r = regs m r) ∧
    mmem m' = mmem m.
Proof.
  intros Hwf Hsp Hroom (H1 & H2 & H3 & H4 & H5). pose proof (frame_top_range m0 Hwf) as Ht.
  set (t := frame_top m0) in *.
  assert (∀ k m1, 0 ≤ k < 5 → regs m1 RSP = t - 40 + 8 * k → mmem m1 = mmem m → ∀ v,
    load 8 (t - 40 + 8 * k) (mmem m) = Some v →
    pop m1 = Ok (v, set_reg RSP (t - 40 + 8 * (k + 1)) m1)) as Hpop.
  { intros k m1 Hk Hsp1 Hm1 v Hv. rewrite (pop_ok v m1); [|lia|lia|by rewrite Hsp1, Hm1].
    do 3 f_equal. lia. }
  unfold iretq. replace (t - 40) with (t - 40 + 8 * 0) in H1 by lia.
  rewrite (bind_ok _ _ _ _ _ (Hpop 0 m ltac:(lia) ltac:(lia) eq_refl (rip m0) H1)).
  replace (t - 32) with (t - 40 + 8 * 1) in H2 by lia.
  replace (t - 24) with (t - 40 + 8 * 2) in H3 by lia.
  replace (t - 16) with (t - 40 + 8 * 3) in H4 by lia.
  replace (t - 8) with (t - 40 + 8 * 4) in H5 by lia.
  do 4 (erewrite bind_ok; [|eapply Hpop; [|reflexivity|reflexivity|eassumption]; lia]).
  eexists. split; [reflexivity|]. do 5 (split; [done|]). split; [|done].
  intros r Hr. cbn [set_ss set_reg set_rflags set_cs set_rip regs]. by rewrite !decide_False.
Qed.


(** ** The stubs *)

Section stub.
Context (call : fn → M machine unit).

(** A stub whose middle keeps the stack pointer and the bytes from it up to
    [hi] brings the interrupted machine back. *)
Lemma stub_ok mid handler hi m :
  interruptible m → frame_top m ≤ hi →
  (∀ m1, regs m1 RSP = frame_top m - 160 → ∃ m2, run call mid m1 = Ok ((), m2) ∧
     regs m2 RSP = regs m1 RSP ∧ same_dom (mmem m1) (mmem m2) ∧
     same_bytes (frame_top m - 160) (hi - (frame_top m - 160)) (mmem m1) (mmem m2)) →
  ∃ m', (enter_interrupt handler ≫= λ _, run call (push_all ++ mid ++ pop_all ++ [Iretq])) m
        = Ok ((), m') ∧
    (∀ r, regs m' r = regs m r) ∧ same_ctl m m' ∧ same_dom (mmem m) (mmem m') ∧
    same_bytes (frame_top m) (hi - frame_top m) (mmem m) (mmem m').
Proof.
  intros Hint Hhi Hmid. pose proof Hint as [Hwf _ Hroom Hmap].
  pose proof (frame_top_range m Hwf) as Ht.
  destruct (enter_ok m handler Hint) as (m1 & E1 & _ & _ & Hsp1 & Hr1 & Hf1 & Hd1 & Hs1).
  destruct (pushes_ok call all_regs m1)
    as (m2 & E2 & _ & Hsp2 & Hr2 & Hl2 & Hd2 & Hs2);
    cbn [length all_regs] in *; change (8 * Z.of_nat 15) with 120 in *.
  { lia. }
  { intros r. destruct (decide (r = RSP)) as [->|]; [lia|]. rewrite Hr1 by done. apply Hwf. }
  { intros Hin. by apply all_regs_spec in Hin. }
  { apply (mapped_same_dom _ _ (mmem m)); [done|]. eapply mapped_sub; [exact Hmap|lia|lia]. }
  destruct (Hmid m2) as (m3 & E3 & Hsp3 & Hd3 & Hs3); [lia|].
  destruct (pops_ok call (reverse all_regs) (regs m1) m3)
    as (m4 & E4 & _ & Hm4 & Hsp4 & Hv4 & _).
  { lia. } { change (length (reverse all_regs)) with 15%nat. lia. }
  { intros Hin. apply elem_of_reverse in Hin. by apply all_regs_spec in Hin. }
  { apply all_regs_NoDup. }
  { intros i r Hi. apply lookup_lt_Some in Hi as Hlt. rewrite length_reverse in Hlt.
    rewrite <- (reverse_words all_regs (regs m1) (regs m1 RSP) (mmem m2) Hl2 i r Hi).
    cbn [length all_regs] in *. rewrite (load_ext 8 _ (mmem m2)).
    - f_equal. lia.
    - intros b Hb. apply Hs3. lia. }
  change (length (reverse all_regs)) with 15%nat in Hsp4.
  destruct (iretq_ok m4 m Hwf) as (m5 & E5 & ? & ? & ? & ? & Hsp5 & Hr5 & Hm5); [lia|lia| |].
  { apply (int_frame_ext m (mmem m2)).
    - apply (int_frame_ext m (mmem m1)); [exact Hf1|]. apply Hs2. unfold disjoint. lia.
    - rewrite Hm4. intros b Hb. apply Hs3. lia. }
  exists m5. split; [|split; [|split; [done|split]]].
  - rewrite (bind_ok _ _ _ _ _ E1), push_all_eq, run_app, (bind_ok _ _ _ _ _ E2), run_app.
    rewrite (bind_ok _ _ _ _ _ E3), pop_all_eq, run_app, (bind_ok _ _ _ _ _ E4).
    by apply run_one.
  - intros r. destruct (decide (r = RSP)) as [->|Hr]; [done|].
    rewrite Hr5, Hv4 by (done || by apply elem_of_reverse, all_regs_spec). by apply Hr1.
  - rewrite Hm5, Hm4. eauto using same_dom_trans.
  - rewrite Hm5, Hm4. eapply same_bytes_trans; [|eapply same_bytes_trans].
    + apply Hs1. unfold disjoint. lia.
    + apply Hs2. unfold disjoint. lia.
    + intros b Hb. apply Hs3. lia.
Qed.

(** One call, seen from the stub. *)
Lemma call_keeps f lo hi m1 :
  returns (call f) hi → regs m1 RSP = lo →
  ∃ m2, exec call (Call f) m1 = Ok ((), m2) ∧ regs m2 RSP = lo ∧
    same_dom (mmem m1) (mmem m2) ∧ same_bytes lo (hi - lo) (mmem m1) (mmem m2).
Proof.
  intros Hf Hsp. destruct (Hf m1) as (m2 & HE & Hcs & _ & _ & Hd & Hs).
  exists m2. split; [exact HE|]. rewrite (Hcs RSP) by (unfold callee_saved; set_solver).
  rewrite Hsp in Hs. done.
Qed.

(** A sequence of calls and register moves. *)
Definition quiet (i : instr) (hi : Z) : Prop :=
  match i with Call f => returns (call f) hi | MovRI r _ => r ≠ RSP | _ => False end.

Lemma quiet_run mid hi :
  Forall (λ i, quiet i hi) mid → ∀ lo m1, regs m1 RSP = lo →
  ∃ m2, run call mid m1 = Ok ((), m2) ∧ regs m2 RSP = regs m1 RSP ∧
    same_dom (mmem m1) (mmem m2) ∧ same_bytes lo (hi - lo) (mmem m1) (mmem m2).
Proof.
  induction 1 as [|i mid Hi _ IH]; intros lo m1 Hsp.
  { exists m1. split; [done|]. split; [done|]. split; [apply same_dom_refl|apply same_bytes_refl]. }
  assert (∃ m2, exec call i m1 = Ok ((), m2) ∧ regs m2 RSP = lo ∧
    same_dom (mmem m1) (mmem m2) ∧ same_bytes lo (hi - lo) (mmem m1) (mmem m2))
    as (m2 & E2 & Hsp2 & Hd2 & Hs2).
  { destruct i as [| | | |r v| | |f| |]; try done; cbn [quiet] in Hi.
    - exists (set_reg r v m1). split; [done|]. split.
      + rewrite regs_set_reg. by rewrite decide_False.
      + split; [apply same_dom_refl|apply same_bytes_refl].
    - by apply call_keeps. }
  destruct (IH lo m2 Hsp2) as (m3 & E3 & Hsp3 & Hd3 & Hs3).
  exists m3. split; [|split; [congruence|split]].
  - cbn [run for_each]. by rewrite (bind_ok _ _ _ _ _ E2).
  - by eapply same_dom_trans.
  - by eapply same_bytes_trans.
Qed.

(** Pushing constants, and then the registers. *)
Lemma run_pushi vs m : run call (PushI <$> vs) m = for_each vs push m.
Proof.
  revert m; induction vs as [|v vs IH]; intros m; [done|].
  cbn [fmap list_fmap run for_each exec]. unfold mbind, M_bind.
  destruct (push v m) as [[? m1]| |]; [apply IH|done..].
Qed.

Lemma push_list_regs vs m m' r : for_each vs push m = Ok ((), m') → r ≠ RSP →
  regs m' r = regs m r.
Proof.
  revert m; induction vs as [|v vs IH]; intros m E Hr; [by injection E as <-|].
  cbn [for_each] in E. apply bind_inv in E as ([] & m1 & E & E0).
  rewrite (IH _ E0 Hr). by eapply push_regs.
Qed.

Lemma run_isr_pushes vs m m' :
  for_each (vs ++ (regs m <$> all_regs)) push m = Ok ((), m') →
  run call ((PushI <$> vs) ++ push_all ++ [MovRR RDI RSP]) m =
    Ok ((), set_reg RDI (regs m' RSP) m').
Proof.
  intros E. rewrite for_each_app in E. apply bind_inv in E as ([] & m0 & E0 & E).
  rewrite run_app. rewrite (bind_ok _ _ _ () m0) by (by rewrite run_pushi).
  rewrite run_app, push_all_eq. rewrite (bind_ok _ _ _ () m'); [by apply run_one|].
  rewrite (pushes_vals _ _ (regs m)); [exact E| |].
  - intros Hin. by apply all_regs_spec in Hin.
  - intros r Hr%all_regs_spec. by eapply push_list_regs.
Qed.

(** The stack [isr_handler] is given. *)
Lemma isr_pushes vs m :
  Forall (λ v, 0 ≤ v < 2 ^ 64) vs → wf_regs m →
  8 * Z.of_nat (length vs + 15) ≤ regs m RSP →
  mapped (regs m RSP - 8 * Z.of_nat (length vs + 15)) (8 * Z.of_nat (length vs + 15)) (mmem m) →
  ∃ m', run call ((PushI <$> vs) ++ push_all ++ [MovRR RDI RSP]) m = Ok ((), m') ∧
    regs m' RSP = regs m RSP - 8 * Z.of_nat (length vs + 15) ∧
    regs m' RDI = regs m' RSP ∧
    (∀ i r, reverse all_regs !! i = Some r →
       load 8 (regs m' RSP + 8 * Z.of_nat i) (mmem m') = Some (regs m r)) ∧
    (∀ i v, reverse vs !! i = Some v →
       load 8 (regs m' RSP + 120 + 8 * Z.of_nat i) (mmem m') = Some v) ∧
    same_bytes (regs m RSP) (2 ^ 64 - regs m RSP) (mmem m) (mmem m') ∧ rflags m' = rflags m.
Proof.
  intros Hvs Hwf Hroom Hmap. pose proof (Hwf RSP) as Hsp0.
  assert (length (vs ++ (regs m <$> all_regs)) = (length vs + 15)%nat) as Hlen.
  { rewrite length_app, length_fmap. done. }
  destruct (push_vals_ok (vs ++ (regs m <$> all_regs)) m) as (m1 & E1 & (_ & Hfl & _) & Hsp & Hr & Hl & _ & Hs);
    rewrite ?Hlen in *.
  { lia. }
  { apply Forall_app. split; [done|]. apply Forall_fmap, list.Forall_forall. intros r _. apply Hwf. }
  { exact Hmap. }
  exists (set_reg RDI (regs m1 RSP) m1).
  assert (regs (set_reg RDI (regs m1 RSP) m1) RSP = regs m1 RSP) as Hsp'.
  { by rewrite regs_set_reg, decide_False. }
  rewrite Hsp'. cbn [mmem set_reg].
  split; [|split; [exact Hsp|split; [|split; [|split]]]].
  - by apply run_isr_pushes.
  - rewrite regs_set_reg. by rewrite decide_True.
  - intros i r Hi. apply lookup_lt_Some in Hi as Hlt. rewrite length_reverse in Hlt.
    rewrite reverse_lookup in Hi by done.
    rewrite <- (Hl (length vs + (length all_regs - S i))%nat (regs m r)).
    + f_equal. change (length all_regs) with 15%nat in *. lia.
    + rewrite lookup_app_r by lia. rewrite list_lookup_fmap.
      replace (length vs + (length all_regs - S i) - length vs)%nat
        with (length all_regs - S i)%nat by lia. by rewrite Hi.
  - intros i v Hi. apply lookup_lt_Some in Hi as Hlt. rewrite length_reverse in Hlt.
    rewrite reverse_lookup in Hi by done. rewrite <- (Hl (length vs - S i)%nat v).
    + f_equal. lia.
    + by rewrite lookup_app_l by lia.
  - split; [|exact Hfl]. apply Hs. unfold disjoint. lia.
Qed.
End stub.

(** ** The conditions of a switch *)

(** [m] is about to run [context_switch]: room for six words below its return
    address, a slot for the old stack pointer, and 56 bytes at the new one,
    none of which overlap. *)
Record can_switch (m : machine) : Prop := {
  sw_regs : wf_regs m;
  sw_room : 48 ≤ regs m RSP;
  sw_new : regs m RSI + 56 < 2 ^ 64;
  sw_stack : mapped (regs m RSP - 48) 48 (mmem m);
  sw_slot : mapped (regs m RDI) 8 (mmem m);
  sw_slot_new : disjoint (regs m RDI) 8 (regs m RSI) 56;
  sw_stack_new : disjoint (regs m RSP - 48) 48 (regs m RSI) 56;
  sw_slot_stack : disjoint (regs m RDI) 8 (regs m RSP - 48) 56
}.

(** A concrete machine about to switch: zero memory, the new frame at 8192. *)
Definition no_call : fn → M machine unit := λ _, mret tt.
Definition demo_regs (r : reg) : Z :=
  match r with RSP => 4096 | RDI => 12288 | RSI => 8192 | RBX => 7 | R15 => 9 | _ => 0 end.
Definition demo_machine : machine :=
  Mach demo_regs 0x1000 0x202 8 16 (fill 0 16384 0).

Lemma demo_load a : 0 ≤ a < 16376 → load 8 a (fill 0 16384 0) = Some 0.
Proof.
  intros Ha. cbn [load]. rewrite !fill_lookup. rewrite !decide_True by lia. reflexivity.
Qed.

Lemma demo_mapped a n : 0 ≤ a → a + n ≤ 16384 → mapped a n (fill 0 16384 0).
Proof. intros ? ?. apply (mapped_sub 0 16384); [apply fill_mapped|lia|lia]. Qed.

Lemma demo_wf : wf_regs demo_machine.
Proof. intros r. destruct r; cbn; lia. Qed.

Lemma demo_frame a : 0 ≤ a < 16000 → saved_frame (λ _, 0) 0 a (fill 0 16384 0).
Proof.
  intros Ha. split; [|apply demo_load; lia]. intros i r Hi. apply demo_load.
  apply lookup_lt_Some in Hi. change (length (reverse switch_regs)) with 6%nat in Hi. lia.
Qed.

Lemma demo_can_switch : can_switch demo_machine.
Proof.
  split; cbn; try (unfold disjoint; lia).
  - exact demo_wf.
  - apply demo_mapped; lia.
  - apply demo_mapped; lia.
Qed.

Lemma demo_interruptible : interruptible demo_machine.
Proof.
  assert (frame_top demo_machine = 4096) as Ht by (vm_compute; reflexivity).
  split; rewrite ?Ht.
  - exact demo_wf.
  - repeat (apply List.Forall_cons; [cbn; lia|]). done.
  - lia.
  - apply demo_mapped; lia.
Qed.

Lemma clear_if_clears fl : 0 ≤ fl < 2 ^ 64 → if_set (clear_if fl) = false.
Proof.
  intros Hfl. unfold if_set, clear_if. rewrite land_u64 by done.
  rewrite testbit_clear by (unfold IF; lia). rewrite Z.eqb_refl. apply andb_false_r.
Qed.

(** * Properties *)

(** C27: a task that [context_switch] switches away from comes back exactly:
    after any other code has run that leaves the 56 bytes of its frame alone, a
    [context_switch] to the stack pointer that was stored in its slot returns
    to its return address with its callee-saved registers and stack pointer. *)
Theorem switch_roundtrip (call : fn → M machine unit) (m1 : machine)
    (v : reg → Z) (ip ret : Z)
    (H1 : can_switch m1) (Hfr : saved_frame v ip (regs m1 RSI) (mmem m1))
    (Hret : load 8 (regs m1 RSP) (mmem m1) = Some ret) :
  ∃ m2 saved, run call context_switch m1 = Ok ((), m2) ∧
    load 8 (regs m1 RDI) (mmem m2) = Some saved ∧
    ∀ m3, can_switch m3 → regs m3 RSI = saved → same_bytes saved 56 (mmem m2) (mmem m3) →
      ∃ m4, run call context_switch m3 = Ok ((), m4) ∧ rip m4 = ret ∧
        regs m4 RSP = regs m1 RSP + 8 ∧ ∀ r, r ∈ switch_regs → regs m4 r = regs m1 r.
Proof.
  destruct H1 as [Hwf Hroom Hnew Hst Hsl Hd1 Hd2 Hd3].
  destruct (switch_ok call m1 v ip Hwf Hroom Hnew Hst Hsl Hd1 Hd2 Hd3 Hfr)
    as (m2 & E2 & _ & _ & _ & _ & _ & _ & Hslot & Hfrm & _ & Hs).
  exists m2, (regs m1 RSP - 48). split; [exact E2|]. split; [exact Hslot|].
  intros m3 [Hwf' Hroom' Hnew' Hst' Hsl' Hd1' Hd2' Hd3'] Hsi Hs3.
  assert (saved_frame (regs m1) ret (regs m3 RSI) (mmem m3)) as Hfr'.
  { rewrite Hsi. apply (saved_frame_ext _ _ _ (mmem m2)); [|exact Hs3]. split; [exact Hfrm|].
    replace (regs m1 RSP - 48 + 48) with (regs m1 RSP) by lia.
    rewrite (load_ext 8 _ (mmem m1)); [exact Hret|].
    apply Hs; unfold disjoint in *; lia. }
  destruct (switch_ok call m3 (regs m1) ret Hwf' Hroom' Hnew' Hst' Hsl' Hd1' Hd2' Hd3' Hfr')
    as (m4 & E4 & Hip & _ & _ & _ & Hsp & Hv & _).
  exists m4. split; [exact E4|]. split; [exact Hip|]. split; [rewrite Hsp, Hsi; lia|exact Hv].
Qed.

Lemma switch_roundtrip_witness :
  ∃ m2, run no_call context_switch demo_machine = Ok ((), m2) ∧
    load 8 12288 (mmem m2) = Some 4048.
Proof.
  destruct (switch_roundtrip no_call demo_machine (λ _, 0) 0 0 demo_can_switch
    (demo_frame 8192 ltac:(lia)) (demo_load 4096 ltac:(lia))) as (m2 & sv & E2 & Hs & _).
  destruct (switch_ok no_call demo_machine (λ _, 0) 0) as (m2' & E2' & _ & _ & _ & _ & _ & _ & Hs' & _);
    try apply demo_can_switch.
  { apply (demo_frame 8192). lia. }
  rewrite E2 in E2'. injection E2' as <-. exists m2. split; [exact E2|]. exact Hs'.
Defined.

(** C28: the first switch to a stack seeded by [sched_create_task] enters the task
    at its entry point with zero callee-saved registers and the stack pointer
    at the top of its stack, and leaves [rflags] as it found it: a switch made
    with the flags an interrupt gate has left starts the task with interrupts
    disabled. *)
Theorem switch_fresh (call : fn → M machine unit) (m : machine) (entry : Z)
    (H : can_switch m) (Hfresh : fresh_stack entry (regs m RSI) (mmem m)) :
  ∃ m', run call context_switch m = Ok ((), m') ∧ rip m' = entry ∧
    regs m' RSP = regs m RSI + 56 ∧ (∀ r, r ∈ switch_regs → regs m' r = 0) ∧
    rflags m' = rflags m ∧
    ∀ handler m0 m1, interruptible m0 → enter_interrupt handler m0 = Ok ((), m1) →
      rflags m = rflags m1 → int_enabled m' = false.
Proof.
  destruct H as [Hwf Hroom Hnew Hst Hsl Hd1 Hd2 Hd3].
  destruct (switch_ok call m (λ _, 0) entry Hwf Hroom Hnew Hst Hsl Hd1 Hd2 Hd3
    (fresh_saved_frame _ _ _ Hfresh)) as (m' & E & Hip & Hfl & _ & _ & Hsp & Hv & _).
  exists m'. split; [exact E|]. split; [exact Hip|]. split; [exact Hsp|]. split; [exact Hv|].
  split; [exact Hfl|]. intros handler m0 m1 Hint E1 Hm. unfold int_enabled. rewrite Hfl, Hm.
  destruct (enter_ok m0 handler Hint) as (m1' & E1' & _ & Hf1 & _).
  rewrite E1 in E1'. injection E1' as <-. rewrite Hf1. apply clear_if_clears.
  destruct Hint as [_ Hctl _ _]. rewrite !Forall_cons_iff in Hctl. tauto.
Qed.

Lemma switch_fresh_witness :
  ∃ m', run no_call context_switch demo_machine = Ok ((), m') ∧ regs m' RSP = 8192 + 56 ∧
    regs m' RBX = 0.
Proof.
  destruct (switch_fresh no_call demo_machine 0 demo_can_switch) as (m' & E & _ & Hsp & Hv & _).
  - split; [intros i Hi; apply demo_load; cbn; lia|apply demo_load; cbn; lia].
  - exists m'. split; [exact E|]. split; [exact Hsp|]. apply Hv. unfold switch_regs.
    apply elem_of_cons. by left.
Defined.

(** C30: the timer and keyboard interrupts are transparent: when the C++
    functions they call respect the calling convention, entering through the
    gate, running the whole stub and [iretq] bring back every general register,
    [rip], [rflags] with the interrupt flag, both selectors and the interrupted
    stack. *)
Theorem irq_transparent (call : fn → M machine unit) (m : machine) (handler hi : Z)
    (Hint : interruptible m) (Hhi : frame_top m ≤ hi)
    (Habi : ∀ f, f ∈ [pit_tick_handler; keyboard_irq_handler; pic_send_eoi; Machine.sched_tick] →
              returns (call f) hi) :
  ∀ stub, stub = irq_stub_0 ∨ stub = irq_stub_1 →
  ∃ m', (enter_interrupt handler ≫= λ _, run call stub) m = Ok ((), m') ∧
    (∀ r, regs m' r = regs m r) ∧ rip m' = rip m ∧ rflags m' = rflags m ∧ cs m' = cs m ∧
    ss m' = ss m ∧ same_bytes (frame_top m) (hi - frame_top m) (mmem m) (mmem m').
Proof.
  intros stub Hstub.
  assert (∃ mid, stub = push_all ++ mid ++ pop_all ++ [Iretq] ∧
            Forall (λ i, quiet call i hi) mid) as (mid & -> & Hmid).
  { destruct Hstub as [-> | ->]; [exists [Call pit_tick_handler; MovRI RDI 0; Call pic_send_eoi;
      Call Machine.sched_tick]|exists [Call keyboard_irq_handler; MovRI RDI 1; Call pic_send_eoi]];
    (split; [reflexivity|]);
    repeat (apply List.Forall_cons; [first [done|apply Habi; rewrite !elem_of_cons; tauto]|]);
    done. }
  destruct (stub_ok call mid handler hi m Hint Hhi) as (m' & E & Hr & (? & ? & ? & ?) & _ & Hs).
  { intros m1 Hsp. destruct (quiet_run call mid hi Hmid _ m1 Hsp) as (m2 & ? & ? & ? & ?).
    by exists m2. }
  exists m'. done.
Qed.

Lemma irq_transparent_witness :
  ∃ m', (enter_interrupt 0x2000 ≫= λ _, run no_call irq_stub_0) demo_machine = Ok ((), m') ∧
    regs m' RBX = 7 ∧ rip m' = 0x1000 ∧ int_enabled m' = true.
Proof.
  destruct (irq_transparent no_call demo_machine 0x2000 8192 demo_interruptible) with (stub := irq_stub_0)
    as (m' & E & Hr & Hip & Hfl & _).
  - vm_compute. discriminate.
  - intros f _ m. exists m. split; [done|]. split; [done|]. split; [done|]. split; [done|].
    split; [apply same_dom_refl|apply same_bytes_refl].
  - by left.
  - exists m'. split; [exact E|]. split; [apply Hr|]. split; [exact Hip|].
    unfold int_enabled. rewrite Hfl. reflexivity.
Defined.

(** When an exception stub calls [isr_handler], its argument points to
    the fields of [InterruptFrame]: the fifteen registers in the order of the
    structure, then the vector, the error code (0 for the vectors without one,
    the word the processor pushed for the others), then the [rip] the processor
    pushed; for each of the 32 vectors. *)
Theorem isr_frame_layout (call : fn → M machine unit) (m : machine) (n err ip : Z)
    (Hn : 0 ≤ n < 32) (Hwf : wf_regs m) (Hroom : 136 ≤ regs m RSP)
    (Hmap : mapped (regs m RSP - 136) 136 (mmem m)) (Hmax : regs m RSP + 16 ≤ 2 ^ 64)
    (Herr : if has_errcode n then load 8 (regs m RSP) (mmem m) = Some err ∧
                                  load 8 (regs m RSP + 8) (mmem m) = Some ip
            else err = 0 ∧ load 8 (regs m RSP) (mmem m) = Some ip) :
  ∃ m' rest, isr_stub n = rest ++ [Call isr_handler] ++ pop_all ++ [AddI RSP 16; Iretq] ∧
    run call rest m = Ok ((), m') ∧
    let frame := regs m' RDI in
    (∀ i r, FRAME_REGS !! i = Some r →
       load 8 (frame + 8 * Z.of_nat i) (mmem m') = Some (regs m r)) ∧
    load 8 (frame + OFF_VECTOR) (mmem m') = Some n ∧
    load 8 (frame + OFF_ERROR) (mmem m') = Some err ∧
    load 8 (frame + OFF_RIP) (mmem m') = Some ip.
Proof.
  pose proof (Hwf RSP) as Hsp.
  assert (∀ vs, isr_stub n = (PushI <$> vs) ++ isr_common_stub →
    isr_stub n = ((PushI <$> vs) ++ push_all ++ [MovRR RDI RSP]) ++
      [Call isr_handler] ++ pop_all ++ [AddI RSP 16; Iretq]) as Hsplit.
  { intros vs ->. rewrite <- !app_assoc. reflexivity. }
  assert (reverse all_regs = FRAME_REGS) as Hregs by reflexivity.
  unfold isr_stub in *. unfold OFF_VECTOR, OFF_ERROR, OFF_RIP.
  destruct (has_errcode n); cbn zeta.
  - destruct Herr as [Herr Hip].
    destruct (isr_pushes call [n] m) as (m' & E & Hsp' & Hdi & Hr & Hv & Hs & _); cbn [length] in *.
    { apply List.Forall_cons; [lia|done]. } { done. } { lia. }
    { eapply mapped_sub; [exact Hmap|lia|lia]. }
    exists m', ((PushI <$> [n]) ++ push_all ++ [MovRR RDI RSP]).
    split; [by apply Hsplit|]. split; [exact E|]. rewrite Hdi, <- Hregs.
    split; [exact Hr|]. split; [rewrite <- (Hv 0%nat n eq_refl); f_equal; lia|].
    assert (∀ a w, regs m RSP ≤ a → a + 8 ≤ 2 ^ 64 → load 8 a (mmem m) = Some w →
              load 8 a (mmem m') = Some w) as Hkeep.
    { intros a w ? ? Hl. rewrite <- Hl. apply load_ext. intros b Hb. apply Hs. lia. }
    split; apply Hkeep; try lia.
    + rewrite <- Herr. f_equal. lia.
    + rewrite <- Hip. f_equal. lia.
  - destruct Herr as [-> Hip].
    destruct (isr_pushes call [0; n] m) as (m' & E & Hsp' & Hdi & Hr & Hv & Hs & _); cbn [length] in *.
    { repeat (apply List.Forall_cons; [lia|]). done. } { done. } { lia. }
    { eapply mapped_sub; [exact Hmap|lia|lia]. }
    exists m', ((PushI <$> [0; n]) ++ push_all ++ [MovRR RDI RSP]).
    split; [by apply Hsplit|]. split; [exact E|]. rewrite Hdi, <- Hregs.
    split; [exact Hr|]. split; [rewrite <- (Hv 0%nat n eq_refl); f_equal; lia|].
    split; [rewrite <- (Hv 1%nat 0 eq_refl); f_equal; lia|].
    rewrite <- Hip. replace (regs m' RSP + 136) with (regs m RSP) by lia.
    apply load_ext. intros b Hb. apply Hs. lia.
Qed.

Lemma isr_frame_layout_witness :
  ∃ m', regs m' RDI = 4096 - 128 ∧ load 8 (regs m' RDI + 120) (mmem m') = Some 14 ∧
    load 8 (regs m' RDI + 104) (mmem m') = Some 7.
Proof.
  destruct (isr_frame_layout no_call demo_machine 14 0 0) as (m' & rest & Hst & E & Hr & Hv & _).
  - lia.
  - exact demo_wf.
  - cbn. lia.
  - apply demo_mapped; cbn; lia.
  - cbn. lia.
  - split; apply demo_load; cbn; lia.
  - destruct (isr_pushes no_call [14] demo_machine) as (m2 & E2 & Hsp2 & Hdi2 & _).
    + apply List.Forall_cons; [lia|done].
    + exact demo_wf.
    + cbn. lia.
    + apply demo_mapped; cbn; lia.
    + assert (rest = (PushI <$> [14]) ++ push_all ++ [MovRR RDI RSP]) as ->.
      { apply (app_inv_tail ([Call isr_handler] ++ pop_all ++ [AddI RSP 16; Iretq])).
        rewrite <- Hst. reflexivity. }
      rewrite E in E2. injection E2 as <-. exists m'. split; [rewrite Hdi2, Hsp2; reflexivity|].
      split; [exact Hv|]. exact (Hr 13%nat RBX eq_refl).
Defined.
