(* ===== verification/Platform.v ===== *)
(** * The devices behind the port instructions

    What the drivers rely on of the hardware, as an interface: [inb] and [outb]
    over any device state, and the interrupt acknowledge cycle of the processor,
    with the documented behaviour of the two 8259A
    interrupt controllers, of channel 0 of the 8254 timer and of the COM1 UART
    as laws on what a port access does to each.  [Pic], [Keyboard] and [Serial]
    are proved against it. *)
From stdpp Require Import base tactics numbers list.
From S2P Require Import Prelude.

Local Open Scope Z_scope.
Local Open Scope nova_scope.

(** ** 8259A interrupt controller

    [p_stage] is 0 in operation and [n] while initialisation word [ICWn] is
    awaited; [p_icw1] is the last [ICW1] (bit 0: an [ICW4] follows, bit 1: single,
    without an [ICW3], bit 3: level triggered), [p_mode] the [ICW4] (bit 0: 8086,
    bit 1: automatic end of interrupt); [p_isr] holds the lines in service. *)
Record pic8259 := Pic8259 {
  p_stage : Z; p_icw1 : Z; p_vector : Z; p_cascade : Z; p_mode : Z; p_imr : Z; p_isr : Z
}.

Definition single (icw1 : Z) : bool := Z.testbit icw1 1.
Definition needs_icw4 (icw1 : Z) : bool := Z.testbit icw1 0.
Definition level_triggered (icw1 : Z) : bool := Z.testbit icw1 3.

(** A write to the command port: [ICW1] (bit 4), which clears the mask, and the mode
    if no [ICW4] follows, or a non-specific end of interrupt (0x20), which takes the
    line of the highest priority out of service. *)
Definition pic_cmd (v : Z) (c : pic8259) : pic8259 :=
  if Z.testbit v 4 then
    Pic8259 2 v (p_vector c) (p_cascade c) (if needs_icw4 v then p_mode c else 0) 0 (p_isr c)
  else if v =? 0x20 then
    Pic8259 (p_stage c) (p_icw1 c) (p_vector c) (p_cascade c) (p_mode c) (p_imr c)
            (p_isr c &&& (p_isr c - 1))
  else c.

(** The word awaited after [ICW3]. *)
Definition after_icw3 (icw1 : Z) : Z := if needs_icw4 icw1 then 4 else 0.

(** A write to the data port: the next initialisation word, or the mask. *)
Definition pic_data (v : Z) (c : pic8259) : pic8259 :=
  match p_stage c with
  | 2 => Pic8259 (if single (p_icw1 c) then after_icw3 (p_icw1 c) else 3) (p_icw1 c) (v &&& 0xF8)
                 (p_cascade c) (p_mode c) (p_imr c) (p_isr c)
  | 3 => Pic8259 (after_icw3 (p_icw1 c)) (p_icw1 c) (p_vector c) v (p_mode c) (p_imr c) (p_isr c)
  | 4 => Pic8259 0 (p_icw1 c) (p_vector c) (p_cascade c) v (p_imr c) (p_isr c)
  | _ => Pic8259 (p_stage c) (p_icw1 c) (p_vector c) (p_cascade c) (p_mode c) v (p_isr c)
  end.

(** Line [i] reaches an 8086 processor: the chip is in operation and in 8086 mode, the
    line is not masked, and neither it nor a line of higher priority is in service. *)
Definition pic_accepts (i : Z) (c : pic8259) : bool :=
  (p_stage c =? 0) && Z.testbit (p_mode c) 0 && negb (Z.testbit (p_imr c) i) &&
  (p_isr c &&& Z.ones (i + 1) =? 0).

(** The acknowledge cycle puts the line in service, unless the interrupt ends by itself. *)
Definition pic_ack (i : Z) (c : pic8259) : pic8259 :=
  Pic8259 (p_stage c) (p_icw1 c) (p_vector c) (p_cascade c) (p_mode c) (p_imr c)
          (if Z.testbit (p_mode c) 1 then p_isr c else p_isr c ||| (1 ≪ i)).

(** ** 8254 timer, channel 0: low byte, then high byte of the reload value *)
Record pit8254 := Pit8254 { t_mode : Z; t_low : option Z; t_reload : Z }.

Definition pit_cmd (v : Z) (t : pit8254) : pit8254 := Pit8254 v None (t_reload t).
Definition pit_data (v : Z) (t : pit8254) : pit8254 :=
  match t_low t with
  | None => Pit8254 (t_mode t) (Some v) (t_reload t)
  | Some lo => Pit8254 (t_mode t) None (lo + 256 * v)
  end.

(** ** 16550 UART: divisor latch bit, characters sent, and how many more times
    the line status register will read busy *)
Record uart := Uart { u_dlab : bool; u_tx : list Z; u_busy : nat }.

Definition uart_data (v : Z) (busy : nat) (u : uart) : uart :=
  if u_dlab u then u else Uart false (u_tx u ++ [v]) busy.
Definition uart_lcr (v : Z) (u : uart) : uart := Uart (Z.testbit v 7) (u_tx u) (u_busy u).
Definition uart_poll (u : uart) : uart := Uart (u_dlab u) (u_tx u) (pred (u_busy u)).

(** ** The interface *)

(** The writes described above: of the commands to an interrupt controller, [ICW1] and
    the non-specific end of interrupt; of those to the timer, the ones that
    set channel 0 for two-byte reload values.  The laws promise nothing of others. *)
Definition described (port v : Z) : bool :=
  if (port =? 0x20) || (port =? 0xA0) then Z.testbit v 4 || (v =? 0x20)
  else if port =? 0x43 then v &&& 0xF0 =? 0x30
  else true.

Class Platform (D : Type) := {
  inb : Z → M D Z;
  outb : Z → Z → M D unit;
  (** the acknowledge cycle for a line of the first controller: the vector *)
  inta : Z → M D Z;
  pic1 : D → pic8259;
  pic2 : D → pic8259;
  pit : D → pit8254;
  com1 : D → uart;
  (** the UART is busy for at most this many polls *)
  com1_bound : nat;
  outb_ok : ∀ port v d, 0 ≤ v < 256 → described port v = true → ∃ d' busy, outb port v d = Ok ((), d') ∧
    (busy ≤ com1_bound)%nat ∧
    pic1 d' = (if port =? 0x20 then pic_cmd v (pic1 d)
               else if port =? 0x21 then pic_data v (pic1 d) else pic1 d) ∧
    pic2 d' = (if port =? 0xA0 then pic_cmd v (pic2 d)
               else if port =? 0xA1 then pic_data v (pic2 d) else pic2 d) ∧
    pit d' = (if port =? 0x43 then pit_cmd v (pit d)
              else if port =? 0x40 then pit_data v (pit d) else pit d) ∧
    com1 d' = (if port =? 0x3F8 then uart_data v busy (com1 d)
               else if port =? 0x3FB then uart_lcr v (com1 d) else com1 d);
  inta_ok : ∀ i d, 0 ≤ i < 8 → i ≠ 2 → pic_accepts i (pic1 d) = true →
    ∃ d', inta i d = Ok (p_vector (pic1 d) + i, d') ∧
    pic1 d' = pic_ack i (pic1 d) ∧ pic2 d' = pic2 d ∧ pit d' = pit d ∧ com1 d' = com1 d;
  inb_ok : ∀ port d, ∃ v d', inb port d = Ok (v, d') ∧ 0 ≤ v < 256 ∧
    pic1 d' = pic1 d ∧ pic2 d' = pic2 d ∧ pit d' = pit d ∧
    com1 d' = (if port =? 0x3FD then uart_poll (com1 d) else com1 d) ∧
    (port = 0x21 → v = p_imr (pic1 d)) ∧ (port = 0xA1 → v = p_imr (pic2 d)) ∧
    (port = 0x3FD → negb (v &&& 0x20 =? 0) = bool_decide (u_busy (com1 d) = 0%nat));
  com1_busy : ∀ d, (u_busy (com1 d) ≤ com1_bound)%nat
}.

(** ** A board: a platform with nothing but these devices, polled busy once *)

Record board := Board { b_pic1 : pic8259; b_pic2 : pic8259; b_pit : pit8254; b_uart : uart }.

(** The registers of a board hold bytes, and the UART is busy at most once. *)
Definition chip (c : pic8259) : pic8259 :=
  Pic8259 (p_stage c) (p_icw1 c) (p_vector c) (p_cascade c) (p_mode c) (u8 (p_imr c)) (p_isr c).
Definition line (u : uart) : uart := Uart (u_dlab u) (u_tx u) (Nat.min 1 (u_busy u)).

Definition board_out (port v : Z) : M board unit := λ d, Ok ((), Board
  (if port =? 0x20 then pic_cmd v (chip (b_pic1 d))
   else if port =? 0x21 then pic_data v (chip (b_pic1 d)) else b_pic1 d)
  (if port =? 0xA0 then pic_cmd v (chip (b_pic2 d))
   else if port =? 0xA1 then pic_data v (chip (b_pic2 d)) else b_pic2 d)
  (if port =? 0x43 then pit_cmd v (b_pit d)
   else if port =? 0x40 then pit_data v (b_pit d) else b_pit d)
  (if port =? 0x3F8 then uart_data v 1 (line (b_uart d))
   else if port =? 0x3FB then uart_lcr v (line (b_uart d)) else b_uart d)).

Definition board_in (port : Z) : M board Z := λ d, Ok (
  (if port =? 0x21 then u8 (p_imr (b_pic1 d))
   else if port =? 0xA1 then u8 (p_imr (b_pic2 d))
   else if port =? 0x3FD then (if bool_decide (u_busy (b_uart d) = 0%nat) then 0x20 else 0)
   else 0x1E),
  if port =? 0x3FD
  then Board (b_pic1 d) (b_pic2 d) (b_pit d) (uart_poll (line (b_uart d)))
  else d).

Definition board_inta (i : Z) : M board Z := λ d,
  Ok (p_vector (b_pic1 d) + i, Board (pic_ack i (chip (b_pic1 d))) (b_pic2 d) (b_pit d) (b_uart d)).

Lemma chip_ack i c : chip (pic_ack i (chip c)) = pic_ack i (chip c).
Proof. unfold pic_ack, chip. cbn. by rewrite (u8_small (u8 _)) by apply u8_range. Qed.
Lemma chip_cmd v c : chip (pic_cmd v (chip c)) = pic_cmd v (chip c).
Proof. unfold pic_cmd, chip. repeat case_match; cbn; rewrite ?(u8_small (u8 _)) by apply u8_range; done. Qed.
Lemma chip_data v c : 0 ≤ v < 256 → chip (pic_data v (chip c)) = pic_data v (chip c).
Proof.
  intros Hv. unfold pic_data, chip; cbn.
  assert (u8 (u8 (p_imr c)) = u8 (p_imr c)) as He by apply u8_small, u8_range.
  destruct (p_stage c) as [|[[[]|[]|]|[[]|[]|]|]|]; cbn; rewrite ?He, ?(u8_small v) by lia; done.
Qed.

#[export, refine] Instance board_platform : Platform board := {|
  inb := board_in; outb := board_out; inta := board_inta;
  pic1 d := chip (b_pic1 d); pic2 d := chip (b_pic2 d); pit := b_pit; com1 d := line (b_uart d);
  com1_bound := 1 |}.
Proof.
  - intros port v d Hv _. eexists _, 1%nat. split; [reflexivity|]. split; [done|].
    cbn [b_pic1 b_pic2 b_pit b_uart].
    split; [|split; [|split; [done|]]].
    + destruct (port =? 0x20); [apply chip_cmd|]. destruct (port =? 0x21); [by apply chip_data|done].
    + destruct (port =? 0xA0); [apply chip_cmd|]. destruct (port =? 0xA1); [by apply chip_data|done].
    + destruct (port =? 0x3F8); [|destruct (port =? 0x3FB); unfold line; cbn; by destruct (u_busy (b_uart d)) as [|[]]].
      unfold uart_data, line. cbn. by destruct (u_dlab (b_uart d)), (u_busy (b_uart d)) as [|[]].
  - intros i d _ _ _. eexists. split; [reflexivity|]. cbn [b_pic1 b_pic2 b_pit b_uart].
    split; [apply chip_ack|done].
  - intros port d. eexists _, _. split; [reflexivity|]. cbn [board_in].
    split; [|split; [|split; [|split; [|split; [|split; [|split]]]]]].
    + pose proof (u8_range (p_imr (b_pic1 d))). pose proof (u8_range (p_imr (b_pic2 d))).
      repeat case_match; lia.
    + by destruct (port =? 0x3FD).
    + by destruct (port =? 0x3FD).
    + by destruct (port =? 0x3FD).
    + destruct (port =? 0x3FD); [|done]. cbn. unfold line, uart_poll. cbn. f_equal.
      destruct (u_busy (b_uart d)) as [|[]]; done.
    + intros ->. done.
    + intros ->. done.
    + intros ->. cbn. unfold line. cbn. destruct (u_busy (b_uart d)); done.
  - intros d. apply Nat.le_min_l.
Defined.
