(* ===== verification/Pic.v ===== *)
(** * Interrupt controllers and timer ([kernel/drivers/pic.cpp], [pit.cpp])

    The 8259A driver (remapping, masks, end of interrupt) and the timer driver,
    over any [Platform]. *)
From stdpp Require Import base tactics numbers list.
From S2P Require Import Prelude Platform.

Local Open Scope Z_scope.
Local Open Scope nova_scope.

(** ** Data *)

Definition PIC1_CMD : Z := 0x20.
Definition PIC1_DATA : Z := 0x21.
Definition PIC2_CMD : Z := 0xA0.
Definition PIC2_DATA : Z := 0xA1.
Definition PIC_ICW1_INIT : Z := 0x10.
Definition PIC_ICW1_ICW4 : Z := 0x01.
Definition PIC_ICW4_8086 : Z := 0x01.
Definition PIC_EOI : Z := 0x20.

Definition PIT_CH0_DATA : Z := 0x40.
Definition PIT_CMD : Z := 0x43.
Definition PIT_MODE : Z := 0x36.
Definition PIT_BASE_FREQ : Z := 1193180.

(** ** Operations *)

Section drivers.
Context {D : Type} `{PL : Platform D}.

Definition io_wait : M D unit := outb 0x80 0.

Definition pic_init (master_offset slave_offset : Z) : M D unit :=
  m1 ← inb PIC1_DATA;
  m2 ← inb PIC2_DATA;
  outb PIC1_CMD (PIC_ICW1_INIT ||| PIC_ICW1_ICW4) ≫= λ _, io_wait ≫= λ _,
  outb PIC2_CMD (PIC_ICW1_INIT ||| PIC_ICW1_ICW4) ≫= λ _, io_wait ≫= λ _,
  outb PIC1_DATA master_offset ≫= λ _, io_wait ≫= λ _,
  outb PIC2_DATA slave_offset ≫= λ _, io_wait ≫= λ _,
  outb PIC1_DATA 0x04 ≫= λ _, io_wait ≫= λ _,
  outb PIC2_DATA 0x02 ≫= λ _, io_wait ≫= λ _,
  outb PIC1_DATA PIC_ICW4_8086 ≫= λ _, io_wait ≫= λ _,
  outb PIC2_DATA PIC_ICW4_8086 ≫= λ _, io_wait ≫= λ _,
  outb PIC1_DATA 0xFF ≫= λ _,
  outb PIC2_DATA 0xFF.

Definition pic_send_eoi (irq : Z) : M D unit :=
  (if 8 <=? irq then outb PIC2_CMD PIC_EOI else mret tt) ≫= λ _,
  outb PIC1_CMD PIC_EOI.

(** [~(1u << bit)] at the width of [unsigned int]. *)
Definition mask_bit (bit : Z) : Z := u32 (Z.lnot (1 ≪ bit)).

Definition pic_enable_irq (irq : Z) : M D unit :=
  let port := if irq <? 8 then PIC1_DATA else PIC2_DATA in
  let bit := irq `mod` 8 in
  v ← inb port;
  outb port (u8 (v &&& mask_bit bit)) ≫= λ _,
  if 8 <=? irq then
    v ← inb PIC1_DATA; outb PIC1_DATA (u8 (v &&& mask_bit 2))
  else mret tt.

Definition pic_disable_irq (irq : Z) : M D unit :=
  let port := if irq <? 8 then PIC1_DATA else PIC2_DATA in
  let bit := irq `mod` 8 in
  v ← inb port;
  outb port (u8 (v ||| (1 ≪ bit))).

Definition pic_disable_all : M D unit :=
  outb PIC1_DATA 0xFF ≫= λ _, outb PIC2_DATA 0xFF.

(** A division by zero faults. *)
Definition pit_init (hz : Z) : M D unit :=
  if hz =? 0 then fault else
  let divisor := PIT_BASE_FREQ / hz in
  outb PIT_CMD PIT_MODE ≫= λ _,
  outb PIT_CH0_DATA (u8 (divisor &&& 0xFF)) ≫= λ _,
  outb PIT_CH0_DATA (u8 (divisor ≫ 8)) ≫= λ _,
  pic_enable_irq 0.
End drivers.

(** The tick counter [s_ticks]. *)
Definition pit_tick_handler : M Z unit := modify (λ n, u64 (n + 1)).
Definition pit_ticks (n : Z) : Z := n.

(** * Lemmas *)

(** Run the port access in front: name the new device state and what the access
    did to each chip. *)
Ltac io_step :=
  lazymatch goal with
  | |- context [mbind _ (inb ?p) ?d] =>
      let v := fresh "v" in let d' := fresh "d" in let E := fresh "E" in
      let Hv := fresh "Hv" in let H1 := fresh "H1" in let H2 := fresh "H2" in
      let Ht := fresh "Ht" in let Hu := fresh "Hu" in let Hm := fresh "Hm" in
      let Hs := fresh "Hs" in
      destruct (inb_ok p d) as (v & d' & E & Hv & H1 & H2 & Ht & Hu & Hm & Hs & _);
      rewrite (bind_ok _ _ _ _ _ E); clear E; cbn [Z.eqb Pos.eqb] in Hu
  | |- context [mbind _ (outb ?p ?v) ?d] =>
      let d' := fresh "d" in let b := fresh "busy" in let E := fresh "E" in
      let H1 := fresh "H1" in let H2 := fresh "H2" in
      let Ht := fresh "Ht" in let Hu := fresh "Hu" in
      destruct (outb_ok p v d ltac:(first [assumption|vm_compute; split; [discriminate|reflexivity]]) eq_refl)
        as (d' & b & E & _ & H1 & H2 & Ht & Hu);
      rewrite (bind_ok _ _ _ _ _ E); clear E; cbn [Z.eqb Pos.eqb] in H1, H2, Ht, Hu
  | |- context [outb ?p ?v ?d] =>
      let d' := fresh "d" in let b := fresh "busy" in let E := fresh "E" in
      let H1 := fresh "H1" in let H2 := fresh "H2" in
      let Ht := fresh "Ht" in let Hu := fresh "Hu" in
      destruct (outb_ok p v d ltac:(first [assumption|vm_compute; split; [discriminate|reflexivity]]) eq_refl)
        as (d' & b & E & _ & H1 & H2 & Ht & Hu);
      rewrite E; clear E; cbn [Z.eqb Pos.eqb] in H1, H2, Ht, Hu
  end.

(** Express every chip of the last device state by those of the first. *)
Ltac io_trace :=
  repeat match goal with
  | H : pic1 ?d = _ |- context [pic1 ?d] => rewrite H; clear H
  | H : pic2 ?d = _ |- context [pic2 ?d] => rewrite H; clear H
  | H : pit ?d = _ |- context [pit ?d] => rewrite H; clear H
  | H : com1 ?d = _ |- context [com1 ?d] => rewrite H; clear H
  end.

Section lemmas.
Context {D : Type} `{PL : Platform D}.

(** Two chips after their initialisation words and the final mask. *)
Lemma pic_init_chips d master slave :
  0 ≤ master < 256 → 0 ≤ slave < 256 →
  ∃ d', pic_init master slave d = Ok ((), d') ∧
    pic1 d' = Pic8259 0 0x11 (master &&& 0xF8) 4 1 0xFF (p_isr (pic1 d)) ∧
    pic2 d' = Pic8259 0 0x11 (slave &&& 0xF8) 2 1 0xFF (p_isr (pic2 d)) ∧
    pit d' = pit d ∧ com1 d' = com1 d.
Proof.
  intros Hm Hs. unfold pic_init, io_wait.
  unfold PIC1_DATA, PIC2_DATA, PIC1_CMD, PIC2_CMD.
  repeat io_step. eexists. split; [reflexivity|].
  split; [io_trace; reflexivity|]. split; [io_trace; reflexivity|].
  split; io_trace; reflexivity.
Qed.

(** ** Masks *)

(** Line [irq] of the sixteen is masked. *)
Definition masked (d : D) (irq : Z) : bool :=
  Z.testbit (p_imr (if irq <? 8 then pic1 d else pic2 d)) (irq `mod` 8).

(** Both chips are in operation. *)
Definition operational (d : D) : Prop := p_stage (pic1 d) = 0 ∧ p_stage (pic2 d) = 0.

Lemma mask_clear v b i :
  0 ≤ v < 256 → 0 ≤ b < 8 → 0 ≤ i < 8 →
  Z.testbit (u8 (v &&& mask_bit b)) i = Z.testbit v i && negb (i =? b).
Proof.
  intros Hv Hb Hi. unfold u8, mask_bit, u32. rewrite Z.mod_pow2_bits_low by lia.
  rewrite Z.land_spec, Z.mod_pow2_bits_low by lia.
  rewrite Z.lnot_spec, Z.shiftl_1_l, Z.pow2_bits_eqb by lia. by rewrite (Z.eqb_sym b i).
Qed.

Lemma mask_set v b i :
  0 ≤ b < 8 → 0 ≤ i < 8 →
  Z.testbit (u8 (v ||| (1 ≪ b))) i = Z.testbit v i || (i =? b).
Proof.
  intros Hb Hi. unfold u8. rewrite Z.mod_pow2_bits_low by lia. apply testbit_set; lia.
Qed.

Lemma pic_data_imr v c : p_stage c = 0 →
  p_imr (pic_data v c) = v ∧ p_stage (pic_data v c) = 0 ∧ p_isr (pic_data v c) = p_isr c.
Proof. intros H. unfold pic_data. by rewrite H. Qed.

(** Rewriting one chip's mask with the value read from it. *)
Lemma mask_write (hi : bool) f d :
  operational d → (∀ v, 0 ≤ v < 256 → 0 ≤ f v < 256) →
  ∃ d', (v ← inb (if hi then PIC2_DATA else PIC1_DATA);
         outb (if hi then PIC2_DATA else PIC1_DATA) (f v)) d = Ok ((), d') ∧ operational d' ∧
    p_imr (pic1 d') = (if hi then p_imr (pic1 d) else f (p_imr (pic1 d))) ∧
    p_imr (pic2 d') = (if hi then f (p_imr (pic2 d)) else p_imr (pic2 d)) ∧
    pit d' = pit d ∧ com1 d' = com1 d ∧ 0 ≤ p_imr (if hi then pic2 d else pic1 d) < 256.
Proof.
  intros [Ho1 Ho2] Hf.
  destruct (inb_ok (if hi then PIC2_DATA else PIC1_DATA) d)
    as (v & d1 & E & Hv & H1 & H2 & Ht & Hu & Hm1 & Hm2 & _).
  destruct (outb_ok (if hi then PIC2_DATA else PIC1_DATA) (f v) d1 (Hf v Hv))
    as (d2 & b & E2 & _ & G1 & G2 & Gt & Gu); [by destruct hi|].
  exists d2. rewrite (bind_ok _ _ _ _ _ E). split; [exact E2|].
  destruct hi; unfold PIC1_DATA, PIC2_DATA in *; cbn [Z.eqb Pos.eqb] in *.
  - specialize (Hm2 eq_refl). subst v. rewrite H1 in G1. rewrite H2 in G2. rewrite Ht in Gt.
    destruct (pic_data_imr (f (p_imr (pic2 d))) _ Ho2) as (Hi & Hst & _).
    split; [split; congruence|]. split; [congruence|]. split; [congruence|]. split; [done|].
    split; [congruence|done].
  - specialize (Hm1 eq_refl). subst v. rewrite H1 in G1. rewrite H2 in G2. rewrite Ht in Gt.
    destruct (pic_data_imr (f (p_imr (pic1 d))) _ Ho1) as (Hi & Hst & _).
    split; [split; congruence|]. split; [congruence|]. split; [congruence|]. split; [done|].
    split; [congruence|done].
Qed.

(** ** Delivery *)

(** The lines 0 and 1 reach the processor, at the vectors 32 and 33. *)
Record delivers (d : D) : Prop := {
  dl_stage : p_stage (pic1 d) = 0;
  dl_vector : p_vector (pic1 d) = 32;
  dl_mode : p_mode (pic1 d) = 1;
  dl_mask : ∀ i, 0 ≤ i < 2 → Z.testbit (p_imr (pic1 d)) i = false;
  dl_isr : p_isr (pic1 d) = 0
}.

Lemma delivers_accepts d i : delivers d → 0 ≤ i < 2 → pic_accepts i (pic1 d) = true.
Proof. intros [Hs _ Hm Hi Hr] Hb. unfold pic_accepts. by rewrite Hs, Hm, Hr, (Hi i Hb). Qed.

Lemma delivers_same d d' : pic1 d' = pic1 d → delivers d → delivers d'.
Proof. intros E []. by split; rewrite E. Qed.

(** An interrupt that is acknowledged and ended leaves no trace. *)
Lemma delivers_ended d d' i : 0 ≤ i < 2 → delivers d →
  pic1 d' = pic_cmd PIC_EOI (pic_ack i (pic1 d)) → delivers d'.
Proof.
  intros Hi [Hs Hv Hm Hk Hr] E. unfold pic_cmd, PIC_EOI, pic_ack in E. rewrite Hm, Hr in E.
  split; rewrite E; try done. assert (i = 0 ∨ i = 1) as [-> | ->] by lia; done.
Qed.

Lemma eoi_ok irq d : ∃ d', pic_send_eoi irq d = Ok ((), d') ∧ pic1 d' = pic_cmd PIC_EOI (pic1 d) ∧
  com1 d' = com1 d.
Proof.
  unfold pic_send_eoi, PIC1_CMD, PIC2_CMD, PIC_EOI. destruct (8 <=? irq).
  - repeat io_step. eexists. split; [reflexivity|]. split; by io_trace.
  - rewrite (bind_ok _ _ _ () d) by done. io_step. eexists. split; [reflexivity|]. split; by io_trace.
Qed.

Lemma irq_cases irq j :
  0 ≤ irq < 16 → 0 ≤ j < 16 → (irq <? 8) = (j <? 8) →
  (j `mod` 8 =? irq `mod` 8) = bool_decide (j = irq).
Proof.
  intros Hi Hj Hs. case_bool_decide as He; [subst; apply Z.eqb_refl|].
  apply Z.eqb_neq. destruct (Z.ltb_spec irq 8), (Z.ltb_spec j 8); try done;
    Z.div_mod_to_equations; lia.
Qed.

Lemma u8_fits v : 0 ≤ u8 v < 256.
Proof. exact (u8_range v). Qed.
End lemmas.

Lemma enable_masks (D : Type) (PL : Platform D) (d : D) (irq : Z) :
  operational d → 0 ≤ irq < 16 →
  ∃ d', pic_enable_irq irq d = Ok ((), d') ∧ operational d' ∧ pit d' = pit d ∧ com1 d' = com1 d ∧
    ∀ j, 0 ≤ j < 16 →
      masked d' j = if decide (j = irq ∨ (8 ≤ irq ∧ j = 2)) then false else masked d j.
Proof.
  intros Ho Hirq.
  pose proof (Z.mod_pos_bound irq 8 ltac:(lia)) as Hb.
  assert (∀ j, 0 ≤ j `mod` 8 < 8) as Hjb by (intros j; apply Z.mod_pos_bound; lia).
  assert ((if irq <? 8 then PIC1_DATA else PIC2_DATA) =
          (if 8 <=? irq then PIC2_DATA else PIC1_DATA)) as Hport.
  { destruct (Z.ltb_spec irq 8), (Z.leb_spec 8 irq); done || lia. }
  destruct (mask_write (8 <=? irq) (λ v, u8 (v &&& mask_bit (irq `mod` 8))) d Ho)
    as (d1 & E1 & Ho1 & H1 & H2 & Ht1 & Hu1 & Hr).
  { intros v _. apply u8_fits. }
  apply bind_inv in E1 as (v & dr & Ei & Eo).
  assert (∀ k : unit → M D unit, (v ← inb (if 8 <=? irq then PIC2_DATA else PIC1_DATA);
    outb (if 8 <=? irq then PIC2_DATA else PIC1_DATA) (u8 (v &&& mask_bit (irq `mod` 8)))
    ≫= k) d = k tt d1) as Hrun.
  { intros k. rewrite (bind_ok _ _ _ _ _ Ei). by rewrite (bind_ok _ _ _ _ _ Eo). }
  unfold pic_enable_irq. rewrite Hport. cbv zeta. rewrite Hrun.
  destruct (Z.leb_spec 8 irq) as [Hslave|Hmaster].
  + destruct (mask_write false (λ v, u8 (v &&& mask_bit 2)) d1 Ho1)
      as (d2 & E2 & Ho2 & G1 & G2 & Ht2 & Hu2 & Hr2).
    { intros v' _. apply u8_fits. }
    exists d2. split; [exact E2|]. split; [exact Ho2|]. split; [congruence|]. split; [congruence|].
    intros j Hj. unfold masked. pose proof (irq_cases irq j Hirq Hj) as Hc.
    destruct (Z.ltb_spec irq 8); [lia|]. destruct (Z.ltb_spec j 8) as [Hjl|Hjh].
    * rewrite G1, mask_clear, H1 by (lia || apply Hjb || exact Hr2).
      rewrite (Z.mod_small j) by lia. destruct (decide (j = irq ∨ (8 ≤ irq ∧ j = 2))) as [Hd|Hd].
      -- destruct Hd as [->|[_ ->]]; [lia|]. apply andb_false_r.
      -- destruct (Z.eqb_spec j 2); [destruct Hd; lia|]. apply andb_true_r.
    * rewrite G2, H2, mask_clear, (Hc eq_refl) by (lia || apply Hjb || exact Hr).
      destruct (decide (j = irq ∨ (8 ≤ irq ∧ j = 2))) as [Hd|Hd];
        destruct (bool_decide_reflect (j = irq)); try (exfalso; lia);
        [apply andb_false_r|apply andb_true_r].
  + exists d1. split; [done|]. split; [exact Ho1|]. split; [exact Ht1|]. split; [exact Hu1|].
    intros j Hj. unfold masked. pose proof (irq_cases irq j Hirq Hj) as Hc.
    destruct (Z.ltb_spec irq 8); [|lia]. destruct (Z.ltb_spec j 8) as [Hjl|Hjh].
    * rewrite H1, mask_clear, (Hc eq_refl) by (lia || apply Hjb || exact Hr).
      destruct (decide (j = irq ∨ (8 ≤ irq ∧ j = 2))) as [Hd|Hd];
        destruct (bool_decide_reflect (j = irq)); try (exfalso; lia);
        [apply andb_false_r|apply andb_true_r].
    * rewrite H2. rewrite decide_False by lia. done.
Qed.

Lemma disable_masks (D : Type) (PL : Platform D) (d : D) (irq : Z) :
  operational d → 0 ≤ irq < 16 →
  ∃ d', pic_disable_irq irq d = Ok ((), d') ∧ operational d' ∧ pit d' = pit d ∧ com1 d' = com1 d ∧
    ∀ j, 0 ≤ j < 16 → masked d' j = if decide (j = irq) then true else masked d j.
Proof.
  intros Ho Hirq.
  pose proof (Z.mod_pos_bound irq 8 ltac:(lia)) as Hb.
  assert (∀ j, 0 ≤ j `mod` 8 < 8) as Hjb by (intros j; apply Z.mod_pos_bound; lia).
  assert ((if irq <? 8 then PIC1_DATA else PIC2_DATA) =
          (if 8 <=? irq then PIC2_DATA else PIC1_DATA)) as Hport.
  { destruct (Z.ltb_spec irq 8), (Z.leb_spec 8 irq); done || lia. }
  destruct (mask_write (8 <=? irq) (λ v, u8 (v ||| (1 ≪ (irq `mod` 8)))) d Ho)
    as (d1 & E1 & Ho1 & H1 & H2 & Ht1 & Hu1 & Hr).
  { intros v _. apply u8_fits. }
  exists d1. unfold pic_disable_irq. rewrite Hport. split; [exact E1|].
  split; [exact Ho1|]. split; [exact Ht1|]. split; [exact Hu1|].
  intros j Hj. unfold masked. pose proof (irq_cases irq j Hirq Hj) as Hc.
  destruct (Z.leb_spec 8 irq), (Z.ltb_spec irq 8), (Z.ltb_spec j 8); try lia.
  + rewrite H1. by rewrite decide_False by lia.
  + rewrite H2, mask_set, (Hc eq_refl) by (lia || apply Hjb).
    destruct (decide (j = irq)); destruct (bool_decide_reflect (j = irq)); try done; [apply orb_true_r|apply orb_false_r].
  + rewrite H1, mask_set, (Hc eq_refl) by (lia || apply Hjb).
    destruct (decide (j = irq)); destruct (bool_decide_reflect (j = irq)); try done; [apply orb_true_r|apply orb_false_r].
  + rewrite H2. by rewrite decide_False by lia.
Qed.

(** *** What masking leaves alone *)

Definition setup (c : pic8259) : Z * Z * Z * Z := (p_icw1 c, p_vector c, p_mode c, p_isr c).

Section setup.
Context {D : Type} `{PL : Platform D}.
Implicit Types d : D.

Lemma data_out_setup port v d d' : operational d → 0 ≤ v < 256 → port = PIC1_DATA ∨ port = PIC2_DATA →
  outb port v d = Ok ((), d') → operational d' ∧ setup (pic1 d') = setup (pic1 d).
Proof.
  intros [Ho1 Ho2] Hv Hp E. destruct (outb_ok port v d Hv) as (d2 & b & E2 & _ & H1 & H2 & _).
  { by destruct Hp as [-> | ->]. }
  rewrite E in E2. injection E2 as <-. unfold operational.
  destruct Hp as [-> | ->]; cbn [PIC1_DATA PIC2_DATA Z.eqb Pos.eqb] in H1, H2; rewrite H1, H2;
    unfold pic_data; rewrite ?Ho1, ?Ho2; done.
Qed.

Lemma in_setup port v d d' : inb port d = Ok (v, d') → pic1 d' = pic1 d ∧ pic2 d' = pic2 d.
Proof.
  intros E. destruct (inb_ok port d) as (v2 & d2 & E2 & _ & H1 & H2 & _).
  rewrite E in E2. by injection E2 as _ <-.
Qed.

Lemma enable_setup irq d d' : operational d → pic_enable_irq irq d = Ok ((), d') →
  setup (pic1 d') = setup (pic1 d).
Proof.
  intros Ho (v & d1 & [H1 H2]%in_setup & E)%bind_inv. apply bind_inv in E as ([] & d2 & E2 & E).
  assert (operational d1) as Ho1 by (unfold operational; by rewrite H1, H2).
  apply data_out_setup in E2 as [Ho2 Hs2]; [|done|apply u8_range|destruct (irq <? 8); auto].
  rewrite <- H1, <- Hs2. destruct (8 <=? irq); [|by injection E as <-].
  apply bind_inv in E as (w & d3 & [H3 H4]%in_setup & E).
  apply data_out_setup in E as [_ Hs]; [by rewrite Hs, H3| |apply u8_range|by left].
  unfold operational. by rewrite H3, H4.
Qed.

Lemma pit_init_setup hz d d' : operational d → pit_init hz d = Ok ((), d') →
  setup (pic1 d') = setup (pic1 d).
Proof.
  intros Ho. unfold pit_init, PIT_CMD, PIT_CH0_DATA, PIT_MODE. destruct (hz =? 0); [done|].
  assert (0 ≤ u8 ((PIT_BASE_FREQ / hz) &&& 0xFF) < 256) by apply u8_range.
  assert (0 ≤ u8 ((PIT_BASE_FREQ / hz) ≫ 8) < 256) by apply u8_range.
  io_step. io_step. io_step. intros E. apply enable_setup in E; [rewrite E; by io_trace|].
  unfold operational in *. split; io_trace; apply Ho.
Qed.
End setup.

(** The reload value [pit_init] programs. *)
Lemma pit_init_run {D : Type} {PL : Platform D} (d : D) (hz : Z) :
  operational d → 0 < hz < 2 ^ 32 →
  ∃ d', pit_init hz d = Ok ((), d') ∧ t_mode (pit d') = PIT_MODE ∧
    t_reload (pit d') = (PIT_BASE_FREQ / hz) `mod` 2 ^ 16 ∧ masked d' 0 = false ∧
    operational d' ∧ com1 d' = com1 d ∧ ∀ j, 1 ≤ j < 16 → masked d' j = masked d j.
Proof.
  intros Ho Hhz. unfold pit_init, PIT_CMD, PIT_CH0_DATA, PIT_MODE.
  destruct (Z.eqb_spec hz 0); [lia|].
  remember (PIT_BASE_FREQ / hz) as dv eqn:Hdv.
  assert (0 ≤ dv < 2 ^ 32) as Hdvr.
  { subst dv. unfold PIT_BASE_FREQ. split; [apply Z.div_pos; lia|].
    apply Z.div_lt_upper_bound; lia. }
  assert (0 ≤ u8 (dv &&& 0xFF) < 256) as Hlo by apply u8_range.
  assert (0 ≤ u8 (dv ≫ 8) < 256) as Hhi by apply u8_range.
  io_step. io_step. io_step.
  assert (operational d2) as Ho2.
  { unfold operational in *. split; io_trace; apply Ho. }
  destruct (enable_masks D PL d2 0 Ho2) as (d3 & E3 & Ho3 & Ht3 & Hu3 & Hm3); [lia|].
  exists d3. split; [exact E3|]. rewrite Ht3, Hu3.
  split; [by io_trace|]. split; [|split; [rewrite Hm3 by lia; by rewrite decide_True by lia|]].
  2:{ split; [done|]. split; [by io_trace|]. intros j Hj. rewrite Hm3, decide_False by lia.
      unfold masked. destruct (j <? 8); by io_trace. }
  io_trace. cbn. change 0xFF with (Z.ones 8).
  rewrite Z.land_ones, Z.shiftr_div_pow2 by lia. unfold u8.
  change (2 ^ 8) with 256. change (2 ^ 16) with 65536. Z.div_mod_to_equations. lia.
Qed.

(** * Properties *)

(** C40: [pic_init] takes both controllers, whatever state they are in, through
    the complete initialisation sequence: they end up operational, edge triggered, in 8086
    mode without automatic end of interrupt, cascaded on line 2, delivering their lines at the given vector bases,
    with all sixteen lines masked; what was in service stays so. *)
Theorem pic_init_remaps (D : Type) (PL : Platform D) (d : D) (master slave : Z)
    (Hm : 0 ≤ master < 256) (Hm8 : master `mod` 8 = 0)
    (Hs : 0 ≤ slave < 256) (Hs8 : slave `mod` 8 = 0) :
  ∃ d', pic_init master slave d = Ok ((), d') ∧ operational d' ∧
    p_vector (pic1 d') = master ∧ p_vector (pic2 d') = slave ∧
    p_cascade (pic1 d') = 4 ∧ p_cascade (pic2 d') = 2 ∧
    Forall (λ c, single (p_icw1 c) = false ∧ level_triggered (p_icw1 c) = false ∧ p_mode c = 1)
      [pic1 d'; pic2 d'] ∧
    p_isr (pic1 d') = p_isr (pic1 d) ∧ p_isr (pic2 d') = p_isr (pic2 d) ∧
    (∀ irq, 0 ≤ irq < 16 → masked d' irq = true) ∧ pit d' = pit d.
Proof.
  destruct (pic_init_chips d master slave Hm Hs) as (d' & E & H1 & H2 & Ht & _).
  exists d'. split; [exact E|]. unfold operational, masked. rewrite H1, H2. cbn.
  assert (∀ v, 0 ≤ v < 256 → v `mod` 8 = 0 → v &&& 0xF8 = v) as Hand.
  { intros v Hv Hv8. apply bits_eq. intros i Hi. rewrite Z.land_spec.
    destruct (decide (i < 3)).
    - assert (Z.testbit v i = false) as ->; [|done].
      rewrite <- (Z.mod_pow2_bits_low v 3 i) by lia. change (2 ^ 3) with 8.
      by rewrite Hv8, Z.testbit_0_l.
    - destruct (decide (i < 8)).
      + assert (i = 3 ∨ i = 4 ∨ i = 5 ∨ i = 6 ∨ i = 7) as [->|[->|[->|[->| ->]]]] by lia;
          apply andb_true_r.
      + by rewrite (testbit_above 8 v) by lia. }
  rewrite !Hand by done.
  split; [done|]. do 4 (split; [done|]). split; [repeat constructor|].
  do 2 (split; [done|]). split; [|exact Ht].
  intros irq Hirq. assert (0 ≤ irq `mod` 8 < 8) as Hb by (apply Z.mod_pos_bound; lia).
  assert (Z.testbit 0xFF (irq `mod` 8) = true) as Hbit.
  { change 0xFF with (Z.ones 8). apply Z.ones_spec_low. lia. }
  destruct (irq <? 8); exact Hbit.
Qed.

Definition demo_board : board :=
  Board (Pic8259 0 0 0 0 0 0 0) (Pic8259 0 0 0 0 0 0 0) (Pit8254 0 None 0) (Uart false [] 0).

Lemma pic_init_remaps_witness :
  ∃ d', pic_init 32 40 demo_board = Ok ((), d') ∧ p_vector (pic1 d') = 32 ∧ masked d' 0 = true.
Proof.
  destruct (pic_init_remaps board board_platform demo_board 32 40)
    as (d' & E & _ & Hv & _ & _ & _ & _ & _ & _ & Hm & _); [lia|done|lia|done|].
  exists d'. split; [exact E|]. split; [exact Hv|]. apply Hm. lia.
Defined.

(** On operational controllers [pic_enable_irq] unmasks the given line, and
    line 2 as well when the line is on the slave, and [pic_disable_irq] masks
    it; no other of the sixteen lines and no other device changes. *)
Theorem pic_irq_masks (D : Type) (PL : Platform D) (d : D) (irq : Z)
    (Ho : operational d) (Hirq : 0 ≤ irq < 16) :
  (∃ d', pic_enable_irq irq d = Ok ((), d') ∧ operational d' ∧ pit d' = pit d ∧ com1 d' = com1 d ∧
     ∀ j, 0 ≤ j < 16 →
       masked d' j = if decide (j = irq ∨ (8 ≤ irq ∧ j = 2)) then false else masked d j) ∧
  (∃ d', pic_disable_irq irq d = Ok ((), d') ∧ operational d' ∧ pit d' = pit d ∧ com1 d' = com1 d ∧
     ∀ j, 0 ≤ j < 16 → masked d' j = if decide (j = irq) then true else masked d j).
Proof. split; [by apply enable_masks|by apply disable_masks]. Qed.

Lemma pic_irq_masks_witness :
  ∃ d d', pic_init 32 40 demo_board = Ok ((), d) ∧ pic_enable_irq 12 d = Ok ((), d') ∧
    masked d' 12 = false ∧ masked d' 2 = false ∧ masked d' 0 = true.
Proof.
  destruct (pic_init_chips demo_board 32 40) as (d & E & H1 & H2 & _); [lia|lia|].
  assert (operational d) as Ho by (unfold operational; by rewrite H1, H2).
  destruct (pic_irq_masks board board_platform d 12 Ho) as [(d' & E' & _ & _ & _ & Hm) _]; [lia|].
  exists d, d'. split; [exact E|]. split; [exact E'|].
  split; [|split]; rewrite Hm by lia.
  - rewrite decide_True by tauto. done.
  - rewrite decide_True by lia. done.
  - rewrite decide_False by lia. unfold masked. by rewrite H1.
Defined.

(** [pic_send_eoi] ends the highest-priority interrupt in service on the
    master, and on the slave too exactly when the line is one of the slave's;
    it changes no mask. *)
Theorem pic_eoi (D : Type) (PL : Platform D) (d : D) (irq : Z) :
  ∃ d', pic_send_eoi irq d = Ok ((), d') ∧
    p_isr (pic1 d') = p_isr (pic1 d) &&& (p_isr (pic1 d) - 1) ∧
    p_isr (pic2 d') = (if 8 <=? irq then p_isr (pic2 d) &&& (p_isr (pic2 d) - 1)
                       else p_isr (pic2 d)) ∧
    (∀ j, masked d' j = masked d j) ∧ pit d' = pit d.
Proof.
  unfold pic_send_eoi, PIC1_CMD, PIC2_CMD, PIC_EOI, masked. destruct (8 <=? irq).
  - repeat io_step. eexists. split; [reflexivity|]. split; [by io_trace|]. split; [by io_trace|].
    split; [|by io_trace]. intros j. destruct (j <? 8); by io_trace.
  - rewrite (bind_ok _ _ _ () d) by done. io_step. eexists. split; [reflexivity|].
    split; [by io_trace|]. split; [by io_trace|]. split; [|by io_trace].
    intros j. destruct (j <? 8); by io_trace.
Qed.

(** For every frequency from 19 Hz up, [pit_init] leaves channel 0 in
    square-wave mode with the reload value whose rate is the requested one
    rounded up to a whole divisor, and unmasks IRQ 0. *)
Theorem pit_init_rate (D : Type) (PL : Platform D) (d : D) (hz : Z)
    (Ho : operational d) (Hhz : 19 ≤ hz < 2 ^ 32) :
  ∃ d', pit_init hz d = Ok ((), d') ∧ t_mode (pit d') = 0x36 ∧ masked d' 0 = false ∧
    hz * t_reload (pit d') ≤ 1193180 < hz * (t_reload (pit d') + 1).
Proof.
  destruct (pit_init_run d hz Ho) as (d' & E & Hm & Hr & Hk & _); [lia|].
  exists d'. split; [exact E|]. split; [exact Hm|]. split; [exact Hk|].
  assert (0 ≤ PIT_BASE_FREQ / hz < 2 ^ 16) as Hb.
  { unfold PIT_BASE_FREQ. split; [apply Z.div_pos; lia|]. apply Z.div_lt_upper_bound; lia. }
  rewrite Hr, Z.mod_small by exact Hb. unfold PIT_BASE_FREQ. split.
  - apply Z.mul_div_le. lia.
  - pose proof (Z.mul_succ_div_gt 1193180 hz). lia.
Qed.

Lemma pit_init_rate_witness :
  ∃ d d', pic_init 32 40 demo_board = Ok ((), d) ∧ pit_init 100 d = Ok ((), d') ∧
    t_reload (pit d') = 11931.
Proof.
  destruct (pic_init_chips demo_board 32 40) as (d & E & H1 & H2 & _); [lia|lia|].
  assert (operational d) as Ho by (unfold operational; by rewrite H1, H2).
  destruct (pit_init_rate board board_platform d 100 Ho) as (d' & E' & _ & _ & Hr); [lia|].
  exists d, d'. split; [exact E|]. split; [exact E'|]. lia.
Defined.

(** Below 19 Hz the divisor does not fit the timer's sixteen bits and
    [pit_init] drops its high bits: the reload value it programs is smaller
    than the divisor by a multiple of 65536, so the timer runs too fast; and a
    frequency of 0 divides by zero. *)
Theorem pit_init_slow (D : Type) (PL : Platform D) (d : D) (hz : Z)
    (Ho : operational d) (Hhz : 0 ≤ hz ≤ 18) :
  if decide (hz = 0) then pit_init hz d = Fault
  else ∃ d' k, pit_init hz d = Ok ((), d') ∧ 1 ≤ k ∧
         t_reload (pit d') + 65536 * k = PIT_BASE_FREQ / hz.
Proof.
  destruct (decide (hz = 0)) as [->|Hne]; [done|].
  destruct (pit_init_run d hz Ho) as (d' & E & _ & Hr & _); [lia|].
  exists d', (PIT_BASE_FREQ / hz / 65536). split; [exact E|]. rewrite Hr.
  assert (65536 ≤ PIT_BASE_FREQ / hz) as Hb.
  { unfold PIT_BASE_FREQ. apply Z.div_le_lower_bound; lia. }
  split; [apply Z.div_le_lower_bound; lia|].
  change (2 ^ 16) with 65536. pose proof (Z.div_mod (PIT_BASE_FREQ / hz) 65536). lia.
Qed.

Lemma pit_init_slow_witness :
  ∃ d d', pic_init 32 40 demo_board = Ok ((), d) ∧ pit_init 10 d = Ok ((), d') ∧
    t_reload (pit d') < 119318.
Proof.
  destruct (pic_init_chips demo_board 32 40) as (d & E & H1 & H2 & _); [lia|lia|].
  assert (operational d) as Ho by (unfold operational; by rewrite H1, H2).
  pose proof (pit_init_slow board board_platform d 10 Ho ltac:(lia)) as H.
  rewrite decide_False in H by lia. destruct H as (d' & k & E' & Hk & Hr).
  change (PIT_BASE_FREQ / 10) with 119318 in Hr.
  exists d, d'. split; [exact E|]. split; [exact E'|]. lia.
Defined.
