(* ===== verification/Keyboard.v ===== *)
(** * PS/2 keyboard driver ([kernel/drivers/keyboard.cpp])

    Scancode decoding and the ring buffer between the interrupt handler and the
    readers, with the queue the buffer implements. *)
From stdpp Require Import base tactics numbers list.
From S2P Require Import Prelude Platform Pic.

Local Open Scope Z_scope.
Local Open Scope nova_scope.

(** ** Data *)

Definition PS2_DATA : Z := 0x60.
Definition KB_BUFSIZE : Z := 256.

Record kbd := Kbd {
  kb_buf : list Z; kb_head : Z; kb_tail : Z; shift_held : bool; caps_locked : bool
}.
Definition kbd_boot : kbd := Kbd (replicate 256 0) 0 0 false false.

Definition set_buf (b : list Z) (k : kbd) : kbd :=
  Kbd b (kb_head k) (kb_tail k) (shift_held k) (caps_locked k).
Definition set_head (h : Z) (k : kbd) : kbd :=
  Kbd (kb_buf k) h (kb_tail k) (shift_held k) (caps_locked k).
Definition set_tail (t : Z) (k : kbd) : kbd :=
  Kbd (kb_buf k) (kb_head k) t (shift_held k) (caps_locked k).
Definition set_shift (b : bool) (k : kbd) : kbd :=
  Kbd (kb_buf k) (kb_head k) (kb_tail k) b (caps_locked k).
Definition set_caps (b : bool) (k : kbd) : kbd :=
  Kbd (kb_buf k) (kb_head k) (kb_tail k) (shift_held k) b.

(** Scancode set 1 to ASCII, without and with Shift. *)
Definition sc_to_ascii : list Z := [
  0; 0; 49; 50; 51; 52; 53; 54; 55; 56; 57; 48; 45; 61; 8;
  9; 113; 119; 101; 114; 116; 121; 117; 105; 111; 112; 91; 93; 10;
  0; 97; 115; 100; 102; 103; 104; 106; 107; 108; 59; 39; 96;
  0; 92; 122; 120; 99; 118; 98; 110; 109; 44; 46; 47; 0;
  42; 0; 32; 0; 0; 0; 0; 0; 0; 0; 0; 0; 0; 0; 0; 0;
  55; 56; 57; 45; 52; 53; 54; 43; 49; 50; 51; 48; 46;
  0; 0; 0; 0; 0; 0; 0; 0; 0; 0; 0; 0; 0; 0;
  0; 0; 0; 0; 0; 0; 0; 0; 0; 0; 0; 0; 0; 0;
  0; 0; 0; 0; 0; 0; 0; 0; 0; 0; 0; 0; 0; 0; 0; 0].

Definition sc_to_ascii_shift : list Z := [
  0; 0; 33; 64; 35; 36; 37; 94; 38; 42; 40; 41; 95; 43; 8;
  9; 81; 87; 69; 82; 84; 89; 85; 73; 79; 80; 123; 125; 10;
  0; 65; 83; 68; 70; 71; 72; 74; 75; 76; 58; 34; 126;
  0; 124; 90; 88; 67; 86; 66; 78; 77; 60; 62; 63; 0;
  42; 0; 32; 0; 0; 0; 0; 0; 0; 0; 0; 0; 0; 0; 0; 0;
  55; 56; 57; 45; 52; 53; 54; 43; 49; 50; 51; 48; 46;
  0; 0; 0; 0; 0; 0; 0; 0; 0; 0; 0; 0; 0; 0;
  0; 0; 0; 0; 0; 0; 0; 0; 0; 0; 0; 0; 0; 0;
  0; 0; 0; 0; 0; 0; 0; 0; 0; 0; 0; 0; 0; 0; 0; 0].

(** ** Operations *)

(** [table[sc]]. *)
Definition table (t : list Z) (sc : Z) : M kbd Z := of_option (t !! Z.to_nat sc).

(** Append to the ring buffer; drop when it is full. *)
Definition put_char (c : Z) : M kbd unit :=
  k ← get;
  let next := u64 (kb_head k + 1) `mod` KB_BUFSIZE in
  if next =? kb_tail k then mret tt else
  zoom kb_buf set_buf (arr_put (kb_head k) c) ≫= λ _,
  modify (set_head next).

(** The interrupt handler once the scancode has been read. *)
Definition kb_scan (sc : Z) : M kbd unit :=
  if negb ((sc &&& 0x80) =? 0) then
    let base := sc &&& 0x7F in
    if (base =? 0x2A) || (base =? 0x36) then modify (set_shift false) else mret tt
  else if (sc =? 0x2A) || (sc =? 0x36) then modify (set_shift true)
  else if sc =? 0x3A then modify (λ k, set_caps (negb (caps_locked k)) k)
  else if sc =? 0x1D then mret tt
  else if sc =? 0x38 then mret tt
  else
    k ← get;
    c ← (if sc <? 128 then
           a ← table sc_to_ascii sc;
           let upper := xorb (shift_held k) (caps_locked k) && ((97 <=? a) && (a <=? 122)) in
           if shift_held k then table sc_to_ascii_shift sc
           else if upper then mret (a - 32) else mret a
         else mret 0);
    if c =? 0 then mret tt else put_char c.

Section irq.
Context {D : Type} `{PL : Platform D}.

Definition keyboard_irq_handler : M (D * kbd) unit :=
  sc ← zoom fst (λ d t, (d, snd t)) (inb PS2_DATA);
  zoom snd (λ k t, (fst t, k)) (kb_scan sc).

Definition keyboard_init : M D unit := pic_enable_irq 1.
End irq.

Definition keyboard_has_char (k : kbd) : bool := negb (kb_head k =? kb_tail k).

(** [kb_buf[kb_tail]], and the step of [kb_tail]. *)
Definition read_key : M kbd Z :=
  k ← get;
  zoom kb_buf set_buf (arr_get (kb_tail k)).
Definition advance_tail : M kbd unit :=
  modify (λ k, set_tail (u64 (kb_tail k + 1) `mod` KB_BUFSIZE) k).

(** The wait for a character: each [hlt] ends with the next keyboard interrupt,
    whose scancodes are [wakes]; with no more of them the reader waits forever.
    The result is the character and the scancodes not consumed. *)
Fixpoint keyboard_getchar (wakes : list Z) : M kbd (Z * list Z) :=
  k ← get;
  if keyboard_has_char k then
    c ← read_key;
    advance_tail ≫= λ _,
    mret (c, wakes)
  else
    match wakes with
    | [] => nofuel
    | sc :: wakes => kb_scan sc ≫= λ _, keyboard_getchar wakes
    end.

Definition keyboard_peekchar : M kbd Z :=
  k ← get;
  if negb (keyboard_has_char k) then mret 0 else read_key.

(** The body of [keyboard_getchar] once there is a character, with keyboard
    interrupts between its accesses to the buffer: the scancodes [before] the
    read, and those between the read and the step of [kb_tail]. *)
Definition getchar_interleaved (before after : list Z) : M kbd Z :=
  for_each before kb_scan ≫= λ _,
  c ← read_key;
  for_each after kb_scan ≫= λ _,
  advance_tail ≫= λ _,
  mret c.

(** ** Specification: a bounded queue of decoded keys *)

(** The character a key press gives, 0 for none. *)
Definition decode (shift caps : bool) (sc : Z) : Z :=
  if (sc <? 0) || (128 <=? sc) then 0
  else if (sc =? 0x2A) || (sc =? 0x36) || (sc =? 0x3A) || (sc =? 0x1D) || (sc =? 0x38) then 0
  else
    let a := default 0 (sc_to_ascii !! Z.to_nat sc) in
    if shift then default 0 (sc_to_ascii_shift !! Z.to_nat sc)
    else if caps && ((97 <=? a) && (a <=? 122)) then a - 32 else a.

(** The modifier keys' effect. *)
Definition next_shift (shift : bool) (sc : Z) : bool :=
  if (sc =? 0x2A) || (sc =? 0x36) then true
  else if (sc =? 0xAA) || (sc =? 0xB6) then false else shift.
Definition next_caps (caps : bool) (sc : Z) : bool := xorb caps (sc =? 0x3A).

(** The text a sequence of scancodes types. *)
Fixpoint typed (shift caps : bool) (scs : list Z) : list Z :=
  match scs with
  | [] => []
  | sc :: scs =>
      (if decode shift caps sc =? 0 then [] else [decode shift caps sc]) ++
      typed (next_shift shift sc) (next_caps caps sc) scs
  end.

(** [k] holds the queue [q]. *)
Record kb_rep (k : kbd) (q : list Z) : Prop := {
  kr_len : length (kb_buf k) = 256%nat;
  kr_tail : 0 ≤ kb_tail k < KB_BUFSIZE;
  kr_head : kb_head k = (kb_tail k + Z.of_nat (length q)) `mod` KB_BUFSIZE;
  kr_cap : Z.of_nat (length q) < KB_BUFSIZE;
  kr_data : ∀ i c, q !! i = Some c →
    kb_buf k !! Z.to_nat ((kb_tail k + Z.of_nat i) `mod` KB_BUFSIZE) = Some c
}.

(** * Lemmas *)

Lemma kbd_boot_rep : kb_rep kbd_boot [].
Proof. split; cbn; unfold KB_BUFSIZE; try lia; done. Qed.

Lemma ring_ne t i j :
  0 ≤ i < KB_BUFSIZE → 0 ≤ j < KB_BUFSIZE → i ≠ j →
  (t + i) `mod` KB_BUFSIZE ≠ (t + j) `mod` KB_BUFSIZE.
Proof. unfold KB_BUFSIZE. intros. Z.div_mod_to_equations. lia. Qed.

Lemma ring_range x : 0 ≤ x `mod` KB_BUFSIZE < KB_BUFSIZE.
Proof. apply Z.mod_pos_bound. done. Qed.

Lemma rep_head_range k q : kb_rep k q → 0 ≤ kb_head k < KB_BUFSIZE.
Proof. intros H. rewrite (kr_head _ _ H). apply ring_range. Qed.

(** Appending a character. *)
Lemma put_char_ok k q c :
  kb_rep k q →
  ∃ k', put_char c k = Ok ((), k') ∧
    kb_rep k' (if decide (Z.of_nat (length q) < 255) then q ++ [c] else q) ∧
    shift_held k' = shift_held k ∧ caps_locked k' = caps_locked k.
Proof.
  intros H. pose proof (rep_head_range _ _ H) as Hh. destruct H as [Hl Ht Hhd Hcap Hd].
  unfold put_char. rewrite (bind_ok _ _ _ k k) by done.
  rewrite (u64_small (kb_head k + 1)) by (unfold KB_BUFSIZE in *; lia).
  rewrite Hhd, Z.add_mod_idemp_l by done.
  assert ((kb_tail k + Z.of_nat (length q) + 1) `mod` KB_BUFSIZE = kb_tail k ↔
          Z.of_nat (length q) = 255) as Hfull.
  { unfold KB_BUFSIZE in *. Z.div_mod_to_equations. lia. }
  destruct (Z.eqb_spec ((kb_tail k + Z.of_nat (length q) + 1) `mod` KB_BUFSIZE) (kb_tail k))
    as [He|Hne].
  { exists k. split; [done|]. rewrite decide_False by (apply Hfull in He; lia).
    split; [by split|done]. }
  rewrite decide_True by (unfold KB_BUFSIZE in *; lia).
  rewrite <- Hhd. set (b := <[Z.to_nat (kb_head k) := c]> (kb_buf k)).
  rewrite (bind_ok _ _ _ () (set_buf b k)).
  2:{ unfold zoom. rewrite arr_put_ok by (unfold KB_BUFSIZE in *; lia). done. }
  eexists. split; [reflexivity|]. split; [|done]. split; cbn [kb_buf kb_tail kb_head set_head set_buf].
  - unfold b. by rewrite length_insert.
  - done.
  - rewrite length_app. cbn [length]. f_equal. lia.
  - rewrite length_app. cbn [length]. unfold KB_BUFSIZE in *. lia.
  - intros i x Hi. pose proof (lookup_lt_Some _ _ _ Hi) as Hlt.
    rewrite length_app in Hlt. cbn [length] in Hlt.
    pose proof (ring_range (kb_tail k + Z.of_nat i)) as Hri.
    destruct (decide (i = length q)) as [->|Hil].
    + rewrite lookup_app_r, Nat.sub_diag in Hi by lia. injection Hi as ->.
      rewrite <- Hhd. unfold b. apply list_lookup_insert_eq. unfold KB_BUFSIZE in *. lia.
    + rewrite lookup_app_l in Hi by lia. unfold b. rewrite list_lookup_insert_ne; [by apply Hd|].
      rewrite Hhd. pose proof (ring_range (kb_tail k + Z.of_nat (length q))).
      pose proof (ring_ne (kb_tail k) (Z.of_nat i) (Z.of_nat (length q))). lia.
Qed.

(** Every scancode indexes both tables. *)
Lemma table_ok t sc k :
  length t = 128%nat → 0 ≤ sc < 128 → table t sc k = Ok (default 0 (t !! Z.to_nat sc), k).
Proof.
  intros Hl Hsc. unfold table. destruct (t !! Z.to_nat sc) eqn:E; [done|].
  apply lookup_ge_None in E. lia.
Qed.

(** The bits of a scancode. *)
Lemma scan_release sc : 0 ≤ sc < 256 → negb ((sc &&& 0x80) =? 0) = (128 <=? sc).
Proof.
  intros H. pose proof (land_bit_test sc 7 ltac:(lia)) as Hb. change (1 ≪ 7) with 0x80 in Hb.
  rewrite Hb. clear Hb.
  rewrite Z.testbit_odd, Z.shiftr_div_pow2 by lia. change (2 ^ 7) with 128.
  destruct (Z.leb_spec 128 sc).
  - by assert (sc / 128 = 1) as -> by (Z.div_mod_to_equations; lia).
  - by rewrite Z.div_small by lia.
Qed.

Lemma scan_base sc : 128 ≤ sc < 256 → sc &&& 0x7F = sc - 128.
Proof.
  intros H. change 0x7F with (Z.ones 7). rewrite Z.land_ones by lia.
  change (2 ^ 7) with 128. Z.div_mod_to_equations. lia.
Qed.

(** A modifier key: no character, one flag. *)
Ltac modifier Hmod :=
  eexists; split; [reflexivity|]; rewrite decide_False by tauto; split; [apply Hmod|];
  split; [done|]; cbn; first [by rewrite xorb_false_r|by rewrite xorb_true_r].

(** One scancode: the modifiers follow, and the decoded key is appended. *)
Lemma kb_scan_ok k q sc :
  kb_rep k q → 0 ≤ sc < 256 →
  let c := decode (shift_held k) (caps_locked k) sc in
  ∃ k', kb_scan sc k = Ok ((), k') ∧
    kb_rep k' (if decide (c ≠ 0 ∧ Z.of_nat (length q) < 255) then q ++ [c] else q) ∧
    shift_held k' = next_shift (shift_held k) sc ∧
    caps_locked k' = next_caps (caps_locked k) sc.
Proof.
  intros H Hsc c. unfold kb_scan. rewrite scan_release by done.
  assert (∀ s l, kb_rep (Kbd (kb_buf k) (kb_head k) (kb_tail k) s l) q) as Hmod.
  { intros s l. by destruct H. }
  unfold next_shift, next_caps. destruct (Z.leb_spec 128 sc) as [Hrel|Hpress].
  - assert (c = 0) as Hc.
    { unfold c, decode. destruct (Z.ltb_spec sc 0); [done|].
      by destruct (Z.leb_spec 128 sc); [|lia]. }
    rewrite decide_False by tauto. rewrite scan_base by lia.
    destruct (Z.eqb_spec sc 0x2A), (Z.eqb_spec sc 0x36), (Z.eqb_spec sc 0x3A); try lia.
    cbn [orb]. rewrite xorb_false_r.
    destruct (Z.eqb_spec sc 0xAA), (Z.eqb_spec sc 0xB6),
      (Z.eqb_spec (sc - 128) 0x2A), (Z.eqb_spec (sc - 128) 0x36); try lia;
      eexists; (split; [reflexivity|]); (split; [try exact H; apply Hmod|done]).
  - destruct (Z.eqb_spec sc 0xAA), (Z.eqb_spec sc 0xB6); try lia. cbn [orb].
    unfold c, decode. destruct (Z.ltb_spec sc 0); [lia|]. destruct (Z.leb_spec 128 sc); [lia|].
    destruct (Z.eqb_spec sc 0x2A) as [->|]; cbn [orb].
    { modifier Hmod. }
    destruct (Z.eqb_spec sc 0x36) as [->|]; cbn [orb].
    { modifier Hmod. }
    destruct (Z.eqb_spec sc 0x3A) as [->|]; cbn [orb].
    { modifier Hmod. }
    rewrite xorb_false_r.
    destruct (Z.eqb_spec sc 0x1D) as [->|]; cbn [orb].
    { eexists. split; [reflexivity|]. rewrite decide_False by tauto. split; [exact H|done]. }
    destruct (Z.eqb_spec sc 0x38) as [->|]; cbn [orb].
    { eexists. split; [reflexivity|]. rewrite decide_False by tauto. split; [exact H|done]. }
    rewrite (bind_ok _ _ _ k k) by done. destruct (Z.ltb_spec sc 128); [|lia].
    set (a := default 0 (sc_to_ascii !! Z.to_nat sc)).
    set (d := if shift_held k then _ else _).
    rewrite (bind_ok _ _ _ d k).
    2:{ rewrite (bind_ok _ _ _ _ _ (table_ok sc_to_ascii sc k eq_refl ltac:(lia))). fold a.
        unfold d. destruct (shift_held k); [by apply table_ok|]. cbn [xorb].
        by destruct (caps_locked k && ((97 <=? a) && (a <=? 122))). }
    destruct (Z.eqb_spec d 0) as [Hd|Hd].
    { exists k. rewrite decide_False by tauto. split; [done|]. split; [exact H|done]. }
    destruct (put_char_ok k q d H) as (k' & E & Hr & ? & ?). exists k'.
    split; [exact E|]. split; [|done]. destruct (decide (Z.of_nat (length q) < 255)).
    + by rewrite decide_True.
    + rewrite decide_False by tauto. done.
Qed.

(** Reading the front of the queue. *)
Lemma has_char_rep k q : kb_rep k q → keyboard_has_char k = negb (bool_decide (q = [])).
Proof.
  intros H. unfold keyboard_has_char. f_equal. rewrite (kr_head _ _ H).
  pose proof (kr_tail _ _ H). pose proof (kr_cap _ _ H).
  assert ((kb_tail k + Z.of_nat (length q)) `mod` KB_BUFSIZE = kb_tail k ↔ q = []) as Hq.
  { split; [|intros ->; cbn; rewrite Z.add_0_r; by apply Z.mod_small].
    intros He. destruct q; [done|]. cbn [length] in *. unfold KB_BUFSIZE in *.
    Z.div_mod_to_equations. lia. }
  case_bool_decide as Hb; [by apply Z.eqb_eq, Hq|]. apply Z.eqb_neq. tauto.
Qed.

Lemma read_key_ok k c q : kb_rep k (c :: q) → read_key k = Ok (c, k).
Proof.
  intros [Hl Ht _ _ Hd]. unfold read_key. rewrite (bind_ok _ _ _ k k) by done.
  unfold zoom. rewrite (arr_get_ok _ _ c); [by destruct k|lia|].
  specialize (Hd 0%nat c eq_refl). rewrite Z.add_0_r in Hd. by rewrite Z.mod_small in Hd by lia.
Qed.

Lemma advance_ok k c q : kb_rep k (c :: q) →
  ∃ k', advance_tail k = Ok ((), k') ∧ kb_rep k' q ∧
    shift_held k' = shift_held k ∧ caps_locked k' = caps_locked k.
Proof.
  intros [Hl Ht Hhd Hcap Hd]. eexists. split; [reflexivity|].
  rewrite u64_small by (unfold KB_BUFSIZE in *; lia). split; [|done].
  split; cbn [set_tail kb_buf kb_tail kb_head length] in *.
  - done.
  - apply ring_range.
  - rewrite Hhd. rewrite Z.add_mod_idemp_l by done. f_equal. lia.
  - lia.
  - intros i x Hi. specialize (Hd (S i) x Hi).
    replace (kb_tail k + Z.of_nat (S i)) with (kb_tail k + 1 + Z.of_nat i) in Hd by lia.
    by rewrite Z.add_mod_idemp_l by done.
Qed.

Lemma getchar_front k c q wakes :
  kb_rep k (c :: q) →
  ∃ k', keyboard_getchar wakes k = Ok ((c, wakes), k') ∧ kb_rep k' q ∧
    shift_held k' = shift_held k ∧ caps_locked k' = caps_locked k.
Proof.
  intros H. destruct (advance_ok k c q H) as (k' & E & Hk'). exists k'. split; [|done].
  destruct wakes; cbn [keyboard_getchar]; rewrite (bind_ok _ _ _ k k) by done;
    rewrite (has_char_rep k _ H), bool_decide_eq_false_2 by done; cbn [negb];
    by rewrite (bind_ok _ _ _ _ _ (read_key_ok k c q H)), (bind_ok _ _ _ _ _ E).
Qed.

(** A run of interrupts with nobody reading: the queue keeps the first 255
    characters. *)
Lemma feed_ok scs k q :
  kb_rep k q → Forall (λ sc, 0 ≤ sc < 256) scs →
  ∃ k', for_each scs kb_scan k = Ok ((), k') ∧
    kb_rep k' (take 255 (q ++ typed (shift_held k) (caps_locked k) scs)).
Proof.
  intros H Hscs. revert k q H. induction Hscs as [|sc scs Hsc Hscs IH]; intros k q H.
  { exists k. split; [done|]. cbn. rewrite app_nil_r, take_ge; [done|].
    pose proof (kr_cap _ _ H). unfold KB_BUFSIZE in *. lia. }
  destruct (kb_scan_ok k q sc H Hsc) as (k1 & E & Hr & Hs & Hc).
  destruct (IH k1 _ Hr) as (k2 & E2 & Hr2). exists k2. cbn [for_each].
  rewrite (bind_ok _ _ _ _ _ E). split; [done|]. rewrite Hs, Hc in Hr2. cbn [typed].
  pose proof (kr_cap _ _ H) as Hcap. unfold KB_BUFSIZE in Hcap.
  destruct (Z.eqb_spec (decode (shift_held k) (caps_locked k) sc) 0) as [Hz|Hz]; cbn [app].
  { rewrite decide_False in Hr2 by tauto. done. }
  destruct (decide (Z.of_nat (length q) < 255)).
  - rewrite decide_True in Hr2 by done. by rewrite <- app_assoc in Hr2.
  - rewrite decide_False in Hr2 by tauto.
    rewrite take_app_le in Hr2 by lia. by rewrite take_app_le by lia.
Qed.

(** The reader's view: the next character typed, whatever else the scancodes
    hold. *)
Lemma getchar_typed wakes k :
  kb_rep k [] → Forall (λ sc, 0 ≤ sc < 256) wakes →
  match typed (shift_held k) (caps_locked k) wakes with
  | [] => keyboard_getchar wakes k = NoFuel
  | c :: rest => ∃ w k', keyboard_getchar wakes k = Ok ((c, w), k') ∧ kb_rep k' [] ∧
      Forall (λ sc, 0 ≤ sc < 256) w ∧ typed (shift_held k') (caps_locked k') w = rest
  end.
Proof.
  intros H Hw. revert k H. induction Hw as [|sc wakes Hsc Hw IH]; intros k H.
  - cbn [typed keyboard_getchar]. rewrite (bind_ok _ _ _ k k) by done.
    by rewrite (has_char_rep k _ H), bool_decide_eq_true_2.
  - destruct (kb_scan_ok k [] sc H Hsc) as (k1 & E & Hr & Hs & Hc). cbn [typed].
    assert (keyboard_getchar (sc :: wakes) k = keyboard_getchar wakes k1) as ->.
    { cbn [keyboard_getchar]. rewrite (bind_ok _ _ _ k k) by done.
      rewrite (has_char_rep k _ H), bool_decide_eq_true_2 by done. cbn [negb].
      by rewrite (bind_ok _ _ _ _ _ E). }
    rewrite <- Hs, <- Hc.
    destruct (Z.eqb_spec (decode (shift_held k) (caps_locked k) sc) 0) as [Hz|Hz]; cbn [app].
    + rewrite decide_False in Hr by tauto. by apply IH.
    + rewrite decide_True in Hr by (cbn; lia). cbn [app] in Hr.
      destruct (getchar_front k1 _ [] wakes Hr) as (k2 & E2 & Hr2 & Hs2 & Hc2).
      exists wakes, k2. by rewrite Hs2, Hc2.
Qed.

(** * Properties *)

(** C33: the keyboard interrupt reads one scancode and implements the bounded
    queue: a key that decodes to a character appends it, unless 255 characters
    wait already, when it is dropped; releases and modifier keys only update
    the modifiers.  The handler never writes outside the buffer. *)
Theorem kb_irq_queue (D : Type) (PL : Platform D) (d : D) (k : kbd) (q : list Z)
    (Hrep : kb_rep k q) :
  ∃ sc d' k', inb PS2_DATA d = Ok (sc, d') ∧ keyboard_irq_handler (d, k) = Ok ((), (d', k')) ∧
    shift_held k' = next_shift (shift_held k) sc ∧
    caps_locked k' = next_caps (caps_locked k) sc ∧
    kb_rep k' (let c := decode (shift_held k) (caps_locked k) sc in
               if decide (c ≠ 0 ∧ Z.of_nat (length q) < 255) then q ++ [c] else q).
Proof.
  destruct (inb_ok PS2_DATA d) as (sc & d' & E & Hsc & _).
  destruct (kb_scan_ok k q sc Hrep Hsc) as (k' & E' & Hr & Hs & Hc).
  exists sc, d', k'. split; [exact E|]. split; [|by split_and!].
  unfold keyboard_irq_handler. rewrite (bind_ok _ _ _ sc (d', k)).
  - unfold zoom. cbn [snd fst]. by rewrite E'.
  - unfold zoom. cbn [snd fst]. by rewrite E.
Qed.

Lemma kb_irq_queue_witness :
  ∃ d' k', keyboard_irq_handler (demo_board, kbd_boot) = Ok ((), (d', k')) ∧ kb_rep k' [97].
Proof.
  destruct (kb_irq_queue board board_platform demo_board kbd_boot [] kbd_boot_rep)
    as (sc & d' & k' & E & E' & _ & _ & Hr).
  injection E as <- _. exists d', k'. split; [exact E'|]. exact Hr.
Defined.

(** A reader that takes a character while keyboard interrupts arrive
    before and between its accesses to the buffer gets the oldest character all
    the same, and loses none: the queue ends as if the interrupts had come first
    and the character had been removed afterwards. *)
Theorem kb_getchar_races (before after : list Z) (k : kbd) (c : Z) (q : list Z)
    (Hrep : kb_rep k (c :: q)) (Hb : Forall (λ sc, 0 ≤ sc < 256) before)
    (Ha : Forall (λ sc, 0 ≤ sc < 256) after) :
  ∃ k', getchar_interleaved before after k = Ok (c, k') ∧
    kb_rep k' (take 254 (q ++ typed (shift_held k) (caps_locked k) (before ++ after))).
Proof.
  destruct (feed_ok before k _ Hrep Hb) as (k1 & E1 & H1).
  destruct (feed_ok (before ++ after) k _ Hrep) as (k2 & E2 & H2); [by apply Forall_app|].
  cbn [app take] in H1, H2. destruct (advance_ok _ _ _ H2) as (k3 & E3 & H3 & _).
  exists k3. split; [|exact H3]. unfold getchar_interleaved.
  rewrite (bind_ok _ _ _ _ _ E1), (bind_ok _ _ _ _ _ (read_key_ok _ _ _ H1)).
  rewrite for_each_app, (bind_ok _ _ _ _ _ E1) in E2.
  by rewrite (bind_ok _ _ _ _ _ E2), (bind_ok _ _ _ _ _ E3).
Qed.

Lemma kb_getchar_races_witness :
  ∃ k k', kb_rep k [97] ∧ getchar_interleaved [0x1E] [0x30; 0xB0] k = Ok (97, k') ∧
    kb_rep k' [97; 98].
Proof.
  destruct (put_char_ok kbd_boot [] 97 kbd_boot_rep) as (k & Ek & H & Hs & Hc).
  destruct (kb_getchar_races [0x1E] [0x30; 0xB0] k 97 [] H) as (k' & E & Hr).
  - repeat (apply List.Forall_cons; [lia|]). done.
  - repeat (apply List.Forall_cons; [lia|]). done.
  - exists k, k'. split; [exact H|]. split; [exact E|].
    rewrite Hs, Hc in Hr. exact Hr.
Defined.

(** A reader that calls [keyboard_getchar] on an empty buffer gets exactly
    the text that the following scancodes type, one character per call and in
    order, whatever releases, modifiers and dead keys come between; when they
    type nothing the call never returns. *)
Theorem kb_getchar_typed (wakes : list Z) (k : kbd)
    (Hrep : kb_rep k []) (Hw : Forall (λ sc, 0 ≤ sc < 256) wakes) :
  match typed (shift_held k) (caps_locked k) wakes with
  | [] => keyboard_getchar wakes k = NoFuel
  | c :: rest => ∃ w k', keyboard_getchar wakes k = Ok ((c, w), k') ∧ kb_rep k' [] ∧
      Forall (λ sc, 0 ≤ sc < 256) w ∧ typed (shift_held k') (caps_locked k') w = rest
  end.
Proof. by apply getchar_typed. Qed.

(** Shift, h, release both, i: "Hi". *)
Lemma kb_getchar_typed_witness :
  typed false false [0x2A; 0x23; 0xA3; 0xAA; 0x17] = [72; 105] ∧
  ∃ w k', keyboard_getchar [0x2A; 0x23; 0xA3; 0xAA; 0x17] kbd_boot = Ok ((72, w), k').
Proof.
  split; [reflexivity|].
  destruct (kb_getchar_typed [0x2A; 0x23; 0xA3; 0xAA; 0x17] kbd_boot kbd_boot_rep)
    as (w & k' & E & _).
  - repeat (apply List.Forall_cons; [lia|]). done.
  - exists w, k'. exact E.
Defined.

(** With nobody reading, any burst of keyboard interrupts leaves the first 255
    characters it typed in the buffer, in order, and drops the rest. *)
Theorem kb_burst (scs : list Z) (k : kbd) (q : list Z)
    (Hrep : kb_rep k q) (Hscs : Forall (λ sc, 0 ≤ sc < 256) scs) :
  ∃ k', for_each scs kb_scan k = Ok ((), k') ∧
    kb_rep k' (take 255 (q ++ typed (shift_held k) (caps_locked k) scs)).
Proof. by apply feed_ok. Qed.

Lemma kb_burst_witness :
  ∃ k', for_each (replicate 300 0x1E) kb_scan kbd_boot = Ok ((), k') ∧
    kb_rep k' (replicate 255 97).
Proof.
  destruct (kb_burst (replicate 300 0x1E) kbd_boot [] kbd_boot_rep) as (k' & E & Hr).
  - apply Forall_replicate. lia.
  - exists k'. split; [exact E|].
    assert (take 255 ([] ++ typed (shift_held kbd_boot) (caps_locked kbd_boot) (replicate 300 0x1E))
            = replicate 255 97) as <- by (vm_compute; reflexivity).
    exact Hr.
Defined.

(** A letter key types the capital exactly when Shift is held or Caps Lock is
    on: the exclusive or that the handler computes is overridden by its shifted
    table, so that Shift does not undo Caps Lock. *)
Theorem kb_letters (sc l : Z) (shift caps : bool)
    (Hl : sc_to_ascii !! Z.to_nat sc = Some l) (Hsc : 0 ≤ sc) (Hr : 97 ≤ l ≤ 122) :
  decode shift caps sc = (if shift || caps then l - 32 else l).
Proof.
  set (check i := match sc_to_ascii !! Z.to_nat i with
    | Some l => if (97 <=? l) && (l <=? 122) then
        (decode false false i =? l) && (decode false true i =? l - 32) &&
        (decode true false i =? l - 32) && (decode true true i =? l - 32) else true
    | None => true end).
  assert (check sc = true) as H.
  { apply (range_forallb check 0 128); [vm_compute; reflexivity|].
    apply lookup_lt_Some in Hl. change (length sc_to_ascii) with 128%nat in Hl. lia. }
  unfold check in H. rewrite Hl in H.
  destruct (Z.leb_spec 97 l), (Z.leb_spec l 122); try lia. cbn [andb] in H.
  rewrite !andb_true_iff, !Z.eqb_eq in H. destruct shift, caps; tauto.
Qed.

Lemma kb_letters_witness : decode true true 0x1E = 65 ∧ decode false true 0x1E = 65.
Proof. split; apply (kb_letters 0x1E 97); reflexivity || lia. Defined.

(** Every character the driver delivers is printable ASCII, Backspace, Tab
    or Enter, and the Tab key does deliver a Tab, which the header's list of
    what [keyboard_getchar] returns leaves out. *)
Theorem kb_characters (shift caps : bool) (sc : Z) :
  let c := decode shift caps sc in
  (c = 0 ∨ 32 ≤ c < 127 ∨ c = 8 ∨ c = 9 ∨ c = 10) ∧ decode shift caps 0x0F = 9.
Proof.
  split; [|by destruct shift, caps].
  destruct (decide (0 ≤ sc < 128)) as [Hsc|Hsc].
  - set (ok c := (c =? 0) || ((32 <=? c) && (c <? 127)) || (c =? 8) || (c =? 9) || (c =? 10)).
    set (check i := ok (decode false false i) && ok (decode false true i) &&
                    ok (decode true false i) && ok (decode true true i)).
    assert (check sc = true) as H.
    { apply (range_forallb check 0 128); [vm_compute; reflexivity|lia]. }
    unfold check in H. rewrite !andb_true_iff in H.
    assert (ok (decode shift caps sc) = true) as Hok by (destruct shift, caps; tauto).
    unfold ok in Hok. rewrite !orb_true_iff, andb_true_iff, !Z.eqb_eq, Z.leb_le, Z.ltb_lt in Hok.
    tauto.
  - left. unfold decode. destruct (Z.ltb_spec sc 0); [done|].
    destruct (Z.leb_spec 128 sc); [done|lia].
Qed.
