(* ===== verification/Vfs.v ===== *)
(** * RAM file table ([kernel/fs/vfs.cpp], [vfs.hpp])

    The sixteen file slots with creation, lookup by name and listing, and the
    sequence of files they represent. *)
From stdpp Require Import base tactics strings numbers list.
From S2P Require Import Prelude CString.

Local Open Scope Z_scope.

(** ** Data *)

Definition MAX_VFS_FILES : Z := 16.
Definition MAX_FILENAME : Z := 32.

(** [data] is the bytes the pointer leads to. *)
Record VFSNode := Node { n_name : list Z; n_data : list Z; n_size : Z; n_used : bool }.

(** The static table [s_files]. *)
Abbreviation vfs := (list VFSNode).
Definition vfs_boot : vfs := replicate 16 (Node (replicate 32 0) [] 0 false).

(** ** Operations *)

Definition strncpy_local (src : list Z) (n : Z) : M (list Z) unit :=
  i ← copy_loop 0 n src; arr_put i 0.

(** The body of the first free slot found: copy the name, then three
    assignments. *)
Definition fill_slot (i : Z) (name data : list Z) (size : Z) : M vfs unit :=
  f ← arr_get i;
  match strncpy_local name MAX_FILENAME (n_name f) with
  | Ok (_, nm) => arr_put i (Node nm data size true)
  | Fault => fault
  | NoFuel => nofuel
  end.

Fixpoint create_scan (idx : list Z) (name data : list Z) (size : Z) : M vfs bool :=
  match idx with
  | [] => mret false
  | i :: idx =>
      f ← arr_get i;
      if negb (n_used f) then fill_slot i name data size ≫= λ _, mret true
      else create_scan idx name data size
  end.

Definition vfs_create_file (name data : list Z) (size : Z) : M vfs bool :=
  create_scan (range 0 MAX_VFS_FILES) name data size.

(** The result is the index of the node, [None] for [nullptr]. *)
Fixpoint open_scan (idx : list Z) (filename : list Z) : M vfs (option Z) :=
  match idx with
  | [] => mret None
  | i :: idx =>
      f ← arr_get i;
      if n_used f && streql (n_name f) filename then mret (Some i)
      else open_scan idx filename
  end.

Definition vfs_open (filename : list Z) : M vfs (option Z) :=
  open_scan (range 0 MAX_VFS_FILES) filename.

(** The nodes written to [out_nodes], as indices; [count] of them so far. *)
Fixpoint list_scan (idx : list Z) (count max_out : Z) : M vfs (list Z) :=
  match idx with
  | [] => mret []
  | i :: idx =>
      if count <? max_out then
        f ← arr_get i;
        if n_used f then
          r ← list_scan idx (count + 1) max_out; mret (i :: r)
        else list_scan idx count max_out
      else mret []
  end.

Definition vfs_list (max_out : Z) : M vfs (list Z) := list_scan (range 0 MAX_VFS_FILES) 0 max_out.

Definition newline : list Z := [10].
Definition sysinfo_content : list Z :=
  cstr "NovaOS Version 1.0 (x86-64 UEFI)" ++ newline ++
  cstr "Author: Parth Chittalwar" ++ newline ++
  cstr "Subsystems: GDT, IDT, PMM, Heap, PIC, PIT, Keyboard, Scheduler, VFS, Shell" ++ newline.
Definition readme_content : list Z :=
  cstr "Welcome to NovaOS!" ++ newline ++
  cstr "This is a custom freestanding 64-bit kernel booted via Limine." ++ newline ++
  cstr "Type 'help' in the shell to explore available commands." ++ newline.
Definition credits_content : list Z :=
  cstr "NovaOS Architecture:" ++ newline ++
  cstr "- Bootloader: Limine 8.x" ++ newline ++
  cstr "- Architecture: x86-64 Long Mode" ++ newline ++
  cstr "- Executable Format: ELF64" ++ newline ++
  cstr "- Memory: Higher-half kernel mapping with PMM bitmap & Heap allocator" ++ newline.

(** [sizeof(x) - 1] of a character array. *)
Definition text_size (s : list Z) : Z := Z.of_nat (length s).

Definition vfs_init : M vfs unit :=
  for_each (range 0 MAX_VFS_FILES)
    (λ i, f ← arr_get i; arr_put i (Node (n_name f) (n_data f) (n_size f) false)) ≫= λ _,
  vfs_create_file (cstr "sysinfo.txt") sysinfo_content (text_size sysinfo_content) ≫= λ _,
  vfs_create_file (cstr "readme.txt") readme_content (text_size readme_content) ≫= λ _,
  vfs_create_file (cstr "credits.txt") credits_content (text_size credits_content) ≫= λ _,
  mret tt.

(** ** Specification: the files in creation order *)

Record file := File { f_name : list Z; f_data : list Z; f_size : Z }.

Definition node_of (v : VFSNode) : file := File (c_text (n_name v)) (n_data v) (n_size v).

(** The used slots are the first ones and hold the files; the rest is free. *)
Record vfs_rep (s : vfs) (fs : list file) : Prop := {
  vr_len : length s = 16%nat;
  vr_names : Forall (λ v, Z.of_nat (length (n_name v)) = MAX_FILENAME) s;
  vr_max : (length fs ≤ 16)%nat;
  vr_used : ∀ i v, s !! i = Some v → n_used v = bool_decide (i < length fs)%nat;
  vr_files : ∀ i f, fs !! i = Some f → ∃ v, s !! i = Some v ∧ node_of v = f
}.

(** The index of the first file with the given name. *)
Definition named (name : list Z) (fs : list file) : option Z :=
  Z.of_nat ∘ fst <$> list_find (λ f, f_name f = c_text name) fs.

(** * Lemmas *)

Section scan.
Context (s : vfs) (fs : list file) (Hrep : vfs_rep s fs).

Lemma slot_used i v : s !! i = Some v → n_used v = true ↔ (i < length fs)%nat.
Proof using Hrep. intros Hi. rewrite (vr_used _ _ Hrep _ _ Hi). apply bool_decide_eq_true. Qed.

Lemma slot_at k : 0 ≤ k < 16 → ∃ v, arr_get k s = Ok (v, s) ∧ s !! Z.to_nat k = Some v.
Proof using Hrep.
  intros Hk. destruct (arr_elem s k) as [v Hv]; [rewrite (vr_len _ _ Hrep); lia|].
  exists v. split; [apply arr_get_ok; [lia|done]|done].
Qed.

(** The scan for a free slot stops right behind the files. *)
Lemma create_scan_at k name data size :
  0 ≤ k ≤ Z.of_nat (length fs) →
  create_scan (range k (16 - k)) name data size s =
  if decide (length fs < 16)%nat
  then (fill_slot (Z.of_nat (length fs)) name data size ≫= λ _, mret true) s
  else Ok (false, s).
Proof using Hrep.
  intros Hk. pose proof (vr_max _ _ Hrep) as Hmax.
  remember (Z.to_nat (Z.of_nat (length fs) - k)) as n eqn:Hn.
  revert k Hk Hn. induction n as [|n IH]; intros k Hk Hn.
  - assert (k = Z.of_nat (length fs)) as -> by lia. destruct (decide _) as [Hlt|Hge].
    + rewrite range_cons by lia. cbn [create_scan].
      destruct (slot_at (Z.of_nat (length fs))) as (v & Hv & Hl); [lia|].
      rewrite (bind_ok _ _ _ _ _ Hv). rewrite Nat2Z.id in Hl.
      assert (n_used v = false) as ->; [|done].
      apply not_true_is_false. rewrite (slot_used _ _ Hl). lia.
    + rewrite range_nil by lia. done.
  - rewrite range_cons by lia. cbn [create_scan].
    destruct (slot_at k) as (v & Hv & Hl); [lia|]. rewrite (bind_ok _ _ _ _ _ Hv).
    assert (n_used v = true) as -> by (apply (slot_used _ _ Hl); lia). cbn [negb].
    replace (16 - k - 1) with (16 - (k + 1)) by lia. apply IH; lia.
Qed.

(** The scan by name from slot [k] on. *)
Lemma open_scan_at k name :
  0 ≤ k ≤ 16 →
  open_scan (range k (16 - k)) name s =
  Ok ((λ j, k + j) <$> named name (drop (Z.to_nat k) fs), s).
Proof using Hrep.
  remember (Z.to_nat (16 - k)) as n eqn:Hn. revert k Hn.
  induction n as [|n IH]; intros k Hn Hk.
  - rewrite range_nil by lia. rewrite drop_ge by (pose proof (vr_max _ _ Hrep); lia). done.
  - rewrite range_cons by lia. cbn [open_scan].
    destruct (slot_at k) as (v & Hv & Hl); [lia|]. rewrite (bind_ok _ _ _ _ _ Hv).
    replace (16 - k - 1) with (16 - (k + 1)) by lia.
    pose proof (IH (k + 1) ltac:(lia) ltac:(lia)) as IH'.
    replace (Z.to_nat (k + 1)) with (S (Z.to_nat k)) in IH' by lia.
    destruct (n_used v) eqn:Hu; cbn [andb].
    + apply (slot_used _ _ Hl) in Hu. destruct (lookup_lt_is_Some_2 fs _ Hu) as [f Hf].
      destruct (vr_files _ _ Hrep _ _ Hf) as (v' & Hv' & <-). rewrite Hl in Hv'. injection Hv' as <-.
      rewrite (drop_S _ _ _ Hf). unfold named. cbn [list_find]. rewrite streql_spec.
      destruct (decide (f_name (node_of v) = c_text name)) as [He|He].
      * rewrite bool_decide_eq_true_2 by exact He.
        cbn [fmap option_fmap option_map fst compose]. by rewrite Z.add_0_r.
      * rewrite bool_decide_eq_false_2 by exact He. rewrite IH'. unfold named.
        destruct (list_find _ _) as [[j g]|]; [|done].
        cbn [fmap option_fmap option_map prod_map fst compose].
        by replace (k + 1 + Z.of_nat j) with (k + Z.of_nat (S j)) by lia.
    + rewrite IH'. assert (¬ (Z.to_nat k < length fs)%nat) as Hno.
      { intros Hlt. apply (slot_used _ _ Hl) in Hlt. congruence. }
      by rewrite !drop_ge by lia.
Qed.

(** Listing from slot [k] on. *)
Lemma list_scan_at k count max :
  0 ≤ k ≤ 16 → 0 ≤ count ≤ max →
  list_scan (range k (16 - k)) count max s =
  Ok (range k (Z.min (max - count) (Z.of_nat (length fs) - k)), s).
Proof using Hrep.
  remember (Z.to_nat (16 - k)) as n eqn:Hn. revert k count Hn.
  pose proof (vr_max _ _ Hrep) as Hmax.
  induction n as [|n IH]; intros k count Hn Hk Hc.
  - rewrite !range_nil by lia. done.
  - rewrite range_cons by lia. cbn [list_scan]. destruct (Z.ltb_spec count max) as [Hlt|Hge].
    + destruct (slot_at k) as (v & Hv & Hl); [lia|]. rewrite (bind_ok _ _ _ _ _ Hv).
      replace (16 - k - 1) with (16 - (k + 1)) by lia.
      destruct (n_used v) eqn:Hu.
      * apply (slot_used _ _ Hl) in Hu. rewrite (bind_ok _ _ _ _ _ (IH (k + 1) (count + 1)
          ltac:(lia) ltac:(lia) ltac:(lia))).
        rewrite (range_cons k) by lia.
        replace (Z.min (max - count) (Z.of_nat (length fs) - k) - 1)
          with (Z.min (max - (count + 1)) (Z.of_nat (length fs) - (k + 1))) by lia. done.
      * assert (¬ (Z.to_nat k < length fs)%nat) as Hno.
        { intros Hlt'. apply (slot_used _ _ Hl) in Hlt'. congruence. }
        rewrite IH by lia. by rewrite !range_nil by lia.
    + by rewrite (range_nil k) by lia.
Qed.
End scan.

(** The file a creation adds. *)
Definition new_file (name data : list Z) (size : Z) : file :=
  File (copied MAX_FILENAME name) data size.

Lemma fill_slot_ok s fs name data size :
  vfs_rep s fs → (length fs < 16)%nat →
  ∃ s', fill_slot (Z.of_nat (length fs)) name data size s = Ok ((), s') ∧
    vfs_rep s' (fs ++ [new_file name data size]).
Proof.
  intros Hrep Hlt. destruct (slot_at s fs Hrep (Z.of_nat (length fs))) as (v & Hv & Hl); [lia|].
  rewrite Nat2Z.id in Hl. pose proof Hrep as [Hlen Hn Hmax Hu Hf].
  pose proof (Forall_lookup_1 _ _ _ _ Hn Hl) as Hnv. cbv beta in Hnv.
  set (nm := copy_result MAX_FILENAME name (n_name v)).
  exists (<[length fs := Node nm data size true]> s). split.
  - unfold fill_slot. rewrite (bind_ok _ _ _ _ _ Hv). unfold strncpy_local.
    rewrite copy_str_ok by (unfold MAX_FILENAME in *; lia).
    rewrite arr_put_ok by (rewrite Hlen; lia). by rewrite Nat2Z.id.
  - split.
    + by rewrite length_insert.
    + apply Forall_insert; [done|]. cbn [n_name]. unfold nm.
      rewrite copy_result_length by (unfold MAX_FILENAME in *; lia). done.
    + rewrite length_app. cbn. lia.
    + intros i w Hi. rewrite length_app. cbn [length].
      destruct (decide (i = length fs)) as [->|Hne].
      * rewrite list_lookup_insert_eq in Hi by lia. injection Hi as <-.
        symmetry. apply bool_decide_eq_true_2. lia.
      * rewrite list_lookup_insert_ne in Hi by done. rewrite (Hu _ _ Hi).
        apply bool_decide_ext. lia.
    + intros i f Hi. destruct (decide (i = length fs)) as [->|Hne].
      * rewrite lookup_app_r, Nat.sub_diag in Hi by lia. injection Hi as <-.
        exists (Node nm data size true). split; [apply list_lookup_insert_eq; lia|].
        unfold node_of, new_file. cbn. f_equal. apply copy_result_text.
      * rewrite list_lookup_insert_ne by done.
        apply lookup_app_Some in Hi as [Hi|[Hge Hi]]; [by apply Hf|].
        apply lookup_lt_Some in Hi. cbn in Hi. lia.
Qed.

Lemma create_ok s fs name data size :
  vfs_rep s fs → (length fs < 16)%nat →
  ∃ s', vfs_create_file name data size s = Ok (true, s') ∧
    vfs_rep s' (fs ++ [new_file name data size]).
Proof.
  intros Hrep Hlt. destruct (fill_slot_ok s fs name data size Hrep Hlt) as (s' & E & Hr).
  exists s'. split; [|exact Hr]. unfold vfs_create_file, MAX_VFS_FILES.
  change (range 0 16) with (range 0 (16 - 0)). rewrite (create_scan_at s fs Hrep 0 name data size) by lia.
  rewrite decide_True by done. by rewrite (bind_ok _ _ _ _ _ E).
Qed.

Lemma open_ok s fs name : vfs_rep s fs → vfs_open name s = Ok (named name fs, s).
Proof.
  intros Hrep. unfold vfs_open, MAX_VFS_FILES. change (range 0 16) with (range 0 (16 - 0)).
  rewrite (open_scan_at s fs Hrep 0 name) by lia. change (drop (Z.to_nat 0) fs) with fs.
  by destruct (named name fs).
Qed.

Lemma list_ok s fs max_out : vfs_rep s fs → 0 ≤ max_out →
  vfs_list max_out s = Ok (range 0 (Z.min max_out (Z.of_nat (length fs))), s).
Proof.
  intros Hrep Hmax. unfold vfs_list, MAX_VFS_FILES. change (range 0 16) with (range 0 (16 - 0)).
  rewrite (list_scan_at s fs Hrep 0 0 max_out) by lia. by rewrite !Z.sub_0_r.
Qed.

Lemma vfs_clear s :
  length s = 16%nat → Forall (λ v, Z.of_nat (length (n_name v)) = MAX_FILENAME) s →
  ∃ s', for_each (range 0 MAX_VFS_FILES)
    (λ i, f ← arr_get i; arr_put i (Node (n_name f) (n_data f) (n_size f) false)) s
    = Ok ((), s') ∧ vfs_rep s' [].
Proof.
  intros Hlen Hn.
  destruct (for_each_inv (λ done s', length s' = 16%nat ∧
      Forall (λ v, Z.of_nat (length (n_name v)) = MAX_FILENAME) s' ∧
      ∀ i v, i ∈ done → s' !! Z.to_nat i = Some v → n_used v = false)
    (λ i, f ← arr_get i; arr_put i (Node (n_name f) (n_data f) (n_size f) false))
    (range 0 MAX_VFS_FILES) s) as (s' & E & Hl' & Hn' & Hu').
  - intros dn x rest s1 Hd (Hl1 & Hn1 & Hu1).
    destruct (range_split _ _ _ _ _ Hd) as (_ & Hx & _). unfold MAX_VFS_FILES in Hx.
    destruct (arr_elem s1 x) as [v Hv]; [lia|].
    exists (<[Z.to_nat x := Node (n_name v) (n_data v) (n_size v) false]> s1). split; [|split; [|split]].
    + rewrite (bind_ok _ _ _ v s1) by (apply arr_get_ok; [lia|done]). apply arr_put_ok. lia.
    + by rewrite length_insert.
    + apply Forall_insert; [done|]. by apply (Forall_lookup_1 _ _ _ _ Hn1 Hv).
    + intros i w Hi Hw. destruct (decide (Z.to_nat i = Z.to_nat x)) as [He|Hne].
      * rewrite He, list_lookup_insert_eq in Hw by lia. by injection Hw as <-.
      * rewrite list_lookup_insert_ne in Hw by done. apply (Hu1 i w); [|done].
        apply elem_of_app in Hi as [Hi|Hi]; [done|].
        apply list_elem_of_singleton in Hi. by subst.
  - split; [done|]. split; [done|]. intros i v Hi. by apply not_elem_of_nil in Hi.
  - exists s'. split; [exact E|]. split; [done|done|cbn; lia| |done].
    intros i v Hi. cbn [length]. rewrite bool_decide_eq_false_2 by lia.
    apply (Hu' (Z.of_nat i)); [|by rewrite Nat2Z.id].
    apply elem_of_range. apply lookup_lt_Some in Hi. unfold MAX_VFS_FILES. lia.
Qed.

Lemma vfs_boot_init : ∃ s, vfs_init vfs_boot = Ok ((), s) ∧ vfs_rep s [
  File (cstr "sysinfo.txt") sysinfo_content (text_size sysinfo_content);
  File (cstr "readme.txt") readme_content (text_size readme_content);
  File (cstr "credits.txt") credits_content (text_size credits_content)].
Proof.
  destruct (vfs_clear vfs_boot eq_refl) as (s0 & E0 & R0).
  { by apply Forall_replicate. }
  destruct (create_ok s0 [] (cstr "sysinfo.txt") sysinfo_content (text_size sysinfo_content) R0)
    as (s1 & E1 & R1); [cbn; lia|].
  destruct (create_ok s1 _ (cstr "readme.txt") readme_content (text_size readme_content) R1)
    as (s2 & E2 & R2); [cbn; lia|].
  destruct (create_ok s2 _ (cstr "credits.txt") credits_content (text_size credits_content) R2)
    as (s3 & E3 & R3); [cbn; lia|].
  exists s3. split; [|exact R3]. unfold vfs_init.
  rewrite (bind_ok _ _ _ _ _ E0), (bind_ok _ _ _ _ _ E1), (bind_ok _ _ _ _ _ E2).
  by rewrite (bind_ok _ _ _ _ _ E3).
Qed.

(** Looking a name up among the files and one more. *)
Lemma named_snoc name fs f :
  named name (fs ++ [f]) =
  match named name fs with
  | Some i => Some i
  | None => if decide (f_name f = c_text name) then Some (Z.of_nat (length fs)) else None
  end.
Proof.
  unfold named. induction fs as [|g fs IH]; cbn [app list_find].
  - by destruct (decide (f_name f = c_text name)).
  - destruct (decide (f_name g = c_text name)); [done|].
    destruct (list_find _ (fs ++ [f])) as [[i x]|] eqn:E1, (list_find _ fs) as [[j y]|] eqn:E2;
      cbn [fmap option_fmap option_map prod_map fst compose] in *;
      repeat case_decide; simplify_eq; try done; f_equal; cbn [length]; lia.
Qed.

(** * Properties *)

(** C34: [vfs_create_file] appends the file under the first 31 characters of
    its name, as long as one of the sixteen slots is free, and reports failure
    without any change otherwise; [vfs_open] returns the first file, in
    creation order, whose stored name is the one asked for, so that a file just
    created is found unless an older file has its stored name. *)
Theorem vfs_create_open (s : vfs) (fs : list file) (name data : list Z) (size : Z)
    (Hrep : vfs_rep s fs) :
  if decide (length fs < 16)%nat then
    ∃ s', vfs_create_file name data size s = Ok (true, s') ∧
      vfs_rep s' (fs ++ [File (take 31 (c_text name)) data size]) ∧
      ∀ n, vfs_open n s' = Ok (match named n fs with
        | Some i => Some i
        | None => if decide (take 31 (c_text name) = c_text n)
                  then Some (Z.of_nat (length fs)) else None
        end, s')
  else vfs_create_file name data size s = Ok (false, s).
Proof.
  destruct (decide (length fs < 16)%nat) as [Hlt|Hge].
  - destruct (create_ok s fs name data size Hrep Hlt) as (s' & E & Hr).
    exists s'. split; [exact E|]. split; [exact Hr|]. intros n.
    rewrite (open_ok s' _ n Hr). by rewrite named_snoc.
  - unfold vfs_create_file, MAX_VFS_FILES. change (range 0 16) with (range 0 (16 - 0)).
    rewrite (create_scan_at s fs Hrep 0 name data size) by lia. by rewrite decide_False.
Qed.

Lemma vfs_create_open_witness :
  ∃ s s', vfs_init vfs_boot = Ok ((), s) ∧
    vfs_create_file (cstr "notes.txt") (cstr "hello") 5 s = Ok (true, s') ∧
    vfs_open (cstr "notes.txt") s' = Ok (Some 3, s').
Proof.
  destruct vfs_boot_init as (s & E & Hr).
  pose proof (vfs_create_open s _ (cstr "notes.txt") (cstr "hello") 5 Hr) as H.
  rewrite decide_True in H by (cbn; lia). destruct H as (s' & E' & _ & Ho).
  exists s, s'. split; [exact E|]. split; [exact E'|]. rewrite Ho. vm_compute. reflexivity.
Defined.

(** A file whose name has more than 31 characters cannot be opened by the
    name it was created with, although its creation succeeded. *)
Theorem vfs_long_names (s : vfs) (fs : list file) (name data : list Z) (size : Z)
    (Hrep : vfs_rep s fs) (Hroom : (length fs < 16)%nat)
    (Hlong : (31 < length (c_text name))%nat) :
  ∃ s', vfs_create_file name data size s = Ok (true, s') ∧
    vfs_open name s' = Ok (named name fs, s').
Proof.
  destruct (create_ok s fs name data size Hrep Hroom) as (s' & E & Hr).
  exists s'. split; [exact E|]. rewrite (open_ok s' _ name Hr), named_snoc.
  destruct (named name fs); [done|]. rewrite decide_False; [done|].
  cbn [f_name new_file]. intros H. apply (f_equal length) in H.
  pose proof (copied_length MAX_FILENAME name). unfold MAX_FILENAME in *. lia.
Qed.

Lemma vfs_long_names_witness :
  ∃ s s', vfs_init vfs_boot = Ok ((), s) ∧
    vfs_create_file (cstr "a-name-that-is-longer-than-31-characters") [] 0 s = Ok (true, s') ∧
    vfs_open (cstr "a-name-that-is-longer-than-31-characters") s' = Ok (None, s').
Proof.
  destruct vfs_boot_init as (s & E & Hr).
  destruct (vfs_long_names s _ (cstr "a-name-that-is-longer-than-31-characters") [] 0 Hr)
    as (s' & E' & Ho); [cbn; lia|vm_compute; lia|].
  exists s, s'. split; [exact E|]. split; [exact E'|]. rewrite Ho. vm_compute. reflexivity.
Defined.

(** [vfs_list] returns every file in creation order, cut to the capacity of
    the output array, and changes nothing. *)
Theorem vfs_list_all (s : vfs) (fs : list file) (max_out : Z)
    (Hrep : vfs_rep s fs) (Hmax : 0 ≤ max_out) :
  vfs_list max_out s = Ok (range 0 (Z.min max_out (Z.of_nat (length fs))), s) ∧
  ∀ i f, fs !! i = Some f → ∃ v, s !! i = Some v ∧ node_of v = f.
Proof.
  split; [by apply list_ok|apply Hrep].
Qed.

Lemma vfs_list_all_witness : ∃ s, vfs_init vfs_boot = Ok ((), s) ∧ vfs_list 16 s = Ok ([0; 1; 2], s).
Proof.
  destruct vfs_boot_init as (s & E & Hr). exists s. split; [exact E|].
  apply (vfs_list_all s _ 16 Hr). lia.
Defined.
