(* ===== verification/Serial.v ===== *)
(** * COM1 serial output ([kernel/kernel_main.cpp])

    Initialisation of the UART, the polled character output and [print_serial],
    over any [Platform]. *)
From stdpp Require Import base tactics strings numbers list.
From S2P Require Import Prelude CString Platform Pic.

Local Open Scope Z_scope.
Local Open Scope nova_scope.

Definition COM1 : Z := 0x3F8.

Section serial.
Context {D : Type} `{PL : Platform D}.

(** ** Operations *)

Definition init_serial : M D unit :=
  outb (COM1 + 1) 0x00 ≫= λ _,
  outb (COM1 + 3) 0x80 ≫= λ _,
  outb (COM1 + 0) 0x03 ≫= λ _,
  outb (COM1 + 1) 0x00 ≫= λ _,
  outb (COM1 + 3) 0x03 ≫= λ _,
  outb (COM1 + 2) 0xC7 ≫= λ _,
  outb (COM1 + 4) 0x0B.

Definition is_transmit_empty : M D Z := v ← inb (COM1 + 5); mret (v &&& 0x20).

(** [while (is_transmit_empty() == 0);] *)
Fixpoint wait_transmit (fuel : nat) : M D unit :=
  match fuel with
  | O => nofuel
  | S fuel => v ← is_transmit_empty; if v =? 0 then wait_transmit fuel else mret tt
  end.

(** One poll more than the UART stays busy. *)
Definition SERIAL_FUEL : nat := S com1_bound.

Definition write_serial_char (c : Z) : M D unit :=
  wait_transmit SERIAL_FUEL ≫= λ _, outb COM1 c.

Fixpoint print_serial (str : list Z) : M D unit :=
  match str with
  | [] => mret tt
  | c :: str =>
      if c =? 0 then mret tt else
      (if c =? 10 then write_serial_char 13 else mret tt) ≫= λ _,
      write_serial_char c ≫= λ _,
      print_serial str
  end.

(** ** Specification *)

(** A newline goes out as carriage return and newline. *)
Fixpoint crlf (s : list Z) : list Z :=
  match s with
  | [] => []
  | c :: s => (if c =? 10 then [13; 10] else [c]) ++ crlf s
  end.

Definition bytes (s : list Z) : Prop := Forall (λ c, 0 ≤ c < 256) s.

(** [d'] differs from [d] at most in what has been sent. *)
Definition sent (d d' : D) (text : list Z) : Prop :=
  u_tx (com1 d') = u_tx (com1 d) ++ text ∧ u_dlab (com1 d') = false ∧
  pic1 d' = pic1 d ∧ pic2 d' = pic2 d ∧ pit d' = pit d.

(** * Lemmas *)

Lemma crlf_app s t : crlf (s ++ t) = crlf s ++ crlf t.
Proof. induction s as [|c s IH]; cbn; [done|]. by rewrite IH, app_assoc. Qed.

Lemma bytes_app s t : bytes s → bytes t → bytes (s ++ t).
Proof. intros. by apply Forall_app. Qed.

Lemma sent_trans d1 d2 d3 s t : sent d1 d2 s → sent d2 d3 t → sent d1 d3 (s ++ t).
Proof.
  intros (T1 & _ & ? & ? & ?) (T2 & ? & ? & ? & ?). unfold sent.
  rewrite T2, T1, app_assoc. split; [done|]. split; [done|]. split_and!; congruence.
Qed.

(** The wait ends: each poll of a busy line brings it closer to idle. *)
Lemma wait_ok fuel d :
  (u_busy (com1 d) < fuel)%nat → u_dlab (com1 d) = false →
  ∃ d', wait_transmit fuel d = Ok ((), d') ∧ sent d d' [].
Proof.
  revert d; induction fuel as [|fuel IH]; intros d Hb Hl; [lia|]. cbn [wait_transmit].
  unfold is_transmit_empty.
  destruct (inb_ok (COM1 + 5) d) as (v & d1 & E & _ & H1 & H2 & Ht & Hu & _ & _ & Hr).
  specialize (Hr eq_refl). cbn [COM1 Z.add Z.eqb Pos.eqb] in Hu.
  change (COM1 + 5 =? 0x3FD) with true in Hu. cbv iota in Hu.
  rewrite (bind_ok _ _ _ (v &&& 0x20) d1) by (by rewrite (bind_ok _ _ _ _ _ E)).
  assert (sent d d1 []) as Hs.
  { unfold sent. rewrite Hu. cbn. by rewrite app_nil_r. }
  destruct (v &&& 0x20 =? 0) eqn:Hv.
  - destruct (IH d1) as (d2 & E2 & Hs2).
    + rewrite Hu. cbn. case_bool_decide; [done|]. lia.
    + by rewrite Hu.
    + exists d2. split; [exact E2|]. by apply (sent_trans d d1 d2 [] []).
  - by exists d1.
Qed.

Lemma write_char_ok c d :
  0 ≤ c < 256 → u_dlab (com1 d) = false →
  ∃ d', write_serial_char c d = Ok ((), d') ∧ sent d d' [c].
Proof.
  intros Hc Hl. unfold write_serial_char.
  destruct (wait_ok SERIAL_FUEL d) as (d1 & E1 & Hs1); [|done|].
  { unfold SERIAL_FUEL. pose proof (com1_busy d). lia. }
  rewrite (bind_ok _ _ _ _ _ E1).
  destruct (outb_ok COM1 c d1 Hc eq_refl) as (d2 & b & E2 & _ & H1 & H2 & Ht & Hu).
  exists d2. split; [exact E2|]. change (COM1 =? 0x3F8) with true in Hu. cbv iota in Hu.
  apply (sent_trans d d1 d2 [] [c]); [exact Hs1|]. destruct Hs1 as (_ & Hl1 & _).
  unfold sent. rewrite Hu. unfold uart_data. rewrite Hl1. by split_and!.
Qed.

Lemma print_serial_ok s d :
  bytes s → u_dlab (com1 d) = false →
  ∃ d', print_serial s d = Ok ((), d') ∧ sent d d' (crlf (c_text s)).
Proof.
  intros Hs. revert d; induction Hs as [|c s Hc Hs IH]; intros d Hl; cbn [print_serial c_text].
  { exists d. split; [done|]. unfold sent. by rewrite app_nil_r. }
  destruct (Z.eqb_spec c 0) as [->|Hc0].
  { exists d. split; [done|]. unfold sent. by rewrite app_nil_r. }
  cbn [crlf].
  assert (∃ d1, (if c =? 10 then write_serial_char 13 else mret tt) d = Ok ((), d1) ∧
    sent d d1 (if c =? 10 then [13] else [])) as (d1 & E1 & Hs1).
  { destruct (c =? 10); [by apply write_char_ok|]. exists d. split; [done|].
    unfold sent. by rewrite app_nil_r. }
  rewrite (bind_ok _ _ _ _ _ E1).
  destruct (write_char_ok c d1 Hc) as (d2 & E2 & Hs2); [by destruct Hs1 as (_ & ? & _)|].
  rewrite (bind_ok _ _ _ _ _ E2).
  destruct (IH d2) as (d3 & E3 & Hs3); [by destruct Hs2 as (_ & ? & _)|].
  exists d3. split; [exact E3|].
  replace ((if c =? 10 then [13; 10] else [c]) ++ crlf (c_text s))
    with ((if c =? 10 then [13] else []) ++ [c] ++ crlf (c_text s)).
  - eapply sent_trans; [exact Hs1|]. by eapply sent_trans.
  - by destruct (Z.eqb_spec c 10) as [->|].
Qed.

(** Printing reads a string up to its terminator. *)
Lemma print_serial_text s d : print_serial s d = print_serial (c_text s) d.
Proof.
  revert d; induction s as [|c s IH]; intros d; [done|]. cbn [c_text print_serial].
  destruct (Z.eqb_spec c 0); [done|]. cbn [print_serial]. destruct (Z.eqb_spec c 0); [done|].
  apply bind_cong; [done|]. intros _ d1. apply bind_cong; [done|]. intros _ d2. apply IH.
Qed.

Lemma init_serial_ok d : ∃ d', init_serial d = Ok ((), d') ∧ sent d d' [].
Proof.
  unfold init_serial, COM1. cbn [Z.add Pos.add Pos.succ Pos.add_carry].
  repeat io_step. eexists. split; [reflexivity|]. unfold sent.
  split; [|split; [|split; [|split]]]; io_trace; try reflexivity.
  cbn. by rewrite app_nil_r.
Qed.
End serial.

(** * Properties *)

(** C39: after [init_serial], which sends nothing and leaves the divisor latch
    closed, [print_serial] sends exactly the text up to the terminator, with a
    carriage return before every newline; neither touches another device; the busy-wait
    before every character ends because the UART becomes idle. *)
Theorem serial_prints (D : Type) (PL : Platform D) (d : D) (s : list Z) (Hs : bytes s) :
  ∃ d1 d2, init_serial d = Ok ((), d1) ∧ print_serial s d1 = Ok ((), d2) ∧
    u_tx (com1 d2) = u_tx (com1 d) ++ crlf (c_text s) ∧
    pic1 d2 = pic1 d ∧ pic2 d2 = pic2 d ∧ pit d2 = pit d.
Proof.
  destruct (init_serial_ok d) as (d1 & E1 & Hs1).
  destruct (print_serial_ok s d1 Hs (proj1 (proj2 Hs1))) as (d2 & E2 & Hs2).
  destruct (sent_trans _ _ _ _ _ Hs1 Hs2) as (Ht & _ & ?). by exists d1, d2.
Qed.

Lemma serial_prints_witness :
  ∃ d1 d2, init_serial demo_board = Ok ((), d1) ∧
    print_serial (cstr "ok" ++ [10]) d1 = Ok ((), d2) ∧
    u_tx (com1 d2) = u_tx (com1 demo_board) ++ [111; 107; 13; 10].
Proof.
  destruct (serial_prints board board_platform demo_board (cstr "ok" ++ [10]))
    as (d1 & d2 & E1 & E2 & Ht & _).
  - unfold bytes. apply (Forall_impl (λ c, c ∈ range 0 256)); [apply (bool_decide_unpack _); vm_compute; exact I|]. intros c Hc. apply elem_of_range in Hc. lia.
  - exists d1, d2. split; [exact E1|]. split; [exact E2|exact Ht].
Defined.
