(* ===== verification/Framebuffer.v ===== *)
(** * Framebuffer text console ([kernel/drivers/framebuffer.cpp])

    The font, the pixels, the cursor and the control characters; what a glyph
    and a scroll do to every pixel, how the cursor moves, and the number
    formats. *)
From stdpp Require Import base tactics strings gmap numbers list.
From S2P Require Import Prelude CString Digits Memory.

Local Open Scope Z_scope.
Local Open Scope nova_scope.

(** ** Data *)

(** The 8x8 font, characters 0x20 to 0x7F. *)
Definition font8x8 : list (list Z) := [
  [0x00; 0x00; 0x00; 0x00; 0x00; 0x00; 0x00; 0x00];
  [0x18; 0x3C; 0x3C; 0x18; 0x18; 0x00; 0x18; 0x00];
  [0x36; 0x36; 0x00; 0x00; 0x00; 0x00; 0x00; 0x00];
  [0x36; 0x36; 0x7F; 0x36; 0x7F; 0x36; 0x36; 0x00];
  [0x0C; 0x3E; 0x03; 0x1E; 0x30; 0x1F; 0x0C; 0x00];
  [0x00; 0x63; 0x33; 0x18; 0x0C; 0x66; 0x63; 0x00];
  [0x1C; 0x36; 0x1C; 0x6E; 0x3B; 0x33; 0x6E; 0x00];
  [0x06; 0x06; 0x03; 0x00; 0x00; 0x00; 0x00; 0x00];
  [0x18; 0x0C; 0x06; 0x06; 0x06; 0x0C; 0x18; 0x00];
  [0x06; 0x0C; 0x18; 0x18; 0x18; 0x0C; 0x06; 0x00];
  [0x00; 0x66; 0x3C; 0xFF; 0x3C; 0x66; 0x00; 0x00];
  [0x00; 0x0C; 0x0C; 0x3F; 0x0C; 0x0C; 0x00; 0x00];
  [0x00; 0x00; 0x00; 0x00; 0x00; 0x0C; 0x0C; 0x06];
  [0x00; 0x00; 0x00; 0x3F; 0x00; 0x00; 0x00; 0x00];
  [0x00; 0x00; 0x00; 0x00; 0x00; 0x0C; 0x0C; 0x00];
  [0x60; 0x30; 0x18; 0x0C; 0x06; 0x03; 0x01; 0x00];
  [0x3E; 0x63; 0x73; 0x7B; 0x6F; 0x67; 0x3E; 0x00];
  [0x0C; 0x0E; 0x0C; 0x0C; 0x0C; 0x0C; 0x3F; 0x00];
  [0x1E; 0x33; 0x30; 0x1C; 0x06; 0x33; 0x3F; 0x00];
  [0x1E; 0x33; 0x30; 0x1C; 0x30; 0x33; 0x1E; 0x00];
  [0x38; 0x3C; 0x36; 0x33; 0x7F; 0x30; 0x78; 0x00];
  [0x3F; 0x03; 0x1F; 0x30; 0x30; 0x33; 0x1E; 0x00];
  [0x1C; 0x06; 0x03; 0x1F; 0x33; 0x33; 0x1E; 0x00];
  [0x3F; 0x33; 0x30; 0x18; 0x0C; 0x0C; 0x0C; 0x00];
  [0x1E; 0x33; 0x33; 0x1E; 0x33; 0x33; 0x1E; 0x00];
  [0x1E; 0x33; 0x33; 0x3E; 0x30; 0x18; 0x0E; 0x00];
  [0x00; 0x0C; 0x0C; 0x00; 0x0C; 0x0C; 0x00; 0x00];
  [0x00; 0x0C; 0x0C; 0x00; 0x0C; 0x0C; 0x06; 0x00];
  [0x18; 0x0C; 0x06; 0x03; 0x06; 0x0C; 0x18; 0x00];
  [0x00; 0x00; 0x3F; 0x00; 0x3F; 0x00; 0x00; 0x00];
  [0x06; 0x0C; 0x18; 0x30; 0x18; 0x0C; 0x06; 0x00];
  [0x1E; 0x33; 0x30; 0x18; 0x0C; 0x00; 0x0C; 0x00];
  [0x3E; 0x63; 0x7B; 0x7B; 0x7B; 0x03; 0x1E; 0x00];
  [0x0C; 0x1E; 0x33; 0x33; 0x3F; 0x33; 0x33; 0x00];
  [0x3F; 0x66; 0x66; 0x3E; 0x66; 0x66; 0x3F; 0x00];
  [0x3C; 0x66; 0x03; 0x03; 0x03; 0x66; 0x3C; 0x00];
  [0x1F; 0x36; 0x66; 0x66; 0x66; 0x36; 0x1F; 0x00];
  [0x7F; 0x46; 0x16; 0x1E; 0x16; 0x46; 0x7F; 0x00];
  [0x7F; 0x46; 0x16; 0x1E; 0x16; 0x06; 0x0F; 0x00];
  [0x3C; 0x66; 0x03; 0x03; 0x73; 0x66; 0x7C; 0x00];
  [0x33; 0x33; 0x33; 0x3F; 0x33; 0x33; 0x33; 0x00];
  [0x1E; 0x0C; 0x0C; 0x0C; 0x0C; 0x0C; 0x1E; 0x00];
  [0x78; 0x30; 0x30; 0x30; 0x33; 0x33; 0x1E; 0x00];
  [0x67; 0x66; 0x36; 0x1E; 0x36; 0x66; 0x67; 0x00];
  [0x0F; 0x06; 0x06; 0x06; 0x46; 0x66; 0x7F; 0x00];
  [0x63; 0x77; 0x7F; 0x7F; 0x6B; 0x63; 0x63; 0x00];
  [0x63; 0x67; 0x6F; 0x7B; 0x73; 0x63; 0x63; 0x00];
  [0x1C; 0x36; 0x63; 0x63; 0x63; 0x36; 0x1C; 0x00];
  [0x3F; 0x66; 0x66; 0x3E; 0x06; 0x06; 0x0F; 0x00];
  [0x1E; 0x33; 0x33; 0x33; 0x3B; 0x1E; 0x38; 0x00];
  [0x3F; 0x66; 0x66; 0x3E; 0x36; 0x66; 0x67; 0x00];
  [0x1E; 0x33; 0x07; 0x0E; 0x38; 0x33; 0x1E; 0x00];
  [0x3F; 0x2D; 0x0C; 0x0C; 0x0C; 0x0C; 0x1E; 0x00];
  [0x33; 0x33; 0x33; 0x33; 0x33; 0x33; 0x3F; 0x00];
  [0x33; 0x33; 0x33; 0x33; 0x33; 0x1E; 0x0C; 0x00];
  [0x63; 0x63; 0x63; 0x6B; 0x7F; 0x77; 0x63; 0x00];
  [0x63; 0x63; 0x36; 0x1C; 0x36; 0x63; 0x63; 0x00];
  [0x33; 0x33; 0x33; 0x1E; 0x0C; 0x0C; 0x1E; 0x00];
  [0x7F; 0x63; 0x31; 0x18; 0x4C; 0x66; 0x7F; 0x00];
  [0x1E; 0x06; 0x06; 0x06; 0x06; 0x06; 0x1E; 0x00];
  [0x03; 0x06; 0x0C; 0x18; 0x30; 0x60; 0x40; 0x00];
  [0x1E; 0x18; 0x18; 0x18; 0x18; 0x18; 0x1E; 0x00];
  [0x08; 0x1C; 0x36; 0x63; 0x00; 0x00; 0x00; 0x00];
  [0x00; 0x00; 0x00; 0x00; 0x00; 0x00; 0x00; 0xFF];
  [0x0C; 0x0C; 0x18; 0x00; 0x00; 0x00; 0x00; 0x00];
  [0x00; 0x00; 0x1E; 0x30; 0x3E; 0x33; 0x6E; 0x00];
  [0x07; 0x06; 0x06; 0x3E; 0x66; 0x66; 0x3B; 0x00];
  [0x00; 0x00; 0x1E; 0x33; 0x03; 0x33; 0x1E; 0x00];
  [0x38; 0x30; 0x30; 0x3E; 0x33; 0x33; 0x6E; 0x00];
  [0x00; 0x00; 0x1E; 0x33; 0x3F; 0x03; 0x1E; 0x00];
  [0x1C; 0x36; 0x06; 0x0F; 0x06; 0x06; 0x0F; 0x00];
  [0x00; 0x00; 0x6E; 0x33; 0x33; 0x3E; 0x30; 0x1F];
  [0x07; 0x06; 0x36; 0x6E; 0x66; 0x66; 0x67; 0x00];
  [0x0C; 0x00; 0x0E; 0x0C; 0x0C; 0x0C; 0x1E; 0x00];
  [0x30; 0x00; 0x30; 0x30; 0x30; 0x33; 0x33; 0x1E];
  [0x07; 0x06; 0x66; 0x36; 0x1E; 0x36; 0x67; 0x00];
  [0x0E; 0x0C; 0x0C; 0x0C; 0x0C; 0x0C; 0x1E; 0x00];
  [0x00; 0x00; 0x33; 0x7F; 0x7F; 0x6B; 0x63; 0x00];
  [0x00; 0x00; 0x1F; 0x33; 0x33; 0x33; 0x33; 0x00];
  [0x00; 0x00; 0x1E; 0x33; 0x33; 0x33; 0x1E; 0x00];
  [0x00; 0x00; 0x3B; 0x66; 0x66; 0x3E; 0x06; 0x0F];
  [0x00; 0x00; 0x6E; 0x33; 0x33; 0x3E; 0x30; 0x78];
  [0x00; 0x00; 0x3B; 0x6E; 0x66; 0x06; 0x0F; 0x00];
  [0x00; 0x00; 0x3E; 0x03; 0x1E; 0x30; 0x1F; 0x00];
  [0x08; 0x0C; 0x3E; 0x0C; 0x0C; 0x2C; 0x18; 0x00];
  [0x00; 0x00; 0x33; 0x33; 0x33; 0x33; 0x6E; 0x00];
  [0x00; 0x00; 0x33; 0x33; 0x33; 0x1E; 0x0C; 0x00];
  [0x00; 0x00; 0x63; 0x6B; 0x7F; 0x7F; 0x36; 0x00];
  [0x00; 0x00; 0x63; 0x36; 0x1C; 0x36; 0x63; 0x00];
  [0x00; 0x00; 0x33; 0x33; 0x33; 0x3E; 0x30; 0x1F];
  [0x00; 0x00; 0x3F; 0x19; 0x0C; 0x26; 0x3F; 0x00];
  [0x38; 0x0C; 0x0C; 0x07; 0x0C; 0x0C; 0x38; 0x00];
  [0x18; 0x18; 0x18; 0x00; 0x18; 0x18; 0x18; 0x00];
  [0x07; 0x0C; 0x0C; 0x38; 0x0C; 0x0C; 0x07; 0x00];
  [0x6E; 0x3B; 0x00; 0x00; 0x00; 0x00; 0x00; 0x00];
  [0xFF; 0xFF; 0xFF; 0xFF; 0xFF; 0xFF; 0xFF; 0xFF]].

Definition CHAR_W : Z := 8.
Definition CHAR_H : Z := 10.

Definition COLOR_WHITE : Z := 0x00FFFFFF.
Definition COLOR_RED : Z := 0x00CC2200.
Definition COLOR_GREEN : Z := 0x0022CC44.
Definition COLOR_YELLOW : Z := 0x00CCCC00.
Definition COLOR_CYAN : Z := 0x0000CCCC.
Definition COLOR_DARK : Z := 0x00111122.

(** The static variables.  [s_fb] maps pixel indices to pixels: an index
    outside the framebuffer is outside the map. *)
Record fbcon := Fb {
  s_fb : gmap Z Z; s_width : Z; s_height : Z; s_pitch_p : Z; s_cols : Z; s_rows : Z;
  s_cur_col : Z; s_cur_row : Z; s_fg : Z; s_bg : Z
}.

Definition set_fb (m : gmap Z Z) (s : fbcon) : fbcon :=
  Fb m (s_width s) (s_height s) (s_pitch_p s) (s_cols s) (s_rows s)
     (s_cur_col s) (s_cur_row s) (s_fg s) (s_bg s).
Definition set_cursor (c r : Z) (s : fbcon) : fbcon :=
  Fb (s_fb s) (s_width s) (s_height s) (s_pitch_p s) (s_cols s) (s_rows s) c r (s_fg s) (s_bg s).

(** Zero-initialised statics, with the two colours. *)
Definition fbcon_boot : fbcon := Fb ∅ 0 0 0 0 0 0 0 COLOR_WHITE COLOR_DARK.

(** ** Operations *)

(** [s_fb[i]] read and written. *)
Definition fb_get (i : Z) : M fbcon Z := λ s, of_option (s_fb s !! i) s.
Definition fb_put (i v : Z) : M fbcon unit := λ s,
  match s_fb s !! i with
  | Some _ => Ok ((), set_fb (<[i := v]> (s_fb s)) s)
  | None => Fault
  end.

(** The index of a pixel, at the width of [uint32_t]. *)
Definition pix (s : fbcon) (x y : Z) : Z := u32 (u32 (y * s_pitch_p s) + x).

(** The body of [draw_glyph]'s inner loop. *)
Definition glyph_pixel (px py fg bg bits row col : Z) : M fbcon unit :=
  let pixel := if negb ((bits &&& (0x80 ≫ col)) =? 0) then fg else bg in
  let y := u32 (py + row) in
  let x := u32 (px + col) in
  s ← get;
  if (x <? s_width s) && (y <? s_height s) then fb_put (pix s x y) pixel else mret tt.

(** The glyph of a character, with the block for anything unprintable. *)
Definition glyph_of (c : Z) : option (list Z) :=
  let idx := u8 c in
  let idx := if (idx <? 0x20) || (0x7F <? idx) then 0x7F else idx in
  font8x8 !! Z.to_nat (idx - 0x20).

Definition draw_glyph (px py c fg bg : Z) : M fbcon unit :=
  glyph ← of_option (glyph_of c);
  for_each (range 0 CHAR_H) (λ row,
    bits ← (if row <? 8 then of_option (glyph !! Z.to_nat row) else mret 0);
    for_each (range 0 CHAR_W) (λ col, glyph_pixel px py fg bg bits row col)).

Definition scroll_up : M fbcon unit :=
  s ← get;
  let scroll_px := CHAR_H in
  for_each (range 0 (u32 (s_height s - scroll_px))) (λ y,
    for_each (range 0 (s_width s)) (λ x,
      v ← fb_get (pix s x (u32 (y + scroll_px))); fb_put (pix s x y) v)) ≫= λ _,
  let y0 := u32 (s_height s - scroll_px) in
  for_each (range y0 (s_height s - y0)) (λ y,
    for_each (range 0 (s_width s)) (λ x, fb_put (pix s x y) (s_bg s))).

Definition fb_set_color (fg bg : Z) : M fbcon unit :=
  modify (λ s, Fb (s_fb s) (s_width s) (s_height s) (s_pitch_p s) (s_cols s) (s_rows s)
                  (s_cur_col s) (s_cur_row s) fg bg).

Definition fb_clear : M fbcon unit :=
  s ← get;
  for_each (range 0 (s_height s)) (λ y,
    for_each (range 0 (s_width s)) (λ x, fb_put (pix s x y) (s_bg s))) ≫= λ _,
  modify (set_cursor 0 0).

(** [fb] holds the pixels at the given address. *)
Definition fb_init (fb : gmap Z Z) (width height pitch : Z) : M fbcon unit :=
  modify (λ s, Fb fb width height (pitch / 4) (width / CHAR_W) (height / CHAR_H)
                  (s_cur_col s) (s_cur_row s) (s_fg s) (s_bg s)) ≫= λ _,
  fb_clear.

(** To the next line, scrolling at the bottom. *)
Definition next_row : M fbcon unit :=
  modify (λ s, set_cursor 0 (u32 (s_cur_row s + 1)) s) ≫= λ _,
  s ← get;
  if s_rows s <=? s_cur_row s then
    scroll_up ≫= λ _,
    modify (λ s, set_cursor (s_cur_col s) (u32 (s_rows s - 1)) s)
  else mret tt.

(** A character that is not a control character. *)
Definition put_plain (c : Z) : M fbcon unit :=
  s ← get;
  draw_glyph (u32 (s_cur_col s * CHAR_W)) (u32 (s_cur_row s * CHAR_H)) c (s_fg s) (s_bg s) ≫= λ _,
  modify (λ s, set_cursor (u32 (s_cur_col s + 1)) (s_cur_row s) s) ≫= λ _,
  s ← get;
  if s_cols s <=? s_cur_col s then next_row else mret tt.

(** [while (s_cur_col < next_tab) fb_putchar(' ');] *)
Fixpoint tab_loop (fuel : nat) (next_tab : Z) : M fbcon unit :=
  s ← get;
  if s_cur_col s <? next_tab then
    match fuel with
    | O => nofuel
    | S fuel => put_plain 32 ≫= λ _, tab_loop fuel next_tab
    end
  else mret tt.

(** A tab stop is at most four columns away. *)
Definition TAB_FUEL : nat := 4.

Definition fb_putchar (c : Z) : M fbcon unit :=
  s ← get;
  if c =? 13 then modify (λ s, set_cursor 0 (s_cur_row s) s)
  else if c =? 8 then
    modify (λ s, if 0 <? s_cur_col s then set_cursor (s_cur_col s - 1) (s_cur_row s) s else s) ≫= λ _,
    s ← get;
    draw_glyph (u32 (s_cur_col s * CHAR_W)) (u32 (s_cur_row s * CHAR_H)) 32 (s_fg s) (s_bg s)
  else if c =? 9 then
    tab_loop TAB_FUEL (u32 (s_cur_col s + 4) &&& u32 (Z.lnot 3))
  else if c =? 10 then next_row
  else put_plain c.

Fixpoint fb_print (s : list Z) : M fbcon unit :=
  match s with
  | [] => mret tt
  | c :: s => if c =? 0 then mret tt else fb_putchar c ≫= λ _, fb_print s
  end.

(** The buffers, of 17 and 21 characters, are not initialised. *)
Definition print_u64_hex (v : Z) : M fbcon unit :=
  fb_print (cstr "0x") ≫= λ _,
  buf ← on_local (replicate 17 0) (arr_put 16 0 ≫= λ _, hex_loop (reverse (range 0 16)) v);
  fb_print buf.
Definition print_u64_dec (v : Z) : M fbcon unit :=
  if v =? 0 then fb_putchar 48 else
  buf ← on_local (replicate 21 0) (dec_buffer v);
  fb_print buf.

Definition fb_print_hex (prefix : list Z) (val : Z) : M fbcon unit :=
  fb_print prefix ≫= λ _, print_u64_hex val ≫= λ _, fb_putchar 10.
Definition fb_print_dec (prefix : list Z) (val : Z) : M fbcon unit :=
  fb_print prefix ≫= λ _, print_u64_dec val ≫= λ _, fb_putchar 10.

Definition fb_cursor_row (s : fbcon) : Z := s_cur_row s.
Definition fb_cursor_col (s : fbcon) : Z := s_cur_col s.

(** ** The screen as an image *)

(** The geometry of a usable console: at least one cell, a pitch that covers the
    width, indices within 32 bits, the framebuffer mapped. *)
Record fb_geo (s : fbcon) : Prop := {
  fo_width : 8 ≤ s_width s ≤ s_pitch_p s;
  fo_height : 10 ≤ s_height s;
  fo_size : s_height s * s_pitch_p s < 2 ^ 32;
  fo_cols : s_cols s = s_width s / CHAR_W;
  fo_rows : s_rows s = s_height s / CHAR_H;
  fo_map : ∀ i, 0 ≤ i < s_height s * s_pitch_p s → is_Some (s_fb s !! i)
}.

(** And the cursor on the screen. *)
Record fb_ok (s : fbcon) : Prop := {
  fo_geo : fb_geo s;
  fo_col : 0 ≤ s_cur_col s < s_cols s;
  fo_row : 0 ≤ s_cur_row s < s_rows s
}.

Definition on_screen (s : fbcon) (x y : Z) : Prop := 0 ≤ x < s_width s ∧ 0 ≤ y < s_height s.
Definition pixel (s : fbcon) (x y : Z) : Z := default 0 (s_fb s !! (y * s_pitch_p s + x)).

(** [st] differs from [s] in its pixels only, and they form the image [img]. *)
Definition shows (s st : fbcon) (img : Z → Z → Z) : Prop :=
  st = set_fb (s_fb st) s ∧
  (∀ i, 0 ≤ i < s_height s * s_pitch_p s → is_Some (s_fb st !! i)) ∧
  ∀ x y, on_screen s x y → s_fb st !! (y * s_pitch_p s + x) = Some (img x y).

(** * Lemmas *)

Section image.
Context (s : fbcon) (Hok : fb_geo s).

Lemma pix_range x y : on_screen s x y → 0 ≤ y * s_pitch_p s + x < s_height s * s_pitch_p s.
Proof using Hok. intros [Hx Hy]. destruct Hok as [[Hw Hp] Hh _ _ _ _]. nia. Qed.

Lemma pix_eq x y : on_screen s x y → pix s x y = y * s_pitch_p s + x.
Proof using Hok.
  intros H. pose proof (pix_range x y H) as Hr. destruct H as [Hx Hy].
  destruct Hok as [[Hw Hp] Hh Hsz _ _ _]. unfold pix.
  rewrite (u32_small (y * s_pitch_p s)) by nia. apply u32_small. lia.
Qed.

Lemma pix_inj x y x' y' :
  on_screen s x y → on_screen s x' y' →
  y * s_pitch_p s + x = y' * s_pitch_p s + x' → x = x' ∧ y = y'.
Proof using Hok.
  intros [Hx Hy] [Hx' Hy'] He. destruct Hok as [[Hw Hp] _ _ _ _ _].
  assert (y = y') as -> by nia. lia.
Qed.

Lemma shows_self : shows s s (pixel s).
Proof using Hok.
  split; [by destruct s|]. split; [apply Hok|]. intros x y Hxy. unfold pixel.
  by destruct (fo_map _ Hok _ (pix_range x y Hxy)) as [v ->].
Qed.

Lemma shows_ext st img img' :
  shows s st img → (∀ x y, on_screen s x y → img x y = img' x y) → shows s st img'.
Proof using.
  intros (H1 & H2 & H3) He. split; [done|]. split; [done|].
  intros x y Hxy. rewrite <- He by done. by apply H3.
Qed.

(** Reading and writing one pixel. *)
Lemma get_shows st img x y :
  shows s st img → on_screen s x y → fb_get (pix s x y) st = Ok (img x y, st).
Proof using Hok.
  intros (_ & _ & Hi) Hxy. rewrite pix_eq by done. unfold fb_get. by rewrite (Hi x y Hxy).
Qed.

Lemma put_shows st img x y v :
  shows s st img → on_screen s x y →
  ∃ st', fb_put (pix s x y) v st = Ok ((), st') ∧
    shows s st' (λ x' y', if (x' =? x) && (y' =? y) then v else img x' y').
Proof using Hok.
  intros (H1 & Hm & Hi) Hxy. rewrite pix_eq by done.
  exists (set_fb (<[y * s_pitch_p s + x := v]> (s_fb st)) st). split.
  { unfold fb_put. by rewrite (Hi x y Hxy). }
  split; [by rewrite H1|]. split.
  - intros i Hir. cbn [set_fb s_fb]. destruct (decide (y * s_pitch_p s + x = i)) as [->|].
    + rewrite lookup_insert_eq. eauto.
    + rewrite lookup_insert_ne by done. by apply Hm.
  - intros x' y' Hxy'. cbn [set_fb s_fb].
    destruct (decide (y * s_pitch_p s + x = y' * s_pitch_p s + x')) as [He|Hne].
    + destruct (pix_inj x y x' y' Hxy Hxy' He) as [-> ->].
      by rewrite lookup_insert_eq, !Z.eqb_refl.
    + rewrite lookup_insert_ne by done. rewrite (Hi x' y' Hxy').
      destruct (Z.eqb_spec x' x) as [->|], (Z.eqb_spec y' y) as [->|]; done.
Qed.

(** A counted loop: the image after [k] iterations is [img k]. *)
Lemma loop_shows lo n (body : Z → M fbcon unit) (img : Z → Z → Z → Z) st :
  0 ≤ n → shows s st (img lo) →
  (∀ k st, lo ≤ k < lo + n → shows s st (img k) →
     ∃ st', body k st = Ok ((), st') ∧ shows s st' (img (k + 1))) →
  ∃ st', for_each (range lo n) body st = Ok ((), st') ∧ shows s st' (img (lo + n)).
Proof using.
  intros Hn H0 Hbody.
  destruct (for_each_inv (λ done st, shows s st (img (lo + Z.of_nat (length done)))) body
    (range lo n) st) as (st' & E & Hs).
  - intros dn k rest st1 Hd Hs. destruct (range_split _ _ _ _ _ Hd) as (-> & Hk & _).
    destruct (Hbody _ st1 Hk Hs) as (st2 & E & Hs2). exists st2. split; [exact E|].
    rewrite length_app. cbn [length].
    by replace (lo + Z.of_nat (length dn + 1)) with (lo + Z.of_nat (length dn) + 1) by lia.
  - by rewrite Z.add_0_r.
  - exists st'. rewrite length_range in Hs. split; [exact E|].
    by replace (lo + Z.of_nat (Z.to_nat n)) with (lo + n) in Hs by lia.
Qed.

(** A rectangle of whole rows, [new] computed pixel by pixel from what the
    image shows so far. *)
Definition rows_done (y0 : Z) (new old : Z → Z → Z) (y x : Z) : Z → Z → Z := λ x' y',
  if (y0 <=? y') && ((y' <? y) || ((y' =? y) && (x' <? x))) then new x' y' else old x' y'.

Lemma rows_loop y0 n (body : Z → Z → M fbcon unit) (new old : Z → Z → Z) st :
  0 ≤ y0 → 0 ≤ n → y0 + n ≤ s_height s → shows s st old →
  (∀ x y st, on_screen s x y → y0 ≤ y < y0 + n → shows s st (rows_done y0 new old y x) →
     ∃ st', body y x st = Ok ((), st') ∧ shows s st' (rows_done y0 new old y (x + 1))) →
  ∃ st', for_each (range y0 n) (λ y, for_each (range 0 (s_width s)) (body y)) st = Ok ((), st') ∧
    shows s st' (λ x y, if (y0 <=? y) && (y <? y0 + n) then new x y else old x y).
Proof using Hok.
  intros Hy0 Hn Hmax Hold Hbody. destruct Hok as [[Hw _] _ _ _ _ _].
  destruct (loop_shows y0 n (λ y, for_each (range 0 (s_width s)) (body y))
    (λ y, rows_done y0 new old y 0) st Hn) as (st' & E & Hs).
  - apply (shows_ext _ _ _ Hold). intros x y [Hx Hy]. unfold rows_done.
    destruct (Z.leb_spec y0 y), (Z.ltb_spec y y0), (Z.eqb_spec y y0), (Z.ltb_spec x 0);
      cbn; done || lia.
  - intros y st1 Hy Hs1.
    destruct (loop_shows 0 (s_width s) (body y) (λ x, rows_done y0 new old y x) st1)
      as (st2 & E2 & Hs2); [lia|exact Hs1| |].
    + intros x st3 Hx Hs3. apply Hbody; [split; lia|lia|exact Hs3].
    + exists st2. split; [exact E2|]. apply (shows_ext _ _ _ Hs2). intros x' y' [Hx' Hy'].
      unfold rows_done. destruct (Z.leb_spec y0 y'), (Z.ltb_spec y' y), (Z.eqb_spec y' y),
        (Z.ltb_spec x' (0 + s_width s)), (Z.ltb_spec y' (y + 1)), (Z.eqb_spec y' (y + 1)),
        (Z.ltb_spec x' 0); cbn; done || lia.
  - exists st'. split; [exact E|]. apply (shows_ext _ _ _ Hs). intros x y [Hx Hy].
    unfold rows_done. destruct (Z.leb_spec y0 y), (Z.ltb_spec y (y0 + n)),
      (Z.eqb_spec y (y0 + n)), (Z.ltb_spec x 0); cbn; done || lia.
Qed.

(** One pixel of such a rectangle. *)
Lemma rows_put y0 x y v new old st :
  on_screen s x y → y0 ≤ y → shows s st (rows_done y0 new old y x) → new x y = v →
  ∃ st', fb_put (pix s x y) v st = Ok ((), st') ∧ shows s st' (rows_done y0 new old y (x + 1)).
Proof using Hok.
  intros Hxy Hy Hs <-. destruct (put_shows st _ x y (new x y) Hs Hxy) as (st' & E & Hs').
  exists st'. split; [exact E|]. apply (shows_ext _ _ _ Hs'). intros x' y' _.
  unfold rows_done. destruct (Z.eqb_spec x' x) as [->|], (Z.eqb_spec y' y) as [->|]; cbn [andb];
    rewrite ?Z.eqb_refl, ?Z.ltb_irrefl; cbn [andb orb].
  - destruct (Z.leb_spec y0 y); [|lia]. by destruct (Z.ltb_spec x (x + 1)); [|lia].
  - by destruct (Z.eqb_spec y' y).
  - destruct (Z.ltb_spec x' x), (Z.ltb_spec x' (x + 1)); done || lia.
  - by destruct (Z.eqb_spec y' y).
Qed.

(** Filling rows with the background. *)
Lemma fill_rows y0 n v st img :
  0 ≤ y0 → 0 ≤ n → y0 + n ≤ s_height s → shows s st img →
  ∃ st', for_each (range y0 n) (λ y, for_each (range 0 (s_width s)) (λ x,
           fb_put (pix s x y) v)) st = Ok ((), st') ∧
    shows s st' (λ x y, if (y0 <=? y) && (y <? y0 + n) then v else img x y).
Proof using Hok.
  intros Hy0 Hn Hmax Hs.
  apply (rows_loop y0 n (λ y x, fb_put (pix s x y) v) (λ _ _, v) img st Hy0 Hn Hmax Hs).
  intros x y st' Hxy Hy Hs'. apply (rows_put y0 x y v (λ _ _, v) img); [done|lia|done|done].
Qed.

(** Scrolling: every row takes the one ten below it, the last ten are blank. *)
Lemma scroll_shows :
  ∃ st', scroll_up s = Ok ((), st') ∧
    shows s st' (λ x y, if y <? s_height s - CHAR_H then pixel s x (y + CHAR_H) else s_bg s).
Proof using Hok.
  pose proof (fo_height _ Hok) as Hh. pose proof (fo_width _ Hok). pose proof (fo_size _ Hok).
  assert (s_height s < 2 ^ 32) as Hh32 by nia.
  unfold scroll_up. rewrite (bind_ok _ _ _ s s) by done. unfold CHAR_H.
  rewrite (u32_small (s_height s - 10)) by lia.
  destruct (rows_loop 0 (s_height s - 10) (λ y x, v ← fb_get (pix s x (u32 (y + 10)));
      fb_put (pix s x y) v) (λ x y, pixel s x (y + 10)) (pixel s) s) as (st1 & E1 & Hs1);
    [lia..|apply shows_self| |].
  { intros x y st Hxy Hy Hst. destruct Hxy as [Hx _]. rewrite u32_small by lia.
    rewrite (bind_ok _ _ _ _ _ (get_shows st _ x (y + 10) Hst ltac:(split; lia))).
    apply (rows_put 0); [split; lia|lia|exact Hst|]. unfold rows_done.
    destruct (Z.ltb_spec (y + 10) y), (Z.eqb_spec (y + 10) y); try lia.
    by rewrite andb_false_r. }
  rewrite (bind_ok _ _ _ _ _ E1).
  destruct (fill_rows (s_height s - 10) (s_height s - (s_height s - 10)) (s_bg s) st1 _
    ltac:(lia) ltac:(lia) ltac:(lia) Hs1) as (st2 & E2 & Hs2).
  exists st2. split; [exact E2|]. apply (shows_ext _ _ _ Hs2). intros x y [Hx Hy].
  destruct (Z.leb_spec (s_height s - 10) y), (Z.ltb_spec y (s_height s - 10)),
    (Z.ltb_spec y (s_height s - 10 + (s_height s - (s_height s - 10)))),
    (Z.leb_spec 0 y), (Z.ltb_spec y (0 + (s_height s - 10))); cbn; done || lia.
Qed.
End image.

(** ** Glyphs *)

Lemma glyph_total c : ∃ g, glyph_of c = Some g ∧ length g = 8%nat.
Proof.
  unfold glyph_of. pose proof (u8_range c) as Hc.
  set (idx := if (u8 c <? 0x20) || (0x7F <? u8 c) then 0x7F else u8 c).
  assert (0 ≤ idx - 0x20 < 96) as Hi.
  { unfold idx. destruct (Z.ltb_spec (u8 c) 0x20), (Z.ltb_spec 0x7F (u8 c)); cbn; lia. }
  pose proof (range_forallb (λ i, match font8x8 !! Z.to_nat i with
    | Some g => Nat.eqb (length g) 8 | None => false end) 0 96 (idx - 0x20) eq_refl ltac:(lia)) as H.
  cbv beta in H. destruct (font8x8 !! Z.to_nat (idx - 0x20)) as [g|]; [|done].
  exists g. split; [done|]. by apply Nat.eqb_eq.
Qed.

(** Whether row [r], column [c] of a glyph is set; the two rows below the font's
    eight are blank. *)
Definition ink (g : list Z) (r c : Z) : bool :=
  Z.testbit (if r <? 8 then default 0 (g !! Z.to_nat r) else 0) (7 - c).

(** The cell at pixel [(px, py)]. *)
Definition in_cell (px py x y : Z) : bool :=
  ((px <=? x) && (x <? px + CHAR_W)) && ((py <=? y) && (y <? py + CHAR_H)).

Definition cell_color (g : list Z) (px py fg bg x y : Z) : Z :=
  if ink g (y - py) (x - px) then fg else bg.

Lemma bit_column bits c : 0 ≤ c < 8 → negb ((bits &&& (0x80 ≫ c)) =? 0) = Z.testbit bits (7 - c).
Proof.
  intros Hc. rewrite <- land_bit_test by lia. do 4 f_equal.
  assert (c = 0 ∨ c = 1 ∨ c = 2 ∨ c = 3 ∨ c = 4 ∨ c = 5 ∨ c = 6 ∨ c = 7)
    as [->|[->|[->|[->|[->|[->|[->| ->]]]]]]] by lia; reflexivity.
Qed.

(** The image while a glyph is drawn, [r] whole rows and [c] columns of the next. *)
Definition glyph_img (s : fbcon) (g : list Z) (px py fg bg r c : Z) : Z → Z → Z := λ x y,
  if ((px <=? x) && (x <? px + 8)) && ((py <=? y) &&
     ((y <? py + r) || ((y =? py + r) && (x <? px + c))))
  then cell_color g px py fg bg x y else pixel s x y.

Lemma glyph_pixel_shows s st g px py fg bg r c bits :
  fb_geo s → 0 ≤ px → px + 8 < 2 ^ 32 → 0 ≤ py → py + 10 < 2 ^ 32 → 0 ≤ r < 10 → 0 ≤ c < 8 →
  bits = (if r <? 8 then default 0 (g !! Z.to_nat r) else 0) →
  shows s st (glyph_img s g px py fg bg r c) →
  ∃ st', glyph_pixel px py fg bg bits r c st = Ok ((), st') ∧
    shows s st' (glyph_img s g px py fg bg r (c + 1)).
Proof.
  intros Hok Hpx Hpx' Hpy Hpy' Hr Hc Hbits Hs. unfold glyph_pixel.
  rewrite bit_column, !u32_small by lia. rewrite (bind_ok _ _ _ st st) by done.
  assert (s_width st = s_width s ∧ s_height st = s_height s ∧ pix st (px + c) (py + r)
          = pix s (px + c) (py + r)) as (Hw & Hh & Hp).
  { destruct Hs as [-> _]. done. }
  rewrite Hw, Hh, Hp.
  destruct (Z.ltb_spec (px + c) (s_width s)) as [Hx|Hx],
    (Z.ltb_spec (py + r) (s_height s)) as [Hy|Hy]; cbn [andb].
  2-4: exists st; split; [done|]; apply (shows_ext s st _ _ Hs); intros x y [Hx' Hy'];
    unfold glyph_img; destruct (Z.leb_spec px x), (Z.ltb_spec x (px + 8)), (Z.leb_spec py y),
      (Z.ltb_spec y (py + r)), (Z.eqb_spec y (py + r)), (Z.ltb_spec x (px + c)),
      (Z.ltb_spec x (px + (c + 1))); cbn; done || lia.
  destruct (put_shows s Hok st _ (px + c) (py + r)
    (if Z.testbit bits (7 - c) then fg else bg) Hs) as (st' & E & Hs'); [split; lia|].
  exists st'. split; [exact E|]. apply (shows_ext s st' _ _ Hs'). intros x y Hxy.
  unfold glyph_img. destruct (Z.eqb_spec x (px + c)) as [->|], (Z.eqb_spec y (py + r)) as [->|];
    cbn [andb].
  - unfold cell_color, ink. replace (py + r - py) with r by lia.
    replace (px + c - px) with c by lia. rewrite <- Hbits.
    destruct (Z.leb_spec px (px + c)), (Z.ltb_spec (px + c) (px + 8)), (Z.leb_spec py (py + r)),
      (Z.ltb_spec (py + r) (py + r)), (Z.ltb_spec (px + c) (px + (c + 1))); cbn; done || lia.
  - destruct (Z.ltb_spec y (py + r)); done.
  - destruct (Z.leb_spec px x), (Z.ltb_spec x (px + 8)), (Z.leb_spec py (py + r)),
      (Z.ltb_spec (py + r) (py + r)), (Z.ltb_spec x (px + c)), (Z.ltb_spec x (px + (c + 1)));
      cbn; done || lia.
  - done.
Qed.

Lemma draw_shows s px py c fg bg g :
  fb_geo s → 0 ≤ px → px + 8 < 2 ^ 32 → 0 ≤ py → py + 10 < 2 ^ 32 → glyph_of c = Some g →
  length g = 8%nat →
  ∃ st', draw_glyph px py c fg bg s = Ok ((), st') ∧
    shows s st' (λ x y, if in_cell px py x y then cell_color g px py fg bg x y else pixel s x y).
Proof.
  intros Hok Hpx Hpx' Hpy Hpy' Hg Hl. unfold draw_glyph.
  rewrite (bind_ok _ _ _ g s) by (by rewrite Hg). unfold CHAR_H, CHAR_W.
  destruct (loop_shows s 0 10 (λ row,
    bits ← (if row <? 8 then of_option (g !! Z.to_nat row) else mret 0);
    for_each (range 0 8) (λ col, glyph_pixel px py fg bg bits row col))
    (λ r, glyph_img s g px py fg bg r 0) s) as (st' & E & Hs).
  - lia.
  - apply (shows_ext s s _ _ (shows_self s Hok)). intros x y _. unfold glyph_img.
    destruct (Z.leb_spec px x), (Z.ltb_spec x (px + 8)), (Z.leb_spec py y),
      (Z.ltb_spec y (py + 0)), (Z.eqb_spec y (py + 0)), (Z.ltb_spec x (px + 0)); cbn; done || lia.
  - intros r st Hr Hs. set (bits := if r <? 8 then default 0 (g !! Z.to_nat r) else 0).
    rewrite (bind_ok _ _ _ bits st).
    2:{ unfold bits. destruct (Z.ltb_spec r 8); [|done].
        destruct (lookup_lt_is_Some_2 g (Z.to_nat r)) as [b Hb]; [lia|]. by rewrite Hb. }
    destruct (loop_shows s 0 8 (glyph_pixel px py fg bg bits r)
      (λ c, glyph_img s g px py fg bg r c) st) as (st2 & E2 & Hs2); [lia|exact Hs| |].
    + intros k st3 Hk Hs3. by apply glyph_pixel_shows.
    + exists st2. split; [exact E2|]. apply (shows_ext s st2 _ _ Hs2). intros x y _.
      unfold glyph_img. destruct (Z.leb_spec px x), (Z.ltb_spec x (px + 8)), (Z.leb_spec py y),
        (Z.ltb_spec y (py + r)), (Z.eqb_spec y (py + r)), (Z.ltb_spec x (px + (0 + 8))),
        (Z.ltb_spec y (py + (r + 1))), (Z.eqb_spec y (py + (r + 1))), (Z.ltb_spec x (px + 0));
        cbn; done || lia.
  - exists st'. split; [exact E|]. apply (shows_ext s st' _ _ Hs). intros x y _.
    unfold glyph_img, in_cell, CHAR_W, CHAR_H.
    destruct (Z.leb_spec px x), (Z.ltb_spec x (px + 8)), (Z.leb_spec py y),
      (Z.ltb_spec y (py + (0 + 10))), (Z.eqb_spec y (py + (0 + 10))), (Z.ltb_spec x (px + 0)),
      (Z.ltb_spec y (py + 10)); cbn; done || lia.
Qed.

(** ** The cursor *)

(** The next line, or the last one again after a scroll. *)
Definition line_feed (rows : Z) (p : Z * Z) : Z * Z := (0, Z.min (p.2 + 1) (rows - 1)).

Definition tab_stop (col : Z) : Z := 4 * (col / 4) + 4.

(** Where a character takes the cursor (column, row). *)
Definition next_cursor (cols rows : Z) (p : Z * Z) (c : Z) : Z * Z :=
  if c =? 13 then (0, p.2)
  else if c =? 8 then (Z.max 0 (p.1 - 1), p.2)
  else if c =? 9 then (tab_stop p.1, p.2)
  else if c =? 10 then line_feed rows p
  else if p.1 + 1 <? cols then (p.1 + 1, p.2) else line_feed rows p.

Definition cursor (s : fbcon) : Z * Z := (s_cur_col s, s_cur_row s).

(** Same geometry and colours. *)
Definition same_config (s s' : fbcon) : Prop :=
  s_width s' = s_width s ∧ s_height s' = s_height s ∧ s_pitch_p s' = s_pitch_p s ∧
  s_cols s' = s_cols s ∧ s_rows s' = s_rows s ∧ s_fg s' = s_fg s ∧ s_bg s' = s_bg s.

Lemma same_config_trans s1 s2 s3 : same_config s1 s2 → same_config s2 s3 → same_config s1 s3.
Proof. unfold same_config. intuition congruence. Qed.

(** A console operation that succeeds on [s] with the cursor at [p]. *)
Definition moves (m : M fbcon unit) (s : fbcon) (p : Z * Z) : Prop :=
  ∃ s', m s = Ok ((), s') ∧ fb_ok s' ∧ same_config s s' ∧ cursor s' = p.

Lemma shows_config s st img : fb_ok s → shows s st img → fb_ok st ∧ same_config s st ∧ cursor st = cursor s.
Proof.
  intros [[? ? ? ? ? ?] ? ?] (-> & Hm & _). split; [|done]. split; [by split|done|done].
Qed.

Lemma set_cursor_ok s c r :
  fb_ok s → 0 ≤ c < s_cols s → 0 ≤ r < s_rows s → fb_ok (set_cursor c r s).
Proof. intros [[? ? ? ? ? ?] _ _] ? ?. split; [by split|done|done]. Qed.

Lemma cell_range s :
  fb_ok s → s_width s < 2 ^ 32 ∧ s_height s < 2 ^ 32 ∧
    0 ≤ s_cur_col s * 8 ∧ s_cur_col s * 8 + 8 ≤ s_width s ∧
    0 ≤ s_cur_row s * 10 ∧ s_cur_row s * 10 + 10 ≤ s_height s ∧
    s_cols s * 8 ≤ s_width s ∧ s_rows s * 10 ≤ s_height s.
Proof.
  intros [[[Hw Hp] Hh Hsz Hc Hr _] Hcol Hrow]. unfold CHAR_W, CHAR_H in *.
  assert (s_width s < 2 ^ 32 ∧ s_height s < 2 ^ 32) as [? ?] by nia.
  rewrite Hc, Hr in *. Z.div_mod_to_equations. lia.
Qed.

Lemma draw_moves s px py c fg bg :
  fb_ok s → 0 ≤ px → px + 8 < 2 ^ 32 → 0 ≤ py → py + 10 < 2 ^ 32 →
  moves (draw_glyph px py c fg bg) s (cursor s).
Proof.
  intros Hok Hpx Hpx' Hpy Hpy'. destruct (glyph_total c) as (g & Hg & Hl).
  destruct (draw_shows s px py c fg bg g (fo_geo _ Hok) Hpx Hpx' Hpy Hpy' Hg Hl) as (st & E & Hs).
  destruct (shows_config s st _ Hok Hs) as (? & ? & ?). by exists st.
Qed.

(** To the next line. *)
Lemma next_row_moves s :
  fb_ok s → moves next_row s (line_feed (s_rows s) (cursor s)).
Proof.
  intros Hok. pose proof (cell_range s Hok) as (? & ? & ? & ? & ? & ? & ? & ?).
  pose proof (fo_col _ Hok) as Hc. pose proof (fo_row _ Hok) as Hr.
  unfold next_row, moves, line_feed, cursor. cbn [snd].
  set (s1 := set_cursor 0 (s_cur_row s + 1) s).
  rewrite (bind_ok _ _ _ () s1) by (unfold modify; by rewrite u32_small by lia).
  rewrite (bind_ok _ _ _ s1 s1) by done.
  change (s_rows s1) with (s_rows s). change (s_cur_row s1) with (s_cur_row s + 1).
  destruct (Z.leb_spec (s_rows s) (s_cur_row s + 1)) as [Hbot|Hroom].
  - assert (fb_geo s1) as Hg by (destruct Hok as [[? ? ? ? ? ?] _ _]; by split).
    destruct (scroll_shows s1 Hg) as (st & E & Hs & Hm & _).
    rewrite (bind_ok _ _ _ _ _ E).
    exists (set_cursor 0 (s_rows s - 1) st). rewrite Hs. unfold modify.
    cbn [set_cursor set_fb s_cur_col s_rows s1]. rewrite u32_small by lia.
    split; [done|]. split; [|split; [done|]].
    + destruct Hg. split; [by split|cbn; lia|cbn; lia].
    + unfold cursor. cbn. f_equal. lia.
  - exists s1. split; [done|]. split; [apply set_cursor_ok; [done|lia|lia]|]. split; [done|].
    unfold cursor. cbn. f_equal. lia.
Qed.

(** The test and line feed behind a drawn character. *)
Lemma put_plain_moves c s :
  fb_ok s →
  moves (put_plain c) s (if s_cur_col s + 1 <? s_cols s then (s_cur_col s + 1, s_cur_row s)
                         else line_feed (s_rows s) (cursor s)).
Proof.
  intros Hok. pose proof (cell_range s Hok) as (? & ? & ? & ? & ? & ? & ? & ?).
  pose proof (fo_col _ Hok) as Hc. pose proof (fo_row _ Hok) as Hr.
  unfold put_plain, moves. rewrite (bind_ok _ _ _ s s) by done.
  unfold CHAR_W, CHAR_H. rewrite !u32_small by lia.
  destruct (draw_moves s (s_cur_col s * 8) (s_cur_row s * 10) c (s_fg s) (s_bg s) Hok)
    as (s1 & E1 & Hok1 & Hc1 & Hcur1); [lia..|].
  rewrite (bind_ok _ _ _ _ _ E1). injection Hcur1 as Hcc Hcr.
  pose proof Hc1 as (_ & _ & _ & Hcols & Hrows & _).
  set (s2 := set_cursor (s_cur_col s + 1) (s_cur_row s) s1).
  rewrite (bind_ok _ _ _ () s2) by (unfold modify; by rewrite Hcc, Hcr, u32_small by lia).
  rewrite (bind_ok _ _ _ s2 s2) by done.
  change (s_cols s2) with (s_cols s1). change (s_cur_col s2) with (s_cur_col s + 1).
  rewrite Hcols. destruct (Z.leb_spec (s_cols s) (s_cur_col s + 1)),
    (Z.ltb_spec (s_cur_col s + 1) (s_cols s)); try lia.
  - assert (next_row s2 = next_row (set_cursor (s_cur_col s) (s_cur_row s) s1)) as -> by done.
    destruct (next_row_moves (set_cursor (s_cur_col s) (s_cur_row s) s1))
      as (s3 & E3 & Hok3 & Hc3 & Hcur3); [apply set_cursor_ok; [done|lia|lia]|].
    exists s3. split; [exact E3|]. split; [done|]. split; [by eapply same_config_trans|].
    rewrite Hcur3. cbn. by rewrite Hrows.
  - exists s2. split; [done|]. split; [apply set_cursor_ok; [done|lia|lia]|]. by split.
Qed.

(** The loop of the tab character, when the stop is on this line. *)
Lemma tab_moves fuel stop s :
  fb_ok s → s_cur_col s ≤ stop < s_cols s → stop - s_cur_col s ≤ Z.of_nat fuel →
  moves (tab_loop fuel stop) s (stop, s_cur_row s).
Proof.
  revert s; induction fuel as [|fuel IH]; intros s Hok Hstop Hf; unfold moves;
    cbn [tab_loop]; rewrite (bind_ok _ _ _ s s) by done;
    destruct (Z.ltb_spec (s_cur_col s) stop); try lia.
  - exists s. split; [done|]. split; [done|]. split; [done|]. unfold cursor. f_equal. lia.
  - destruct (put_plain_moves 32 s Hok) as (s1 & E1 & Hok1 & Hc1 & Hcur1).
    rewrite (bind_ok _ _ _ _ _ E1).
    destruct (Z.ltb_spec (s_cur_col s + 1) (s_cols s)); [|lia]. injection Hcur1 as Hcc Hcr.
    pose proof Hc1 as (_ & _ & _ & Hcols & _).
    destruct (IH s1 Hok1) as (s2 & E2 & Hok2 & Hc2 & Hcur2); [lia|lia|].
    exists s2. split; [exact E2|]. split; [done|]. split; [by eapply same_config_trans|].
    by rewrite Hcur2, Hcr.
  - exists s. split; [done|]. split; [done|]. split; [done|]. unfold cursor. f_equal. lia.
Qed.

(** And when it is not: the column wraps to 0 before it gets there. *)
Lemma tab_diverges fuel stop s :
  fb_ok s → s_cols s ≤ stop → tab_loop fuel stop s = NoFuel.
Proof.
  revert s; induction fuel as [|fuel IH]; intros s Hok Hstop; pose proof (fo_col _ Hok);
    cbn [tab_loop]; rewrite (bind_ok _ _ _ s s) by done;
    destruct (Z.ltb_spec (s_cur_col s) stop); try lia; [done|].
  destruct (put_plain_moves 32 s Hok) as (s1 & E1 & Hok1 & Hc1 & _).
  rewrite (bind_ok _ _ _ _ _ E1). apply IH; [done|]. destruct Hc1 as (_ & _ & _ & -> & _). done.
Qed.

Lemma tab_stop_eq s : fb_ok s → u32 (s_cur_col s + 4) &&& u32 (Z.lnot 3) = tab_stop (s_cur_col s).
Proof.
  intros Hok. pose proof (cell_range s Hok) as (? & ? & ? & ? & ? & ? & ? & ?).
  pose proof (fo_col _ Hok) as Hc. rewrite (u32_small (s_cur_col s + 4)) by lia.
  assert (∀ a, 0 ≤ a < 2 ^ 32 → a &&& u32 (Z.lnot 3) = 4 * (a / 4)) as Hand.
  { intros a Ha. replace (4 * (a / 4)) with ((a ≫ 2) ≪ 2).
    2:{ rewrite Z.shiftl_mul_pow2, Z.shiftr_div_pow2 by lia. change (2 ^ 2) with 4. lia. }
    apply bits_eq. intros i Hi. rewrite Z.land_spec, Z.shiftl_spec by done.
    destruct (decide (i < 2)).
    - rewrite (Z.testbit_neg_r _ (i - 2)) by lia.
      assert (i = 0 ∨ i = 1) as [-> | ->] by lia; apply andb_false_r.
    - rewrite Z.shiftr_spec by lia. replace (i - 2 + 2) with i by lia.
      destruct (decide (i < 32)).
      + unfold u32. rewrite Z.mod_pow2_bits_low, Z.lnot_spec by lia.
        change 3 with (Z.ones 2). rewrite Z.ones_spec_high by lia. apply andb_true_r.
      + by rewrite (testbit_above 32 a) by lia. }
  rewrite Hand by lia. unfold tab_stop. Z.div_mod_to_equations. lia.
Qed.

(** Every character except a tab in the last tab stop. *)
Lemma putchar_moves c s :
  fb_ok s → (c = 9 → tab_stop (s_cur_col s) < s_cols s) →
  moves (fb_putchar c) s (next_cursor (s_cols s) (s_rows s) (cursor s) c).
Proof.
  intros Hok Htab. pose proof (cell_range s Hok) as (? & ? & ? & ? & ? & ? & ? & ?).
  pose proof (fo_col _ Hok) as Hc. pose proof (fo_row _ Hok) as Hr.
  unfold fb_putchar, moves, next_cursor. rewrite (bind_ok _ _ _ s s) by done.
  destruct (c =? 13).
  { exists (set_cursor 0 (s_cur_row s) s). split; [done|].
    split; [apply set_cursor_ok; [done|lia|lia]|done]. }
  destruct (c =? 8).
  { set (s1 := set_cursor (Z.max 0 (s_cur_col s - 1)) (s_cur_row s) s).
    assert (fb_ok s1) as Hok1 by (apply set_cursor_ok; [done|lia|lia]).
    rewrite (bind_ok _ _ _ () s1).
    2:{ unfold modify. do 2 f_equal. unfold s1. destruct (Z.ltb_spec 0 (s_cur_col s)).
        - f_equal. lia.
        - replace (Z.max 0 (s_cur_col s - 1)) with (s_cur_col s) by lia. by destruct s. }
    rewrite (bind_ok _ _ _ s1 s1) by done.
    pose proof (cell_range s1 Hok1) as (? & ? & ? & ? & ? & ? & ? & ?).
    unfold CHAR_W, CHAR_H. rewrite !u32_small by lia.
    destruct (draw_moves s1 (s_cur_col s1 * 8) (s_cur_row s1 * 10) 32 (s_fg s1) (s_bg s1) Hok1)
      as (s2 & E2 & ? & ? & ?); [lia..|]. exists s2. done. }
  destruct (Z.eqb_spec c 9) as [->|].
  { rewrite tab_stop_eq by done. specialize (Htab eq_refl).
    assert (s_cur_col s < tab_stop (s_cur_col s) ≤ s_cur_col s + 4) as Hstop.
    { unfold tab_stop. clear -Hc. Z.div_mod_to_equations. lia. }
    change (cursor s).1 with (s_cur_col s). apply tab_moves; [done|lia|unfold TAB_FUEL; lia]. }
  destruct (c =? 10); [by apply next_row_moves|]. by apply put_plain_moves.
Qed.

(** A text without tabs. *)
Definition no_tab (s : list Z) : Prop := Forall (λ c, c ≠ 9) s.

Lemma print_moves t s :
  fb_ok s → no_tab t →
  moves (fb_print t) s (foldl (next_cursor (s_cols s) (s_rows s)) (cursor s) (c_text t)).
Proof.
  intros Hok Ht. revert s Hok; induction Ht as [|c t Hc Ht IH]; intros s Hok;
    unfold moves; cbn [fb_print c_text].
  { by exists s. }
  destruct (Z.eqb_spec c 0) as [->|]; [by exists s|].
  destruct (putchar_moves c s Hok ltac:(done)) as (s1 & E1 & Hok1 & Hc1 & Hcur1).
  rewrite (bind_ok _ _ _ _ _ E1). destruct (IH s1 Hok1) as (s2 & E2 & Hok2 & Hc2 & Hcur2).
  exists s2. split; [exact E2|]. split; [done|]. split; [by eapply same_config_trans|].
  rewrite Hcur2. cbn [foldl]. rewrite Hcur1. by destruct Hc1 as (_ & _ & _ & -> & -> & _).
Qed.

(** ** Numbers *)

Lemma fb_print_text t s : fb_print (c_text t) s = fb_print t s.
Proof.
  revert s; induction t as [|c t IH]; intros s; [done|]. cbn [c_text fb_print].
  destruct (Z.eqb_spec c 0); [done|]. cbn [fb_print]. destruct (Z.eqb_spec c 0); [done|].
  unfold mbind, M_bind. destruct (fb_putchar c s) as [[[] s']| |]; [apply IH|done..].
Qed.

Lemma fb_print_app a b s : no_nul a → fb_print (a ++ b) s = (fb_print a ≫= λ _, fb_print b) s.
Proof.
  intros Ha. revert s; induction Ha as [|c a Hc Ha IH]; intros s; [done|]. cbn [app fb_print].
  destruct (Z.eqb_spec c 0); [done|]. unfold mbind, M_bind in *.
  destruct (fb_putchar c s) as [[[] s']| |]; [apply IH|done..].
Qed.

Lemma fb_print_one c s : c ≠ 0 → fb_print [c] s = fb_putchar c s.
Proof.
  intros Hc. cbn [fb_print]. destruct (Z.eqb_spec c 0); [done|]. unfold mbind, M_bind.
  by destruct (fb_putchar c s) as [[[] ?]| |].
Qed.

(** [print_u64_dec] prints the decimal representation. *)
Lemma print_decimal v s : 0 ≤ v < 2 ^ 64 → print_u64_dec v s = fb_print (decimal v) s.
Proof.
  intros Hv. unfold print_u64_dec. destruct (Z.eqb_spec v 0) as [->|Hne];
    [change (decimal 0) with [48]; by rewrite fb_print_one|].
  destruct (dec_buffer_ok v (replicate 21 0)) as (rest & E); [lia|done|].
  rewrite (bind_ok _ _ _ (decimal v ++ 0 :: rest) s) by (unfold on_local; by rewrite E).
  rewrite <- fb_print_text, c_text_app; [done|].
  eapply Forall_impl; [apply (decimal_ok v Hv)|]. unfold dec_digit. lia.
Qed.

(** [print_u64_hex] prints all 16 digits. *)
Lemma print_hexadecimal v s :
  print_u64_hex v s = (fb_print (cstr "0x") ≫= λ _, fb_print (hex_text 16 v)) s.
Proof.
  unfold print_u64_hex. apply bind_cong; [done|]. intros _ s1.
  rewrite (bind_ok _ _ _ (hex_text 16 v ++ [0]) s1) by reflexivity.
  rewrite <- fb_print_text, c_text_app; [done|]. apply hex_text_no_nul.
Qed.

(** ** Initialisation *)

Lemma clear_ok s :
  fb_geo s → 0 < s_cols s → 0 < s_rows s →
  ∃ st, fb_clear s = Ok ((), st) ∧ fb_ok st ∧ same_config s st ∧ cursor st = (0, 0) ∧
    ∀ x y, on_screen s x y → pixel st x y = s_bg s.
Proof.
  intros Hg Hc Hr. unfold fb_clear. rewrite (bind_ok _ _ _ s s) by done.
  pose proof (fo_height _ Hg).
  destruct (fill_rows s Hg 0 (s_height s) (s_bg s) s (pixel s)) as (st & E & Hs & Hm & Hp);
    [lia..|by apply shows_self|].
  rewrite (bind_ok _ _ _ _ _ E). exists (set_cursor 0 0 st). split; [done|].
  assert (∀ x y, on_screen s x y → pixel (set_cursor 0 0 st) x y = s_bg s) as Hpx.
  { intros x y Hxy. unfold pixel. cbn [s_fb set_cursor s_pitch_p].
    assert (s_pitch_p st = s_pitch_p s) as -> by by rewrite Hs.
    rewrite (Hp x y Hxy). destruct Hxy as [Hx Hy].
    destruct (Z.leb_spec 0 y), (Z.ltb_spec y (0 + s_height s)); cbn; done || lia. }
  rewrite Hs in *. cbn [set_fb s_fb set_cursor] in *. split; [|split; [done|split; [done|exact Hpx]]].
  destruct Hg. split; [by split|cbn; lia|cbn; lia].
Qed.

Lemma init_ok fb width height pitch s :
  8 ≤ width ≤ pitch / 4 → 10 ≤ height → height * (pitch / 4) < 2 ^ 32 →
  (∀ i, 0 ≤ i < height * (pitch / 4) → is_Some (fb !! i)) →
  ∃ st, fb_init fb width height pitch s = Ok ((), st) ∧ fb_ok st ∧ cursor st = (0, 0) ∧
    s_width st = width ∧ s_height st = height ∧ s_cols st = width / 8 ∧ s_rows st = height / 10 ∧
    s_fg st = s_fg s ∧ s_bg st = s_bg s ∧ s_pitch_p st = pitch / 4 ∧
    ∀ x y, 0 ≤ x < width → 0 ≤ y < height → pixel st x y = s_bg s.
Proof.
  intros Hw Hh Hsz Hm. unfold fb_init. set (s0 := Fb fb width height (pitch / 4) (width / CHAR_W) (height / CHAR_H)
    (s_cur_col s) (s_cur_row s) (s_fg s) (s_bg s)).
  rewrite (bind_ok _ _ _ () s0) by done.
  assert (fb_geo s0) as Hg by by split.
  assert (0 < s_cols s0 ∧ 0 < s_rows s0) as [Hc Hr].
  { unfold s0, CHAR_W, CHAR_H. cbn. Z.div_mod_to_equations. lia. }
  destruct (clear_ok s0 Hg Hc Hr) as (st & E & Hok & (? & ? & ? & ? & ? & ? & ?) & Hcur & Hp).
  exists st. split; [exact E|]. split; [done|]. split; [done|]. split; [done|]. split; [done|].
  split; [done|]. split; [done|]. split; [done|]. split; [done|]. split; [done|].
  intros x y Hx Hy. by apply Hp.
Qed.

(** A 64 x 20 screen: eight columns, two rows. *)
Lemma demo_screen :
  ∃ s, fb_init (fill 0 1280 0) 64 20 256 fbcon_boot = Ok ((), s) ∧ fb_ok s ∧
    cursor s = (0, 0) ∧ s_cols s = 8 ∧ s_rows s = 2.
Proof.
  destruct (init_ok (fill 0 1280 0) 64 20 256 fbcon_boot)
    as (s & E & Hok & Hcur & _ & _ & Hc & Hr & _).
  - change (256 / 4) with 64. lia.
  - lia.
  - change (256 / 4) with 64. lia.
  - intros i Hi. apply (fill_mapped 0 1280 0). change (256 / 4) with 64 in Hi. lia.
  - exists s. split; [exact E|]. split; [exact Hok|]. split; [exact Hcur|]. by split.
Qed.

(** * Properties *)

(** On a usable console every character, except a tab whose stop is off
    the line, is output without leaving the framebuffer and keeps the console
    usable; carriage return, backspace, tab, newline and line wrap move the
    cursor as a terminal does, and past the last row the screen scrolls and the
    cursor stays there. *)
Theorem fb_putchar_cursor (s : fbcon) (c : Z)
    (Hok : fb_ok s) (Htab : c = 9 → tab_stop (s_cur_col s) < s_cols s) :
  ∃ s', fb_putchar c s = Ok ((), s') ∧ fb_ok s' ∧ same_config s s' ∧
    cursor s' = next_cursor (s_cols s) (s_rows s) (cursor s) c.
Proof. by apply putchar_moves. Qed.

Lemma fb_putchar_cursor_witness :
  ∃ s s', fb_putchar 9 s = Ok ((), s') ∧ cursor s' = (4, 0).
Proof.
  destruct demo_screen as (s & _ & Hok & Hcur & Hc & Hr). injection Hcur as Hcc Hcr.
  destruct (fb_putchar_cursor s 9 Hok) as (s' & E & _ & _ & Hcur').
  - intros _. rewrite Hcc, Hc. reflexivity.
  - exists s, s'. split; [exact E|]. rewrite Hcur'. unfold next_cursor, cursor. rewrite Hcc, Hcr.
    reflexivity.
Defined.

(** [draw_glyph] paints exactly the 8 by 10 cell at its position: a pixel
    of the cell has the foreground colour where the font's bit is set (the
    block glyph for a byte outside 0x20 to 0x7F) and the background colour
    elsewhere, and every other pixel of the screen, a cell clipped by the edge
    included, stays as it was. *)
Theorem draw_glyph_pixels (s : fbcon) (px py c fg bg : Z) (Hok : fb_ok s)
    (Hpx : 0 ≤ px < 2 ^ 31) (Hpy : 0 ≤ py < 2 ^ 31) :
  ∃ g s', glyph_of c = Some g ∧ draw_glyph px py c fg bg s = Ok ((), s') ∧
    fb_ok s' ∧ cursor s' = cursor s ∧
    ∀ x y, on_screen s x y →
      pixel s' x y = if in_cell px py x y then (if ink g (y - py) (x - px) then fg else bg)
                     else pixel s x y.
Proof.
  destruct (glyph_total c) as (g & Hg & Hl).
  destruct (draw_shows s px py c fg bg g (fo_geo _ Hok)) as (st & E & Hs); [lia..|done|done|].
  destruct (shows_config s st _ Hok Hs) as (Hok' & (_ & _ & Hp & _) & Hcur).
  exists g, st. split; [done|]. split; [exact E|]. split; [done|]. split; [done|].
  intros x y Hxy. destruct Hs as (_ & _ & Hi). unfold pixel at 1. rewrite Hp.
  by rewrite (Hi x y Hxy).
Qed.

Lemma draw_glyph_pixels_witness :
  ∃ s s', draw_glyph 0 0 33 COLOR_WHITE COLOR_DARK s = Ok ((), s') ∧
    pixel s' 3 0 = COLOR_WHITE ∧ pixel s' 0 0 = COLOR_DARK.
Proof.
  destruct demo_screen as (s & E & Hok & _).
  destruct (init_ok (fill 0 1280 0) 64 20 256 fbcon_boot)
    as (s0 & E0 & _ & _ & Hw & Hh & _); [change (256 / 4) with 64; lia|lia|
      change (256 / 4) with 64; lia| |].
  { intros i Hi. apply (fill_mapped 0 1280 0). change (256 / 4) with 64 in Hi. lia. }
  rewrite E in E0. injection E0 as <-.
  destruct (draw_glyph_pixels s 0 0 33 COLOR_WHITE COLOR_DARK Hok)
    as (g & s' & Hg & E' & _ & _ & Hp); [lia|lia|].
  injection Hg as <-. exists s, s'. split; [exact E'|].
  split; (rewrite Hp; [reflexivity|unfold on_screen; rewrite Hw, Hh; lia]).
Defined.

(** Scrolling copies every pixel row from ten rows below and fills the
    last ten rows with the background, reading and writing only inside the
    framebuffer. *)
Theorem scroll_moves_up (s : fbcon) (Hok : fb_ok s) :
  ∃ s', scroll_up s = Ok ((), s') ∧ fb_ok s' ∧ cursor s' = cursor s ∧
    ∀ x y, on_screen s x y →
      pixel s' x y = if y <? s_height s - 10 then pixel s x (y + 10) else s_bg s.
Proof.
  destruct (scroll_shows s (fo_geo _ Hok)) as (st & E & Hs).
  destruct (shows_config s st _ Hok Hs) as (Hok' & (_ & _ & Hp & _) & Hcur).
  exists st. split; [exact E|]. split; [done|]. split; [done|].
  intros x y Hxy. destruct Hs as (_ & _ & Hi). unfold pixel at 1. rewrite Hp.
  by rewrite (Hi x y Hxy).
Qed.

Lemma scroll_moves_up_witness : ∃ s s', scroll_up s = Ok ((), s') ∧ fb_ok s'.
Proof.
  destruct demo_screen as (s & _ & Hok & _).
  destruct (scroll_moves_up s Hok) as (s' & E & Hok' & _). exists s, s'. exact (conj E Hok').
Defined.

(** C35: a tab in the last tab stop of a line never ends: its loop waits for a
    column that the line wrap resets to 0, whatever the number of iterations,
    so [fb_putchar] scrolls forever. *)
Theorem fb_tab_hangs (s : fbcon) (fuel : nat)
    (Hok : fb_ok s) (Htab : s_cols s ≤ tab_stop (s_cur_col s)) :
  tab_loop fuel (tab_stop (s_cur_col s)) s = NoFuel ∧ fb_putchar 9 s = NoFuel.
Proof.
  split; [by apply tab_diverges|]. unfold fb_putchar. rewrite (bind_ok _ _ _ s s) by done.
  cbn [Z.eqb Pos.eqb]. rewrite tab_stop_eq by done. by apply tab_diverges.
Qed.

Lemma fb_tab_hangs_witness :
  ∃ s, fb_ok s ∧ cursor s = (4, 0) ∧ ∀ fuel, tab_loop fuel 8 s = NoFuel.
Proof.
  destruct demo_screen as (s0 & _ & Hok0 & Hcur0 & Hc & Hr). injection Hcur0 as Hcc Hcr.
  set (s := set_cursor 4 0 s0).
  assert (fb_ok s) as Hok by (apply set_cursor_ok; [done|lia|lia]).
  exists s. split; [exact Hok|]. split; [reflexivity|]. intros fuel.
  apply (fb_tab_hangs s fuel Hok). unfold s. cbn [s_cols s_cur_col set_cursor]. rewrite Hc.
  vm_compute. discriminate.
Defined.

(** The number formatters terminate within their buffers: [print_u64_dec] prints
    the decimal representation of every 64-bit value, at most 20 digits, and
    [print_u64_hex] all of its 16 hexadecimal digits, which denote the value. *)
Theorem print_numbers (v : Z) (s : fbcon) (Hv : 0 ≤ v < 2 ^ 64) (Hok : fb_ok s) :
  ∃ s1 s2, print_u64_dec v s = Ok ((), s1) ∧ fb_print (decimal v) s = Ok ((), s1) ∧ fb_ok s1 ∧
    1 ≤ Z.of_nat (length (decimal v)) ≤ 20 ∧
    print_u64_hex v s = Ok ((), s2) ∧ fb_print (cstr "0x" ++ hex_text 16 v) s = Ok ((), s2) ∧
    fb_ok s2 ∧ num_value 16 (hex_text 16 v) = v.
Proof.
  destruct (decimal_ok v Hv) as (Hd & _ & Hlen & _).
  destruct (print_moves (decimal v) s Hok) as (s1 & E1 & Hok1 & _).
  { eapply Forall_impl; [exact Hd|]. unfold dec_digit. lia. }
  destruct (print_moves (cstr "0x" ++ hex_text 16 v) s Hok) as (s2 & E2 & Hok2 & _).
  { apply Forall_app. split; [by repeat constructor|]. apply hex_digits_all.
    intros w. apply hex_digit_byte. }
  exists s1, s2. split; [by rewrite print_decimal|]. split; [done|]. split; [done|]. split; [done|].
  split; [|split; [done|split; [done|]]].
  - rewrite print_hexadecimal, <- E2. symmetry. apply fb_print_app. by repeat constructor.
  - rewrite hex_text_value by lia. by apply Z.mod_small.
Qed.

Lemma print_numbers_witness :
  ∃ s s', print_u64_dec 18446744073709551615 s = Ok ((), s') ∧ fb_ok s'.
Proof.
  destruct demo_screen as (s & _ & Hok & _).
  destruct (print_numbers 18446744073709551615 s) as (s' & _ & E & _ & Hok' & _);
    [lia|exact Hok|]. exists s, s'. exact (conj E Hok').
Defined.
