(* ===== verification/Terminal.v ===== *)
(** * The console as a text terminal

    What [framebuffer.cpp] promises its callers: a grid of characters with a
    cursor, and the proof that the pixels the driver draws are always the picture
    of that grid. *)
From stdpp Require Import base tactics strings gmap numbers list.
From S2P Require Import Prelude CString Digits Memory Framebuffer.

Local Open Scope Z_scope.

(** ** Specification *)

(** A character in its colour, and a grid of them: a list of rows. *)
Record cell := Cell { cl_char : Z; cl_fg : Z }.
Record term := Term {
  t_cells : list (list cell); t_cols : Z; t_rows : Z; t_col : Z; t_row : Z; t_fg : Z; t_bg : Z
}.

Definition blank_row (cols : Z) : list cell := replicate (Z.to_nat cols) (Cell 32 0).
Definition blank_term (cols rows fg bg : Z) : term :=
  Term (replicate (Z.to_nat rows) (blank_row cols)) cols rows 0 0 fg bg.

Definition term_move (c r : Z) (t : term) : term :=
  Term (t_cells t) (t_cols t) (t_rows t) c r (t_fg t) (t_bg t).
Definition term_cells (l : list (list cell)) (t : term) : term :=
  Term l (t_cols t) (t_rows t) (t_col t) (t_row t) (t_fg t) (t_bg t).
Definition term_color (fg : Z) (t : term) : term :=
  Term (t_cells t) (t_cols t) (t_rows t) (t_col t) (t_row t) fg (t_bg t).
Definition term_clear (t : term) : term := blank_term (t_cols t) (t_rows t) (t_fg t) (t_bg t).

(** The character in the cell under the cursor. *)
Definition term_store (c : Z) (t : term) : term :=
  term_cells (alter (<[Z.to_nat (t_col t) := Cell c (t_fg t)]>) (Z.to_nat (t_row t)) (t_cells t)) t.

(** The first row goes, and the others move up. *)
Definition term_scroll (t : term) : term :=
  term_cells (drop 1 (t_cells t) ++ [blank_row (t_cols t)]) t.

Definition term_feed (t : term) : term :=
  if t_row t + 1 <? t_rows t then term_move 0 (t_row t + 1) t
  else term_scroll (term_move 0 (t_rows t - 1) t).

Definition term_plain (c : Z) (t : term) : term :=
  if t_col t + 1 <? t_cols t then term_move (t_col t + 1) (t_row t) (term_store c t)
  else term_feed (term_store c t).

Definition term_putchar (c : Z) (t : term) : term :=
  if c =? 13 then term_move 0 (t_row t) t
  else if c =? 8 then term_store 32 (term_move (Z.max 0 (t_col t - 1)) (t_row t) t)
  else if c =? 9 then Nat.iter (Z.to_nat (tab_stop (t_col t) - t_col t)) (term_plain 32) t
  else if c =? 10 then term_feed t
  else term_plain c t.

Definition term_print (s : list Z) (t : term) : term :=
  foldl (λ t c, term_putchar c t) t (c_text s).

(** No tab of the text has its stop behind the last column. *)
Fixpoint tabs_fit (s : list Z) (t : term) : Prop :=
  match s with
  | [] => True
  | c :: s =>
      if c =? 0 then True
      else (c = 9 → tab_stop (t_col t) < t_cols t) ∧ tabs_fit s (term_putchar c t)
  end.

(** The picture of a terminal: 8 by 10 pixels to a cell, the background in the
    margins. *)
Definition cell_at (t : term) (r c : Z) : option cell :=
  t_cells t !! Z.to_nat r ≫= (.!! Z.to_nat c).
Definition glyph_ink (c row col : Z) : bool :=
  match glyph_of c with Some g => ink g row col | None => false end.
Definition term_pixel (t : term) (x y : Z) : Z :=
  match cell_at t (y / CHAR_H) (x / CHAR_W) with
  | Some cl => if glyph_ink (cl_char cl) (y `mod` CHAR_H) (x `mod` CHAR_W) then cl_fg cl else t_bg t
  | None => t_bg t
  end.

(** The seven rows of a glyph that can be drawn on. *)
Definition glyph_picture (c : Z) : list (list Z) :=
  (λ row, (λ col, if glyph_ink c row col then 35 else 46) <$> seqZ 0 CHAR_W) <$> seqZ 0 7.

(** The console [s] shows the terminal [t]. *)
Record shows_term (s : fbcon) (t : term) : Prop := {
  sw_ok : fb_ok s;
  sw_size : t_cols t = s_cols s ∧ t_rows t = s_rows s;
  sw_cursor : cursor s = (t_col t, t_row t);
  sw_colors : s_fg s = t_fg t ∧ s_bg s = t_bg t;
  sw_length : length (t_cells t) = Z.to_nat (t_rows t);
  sw_rows : Forall (λ row, length row = Z.to_nat (t_cols t)) (t_cells t);
  sw_pixels : ∀ x y, on_screen s x y → pixel s x y = term_pixel t x y
}.

(** * Lemmas *)

(** *** The grid *)

Lemma cell_at_store c t r x :
  0 ≤ t_row t < Z.of_nat (length (t_cells t)) →
  (∀ row, t_cells t !! Z.to_nat (t_row t) = Some row → 0 ≤ t_col t < Z.of_nat (length row)) →
  0 ≤ r → 0 ≤ x →
  cell_at (term_store c t) r x =
    if (r =? t_row t) && (x =? t_col t) then Some (Cell c (t_fg t)) else cell_at t r x.
Proof.
  intros Hr Hc Hr0 Hx0. unfold cell_at. cbn [t_cells term_store term_cells].
  destruct (lookup_lt_is_Some_2 (t_cells t) (Z.to_nat (t_row t))) as [row Hrow]; [lia|].
  specialize (Hc row Hrow). destruct (Z.eqb_spec r (t_row t)) as [->|Hne]; cbn [andb].
  - rewrite list_lookup_alter_eq, Hrow. cbn [fmap option_fmap option_map mbind option_bind].
    destruct (Z.eqb_spec x (t_col t)) as [->|Hne].
    + apply list_lookup_insert_eq. lia.
    + apply list_lookup_insert_ne. lia.
  - rewrite list_lookup_alter_ne by lia. done.
Qed.

Lemma blank_pixel fg bg row col :
  (if glyph_ink (cl_char (Cell 32 fg)) row col then cl_fg (Cell 32 fg) else bg) = bg.
Proof.
  assert (glyph_ink 32 row col = false) as E; [|cbn [cl_char]; by rewrite E].
  unfold glyph_ink, ink. change (glyph_of 32) with (Some (replicate 8 0)).
  destruct (row <? 8); [|apply Z.testbit_0_l].
  destruct (replicate 8 0 !! Z.to_nat row) as [v|] eqn:E; [|apply Z.testbit_0_l].
  apply lookup_replicate in E as [-> _]. apply Z.testbit_0_l.
Qed.

Lemma blank_row_pixel cols bg x row col :
  match blank_row cols !! x with
  | Some cl => if glyph_ink (cl_char cl) row col then cl_fg cl else bg
  | None => bg
  end = bg.
Proof.
  destruct (blank_row cols !! x) as [cl|] eqn:E; [|done].
  apply lookup_replicate in E as [-> _]. apply blank_pixel.
Qed.

(** A pixel whose row of cells is blank, or in the margin, has the background. *)
Lemma term_pixel_blank t x y :
  (∀ row, t_cells t !! Z.to_nat (y / CHAR_H) = Some row → row = blank_row (t_cols t)) →
  term_pixel t x y = t_bg t.
Proof.
  intros H. unfold term_pixel, cell_at.
  destruct (t_cells t !! Z.to_nat (y / CHAR_H)) as [row|]; [|done].
  rewrite (H row eq_refl). apply blank_row_pixel.
Qed.

(** *** Pixels of a console *)

Lemma shows_pixel s st img x y :
  fb_geo s → shows s st img → on_screen s x y → pixel st x y = img x y.
Proof. intros Hg (E & _ & Hi) Hxy. rewrite E. unfold pixel. cbn [s_fb set_fb s_pitch_p]. by rewrite Hi. Qed.

(** The cell of a pixel. *)
Lemma in_cell_div col row x y : 0 ≤ x → 0 ≤ y →
  in_cell (col * CHAR_W) (row * CHAR_H) x y = (y / CHAR_H =? row) && (x / CHAR_W =? col).
Proof.
  intros Hx Hy. unfold in_cell, CHAR_W, CHAR_H.
  destruct (Z.eqb_spec (y / 10) row), (Z.eqb_spec (x / 8) col), (Z.leb_spec (col * 8) x),
    (Z.ltb_spec x (col * 8 + 8)), (Z.leb_spec (row * 10) y), (Z.ltb_spec y (row * 10 + 10));
    cbn; try done; Z.div_mod_to_equations; lia.
Qed.

Section ops.
Context (s : fbcon) (t : term) (H : shows_term s t).

Lemma sw_range : 0 ≤ t_col t < t_cols t ∧ 0 ≤ t_row t < t_rows t.
Proof using H.
  destruct H as [[_ Hc Hr] [-> ->] [= <- <-] _ _ _ _]. done.
Qed.

Lemma sw_row row : t_cells t !! Z.to_nat (t_row t) = Some row → Z.of_nat (length row) = t_cols t.
Proof using H.
  intros E. pose proof sw_range. pose proof (Forall_lookup_1 _ _ _ _ (sw_rows _ _ H) E) as ->. lia.
Qed.

(** The cursor moves on the screen. *)
Lemma move_shows c r : 0 ≤ c < t_cols t → 0 ≤ r < t_rows t →
  shows_term (set_cursor c r s) (term_move c r t).
Proof using H.
  intros Hc Hr. destruct H as [Hok [Hsc Hsr] _ Hcol Hl Hw Hp].
  split; try done. apply set_cursor_ok; [done|lia|lia].
Qed.

Lemma color_shows fg : shows_term
  (Fb (s_fb s) (s_width s) (s_height s) (s_pitch_p s) (s_cols s) (s_rows s)
      (s_cur_col s) (s_cur_row s) fg (t_bg t)) (term_color fg t).
Proof using H. destruct H as [[[] ? ?] ? ? ? ? ? ?]. by split. Qed.

(** A glyph at the cursor. *)
Lemma store_shows c :
  ∃ s', draw_glyph (u32 (s_cur_col s * CHAR_W)) (u32 (s_cur_row s * CHAR_H)) c (s_fg s) (s_bg s) s
        = Ok ((), s') ∧ shows_term s' (term_store c t).
Proof using H.
  pose proof sw_range as [Hcr Hrr]. pose proof H as [Hok [Hsc Hsr] Hcur [Hfg Hbg] Hl Hw Hp].
  injection Hcur as Hcc Hcrow.
  pose proof (cell_range s Hok) as (? & ? & ? & ? & ? & ? & ? & ?).
  destruct (glyph_total c) as (g & Hg & Hgl).
  unfold CHAR_W, CHAR_H. rewrite !u32_small by lia.
  destruct (draw_shows s (s_cur_col s * 8) (s_cur_row s * 10) c (s_fg s) (s_bg s) g (fo_geo _ Hok))
    as (s' & E & Hs); [lia..|done|done|].
  exists s'. split; [exact E|].
  destruct (shows_config s s' _ Hok Hs) as (Hok' & (_ & _ & _ & Hcols & Hrows & Hfg' & Hbg') & Hcur').
  split; cbn [term_store term_cells t_cols t_rows t_col t_row t_fg t_bg t_cells].
  - done.
  - split; congruence.
  - rewrite Hcur'. unfold cursor. by rewrite Hcc, Hcrow.
  - split; congruence.
  - by rewrite length_alter.
  - apply Forall_alter; [done|]. intros row _ Hrow. by rewrite length_insert.
  - intros x y Hxy.
    assert (on_screen s x y) as Hxy0 by (rewrite (proj1 Hs) in Hxy; exact Hxy).
    rewrite (shows_pixel _ _ _ _ _ (fo_geo _ Hok) Hs Hxy0). destruct Hxy0 as [Hx Hy].
    change 8 with CHAR_W. change 10 with CHAR_H. rewrite in_cell_div by lia.
    unfold term_pixel. rewrite cell_at_store.
    2: lia. 2: { intros row Hrow%sw_row. lia. }
    2,3: apply Z.div_pos; unfold CHAR_W, CHAR_H; lia.
    rewrite Hcc, Hcrow. cbn [t_bg term_store term_cells].
    destruct (Z.eqb_spec (y / CHAR_H) (t_row t)) as [Hr|]; [|exact (Hp x y (conj Hx Hy))].
    destruct (Z.eqb_spec (x / CHAR_W) (t_col t)) as [Hc|]; [|exact (Hp x y (conj Hx Hy))].
    cbn [andb cl_char cl_fg]. unfold cell_color, glyph_ink. rewrite Hg, <- Hr, <- Hc, Hfg, Hbg.
    unfold CHAR_W, CHAR_H. by rewrite (Z.mod_eq x 8), (Z.mod_eq y 10), !(Z.mul_comm (_ / _)) by lia.
Qed.
End ops.

(** *** Scrolling *)

(** The picture moves up by ten pixels; below, and in what was the margin, it is
    blank. *)
Lemma scroll_pixel t h x y :
  length (t_cells t) = Z.to_nat (t_rows t) → 10 ≤ h → t_rows t = h / CHAR_H → 0 ≤ y < h →
  term_pixel (term_scroll t) x y =
    if y <? h - CHAR_H then term_pixel t x (y + CHAR_H) else t_bg t.
Proof.
  intros Hl Hh Hr Hy. unfold CHAR_H in *.
  assert (∀ row, t_cells (term_scroll t) !! Z.to_nat (y / 10) = Some row →
    t_rows t - 1 ≤ y / 10 → row = blank_row (t_cols t)) as Hlast.
  { intros row E Hge. cbn [t_cells term_scroll term_cells] in E.
    rewrite lookup_app_r in E by (rewrite length_drop; lia).
    apply list_lookup_singleton_Some in E as [_ <-]. done. }
  destruct (Z.ltb_spec y (h - 10)) as [Hup|Hlow].
  2:{ apply (term_pixel_blank (term_scroll t)). unfold CHAR_H. intros row E. apply (Hlast row E).
      Z.div_mod_to_equations. lia. }
  assert ((y + 10) / 10 = y / 10 + 1) as Hq by (Z.div_mod_to_equations; lia).
  assert (0 ≤ y / 10) as Hq0 by (apply Z.div_pos; lia).
  destruct (decide (y / 10 < t_rows t - 1)) as [Hin|Hout].
  - unfold term_pixel, cell_at, CHAR_H. rewrite Hq. cbn [t_cells term_scroll term_cells t_bg].
    rewrite lookup_app_l by (rewrite length_drop; lia). rewrite lookup_drop.
    replace (1 + Z.to_nat (y / 10))%nat with (Z.to_nat (y / 10 + 1)) by lia.
    replace ((y + 10) `mod` 10) with (y `mod` 10) by (Z.div_mod_to_equations; lia). done.
  - rewrite (term_pixel_blank (term_scroll t)) by (unfold CHAR_H; intros row E; apply (Hlast row E); lia).
    unfold term_pixel, cell_at, CHAR_H. rewrite Hq.
    by rewrite (lookup_ge_None_2 (t_cells t)) by lia.
Qed.

Lemma feed_shows s t : shows_term s t →
  ∃ s', next_row s = Ok ((), s') ∧ shows_term s' (term_feed t).
Proof.
  intros H. pose proof (sw_range s t H) as [Hcr Hrr].
  pose proof H as [Hok [Hsc Hsr] Hcur [Hfg Hbg] Hl Hw Hp]. injection Hcur as Hcc Hcrow.
  pose proof (cell_range s Hok) as (? & ? & ? & ? & ? & ? & ? & ?). unfold next_row, term_feed.
  set (s1 := set_cursor 0 (s_cur_row s + 1) s).
  rewrite (bind_ok _ _ _ () s1) by (unfold modify; by rewrite u32_small by lia).
  rewrite (bind_ok _ _ _ s1 s1) by done.
  change (s_rows s1) with (s_rows s). change (s_cur_row s1) with (s_cur_row s + 1).
  destruct (Z.leb_spec (s_rows s) (s_cur_row s + 1)), (Z.ltb_spec (t_row t + 1) (t_rows t)); try lia.
  2:{ exists s1. split; [done|]. unfold s1. rewrite Hcrow. by apply move_shows; [|lia|lia]. }
  assert (fb_geo s1) as Hg by (destruct Hok as [[? ? ? ? ? ?] _ _]; by split).
  destruct (scroll_shows s1 Hg) as (st & E & Hs).
  rewrite (bind_ok _ _ _ _ _ E).
  pose proof Hs as (Est & Hm & _).
  exists (set_cursor 0 (s_rows s - 1) st). split.
  { unfold modify. rewrite Est. cbn [set_fb s_cur_col s_rows s1 set_cursor]. by rewrite u32_small by lia. }
  split; cbn [term_scroll term_move term_cells t_cols t_rows t_col t_row t_fg t_bg t_cells].
  - rewrite Est. destruct Hg. split; [by split|cbn; lia|cbn; lia].
  - rewrite Est. by split.
  - unfold cursor. cbn. by rewrite Hsr.
  - rewrite Est. by split.
  - rewrite length_app, length_drop. cbn [length]. lia.
  - apply Forall_app. split; [by apply Forall_drop|]. apply List.Forall_cons; [|done].
    apply length_replicate.
  - intros x y Hxy. assert (on_screen s1 x y) as Hxy1 by (rewrite Est in Hxy; exact Hxy).
    change (pixel (set_cursor 0 (s_rows s - 1) st) x y) with (pixel st x y).
    rewrite (shows_pixel _ _ _ _ _ Hg Hs Hxy1). destruct Hxy1 as [Hx Hy].
    change (term_pixel _ x y) with (term_pixel (term_scroll t) x y).
    rewrite (scroll_pixel t (s_height s)); [|done|lia|rewrite Hsr; apply Hok|exact Hy].
    change (s_height s1) with (s_height s). unfold CHAR_H in *.
    destruct (Z.ltb_spec y (s_height s - 10)); [|done]. apply Hp. split; [exact Hx|].
    split; [lia|]. lia.
Qed.

(** *** Characters and texts *)

Lemma plain_shows s t c : shows_term s t →
  ∃ s', put_plain c s = Ok ((), s') ∧ shows_term s' (term_plain c t).
Proof.
  intros H. destruct (store_shows s t H c) as (s1 & E & H1).
  pose proof (sw_range s t H) as [Hcr Hrr]. pose proof (cell_range s (sw_ok _ _ H)) as (? & _).
  pose proof (sw_cursor _ _ H1) as [= Hcc Hcrow]. pose proof (sw_size _ _ H1) as [Hsc Hsr].
  cbn [term_store term_cells t_col t_row t_cols t_rows] in Hcc, Hcrow, Hsc, Hsr.
  pose proof (cell_range s1 (sw_ok _ _ H1)) as (? & ? & ? & ? & ? & ? & ? & ?).
  unfold put_plain. rewrite (bind_ok _ _ _ s s) by done. rewrite (bind_ok _ _ _ _ _ E).
  set (s2 := set_cursor (s_cur_col s1 + 1) (s_cur_row s1) s1).
  rewrite (bind_ok _ _ _ () s2) by (unfold modify; by rewrite u32_small by lia).
  rewrite (bind_ok _ _ _ s2 s2) by done. unfold term_plain.
  change (s_cols s2) with (s_cols s1). change (s_cur_col s2) with (s_cur_col s1 + 1).
  destruct (Z.leb_spec (s_cols s1) (s_cur_col s1 + 1)), (Z.ltb_spec (t_col t + 1) (t_cols t)); try lia.
  - assert (next_row s2 = next_row s1) as -> by done. by apply feed_shows.
  - exists s2. split; [done|]. unfold s2. rewrite Hcc, Hcrow.
    apply (move_shows s1 (term_store c t) H1);
      cbn [term_store term_cells t_cols t_rows]; lia.
Qed.

(** The cursor after a character that does not end its row. *)
Lemma term_plain_col c t : t_col t + 1 < t_cols t →
  t_col (term_plain c t) = t_col t + 1 ∧ t_cols (term_plain c t) = t_cols t.
Proof. intros Hc. unfold term_plain. by destruct (Z.ltb_spec (t_col t + 1) (t_cols t)); [|lia]. Qed.

Lemma tab_shows fuel stop s t : shows_term s t →
  t_col t ≤ stop < t_cols t → stop - t_col t ≤ Z.of_nat fuel →
  ∃ s', tab_loop fuel stop s = Ok ((), s') ∧
    shows_term s' (Nat.iter (Z.to_nat (stop - t_col t)) (term_plain 32) t).
Proof.
  revert s t; induction fuel as [|fuel IH]; intros s t H Hstop Hf;
    pose proof (sw_cursor _ _ H) as [= Hcc _];
    cbn [tab_loop]; rewrite (bind_ok _ _ _ s s) by done; rewrite Hcc;
    destruct (Z.ltb_spec (t_col t) stop); try lia.
  1, 3: exists s; by replace (Z.to_nat (stop - t_col t)) with 0%nat by lia.
  destruct (plain_shows s t 32 H) as (s1 & E1 & H1). rewrite (bind_ok _ _ _ _ _ E1).
  destruct (term_plain_col 32 t) as [Hc1 Hcols1]; [lia|].
  destruct (IH s1 _ H1) as (s2 & E2 & H2); [lia|lia|].
  exists s2. split; [exact E2|]. rewrite Hc1 in H2.
  replace (Z.to_nat (stop - t_col t)) with (S (Z.to_nat (stop - (t_col t + 1)))) by lia.
  by rewrite Nat.iter_succ_r.
Qed.

Lemma putchar_shows s t c : shows_term s t → (c = 9 → tab_stop (t_col t) < t_cols t) →
  ∃ s', fb_putchar c s = Ok ((), s') ∧ shows_term s' (term_putchar c t).
Proof.
  intros H Htab. pose proof (sw_range s t H) as [Hcr Hrr].
  pose proof (sw_cursor _ _ H) as [= Hcc Hcrow]. pose proof (sw_size _ _ H) as [Hsc Hsr].
  unfold fb_putchar, term_putchar. rewrite (bind_ok _ _ _ s s) by done.
  destruct (c =? 13).
  { eexists. split; [reflexivity|]. rewrite Hcrow. by apply move_shows; [|lia|]. }
  destruct (c =? 8).
  { set (s1 := set_cursor (Z.max 0 (t_col t - 1)) (t_row t) s).
    assert (shows_term s1 (term_move (Z.max 0 (t_col t - 1)) (t_row t) t)) as H1
      by (apply move_shows; [done|lia|lia]).
    rewrite (bind_ok _ _ _ () s1).
    - rewrite (bind_ok _ _ _ s1 s1) by done. exact (store_shows s1 _ H1 32).
    - unfold modify, s1. do 2 f_equal. rewrite <- Hcc, <- Hcrow.
      destruct (Z.ltb_spec 0 (s_cur_col s)); [f_equal; lia|].
      replace (Z.max 0 (s_cur_col s - 1)) with (s_cur_col s) by lia. by destruct s. }
  destruct (Z.eqb_spec c 9) as [->|].
  { rewrite tab_stop_eq by apply H. specialize (Htab eq_refl). rewrite Hcc.
    assert (t_col t < tab_stop (t_col t) ≤ t_col t + 4) as Hst.
    { unfold tab_stop. clear -Hcr. Z.div_mod_to_equations. lia. }
    apply tab_shows; [done|lia|unfold TAB_FUEL; lia]. }
  destruct (c =? 10); [by apply feed_shows|by apply plain_shows].
Qed.

Lemma no_tab_fits u t : no_tab u → tabs_fit u t.
Proof.
  intros H. revert t; induction H as [|c u Hc Hu IH]; intros t; [done|]. cbn [tabs_fit].
  destruct (c =? 0); [done|]. split; [done|apply IH].
Qed.

Lemma print_shows u : ∀ s t, shows_term s t → tabs_fit u t →
  ∃ s', fb_print u s = Ok ((), s') ∧ shows_term s' (term_print u t).
Proof.
  induction u as [|c u IH]; intros s t H Hu;
    unfold term_print; cbn [fb_print c_text tabs_fit] in *; [by exists s|].
  destruct (c =? 0); [by exists s|]. destruct Hu as [Hc Hu].
  destruct (putchar_shows s t c H Hc) as (s1 & E1 & H1).
  rewrite (bind_ok _ _ _ _ _ E1). exact (IH s1 _ H1 Hu).
Qed.

(** A cleared screen. *)
Lemma cleared_shows s s' : same_config s s' → fb_ok s' → cursor s' = (0, 0) →
  (∀ x y, on_screen s x y → pixel s' x y = s_bg s) →
  shows_term s' (blank_term (s_cols s) (s_rows s) (s_fg s) (s_bg s)).
Proof.
  intros (Hw & Hh & _ & Hc & Hr & Hf & Hb) Hok Hcur Hp.
  split; cbn [blank_term t_cols t_rows t_col t_row t_fg t_bg t_cells]; try done.
  - apply length_replicate.
  - apply Forall_replicate, length_replicate.
  - intros x y Hxy. rewrite Hp by (unfold on_screen in *; by rewrite <- Hw, <- Hh).
    rewrite term_pixel_blank; [done|]. intros row Hrow. by apply lookup_replicate in Hrow as [-> _].
Qed.

Lemma clear_shows s t : shows_term s t →
  ∃ s', fb_clear s = Ok ((), s') ∧ shows_term s' (term_clear t).
Proof.
  intros H. pose proof (sw_range s t H) as [Hcr Hrr].
  pose proof H as [Hok [Hsc Hsr] _ [Hfg Hbg] _ _ _].
  destruct (clear_ok s (fo_geo _ Hok)) as (s' & E & Hok' & Hcfg & Hcur & Hp); [lia..|].
  exists s'. split; [exact E|]. unfold term_clear. rewrite Hsc, Hsr, <- Hfg, <- Hbg.
  by apply cleared_shows.
Qed.

(** A console that was just initialised is a blank terminal. *)
Lemma init_shows fb width height pitch s :
  8 ≤ width ≤ pitch / 4 → 10 ≤ height → height * (pitch / 4) < 2 ^ 32 →
  (∀ i, 0 ≤ i < height * (pitch / 4) → is_Some (fb !! i)) →
  ∃ s', fb_init fb width height pitch s = Ok ((), s') ∧
    shows_term s' (blank_term (width / 8) (height / 10) (s_fg s) (s_bg s)).
Proof.
  intros Hw Hh Hsz Hm. set (s0 := Fb fb width height (pitch / 4) (width / CHAR_W) (height / CHAR_H)
    (s_cur_col s) (s_cur_row s) (s_fg s) (s_bg s)).
  assert (0 < width / 8 ∧ 0 < height / 10) as [Hc Hr] by (Z.div_mod_to_equations; lia).
  destruct (clear_ok s0) as (s' & E & Hok & Hcfg & Hcur & Hp); [by split|done|done|].
  exists s'. split; [exact E|]. exact (cleared_shows s0 s' Hcfg Hok Hcur Hp).
Qed.

(** The leftmost pixel is the high bit, but the font's rows have it in the low
    bit: an [L] appears as its mirror image. *)
Example letter_L_mirrored : glyph_picture 76 = cstr <$>
  ["....####";
   ".....##.";
   ".....##.";
   ".....##.";
   ".#...##.";
   ".##..##.";
   ".#######"]%string.
Proof. vm_compute. reflexivity. Qed.

(** A 64 by 20 screen: eight columns, two rows. *)
Lemma demo_terminal : ∃ s, (s_width s = 64 ∧ s_height s = 20 ∧ s_pitch_p s = 64) ∧
  shows_term s (blank_term 8 2 COLOR_WHITE COLOR_DARK).
Proof.
  assert (∀ i, 0 ≤ i < 20 * (256 / 4) → is_Some (fill 0 1280 0 !! i)) as Hm.
  { intros i Hi. apply (fill_mapped 0 1280 0). change (256 / 4) with 64 in Hi. lia. }
  assert (8 ≤ 64 ≤ 256 / 4 ∧ 20 * (256 / 4) < 2 ^ 32) as [Hw Hsz] by (change (256 / 4) with 64; lia).
  destruct (init_shows (fill 0 1280 0) 64 20 256 fbcon_boot Hw ltac:(lia) Hsz Hm) as (s & E & H).
  destruct (init_ok (fill 0 1280 0) 64 20 256 fbcon_boot Hw ltac:(lia) Hsz Hm)
    as (s' & E' & _ & _ & Hws & Hhs & _ & _ & _ & _ & Hps & _).
  rewrite E in E'. injection E' as <-. exists s. exact (conj (conj Hws (conj Hhs Hps)) H).
Qed.

(** * Properties *)

(** C7: the console implements a text terminal: from a screen that is the picture
    of a grid of characters, printing any text whose tab stops are on the screen
    succeeds and leaves the picture, in every pixel, of the grid on which a
    terminal has printed the text: visible characters in the current colour,
    line wrap, newline, carriage return, erasing backspace, tabs and scrolling. *)
Theorem console_refines (s : fbcon) (t : term) (u : list Z)
    (H : shows_term s t) (Hu : tabs_fit u t) :
  ∃ s', fb_print u s = Ok ((), s') ∧ shows_term s' (term_print u t).
Proof. by apply print_shows. Qed.

(** On eight columns and two rows: a tab, a character that wraps and scrolls,
    and a backspace. *)
Lemma console_refines_witness :
  ∃ s s', fb_print (cstr "one" ++ [10; 9] ++ cstr "two!!" ++ [8]) s = Ok ((), s') ∧
    shows_term s' (Term
      [[Cell 32 COLOR_WHITE; Cell 32 COLOR_WHITE; Cell 32 COLOR_WHITE; Cell 32 COLOR_WHITE;
        Cell 116 COLOR_WHITE; Cell 119 COLOR_WHITE; Cell 111 COLOR_WHITE; Cell 33 COLOR_WHITE];
       Cell 32 COLOR_WHITE :: replicate 7 (Cell 32 0)] 8 2 0 1 COLOR_WHITE COLOR_DARK).
Proof.
  destruct demo_terminal as (s & _ & H).
  destruct (console_refines s _ (cstr "one" ++ [10; 9] ++ cstr "two!!" ++ [8]) H) as (s' & E & H').
  - vm_compute. repeat split; discriminate || reflexivity.
  - exists s, s'. exact (conj E H').
Defined.
