(* ===== verification/Gdt.v ===== *)
(** * Segment descriptors ([kernel/arch/x86_64/gdt.cpp], [gdt.hpp])

    The descriptor encoders, the tables [gdt_init] builds and the registers it
    loads, with what the processor decodes from them. *)
From stdpp Require Import base tactics numbers list.
From S2P Require Import Prelude.

Local Open Scope Z_scope.
Local Open Scope nova_scope.

(** ** Data *)

Record GDTEntry := MkEntry {
  limit_low : Z; base_low : Z; base_mid : Z; access : Z; granularity : Z; base_high : Z
}.
(** [GDTSystemEntry]: the same six fields, then two 32-bit ones. *)
Record GDTSystemEntry := MkSystem { se_low : GDTEntry; base_upper : Z; se_reserved : Z }.

Record TSS := MkTSS {
  tss_reserved0 : Z; tss_rsp : list Z; tss_reserved1 : Z; tss_ist : list Z;
  tss_reserved2 : Z; tss_reserved3 : Z; iomap_base : Z
}.
(** All bytes zero. *)
Definition tss_zero : TSS := MkTSS 0 (replicate 3 0) 0 (replicate 7 0) 0 0 0.
Definition set_tss_rsp (l : list Z) (t : TSS) : TSS :=
  MkTSS (tss_reserved0 t) l (tss_reserved1 t) (tss_ist t) (tss_reserved2 t) (tss_reserved3 t)
        (iomap_base t).
Definition set_iomap_base (v : Z) (t : TSS) : TSS :=
  MkTSS (tss_reserved0 t) (tss_rsp t) (tss_reserved1 t) (tss_ist t) (tss_reserved2 t)
        (tss_reserved3 t) v.
Definition SIZEOF_TSS : Z := 104.

Definition GDT_KERNEL_CODE : Z := 0x08.
Definition GDT_KERNEL_DATA : Z := 0x10.
Definition GDT_USER_CODE : Z := 0x18.
Definition GDT_USER_DATA : Z := 0x20.
Definition GDT_TSS_SEL : Z := 0x28.

Definition ACCESS_PRESENT : Z := 0x80.
Definition ACCESS_RING0 : Z := 0x00.
Definition ACCESS_RING3 : Z := 0x60.
Definition ACCESS_SEGMENT : Z := 0x10.
Definition ACCESS_EXEC : Z := 0x08.
Definition ACCESS_RW : Z := 0x02.
Definition ACCESS_TSS_TYPE : Z := 0x09.
Definition GRAN_LONG_MODE : Z := 0x20.
Definition GRAN_PAGE : Z := 0x80.
Definition GRAN_DB : Z := 0x40.

(** The statics, and the registers that [gdt_init] loads: the table register,
    the six segment registers and the task register. *)
Record gdt_state := GdtState {
  gdt : list GDTEntry; tss_descriptor : GDTSystemEntry; kernel_tss : TSS;
  full_gdt : list GDTEntry * GDTSystemEntry;
  gdtr_limit : Z; gdtr_base : Z;
  seg_cs : Z; seg_data : list Z; task_reg : Z
}.

(** ** Operations *)

Definition set_gdt_entry (base limit acc gran : Z) : GDTEntry :=
  MkEntry (u16 (limit &&& 0xFFFF)) (u16 (base &&& 0xFFFF)) (u8 ((base ≫ 16) &&& 0xFF)) acc
          (u8 ((gran &&& 0xF0) ||| ((limit ≫ 16) &&& 0x0F))) (u8 ((base ≫ 24) &&& 0xFF)).

Definition set_tss_descriptor (base limit : Z) : GDTSystemEntry :=
  MkSystem
    (MkEntry (u16 (limit &&& 0xFFFF)) (u16 (base &&& 0xFFFF)) (u8 ((base ≫ 16) &&& 0xFF))
             (ACCESS_PRESENT ||| ACCESS_TSS_TYPE) (u8 ((limit ≫ 16) &&& 0x0F))
             (u8 ((base ≫ 24) &&& 0xFF)))
    (u32 (base ≫ 32)) 0.

(** [tss], [stack] and [table] are the addresses of [kernel_tss], [kernel_stack]
    and [full_gdt]. *)
Definition gdt_init (tss stack table : Z) : M gdt_state unit := λ s,
  let g := [
    set_gdt_entry 0 0 0 0;
    set_gdt_entry 0 0xFFFFF
      (ACCESS_PRESENT ||| ACCESS_RING0 ||| ACCESS_SEGMENT ||| ACCESS_EXEC ||| ACCESS_RW)
      (GRAN_LONG_MODE ||| GRAN_PAGE);
    set_gdt_entry 0 0xFFFFF
      (ACCESS_PRESENT ||| ACCESS_RING0 ||| ACCESS_SEGMENT ||| ACCESS_RW)
      (GRAN_PAGE ||| GRAN_DB);
    set_gdt_entry 0 0xFFFFF
      (ACCESS_PRESENT ||| ACCESS_RING3 ||| ACCESS_SEGMENT ||| ACCESS_EXEC ||| ACCESS_RW)
      (GRAN_LONG_MODE ||| GRAN_PAGE);
    set_gdt_entry 0 0xFFFFF
      (ACCESS_PRESENT ||| ACCESS_RING3 ||| ACCESS_SEGMENT ||| ACCESS_RW)
      (GRAN_PAGE ||| GRAN_DB)] in
  let kt := set_iomap_base SIZEOF_TSS (set_tss_rsp (<[0%nat := u64 (stack + 8192)]> (tss_rsp tss_zero)) tss_zero) in
  let td := set_tss_descriptor tss (SIZEOF_TSS - 1) in
  Ok ((), GdtState g td kt (g, td) (5 * 8 + 16 - 1) table
            GDT_KERNEL_CODE [0x10; 0x10; 0x10; 0x10; 0x10] GDT_TSS_SEL).

(** ** What the processor reads *)

(** The eight bytes of an entry as one little-endian word. *)
Definition quad (e : GDTEntry) : Z :=
  limit_low e ||| (base_low e ≪ 16) ||| (base_mid e ≪ 32) ||| (access e ≪ 40) |||
  (granularity e ≪ 48) ||| (base_high e ≪ 56).

Definition seg_base (e : GDTEntry) : Z :=
  base_low e + 2 ^ 16 * base_mid e + 2 ^ 24 * base_high e.
Definition seg_limit (e : GDTEntry) : Z := limit_low e + 2 ^ 16 * (granularity e &&& 0x0F).
Definition seg_flags (e : GDTEntry) : Z := granularity e &&& 0xF0.
Definition system_base (e : GDTSystemEntry) : Z := seg_base (se_low e) + 2 ^ 32 * base_upper e.

(** The descriptor a selector names in the full table. *)
Definition descriptor (s : gdt_state) (sel : Z) : option GDTEntry :=
  if sel <? 40 then fst (full_gdt s) !! Z.to_nat (sel / 8)
  else if sel =? 40 then Some (se_low (snd (full_gdt s))) else None.

(** * Lemmas *)

Lemma land_ones_mod v n : 0 ≤ n → v &&& Z.ones n = v `mod` 2 ^ n.
Proof. apply Z.land_ones. Qed.

Lemma field16 v : u16 (v &&& 0xFFFF) = v `mod` 2 ^ 16.
Proof. unfold u16. change 0xFFFF with (Z.ones 16). rewrite land_ones_mod by lia. apply Z.mod_mod. lia. Qed.
Lemma field8 v k : 0 ≤ k → u8 ((v ≫ k) &&& 0xFF) = (v / 2 ^ k) `mod` 2 ^ 8.
Proof.
  intros. unfold u8. change 0xFF with (Z.ones 8). rewrite land_ones_mod by lia.
  rewrite Z.shiftr_div_pow2 by lia. apply Z.mod_mod. lia.
Qed.

(** The granularity byte: flags in the high nibble, limit bits below. *)
Lemma gran_split gran limit :
  0 ≤ gran < 256 → 0 ≤ limit < 2 ^ 20 →
  let g := u8 ((gran &&& 0xF0) ||| ((limit ≫ 16) &&& 0x0F)) in
  g &&& 0x0F = limit / 2 ^ 16 ∧ g &&& 0xF0 = gran &&& 0xF0.
Proof.
  intros Hg Hl g. assert (0 ≤ limit / 2 ^ 16 < 2 ^ 4) as Hq.
  { split; [apply Z.div_pos; lia|apply Z.div_lt_upper_bound; lia]. }
  assert (∀ i, 0 ≤ i → Z.testbit g i =
    (Z.testbit gran i && (4 <=? i) && (i <? 8)) || (Z.testbit (limit / 2 ^ 16) i && (i <? 4))) as Hbit.
  { intros i Hi. unfold g. destruct (decide (i < 8)) as [Hlt|Hge].
    - unfold u8. rewrite Z.mod_pow2_bits_low by lia. rewrite Z.lor_spec, !Z.land_spec.
      rewrite Z.shiftr_div_pow2 by lia. f_equal.
      + rewrite <- andb_assoc. f_equal.
        assert (i = 0 ∨ i = 1 ∨ i = 2 ∨ i = 3 ∨ i = 4 ∨ i = 5 ∨ i = 6 ∨ i = 7)
          as [->|[->|[->|[->|[->|[->|[->| ->]]]]]]] by lia; reflexivity.
      + f_equal. assert (i = 0 ∨ i = 1 ∨ i = 2 ∨ i = 3 ∨ i = 4 ∨ i = 5 ∨ i = 6 ∨ i = 7)
          as [->|[->|[->|[->|[->|[->|[->| ->]]]]]]] by lia; reflexivity.
    - unfold u8. rewrite Z.mod_pow2_bits_high by lia.
      destruct (Z.ltb_spec i 8); [lia|]. destruct (Z.ltb_spec i 4); [lia|].
      by rewrite !andb_false_r. }
  split; apply bits_eq; intros i Hi; rewrite Z.land_spec, Hbit by done.
  - change 0x0F with (Z.ones 4). destruct (decide (i < 4)).
    + rewrite Z.ones_spec_low by lia. destruct (Z.leb_spec 4 i), (Z.ltb_spec i 4); try lia.
      by rewrite !andb_false_r, !andb_true_r.
    + rewrite Z.ones_spec_high by lia. rewrite andb_false_r. symmetry.
      apply (testbit_above 4); [done|lia].
  - rewrite Z.land_spec. change 0xF0 with (Z.shiftl (Z.ones 4) 4). rewrite Z.shiftl_spec by done.
    destruct (decide (i < 4)).
    + rewrite (Z.testbit_neg_r _ (i - 4)) by lia. by rewrite !andb_false_r.
    + destruct (decide (i < 8)).
      * rewrite Z.ones_spec_low by lia. destruct (Z.leb_spec 4 i), (Z.ltb_spec i 4),
          (Z.ltb_spec i 8); try lia. by rewrite andb_false_r, orb_false_r, !andb_true_r.
      * rewrite Z.ones_spec_high by lia. by rewrite !andb_false_r.
Qed.

Lemma base_split base : 0 ≤ base →
  base `mod` 2 ^ 16 + 2 ^ 16 * ((base / 2 ^ 16) `mod` 2 ^ 8) + 2 ^ 24 * ((base / 2 ^ 24) `mod` 2 ^ 8)
  = base `mod` 2 ^ 32.
Proof.
  intros Hb. change (2 ^ 16) with 65536. change (2 ^ 8) with 256. change (2 ^ 24) with 16777216.
  change (2 ^ 32) with 4294967296. Z.div_mod_to_equations. lia.
Qed.

(** * Properties *)

(** The processor decodes from an encoded descriptor exactly the base,
    limit, access byte and flags that [set_gdt_entry] was given. *)
Theorem gdt_entry_roundtrip (base limit acc gran : Z)
    (Hb : 0 ≤ base < 2 ^ 32) (Hl : 0 ≤ limit < 2 ^ 20) (Hg : 0 ≤ gran < 256) :
  let e := set_gdt_entry base limit acc gran in
  seg_base e = base ∧ seg_limit e = limit ∧ access e = acc ∧ seg_flags e = gran &&& 0xF0.
Proof.
  cbv zeta. destruct (gran_split gran limit Hg Hl) as [H1 H2].
  unfold seg_base, seg_limit, seg_flags, set_gdt_entry.
  cbn [base_low base_mid base_high limit_low granularity access].
  rewrite !field16, !field8, H1, H2 by lia.
  split; [rewrite base_split by lia; by apply Z.mod_small|]. split; [|done].
  pose proof (Z.div_mod limit (2 ^ 16)). lia.
Qed.

Lemma gdt_entry_roundtrip_witness :
  let e := set_gdt_entry 0x12345678 0xFFFFF 0x9A 0xA0 in
  seg_base e = 0x12345678 ∧ seg_limit e = 0xFFFFF ∧ access e = 0x9A ∧ seg_flags e = 0xA0.
Proof. apply (gdt_entry_roundtrip 0x12345678 0xFFFFF 0x9A 0xA0); lia. Defined.

(** C36: [gdt_init] leaves a seven-slot table in which the selectors 0x08 to
    0x20 name flat 64-bit kernel code, kernel data, user code and user data
    descriptors, 0 the null descriptor and 0x28 an available 64-bit TSS at the
    address of [kernel_tss] with its limit; every selector the code loads names
    a present ring-0 descriptor inside the limit of the table register, and the
    TSS holds the top of the kernel stack and blocks I/O from ring 3. *)
Theorem gdt_init_layout (s : gdt_state) (tss stack table : Z)
    (Ht : 0 ≤ tss < 2 ^ 64) (Hs : 0 ≤ stack) (Hs' : stack + 8192 < 2 ^ 64) :
  ∃ s', gdt_init tss stack table s = Ok ((), s') ∧
    quad <$> fst (full_gdt s') =
      [0; 0x00AF9A000000FFFF; 0x00CF92000000FFFF; 0x00AFFA000000FFFF; 0x00CFF2000000FFFF] ∧
    system_base (snd (full_gdt s')) = tss ∧ seg_limit (se_low (snd (full_gdt s'))) = SIZEOF_TSS - 1 ∧
    access (se_low (snd (full_gdt s'))) = 0x89 ∧
    tss_rsp (kernel_tss s') = [stack + 8192; 0; 0] ∧ SIZEOF_TSS ≤ iomap_base (kernel_tss s') ∧
    gdtr_limit s' = 8 * 7 - 1 ∧ gdtr_base s' = table ∧
    ∀ sel, sel ∈ seg_cs s' :: task_reg s' :: seg_data s' →
      sel + 7 ≤ gdtr_limit s' ∧ ∃ e, descriptor s' sel = Some e ∧ access e &&& 0xE0 = 0x80.
Proof.
  eexists. split; [reflexivity|]. split; [vm_compute; reflexivity|].
  cbn [full_gdt snd kernel_tss tss_rsp set_iomap_base set_tss_rsp iomap_base gdtr_limit gdtr_base seg_cs task_reg seg_data].
  split.
  { unfold system_base, seg_base, set_tss_descriptor.
    cbn [se_low base_low base_mid base_high base_upper]. rewrite field16, !field8 by lia.
    rewrite base_split by lia. unfold u32. rewrite Z.shiftr_div_pow2 by lia.
    rewrite (Z.mod_small (tss / 2 ^ 32)) by
      (split; [apply Z.div_pos; lia|apply Z.div_lt_upper_bound; lia]).
    pose proof (Z.div_mod tss (2 ^ 32)). lia. }
  split; [vm_compute; reflexivity|]. split; [reflexivity|].
  split; [cbn; by rewrite u64_small by lia|]. split; [done|]. split; [done|]. split; [done|].
  intros sel Hsel. rewrite !elem_of_cons, elem_of_nil in Hsel.
  destruct Hsel as [->|[->|[->|[->|[->|[->|[->|[]]]]]]]];
    (split; [vm_compute; discriminate|eexists; split; reflexivity]).
Qed.

Definition gdt_boot : gdt_state :=
  GdtState [] (MkSystem (MkEntry 0 0 0 0 0 0) 0 0) tss_zero
           ([], MkSystem (MkEntry 0 0 0 0 0 0) 0 0) 0 0 0 [] 0.

Lemma gdt_init_layout_witness :
  ∃ s', gdt_init 0xFFFFFFFF80010000 0xFFFFFFFF80020000 0xFFFFFFFF80030000 gdt_boot = Ok ((), s') ∧
    system_base (snd (full_gdt s')) = 0xFFFFFFFF80010000.
Proof.
  destruct (gdt_init_layout gdt_boot 0xFFFFFFFF80010000 0xFFFFFFFF80020000 0xFFFFFFFF80030000)
    as (s' & E & _ & H & _); [lia..|]. exists s'. exact (conj E H).
Defined.
