(* ===== verification/Panic.v ===== *)
(** * Kernel panic ([kernel/lib/panic.cpp])

    The registered framebuffer, [kernel_panic], and the logic its reports are
    proved with: what a computation sends to the serial line. *)
From stdpp Require Import base tactics strings gmap numbers list.
From S2P Require Import Prelude CString Platform Pic Serial.

Local Open Scope Z_scope.
Local Open Scope nova_scope.

(** ** Data and operations *)

(** The framebuffer registered for panics ([p_fb] is [None] for a null address),
    the interrupt flag and whether the processor has halted for good. *)
Record panic_state := PanicState {
  p_fb : option (gmap Z Z); p_width : Z; p_height : Z; p_pitch : Z;
  p_int : bool; p_halted : bool
}.

Definition set_panic_framebuffer (fb : option (gmap Z Z)) (width height pitch : Z)
    : M panic_state unit :=
  modify (λ s, PanicState fb width height pitch (p_int s) (p_halted s)).

Definition set_p_fb (fb : gmap Z Z) (s : panic_state) : panic_state :=
  PanicState (Some fb) (p_width s) (p_height s) (p_pitch s) (p_int s) (p_halted s).

Definition panic_put (i v : Z) : M panic_state unit := λ s,
  match p_fb s with
  | Some fb => match fb !! i with
               | Some _ => Ok ((), set_p_fb (<[i := v]> fb) s)
               | None => Fault
               end
  | None => Fault
  end.

Definition fill_screen (color : Z) : M panic_state unit :=
  s ← get;
  if bool_decide (p_fb s = None) then mret tt else
  let pitch_p := p_pitch s / 4 in
  for_each (range 0 (p_height s)) (λ y,
    for_each (range 0 (p_width s)) (λ x, panic_put (u32 (u32 (y * pitch_p) + x)) color)).

(** [cli], and the endless [hlt] loop with interrupts disabled. *)
Definition cli : M panic_state unit :=
  modify (λ s, PanicState (p_fb s) (p_width s) (p_height s) (p_pitch s) false (p_halted s)).
Definition halt_forever : M panic_state unit :=
  modify (λ s, PanicState (p_fb s) (p_width s) (p_height s) (p_pitch s) (p_int s) true).

Definition nl : list Z := [10].

Section panic.
Context {D : Type} `{PL : Platform D}.

Definition on_dev {A} (m : M D A) : M (D * panic_state) A := zoom fst (λ d t, (d, snd t)) m.
Definition on_panic {A} (m : M panic_state A) : M (D * panic_state) A :=
  zoom snd (λ p t, (fst t, p)) m.
Definition print (s : list Z) : M (D * panic_state) unit := on_dev (print_serial s).

Definition kernel_panic (message : list Z) : M (D * panic_state) unit :=
  on_panic cli ≫= λ _,
  print (nl ++ nl) ≫= λ _,
  print (cstr "*******************************" ++ nl) ≫= λ _,
  print (cstr "*       KERNEL PANIC          *" ++ nl) ≫= λ _,
  print (cstr "*******************************" ++ nl) ≫= λ _,
  print message ≫= λ _,
  print nl ≫= λ _,
  print (cstr "System Halted. Please restart." ++ nl) ≫= λ _,
  on_panic (fill_screen 0x00CC0000) ≫= λ _,
  on_panic halt_forever.
End panic.

(** ** Specification *)

(** [fb'] is [fb] with the first [h] rows of [w] pixels in one colour: pixel
    [i] is column [i mod pp] of row [i / pp]. *)
Definition painted (pp w h color : Z) (fb fb' : gmap Z Z) : Prop :=
  ∀ i, fb' !! i =
    if bool_decide (0 ≤ i ∧ i / pp < h ∧ i `mod` pp < w) then Some color else fb !! i.

(** What the processor can paint: the screen fits its pitch, the indices fit 32
    bits and the memory is there. *)
Record paintable (s : panic_state) (fb : gmap Z Z) : Prop := {
  pt_fb : p_fb s = Some fb;
  pt_width : 0 ≤ p_width s ≤ p_pitch s / 4;
  pt_height : 0 ≤ p_height s;
  pt_size : p_height s * (p_pitch s / 4) < 2 ^ 32;
  pt_map : ∀ i, 0 ≤ i < p_height s * (p_pitch s / 4) → is_Some (fb !! i)
}.

(** Either no framebuffer is registered or it can be painted. *)
Definition panic_ok (s : panic_state) : Prop :=
  p_fb s = None ∨ ∃ fb, paintable s fb.

Definition STARS : list Z := cstr "*******************************" ++ nl.
Definition PANIC_BANNER : list Z :=
  nl ++ nl ++ STARS ++ cstr "*       KERNEL PANIC          *" ++ nl ++ STARS.
Definition PANIC_FOOTER : list Z := nl ++ cstr "System Halted. Please restart." ++ nl.

(** * Lemmas *)

(** *** The screen *)

Lemma panic_put_ok i v s fb :
  p_fb s = Some fb → is_Some (fb !! i) → panic_put i v s = Ok ((), set_p_fb (<[i := v]> fb) s).
Proof. intros Hs [w Hw]. unfold panic_put. by rewrite Hs, Hw. Qed.

(** One row: the first [w] pixels from index [b]. *)
Lemma fill_row_ok b w color s fb :
  0 ≤ b → 0 ≤ w → b + w ≤ 2 ^ 32 → p_fb s = Some fb →
  (∀ i, b ≤ i < b + w → is_Some (fb !! i)) →
  ∃ fb', for_each (range 0 w) (λ x, panic_put (u32 (b + x)) color) s = Ok ((), set_p_fb fb' s) ∧
    ∀ i, fb' !! i = if bool_decide (b ≤ i < b + w) then Some color else fb !! i.
Proof.
  intros Hb Hw Hsz Hs Hm.
  destruct (for_each_inv (λ dn s', ∃ fb', s' = set_p_fb fb' s ∧ ∀ i, fb' !! i =
      if bool_decide (b ≤ i < b + Z.of_nat (length dn)) then Some color else fb !! i)
    (λ x, panic_put (u32 (b + x)) color) (range 0 w) s) as (s' & E & fb' & -> & Hfb).
  - intros dn x rest s1 Hr (fb1 & -> & Hfb1). destruct (range_split _ _ _ _ _ Hr) as (Hx & Hxr & _).
    rewrite u32_small by lia. rewrite (panic_put_ok _ _ _ fb1); [|done|].
    2:{ rewrite Hfb1. case_bool_decide; [done|]. apply Hm. lia. }
    eexists. split; [reflexivity|]. exists (<[b + x := color]> fb1). split; [done|].
    intros i. rewrite length_app. cbn [length]. destruct (decide (i = b + x)) as [->|Hne].
    + rewrite lookup_insert_eq. by rewrite bool_decide_eq_true_2 by lia.
    + rewrite lookup_insert_ne, Hfb1 by done.
      do 2 case_bool_decide; done || lia.
  - exists fb. split; [destruct s; cbn in *; by rewrite Hs|]. intros i. cbn.
    by rewrite bool_decide_eq_false_2 by lia.
  - exists fb'. split; [exact E|]. intros i. rewrite Hfb, length_range, Z2Nat.id by lia. done.
Qed.

Lemma painted_row pp w h i : 0 ≤ w ≤ pp → 0 ≤ i →
  (h * pp ≤ i < h * pp + w ↔ i / pp = h ∧ i `mod` pp < w).
Proof.
  intros Hw Hi. destruct (decide (pp = 0)) as [->|Hpp]; [rewrite Z.div_0_r, Z.mod_0_r; lia|].
  pose proof (Z.mod_pos_bound i pp). split.
  - intros Hr. assert (i / pp = h) as Hq by (symmetry; apply (Z.div_unique i pp h (i - h * pp)); lia).
    pose proof (Z.div_mod i pp). split; lia.
  - intros [Hq Hr]. pose proof (Z.div_mod i pp). lia.
Qed.

Lemma painted_none pp w color fb : 0 ≤ w ≤ pp → painted pp w 0 color fb fb.
Proof.
  intros Hw i. rewrite bool_decide_eq_false_2; [done|]. intros (Hi & Hlt & Hmod).
  destruct (decide (pp = 0)) as [->|Hpp]; [rewrite Z.mod_0_r in Hmod; lia|].
  pose proof (Z.div_pos i pp Hi). lia.
Qed.

Lemma painted_step pp w h color fb fb1 fb2 : 0 ≤ w ≤ pp → 0 ≤ h →
  painted pp w h color fb fb1 →
  (∀ i, fb2 !! i = if bool_decide (h * pp ≤ i < h * pp + w) then Some color else fb1 !! i) →
  painted pp w (h + 1) color fb fb2.
Proof.
  intros Hw Hh H1 H2 i. rewrite H2, H1. destruct (decide (0 ≤ i)) as [Hi|Hi].
  - pose proof (painted_row pp w h i Hw Hi) as Hrow. repeat case_bool_decide; done || (exfalso; clear H1 H2; tauto || lia).
  - rewrite !bool_decide_eq_false_2; [done|lia|lia|]. nia.
Qed.

(** The screen after a fill. *)
Definition filled (color : Z) (s s' : panic_state) : Prop :=
  match p_fb s, p_fb s' with
  | None, None => True
  | Some fb, Some fb' => painted (p_pitch s / 4) (p_width s) (p_height s) color fb fb'
  | _, _ => False
  end.

Lemma fill_ok color s : panic_ok s →
  ∃ s', fill_screen color s = Ok ((), s') ∧ p_int s' = p_int s ∧ filled color s s'.
Proof.
  intros [Hn|[fb Hp]]; unfold fill_screen; rewrite (bind_ok _ _ _ s s) by done.
  { exists s. rewrite bool_decide_eq_true_2 by done. unfold filled. by rewrite Hn. }
  destruct Hp as [Hfb Hw Hh Hsz Hm]. rewrite bool_decide_eq_false_2 by by rewrite Hfb.
  unfold filled. rewrite Hfb. revert Hw Hsz Hm. cbv zeta.
  generalize (p_pitch s / 4) as pp, (p_width s) as w. intros pp w Hw Hsz Hm.
  destruct (for_each_inv (λ dn s', ∃ fb', s' = set_p_fb fb' s ∧
      painted pp w (Z.of_nat (length dn)) color fb fb')
    (λ y, for_each (range 0 w) (λ x, panic_put (u32 (u32 (y * pp) + x)) color))
    (range 0 (p_height s)) s) as (s' & E & fb' & -> & Hfb').
  - intros dn y rest s1 Hr (fb1 & -> & Hfb1). destruct (range_split _ _ _ _ _ Hr) as (Hy & Hyr & _).
    assert (y * pp + w ≤ p_height s * pp) as Hin by nia.
    rewrite (u32_small (y * pp)) by nia.
    destruct (fill_row_ok (y * pp) w color (set_p_fb fb1 s) fb1) as (fb2 & E2 & Hfb2);
      [nia|lia|lia|done| |].
    { intros i Hi. rewrite Hfb1. case_bool_decide; [done|]. apply Hm. nia. }
    exists (set_p_fb fb2 s). split; [exact E2|]. exists fb2. split; [done|].
    rewrite length_app, Nat2Z.inj_add. apply (painted_step _ _ _ _ fb fb1); [done|lia|done|].
    by replace (Z.of_nat (length dn)) with y by lia.
  - exists fb. split; [destruct s; cbn in *; by rewrite Hfb|]. by apply painted_none.
  - exists (set_p_fb fb' s). split; [exact E|]. split; [done|].
    by rewrite length_range, Z2Nat.id in Hfb' by lia.
Qed.

(** *** The serial line *)

(** A list of characters that C prints whole. *)
Definition printable (s : list Z) : Prop := Forall (λ c, 0 < c < 256) s.

Lemma printable_bytes s : printable s → bytes s.
Proof. intros H. eapply Forall_impl; [exact H|]. cbn. lia. Qed.
Lemma printable_no_nul s : printable s → no_nul s.
Proof. intros H. eapply Forall_impl; [exact H|]. cbn. lia. Qed.
Lemma printable_app s t : printable s → printable t → printable (s ++ t).
Proof. intros. by apply Forall_app. Qed.

(** For a literal, by evaluation. *)
Lemma printable_check s : forallb (λ c, (0 <? c) && (c <? 256)) s = true → printable s.
Proof.
  intros H. apply Forall_forall. intros c Hc. apply list_elem_of_In in Hc.
  rewrite List.forallb_forall in H. apply H, andb_true_iff in Hc. lia.
Qed.

Section speech.
Context {D : Type} `{PL : Platform D}.

(** From the panic state [p], [m] sends exactly [text] to the serial line and
    ends with a result and a panic state in [Q]. *)
Definition says {A} (m : M (D * panic_state) A) (p : panic_state) (text : list Z)
    (Q : A → panic_state → Prop) : Prop :=
  ∀ d, u_dlab (com1 d) = false →
    ∃ a d' p', m (d, p) = Ok (a, (d', p')) ∧ Q a p' ∧ sent d d' (crlf text).

Lemma says_ret {A} (a : A) (Q : A → panic_state → Prop) p : Q a p → says (mret a) p [] Q.
Proof.
  intros Ha d Hl. exists a, d, p. split; [done|]. split; [done|]. unfold sent. by rewrite app_nil_r.
Qed.

Lemma says_bind {A B} (m : M (D * panic_state) A) (k : A → M (D * panic_state) B) p s t Q R :
  says m p s Q → (∀ a p', Q a p' → says (k a) p' t R) → says (m ≫= k) p (s ++ t) R.
Proof.
  intros Hm Hk d Hl. destruct (Hm d Hl) as (a & d1 & p1 & E1 & Ha & Hs1).
  rewrite (bind_ok _ _ _ _ _ E1).
  destruct (Hk a p1 Ha d1) as (b & d2 & p2 & E2 & Hb & Hs2); [by destruct Hs1 as (_ & ? & _)|].
  exists b, d2, p2. split; [done|]. split; [done|]. rewrite crlf_app. by eapply sent_trans.
Qed.

Lemma says_wp {A} (m : M (D * panic_state) A) p s t Q R :
  says m p s Q → s = t → (∀ a p', Q a p' → R a p') → says m p t R.
Proof.
  intros Hm <- HQ d Hl. destruct (Hm d Hl) as (a & d1 & p1 & E1 & Ha & Hs1).
  exists a, d1, p1. split; [done|]. split; [by apply HQ|done].
Qed.

Lemma says_text s p : bytes s → says (print s) p (c_text s) (λ _ p', p' = p).
Proof.
  intros Hs d Hl. destruct (print_serial_ok s d Hs Hl) as (d' & E & Hsent).
  exists (), d', p. split; [|done]. unfold print, on_dev, zoom. cbn [fst]. by rewrite E.
Qed.

Lemma says_print s p : printable s → says (print s) p s (λ _ p', p' = p).
Proof.
  intros Hs. rewrite <- (c_text_id s) at 2 by by apply printable_no_nul.
  by apply says_text, printable_bytes.
Qed.

(** [print s], then the rest. *)
Lemma says_then {B} s t (k : M (D * panic_state) B) p R :
  printable s → says k p t R → says (print s ≫= λ _, k) p (s ++ t) R.
Proof. intros Hs Hk. eapply says_bind; [by apply says_print|]. by intros _ p' ->. Qed.

(** A step of the panic state alone. *)
Lemma says_panic {A} (m : M panic_state A) p a p' (Q : A → panic_state → Prop) :
  m p = Ok (a, p') → Q a p' → says (on_panic m) p [] Q.
Proof.
  intros E HQ d Hl. exists a, d, p'. unfold on_panic, zoom. cbn [snd]. rewrite E.
  split; [done|]. split; [done|]. unfold sent. by rewrite app_nil_r.
Qed.

Lemma says_panic_then {A B} (m : M panic_state A) (k : M (D * panic_state) B) p a p' t R :
  m p = Ok (a, p') → says k p' t R → says (on_panic m ≫= λ _, k) p t R.
Proof.
  intros E Hk. apply (says_bind _ _ _ [] t (λ _ q, q = p')); [by eapply says_panic|]. by intros _ ? ->.
Qed.
End speech.

(** Go through the prints in front. *)
Ltac speak := repeat (apply says_then; [first [done|by apply printable_check]|]).

Section panic_report.
Context {D : Type} `{PL : Platform D}.

(** How a panic ends: interrupts off, the processor halted, the screen red. *)
Definition stopped (p p' : panic_state) : Prop :=
  p_int p' = false ∧ p_halted p' = true ∧ filled 0x00CC0000 p p'.

Lemma kernel_panic_says msg p :
  printable msg → panic_ok p →
  says (kernel_panic msg) p (PANIC_BANNER ++ msg ++ PANIC_FOOTER) (λ _, stopped p).
Proof.
  intros Hmsg Hp.
  destruct (fill_ok 0x00CC0000 (PanicState (p_fb p) (p_width p) (p_height p) (p_pitch p) false (p_halted p)))
    as (p1 & E1 & Hi1 & Hf1).
  { destruct Hp as [Hn|[fb [? ? ? ? ?]]]; [by left|]. right. exists fb. by split. }
  unfold kernel_panic. eapply says_panic_then; [done|]. eapply says_wp.
  - speak. eapply says_panic_then; [exact E1|]. eapply (says_panic _ _ () _ (λ _, stopped p)); [done|].
    split; [done|]. by split.
  - unfold PANIC_BANNER, PANIC_FOOTER, STARS. by rewrite <- !app_assoc, app_nil_r.
  - done.
Qed.
End panic_report.

(** * Properties *)

(** C38: a kernel panic always comes to its end: with a registered framebuffer or
    none, the banner, the message and the final line go out on the serial line,
    every pixel of the visible screen turns red and no other memory of the
    framebuffer changes, interrupts are off and the processor is halted. *)
Theorem panic_stops (D : Type) (PL : Platform D) (msg : list Z) (d : D) (p : panic_state)
    (Hmsg : printable msg) (Hl : u_dlab (com1 d) = false) (Hp : panic_ok p) :
  ∃ d' p', kernel_panic msg (d, p) = Ok ((), (d', p')) ∧
    u_tx (com1 d') = u_tx (com1 d) ++ crlf (PANIC_BANNER ++ msg ++ PANIC_FOOTER) ∧
    p_int p' = false ∧ p_halted p' = true ∧ filled 0x00CC0000 p p'.
Proof.
  destruct (kernel_panic_says msg p Hmsg Hp d Hl) as ([] & d' & p' & E & Hst & Htx & _).
  by exists d', p'.
Qed.

(** A 2 by 2 screen with a pitch of three pixels. *)
Definition small_screen : panic_state :=
  PanicState (Some (list_to_map ((λ i, (i, 7)) <$> range 0 6))) 2 2 12 true false.

Lemma small_screen_ok : panic_ok small_screen.
Proof.
  right. eexists. split; cbn [p_width p_height p_pitch small_screen];
    change (12 / 4) with 3; [reflexivity|lia|lia|lia|].
  intros i Hi. change (2 * 3) with 6 in Hi.
  apply (range_forallb (λ i, bool_decide (is_Some ((list_to_map ((λ i, (i, 7)) <$> range 0 6) : gmap Z Z) !! i)))
    0 6 i) in Hi; [by apply bool_decide_eq_true in Hi|vm_compute; reflexivity].
Qed.

(** The demonstration board with the serial line initialised. *)
Definition quiet_board : board := Board (b_pic1 demo_board) (b_pic2 demo_board) (b_pit demo_board) (Uart false [] 0).

Lemma panic_stops_witness :
  ∃ d' p', kernel_panic (cstr "test") (quiet_board, small_screen) = Ok ((), (d', p')) ∧
    p_halted p' = true ∧ filled 0x00CC0000 small_screen p'.
Proof.
  destruct (panic_stops board board_platform (cstr "test") quiet_board small_screen)
    as (d' & p' & E & _ & _ & Hh & Hf).
  - apply printable_check. reflexivity.
  - reflexivity.
  - apply small_screen_ok.
  - exists d', p'. split; [exact E|]. split; [exact Hh|exact Hf].
Defined.
