(* ===== verification/Idt.v ===== *)
(** * Interrupt descriptors and the exception handler ([kernel/arch/x86_64/idt.cpp])

    The gate encoder, the table [idt_init] builds and the register dump of
    [isr_handler], which ends in [kernel_panic]. *)
From stdpp Require Import base tactics strings gmap numbers list.
From S2P Require Import Prelude CString Digits Platform Pic Serial Gdt Panic.

Local Open Scope Z_scope.
Local Open Scope nova_scope.

(** ** Gates *)

Record IDTEntry := Gate {
  offset_low : Z; selector : Z; ist : Z; type_attr : Z; offset_mid : Z; offset_high : Z;
  gate_reserved : Z
}.
Definition gate_zero : IDTEntry := Gate 0 0 0 0 0 0 0.

Definition IDT_PRESENT : Z := 0x80.
Definition IDT_DPL_RING0 : Z := 0x00.
Definition IDT_INTERRUPT_GATE : Z := 0x0E.

(** The table and the register that locates it. *)
Record idt_state := IdtState { idt : list IDTEntry; idtr_limit : Z; idtr_base : Z }.
Definition set_idt (l : list IDTEntry) (s : idt_state) : idt_state :=
  IdtState l (idtr_limit s) (idtr_base s).

Definition idt_set_gate (vector handler_addr flags : Z) : M idt_state unit :=
  zoom idt set_idt (arr_put vector
    (Gate (u16 (handler_addr &&& 0xFFFF)) GDT_KERNEL_CODE 0 flags
          (u16 ((handler_addr ≫ 16) &&& 0xFFFF)) (u32 (handler_addr ≫ 32)) 0)).

Section init.
(** The addresses the linker gives the stubs, and the table itself. *)
Context (isr_stub irq_stub : Z → Z) (table : Z).

Definition isr_stub_table : list Z := isr_stub <$> range 0 32.

Definition idt_init : M idt_state unit :=
  modify (λ s, set_idt (replicate 256 gate_zero) s) ≫= λ _,
  let EXCEPTION_FLAGS := IDT_PRESENT ||| IDT_DPL_RING0 ||| IDT_INTERRUPT_GATE in
  for_each (range 0 32) (λ i,
    h ← of_option (isr_stub_table !! Z.to_nat i);
    idt_set_gate (u8 i) h EXCEPTION_FLAGS) ≫= λ _,
  idt_set_gate 32 (irq_stub 0) EXCEPTION_FLAGS ≫= λ _,
  idt_set_gate 33 (irq_stub 1) EXCEPTION_FLAGS ≫= λ _,
  modify (λ s, IdtState (idt s) (256 * 16 - 1) table).
End init.

(** The handler a gate leads to, when it is present: a ring-0 interrupt gate in
    the kernel code segment. *)
Definition gate_target (g : IDTEntry) : option Z :=
  if Z.testbit (type_attr g) 7
  then Some (offset_low g + 2 ^ 16 * offset_mid g + 2 ^ 32 * offset_high g) else None.

(** ** The exception handler *)

Definition exception_messages : list (list Z) := cstr <$> [
  "#DE: Divide Error"; "#DB: Debug Exception"; "NMI Interrupt"; "#BP: Breakpoint";
  "#OF: Overflow"; "#BR: BOUND Range Exceeded"; "#UD: Invalid Opcode";
  "#NM: Device Not Available"; "#DF: Double Fault"; "Coprocessor Segment Overrun";
  "#TS: Invalid TSS"; "#NP: Segment Not Present"; "#SS: Stack-Segment Fault";
  "#GP: General Protection Fault"; "#PF: Page Fault"; "Reserved"; "#MF: x87 FPU Error";
  "#AC: Alignment Check"; "#MC: Machine Check"; "#XM: SIMD Floating-Point Exception";
  "#VE: Virtualization Exception"; "#CP: Control Protection Exception"; "Reserved"; "Reserved";
  "Reserved"; "Reserved"; "Reserved"; "Reserved"; "#HV: Hypervisor Injection";
  "#VC: VMM Communication"; "#SX: Security Exception"; "Reserved"]%string.

(** [for (int i = 15; i >= 2; --i)]. *)
Definition u64_to_hex (val : Z) : M (list Z) unit :=
  arr_put 0 48 ≫= λ _, arr_put 1 120 ≫= λ _,
  hex_loop (reverse (range 2 14)) val ≫= λ _,
  arr_put 18 0.

(** [struct InterruptFrame], as far as the handler reads it. *)
Record InterruptFrame := Frame {
  interrupt_number : Z; error_code : Z; f_rip : Z; f_cs : Z; f_rflags : Z;
  f_rax : Z; f_rbx : Z; f_rcx : Z; f_rdx : Z; f_rsi : Z; f_rdi : Z; f_rbp : Z; f_rsp : Z;
  f_r8 : Z; f_r9 : Z; f_r10 : Z; f_r11 : Z; f_r12 : Z; f_r13 : Z; f_r14 : Z; f_r15 : Z
}.

(** The dump, in order: a label, a value and what follows it. *)
Definition dump_lines (f : InterruptFrame) : list (list Z * Z * list Z) := [
  (cstr "Error Code: ", error_code f, nl);
  (cstr "RIP: ", f_rip f, []); (cstr "  CS: ", f_cs f, nl); (cstr "RFLAGS: ", f_rflags f, nl);
  (cstr "RAX: ", f_rax f, cstr "  "); (cstr "RBX: ", f_rbx f, nl);
  (cstr "RCX: ", f_rcx f, cstr "  "); (cstr "RDX: ", f_rdx f, nl);
  (cstr "RSI: ", f_rsi f, cstr "  "); (cstr "RDI: ", f_rdi f, nl);
  (cstr "RBP: ", f_rbp f, cstr "  "); (cstr "RSP: ", f_rsp f, nl);
  (cstr "R8 : ", f_r8 f, cstr "  "); (cstr "R9 : ", f_r9 f, nl);
  (cstr "R10: ", f_r10 f, cstr "  "); (cstr "R11: ", f_r11 f, nl);
  (cstr "R12: ", f_r12 f, cstr "  "); (cstr "R13: ", f_r13 f, nl);
  (cstr "R14: ", f_r14 f, cstr "  "); (cstr "R15: ", f_r15 f, nl)].

Section handler.
Context {D : Type} `{PL : Platform D}.

(** One value: [hex_buf] is overwritten and printed. *)
Definition dump_value (buf : list Z) (l : list Z * Z * list Z) : M (D * panic_state) (list Z) :=
  let '(label, v, after) := l in
  print label ≫= λ _,
  match u64_to_hex v buf with
  | Ok (_, buf) => print buf ≫= λ _, print after ≫= λ _, mret buf
  | Fault => fault
  | NoFuel => nofuel
  end.

Fixpoint dump_values (ls : list (list Z * Z * list Z)) (buf : list Z)
    : M (D * panic_state) (list Z) :=
  match ls with
  | [] => mret buf
  | l :: ls => buf ← dump_value buf l; dump_values ls buf
  end.

(** [hex_buf] is what the uninitialised local array holds on entry. *)
Definition isr_handler (hex_buf : list Z) (f : InterruptFrame) : M (D * panic_state) unit :=
  print (nl ++ nl ++ cstr "--- KERNEL PANIC ---" ++ nl) ≫= λ _,
  (let vec := interrupt_number f in
   if vec <? 32 then
     print (cstr "Exception: ") ≫= λ _,
     print [48; 120; hex_digit (vec ≫ 4); hex_digit vec; 0] ≫= λ _,
     print (cstr " ") ≫= λ _,
     msg ← of_option (exception_messages !! Z.to_nat vec);
     print msg ≫= λ _, print nl
   else print (cstr "Unknown interrupt vector" ++ nl)) ≫= λ _,
  dump_values (dump_lines f) hex_buf ≫= λ _,
  kernel_panic (cstr "Unhandled CPU exception. System halted.").
End handler.

(** * Lemmas *)

(** *** Gates *)

(** The three offset fields are the address again. *)
Lemma offset_join a : 0 ≤ a < 2 ^ 64 →
  u16 (a &&& 0xFFFF) + 2 ^ 16 * u16 ((a ≫ 16) &&& 0xFFFF) + 2 ^ 32 * u32 (a ≫ 32) = a.
Proof.
  intros Ha. rewrite !field16. unfold u32. rewrite !Z.shiftr_div_pow2 by lia.
  change (2 ^ 16) with 65536. change (2 ^ 32) with 4294967296.
  change (2 ^ 64) with 18446744073709551616 in Ha. Z.div_mod_to_equations. lia.
Qed.

(** The gate [idt_set_gate] writes. *)
Definition gate_for (h flags : Z) : IDTEntry :=
  Gate (u16 (h &&& 0xFFFF)) GDT_KERNEL_CODE 0 flags
       (u16 ((h ≫ 16) &&& 0xFFFF)) (u32 (h ≫ 32)) 0.

Lemma set_gate_ok v h flags s :
  0 ≤ v < Z.of_nat (length (idt s)) →
  idt_set_gate v h flags s = Ok ((), set_idt (<[Z.to_nat v := gate_for h flags]> (idt s)) s).
Proof. intros Hv. unfold idt_set_gate, zoom. by rewrite arr_put_ok. Qed.

Lemma gate_for_target h flags :
  0 ≤ h < 2 ^ 64 → Z.testbit flags 7 = true → gate_target (gate_for h flags) = Some h.
Proof.
  intros Hh Hf. unfold gate_target, gate_for. cbn [type_attr offset_low offset_mid offset_high].
  by rewrite Hf, offset_join.
Qed.

Section idt_table.
Context (isr_stub irq_stub : Z → Z) (table : Z).

(** The table after the loop has filled the first [n] vectors. *)
Lemma isr_gates_ok s : length (idt s) = 256%nat →
  ∃ s', for_each (range 0 32) (λ i,
      h ← of_option (isr_stub_table isr_stub !! Z.to_nat i);
      idt_set_gate (u8 i) h 0x8E) s = Ok ((), s') ∧
    length (idt s') = 256%nat ∧
    ∀ v, 0 ≤ v < 256 → idt s' !! Z.to_nat v =
      if v <? 32 then Some (gate_for (isr_stub v) 0x8E) else idt s !! Z.to_nat v.
Proof.
  intros Hlen.
  destruct (for_each_inv (λ dn s', length (idt s') = 256%nat ∧ ∀ v, 0 ≤ v < 256 →
      idt s' !! Z.to_nat v = if v <? Z.of_nat (length dn)
        then Some (gate_for (isr_stub v) 0x8E) else idt s !! Z.to_nat v)
    (λ i, h ← of_option (isr_stub_table isr_stub !! Z.to_nat i); idt_set_gate (u8 i) h 0x8E)
    (range 0 32) s) as (s' & E & Hl & Hv).
  - intros dn x rest s1 Hr [Hl Hv]. destruct (range_split _ _ _ _ _ Hr) as (Hx & Hxr & _).
    assert (isr_stub_table isr_stub !! Z.to_nat x = Some (isr_stub x)) as Hst.
    { unfold isr_stub_table. rewrite list_lookup_fmap, Hr.
      replace (Z.to_nat x) with (length dn) by lia.
      rewrite lookup_app_r by lia. by rewrite Nat.sub_diag. }
    rewrite (bind_ok _ _ _ (isr_stub x) s1) by by rewrite Hst.
    rewrite u8_small, set_gate_ok by lia. eexists. split; [reflexivity|]. cbn [idt set_idt].
    rewrite length_insert, length_app. split; [done|]. intros v Hv'. cbn [length].
    destruct (decide (v = x)) as [->|Hne].
    + rewrite list_lookup_insert_eq by lia. destruct (Z.ltb_spec x (Z.of_nat (length dn + 1))); done || lia.
    + rewrite list_lookup_insert_ne, Hv by lia.
      destruct (Z.ltb_spec v (Z.of_nat (length dn))), (Z.ltb_spec v (Z.of_nat (length dn + 1))); done || lia.
  - split; [done|]. intros v Hv. destruct (Z.ltb_spec v (Z.of_nat (length (@nil Z)))); [cbn in *; lia|done].
  - exists s'. split; [exact E|]. by split.
Qed.
End idt_table.

(** *** The hexadecimal dump *)

(** The whole formatter: the last two characters before the terminator are what
    the buffer held. *)
Lemma u64_to_hex_ok val buf : length buf = 20%nat →
  u64_to_hex val buf = Ok ((), [48; 120] ++ hex_text 14 val ++ take 2 (drop 16 buf) ++ 0 :: drop 19 buf).
Proof.
  intros Hl. do 20 (destruct buf as [|? buf]; [done|]). destruct buf; [|done]. reflexivity.
Qed.

Lemma hex_text_printable n v : printable (hex_text n v).
Proof. apply hex_digits_all. intros w. pose proof (hex_digit_byte w). lia. Qed.

Section reports.
Context {D : Type} `{PL : Platform D}.

(** What a dumped value reads: "0x", 14 digits, and whatever [gap] the buffer had
    in its two untouched places. *)
Definition value_text (gap : list Z) (v : Z) : list Z := cstr "0x" ++ hex_text 14 v ++ gap.
Definition line_text (gap : list Z) (l : list Z * Z * list Z) : list Z :=
  let '(label, v, after) := l in label ++ value_text gap v ++ after.

(** The text of the two characters nothing writes. *)
Definition gap_of (buf : list Z) : list Z := c_text (take 2 (drop 16 buf)).

Definition hex_buffer (buf : list Z) : Prop := length buf = 20%nat ∧ bytes buf.

Lemma c_text_gap g rest : length g = 2%nat → c_text (g ++ 0 :: rest) = c_text g.
Proof.
  intros Hg. do 2 (destruct g as [|? g]; [done|]). destruct g; [|done]. cbn.
  by repeat case_match.
Qed.

(** The buffer after formatting a value: what it reads as, and what it keeps. *)
Lemma formatted v buf : hex_buffer buf →
  ∃ buf', u64_to_hex v buf = Ok ((), buf') ∧ hex_buffer buf' ∧
    gap_of buf' = gap_of buf ∧ c_text buf' = value_text (gap_of buf) v.
Proof.
  intros [Hl Hb]. rewrite u64_to_hex_ok by done. eexists. split; [reflexivity|].
  pose proof (hex_text_length 14 v) as Ht. pose proof (hex_text_printable 14 v) as Hp.
  assert (length (take 2 (drop 16 buf)) = 2%nat) as Hg by (rewrite length_take, length_drop; lia).
  split; [split|split].
  - rewrite !length_app. cbn [length]. rewrite length_drop. lia.
  - apply bytes_app; [by repeat (apply List.Forall_cons; [lia|])|].
    apply bytes_app; [by apply printable_bytes|]. apply bytes_app; [by apply Forall_take, Forall_drop|].
    apply List.Forall_cons; [lia|by apply Forall_drop].
  - unfold gap_of. f_equal. rewrite app_assoc, drop_app_length' by (rewrite length_app; cbn; lia).
    by rewrite take_app_length' by done.
  - unfold value_text, gap_of. rewrite c_text_app_l by (repeat (apply List.Forall_cons; [lia|]); constructor).
    rewrite c_text_app_l by by apply printable_no_nul. by rewrite c_text_gap.
Qed.

Lemma dump_value_says l buf p :
  hex_buffer buf → printable l.1.1 → printable l.2 →
  says (dump_value buf l) p (line_text (gap_of buf) l)
    (λ buf' p', hex_buffer buf' ∧ gap_of buf' = gap_of buf ∧ p' = p).
Proof.
  destruct l as [[label v] after]. cbn [fst snd]. intros Hbuf Hlab Haft.
  destruct (formatted v buf Hbuf) as (buf' & E & Hbuf' & Hgap & Htext).
  unfold dump_value, line_text. apply says_then; [done|]. rewrite E, <- Htext.
  eapply says_bind; [apply says_text, Hbuf'|]. intros _ ? ->.
  rewrite <- (app_nil_r after) at 2. apply says_then; [done|]. by apply says_ret.
Qed.

Lemma dump_says ls buf p :
  hex_buffer buf → Forall (λ l, printable l.1.1 ∧ printable l.2) ls →
  says (dump_values ls buf) p (concat (line_text (gap_of buf) <$> ls)) (λ _ p', p' = p).
Proof.
  intros Hbuf Hls. revert buf Hbuf; induction Hls as [|l ls [Hlab Haft] Hls IH]; intros buf Hbuf.
  { by apply says_ret. }
  cbn [dump_values fmap list_fmap concat]. eapply says_bind; [by apply dump_value_says|].
  intros buf' p' (Hbuf' & Hgap & ->). rewrite <- Hgap. by apply IH.
Qed.

(** The line that names the exception. *)
Definition exception_text (vec : Z) : list Z :=
  if vec <? 32 then
    cstr "Exception: " ++ cstr "0x" ++ hex_text 2 vec ++ cstr " " ++
    default [] (exception_messages !! Z.to_nat vec) ++ nl
  else cstr "Unknown interrupt vector" ++ nl.

(** The whole report of a frame. *)
Definition report (gap : list Z) (f : InterruptFrame) : list Z :=
  nl ++ nl ++ cstr "--- KERNEL PANIC ---" ++ nl ++
  exception_text (interrupt_number f) ++
  concat (line_text gap <$> dump_lines f) ++
  PANIC_BANNER ++ cstr "Unhandled CPU exception. System halted." ++ PANIC_FOOTER.

Lemma messages_printable vec : 0 ≤ vec < 32 →
  ∃ msg, exception_messages !! Z.to_nat vec = Some msg ∧ printable msg.
Proof.
  intros Hv. pose proof (range_forallb (λ v, match exception_messages !! Z.to_nat v with
    | Some m => forallb (λ c, (0 <? c) && (c <? 256)) m | None => false end) 0 32 vec eq_refl
    ltac:(lia)) as H. cbv beta in H.
  destruct (exception_messages !! Z.to_nat vec) as [msg|]; [|done].
  exists msg. split; [done|by apply printable_check].
Qed.

Lemma dump_lines_printable f : Forall (λ l, printable l.1.1 ∧ printable l.2) (dump_lines f).
Proof.
  unfold dump_lines. repeat (apply List.Forall_cons; [split; by apply printable_check|]). constructor.
Qed.

Lemma exception_says vec p : 0 ≤ vec →
  says (if vec <? 32 then
     print (cstr "Exception: ") ≫= λ _,
     print [48; 120; hex_digit (vec ≫ 4); hex_digit vec; 0] ≫= λ _,
     print (cstr " ") ≫= λ _,
     msg ← of_option (exception_messages !! Z.to_nat vec);
     print msg ≫= λ _, print nl
   else print (cstr "Unknown interrupt vector" ++ nl)) p (exception_text vec) (λ _ p', p' = p).
Proof.
  intros Hv. unfold exception_text. destruct (Z.ltb_spec vec 32) as [Hlt|_].
  2:{ apply says_print. by apply printable_check. }
  destruct (messages_printable vec) as (msg & -> & Hm); [lia|]. cbn [default from_option id].
  speak. pose proof (hex_digit_byte (vec ≫ 4)). pose proof (hex_digit_byte vec).
  rewrite (app_assoc (cstr "0x")). eapply says_bind.
  - eapply says_wp; [apply says_text| |by intros ? ? H'; exact H'].
    + repeat (apply List.Forall_cons; [lia|]). constructor.
    + apply (c_text_app [48; 120; hex_digit (vec ≫ 4); hex_digit vec] []).
      repeat (apply List.Forall_cons; [lia|]). constructor.
  - intros _ ? ->. speak. apply says_print. by apply printable_check.
Qed.

Lemma isr_handler_says f buf p :
  hex_buffer buf → 0 ≤ interrupt_number f → panic_ok p →
  says (isr_handler buf f) p (report (gap_of buf) f) (λ _, stopped p).
Proof.
  intros Hbuf Hv Hp. unfold isr_handler. eapply says_wp.
  - speak. eapply says_bind; [by apply exception_says|]. intros _ ? ->.
    eapply says_bind; [apply dump_says; [done|apply dump_lines_printable]|]. intros _ ? ->.
    apply kernel_panic_says; [by apply printable_check|done].
  - unfold report. by rewrite <- !app_assoc.
  - done.
Qed.
End reports.

Lemma idt_init_ok (isr_stub irq_stub : Z → Z) (table : Z) (s : idt_state)
    (Hisr : ∀ v, 0 ≤ isr_stub v < 2 ^ 64) (Hirq : ∀ v, 0 ≤ irq_stub v < 2 ^ 64) :
  ∃ s', idt_init isr_stub irq_stub table s = Ok ((), s') ∧
    length (idt s') = 256%nat ∧ idtr_limit s' = 4095 ∧ idtr_base s' = table ∧
    ∀ v, 0 ≤ v < 256 → ∃ g, idt s' !! Z.to_nat v = Some g ∧
      gate_target g =
        (if v <? 32 then Some (isr_stub v)
         else if v <? 34 then Some (irq_stub (v - 32)) else None) ∧
      (v < 34 → selector g = GDT_KERNEL_CODE ∧ type_attr g = 0x8E ∧ ist g = 0).
Proof.
  unfold idt_init. set (s0 := set_idt (replicate 256 gate_zero) s).
  rewrite (bind_ok _ _ _ () s0) by done. cbv zeta.
  change (IDT_PRESENT ||| IDT_DPL_RING0 ||| IDT_INTERRUPT_GATE) with 0x8E.
  destruct (isr_gates_ok isr_stub s0) as (s1 & E1 & Hl1 & Hv1); [done|].
  rewrite (bind_ok _ _ _ _ _ E1).
  rewrite (bind_ok _ _ _ _ _ (set_gate_ok 32 (irq_stub 0) 0x8E s1 ltac:(lia))).
  rewrite (bind_ok _ _ _ _ _ (set_gate_ok 33 (irq_stub 1) 0x8E
    (set_idt (<[Z.to_nat 32 := gate_for (irq_stub 0) 0x8E]> (idt s1)) s1)
    ltac:(cbn [idt set_idt]; rewrite length_insert; lia))).
  eexists. split; [reflexivity|]. cbn [idt set_idt idtr_limit idtr_base].
  rewrite !length_insert. split; [done|]. split; [done|]. split; [done|].
  assert (∀ v h, 0 ≤ h < 2 ^ 64 → ∃ g, Some (gate_for h 0x8E) = Some g ∧ gate_target g = Some h ∧
    (v < 34 → selector g = GDT_KERNEL_CODE ∧ type_attr g = 0x8E ∧ ist g = 0)) as Hgate.
  { intros v h Hh. exists (gate_for h 0x8E). split; [reflexivity|]. split.
    - apply gate_for_target; [exact Hh|reflexivity].
    - intros _. split; [reflexivity|]. split; reflexivity. }
  intros v Hv. destruct (Z.ltb_spec v 32) as [H32|H32].
  { rewrite !list_lookup_insert_ne, Hv1 by lia. destruct (Z.ltb_spec v 32); [|lia].
    apply Hgate. apply Hisr. }
  destruct (Z.ltb_spec v 34) as [H34|H34].
  - assert (v = 32 ∨ v = 33) as [->| ->] by lia.
    + rewrite list_lookup_insert_ne, list_lookup_insert_eq by lia. apply Hgate. apply Hirq.
    + rewrite list_lookup_insert_eq by (rewrite length_insert; lia). apply Hgate. apply Hirq.
  - rewrite !list_lookup_insert_ne, Hv1 by lia. destruct (Z.ltb_spec v 32); [lia|].
    exists gate_zero. split; [apply lookup_replicate_2; lia|]. split; [reflexivity|lia].
Qed.

(** * Properties *)

(** C37: whatever the table held, after [idt_init] the 32 exception vectors and the
    two interrupt vectors 32 and 33 lead to their stubs through present ring-0
    interrupt gates of the kernel code segment, the other 222 vectors are not
    present, and the register loaded with [lidt] covers exactly the 256 gates. *)
Theorem idt_init_vectors (isr_stub irq_stub : Z → Z) (table : Z) (s : idt_state)
    (Hisr : ∀ v, 0 ≤ isr_stub v < 2 ^ 64) (Hirq : ∀ v, 0 ≤ irq_stub v < 2 ^ 64) :
  ∃ s', idt_init isr_stub irq_stub table s = Ok ((), s') ∧
    length (idt s') = 256%nat ∧ idtr_limit s' = 4095 ∧ idtr_base s' = table ∧
    ∀ v, 0 ≤ v < 256 → ∃ g, idt s' !! Z.to_nat v = Some g ∧
      gate_target g =
        (if v <? 32 then Some (isr_stub v)
         else if v <? 34 then Some (irq_stub (v - 32)) else None) ∧
      (v < 34 → selector g = GDT_KERNEL_CODE ∧ type_attr g = 0x8E ∧ ist g = 0).
Proof. by apply idt_init_ok. Qed.

Lemma idt_init_vectors_witness :
  ∃ s', idt_init (λ v, 0xFFFFFFFF80001000 + 16 * (v `mod` 32)) (λ v, 0xFFFFFFFF80002000 + 16 * (v `mod` 2))
      0xFFFFFFFF80100000 (IdtState [] 0 0) = Ok ((), s') ∧
    ∃ g, idt s' !! 33%nat = Some g ∧ gate_target g = Some 0xFFFFFFFF80002010.
Proof.
  destruct (idt_init_vectors (λ v, 0xFFFFFFFF80001000 + 16 * (v `mod` 32))
    (λ v, 0xFFFFFFFF80002000 + 16 * (v `mod` 2)) 0xFFFFFFFF80100000 (IdtState [] 0 0))
    as (s' & E & _ & _ & _ & Hv).
  - intros v. pose proof (Z.mod_pos_bound v 32). lia.
  - intros v. pose proof (Z.mod_pos_bound v 2). lia.
  - exists s'. split; [exact E|]. destruct (Hv 33 ltac:(lia)) as (g & Hg & Ht & _).
    exists g. split; [exact Hg|exact Ht].
Defined.

(** [u64_to_hex] promises 16 digits but writes 14: the text denotes the value
    modulo 2^56, the two most significant digits are dropped, and the characters
    16 and 17 between the digits and the terminator are those the buffer held. *)
Theorem hex_dump_short (val : Z) (buf : list Z) (Hv : 0 ≤ val) (Hl : length buf = 20%nat) :
  ∃ ds buf', u64_to_hex val buf = Ok ((), buf') ∧ take 2 buf' = cstr "0x" ∧
    take 14 (drop 2 buf') = ds ∧ num_value 16 ds = val `mod` 2 ^ 56 ∧
    take 2 (drop 16 buf') = take 2 (drop 16 buf) ∧ buf' !! 18%nat = Some 0.
Proof.
  exists (hex_text 14 val). eexists. split; [by apply u64_to_hex_ok|]. split; [done|].
  split; [done|]. split; [by apply hex_text_value|].
  do 20 (destruct buf as [|? buf]; [done|]). done.
Qed.

Lemma hex_dump_short_witness :
  ∃ ds buf', u64_to_hex 0xFFFFFFFF80001234 (replicate 20 63) = Ok ((), buf') ∧
    num_value 16 ds = 0xFFFFFF80001234.
Proof.
  destruct (hex_dump_short 0xFFFFFFFF80001234 (replicate 20 63)) as (ds & buf' & E & _ & _ & Hn & _);
    [lia|reflexivity|]. exists ds, buf'. split; [exact E|exact Hn].
Defined.

(** The exception handler never faults, whatever frame it is given: a vector
    below 32 is announced with its number and name, any other as unknown, the 20
    saved values follow in order, and then the kernel panics, so the processor
    stops with interrupts off and the screen red. *)
Theorem exception_reported (D : Type) (PL : Platform D) (buf : list Z) (f : InterruptFrame)
    (d : D) (p : panic_state) (Hbuf : hex_buffer buf) (Hv : 0 ≤ interrupt_number f)
    (Hl : u_dlab (com1 d) = false) (Hp : panic_ok p) :
  ∃ d' p', isr_handler buf f (d, p) = Ok ((), (d', p')) ∧
    u_tx (com1 d') = u_tx (com1 d) ++ crlf (report (gap_of buf) f) ∧ stopped p p'.
Proof.
  destruct (isr_handler_says f buf p Hbuf Hv Hp d Hl) as ([] & d' & p' & E & Hst & Htx & _).
  by exists d', p'.
Qed.

Lemma exception_reported_witness :
  ∃ d' p', isr_handler (replicate 20 0)
      (Frame 13 0x10 0x400000 8 0x202 1 2 3 4 5 6 7 8 9 10 11 12 13 14 15 16)
      (quiet_board, small_screen) = Ok ((), (d', p')) ∧ stopped small_screen p'.
Proof.
  destruct (exception_reported board board_platform (replicate 20 0)
    (Frame 13 0x10 0x400000 8 0x202 1 2 3 4 5 6 7 8 9 10 11 12 13 14 15 16)
    quiet_board small_screen) as (d' & p' & E & _ & Hst).
  - split; [reflexivity|]. apply Forall_replicate. lia.
  - cbn. lia.
  - reflexivity.
  - apply small_screen_ok.
  - exists d', p'. split; [exact E|exact Hst].
Defined.
