(* ===== verification/Exceptions.v ===== *)
(** * Exceptions, from the processor to the report

    The composition of [Switch] and [Idt]: the processor enters an exception
    stub, the stub builds the [InterruptFrame] on the stack, and [isr_handler]
    reads its fields there through the pointer it is given. *)
From stdpp Require Import base tactics strings gmap numbers list.
From S2P Require Import Prelude CString Memory Layout Machine Switch Platform Pic Serial Panic Idt.

Local Open Scope Z_scope.
Local Open Scope nova_scope.

(** ** Data *)

(** [struct InterruptFrame]. *)
Definition interrupt_frame : cstruct := Struct false ((λ f, (f, U64)) <$> [
  "r15"; "r14"; "r13"; "r12"; "r11"; "r10"; "r9"; "r8";
  "rbp"; "rdi"; "rsi"; "rdx"; "rcx"; "rbx"; "rax";
  "interrupt_number"; "error_code"; "rip"; "cs"; "rflags"; "rsp"; "ss"]%string).

(** The vectors for which the processor pushes an error code, by the manuals of the
    makers; 29 and 30 are raised by AMD's processors only. *)
Definition pushes_error (n : Z) : bool :=
  bool_decide (n ∈ [8; 10; 11; 12; 13; 14; 17; 21; 29; 30]).

(** ** Operations *)

(** An exception: as an interrupt, and the processor pushes an error code for
    some vectors. *)
Definition enter_exception (code : option Z) (handler : Z) : M machine unit :=
  enter_interrupt handler ≫= λ _,
  match code with Some e => push e | None => mret tt end.

(** What [isr_handler] reads through [frame]. *)
Definition read_frame (frame : Z) : M mem InterruptFrame :=
  let get f := get_field interrupt_frame frame f in
  vec ← get "interrupt_number"%string; err ← get "error_code"%string;
  ip ← get "rip"%string; c ← get "cs"%string; fl ← get "rflags"%string;
  ax ← get "rax"%string; bx ← get "rbx"%string; cx ← get "rcx"%string; dx ← get "rdx"%string;
  si ← get "rsi"%string; di ← get "rdi"%string; bp ← get "rbp"%string; sp ← get "rsp"%string;
  r8 ← get "r8"%string; r9 ← get "r9"%string; r10 ← get "r10"%string; r11 ← get "r11"%string;
  r12 ← get "r12"%string; r13 ← get "r13"%string; r14 ← get "r14"%string; r15 ← get "r15"%string;
  mret (Frame vec err ip c fl ax bx cx dx si di bp sp r8 r9 r10 r11 r12 r13 r14 r15).

(** [isr_handler(frame)] on the memory [m]. *)
Definition isr_handler_at {D} `{PL : Platform D} (hex_buf : list Z) (frame : Z) (m : mem)
    : M (D * panic_state) unit :=
  match read_frame frame m with
  | Ok (f, _) => Idt.isr_handler hex_buf f
  | Fault => fault
  | NoFuel => nofuel
  end.

(** ** Specification *)

(** The words of the frame, and the structure they are. *)
Definition frame_words (v : reg → Z) (vec err ip c fl sp s : Z) : list Z :=
  (v <$> FRAME_REGS) ++ [vec; err; ip; c; fl; sp; s].
Definition frame_of (v : reg → Z) (vec err ip c fl sp : Z) : InterruptFrame :=
  Frame vec err ip c fl (v RAX) (v RBX) (v RCX) (v RDX) (v RSI) (v RDI) (v RBP) sp
    (v R8) (v R9) (v R10) (v R11) (v R12) (v R13) (v R14) (v R15).

(** The state an exception is reported with. *)
Definition frame_at (m : machine) (vec err : Z) : InterruptFrame :=
  frame_of (regs m) vec err (rip m) (cs m) (rflags m) (regs m RSP).

(** * Lemmas *)

(** Where [isr_handler] is called, for the stub of any vector. *)
Definition before_call (n : Z) : list instr :=
  (PushI <$> (if has_errcode n then [n] else [0; n])) ++ push_all ++ [MovRR RDI RSP].

Lemma isr_stub_split n :
  isr_stub n = before_call n ++ [Call Machine.isr_handler] ++ pop_all ++ [AddI RSP 16; Iretq].
Proof. unfold isr_stub, before_call. by destruct (has_errcode n). Qed.

(** The stubs agree with the processor, except for vector 29. *)
Lemma stubs_agree n : 0 ≤ n < 32 → n ≠ 29 → has_errcode n = pushes_error n.
Proof.
  intros Hn H29.
  pose proof (range_forallb (λ n, (n =? 29) || bool_decide (has_errcode n = pushes_error n))
    0 32 n eq_refl ltac:(lia)) as H.
  cbn beta in H. apply orb_true_iff in H as [H|H]; [lia|]. by apply bool_decide_eq_true in H.
Qed.

(** The field with index [i] of 22 is the word with index [i]. *)
Lemma frame_field frame ws m i f w :
  words_at frame ws m → ws !! i = Some w →
  field_at interrupt_frame f = Some (8 * Z.of_nat i, 8) → get_field interrupt_frame frame f m = Ok (w, m).
Proof. intros Hm Hi Hf. eapply get_field_ok; [exact Hf|]. by apply Hm. Qed.

(** The next field read is the word with index [i]. *)
Local Ltac read H i := erewrite bind_ok; [|apply (H (Z.to_nat i)); reflexivity].

Lemma read_frame_ok v vec err ip c fl sp s frame m :
  words_at frame (frame_words v vec err ip c fl sp s) m →
  read_frame frame m = Ok (frame_of v vec err ip c fl sp, m).
Proof.
  intros H. assert (∀ i f w, frame_words v vec err ip c fl sp s !! i = Some w →
    field_at interrupt_frame f = Some (8 * Z.of_nat i, 8) →
    get_field interrupt_frame frame f m = Ok (w, m)) as Hf by eauto using frame_field.
  unfold read_frame. cbv zeta.
  read Hf 15. read Hf 16. read Hf 17. read Hf 18. read Hf 19. read Hf 14. read Hf 13. read Hf 12. read Hf 11. read Hf 10. read Hf 9.
  read Hf 8. read Hf 20. read Hf 7. read Hf 6. read Hf 5. read Hf 4. read Hf 3. read Hf 2. read Hf 1. read Hf 0.
  reflexivity.
Qed.

Lemma frame_top_aligned m : wf_regs m → frame_top m `mod` 16 = 0.
Proof.
  intros Hwf. pose proof (frame_top_range m Hwf).
  change 16 with (2 ^ 4). rewrite <- Z.land_ones by lia. unfold frame_top.
  rewrite <- Z.land_assoc. change (u64 (Z.lnot 15) &&& Z.ones 4) with 0. apply Z.land_0_r.
Qed.

Section entry.
Context (call : fn → M machine unit).

(** The processor's part. *)
Lemma enter_exception_ok code handler m :
  interruptible m → (∀ e, code = Some e → 0 ≤ e < 2 ^ 64) →
  let sp := frame_top m - 40 - 8 * Z.of_nat (length (option_list code)) in
  ∃ m', enter_exception code handler m = Ok ((), m') ∧ rflags m' = clear_if (rflags m) ∧
    regs m' RSP = sp ∧ (∀ r, r ≠ RSP → regs m' r = regs m r) ∧
    words_at sp (option_list code ++ [rip m; cs m; rflags m; regs m RSP; ss m]) (mmem m') ∧
    same_dom (mmem m) (mmem m').
Proof.
  intros Hint Hcode. destruct (enter_ok m handler Hint) as (m1 & E1 & _ & Hfl & Hsp & Hr & Hf & Hd & _).
  pose proof Hint as [Hwf _ Hroom Hmap]. pose proof (frame_top_range m Hwf) as Ht.
  assert (words_at (frame_top m - 40) [rip m; cs m; rflags m; regs m RSP; ss m] (mmem m1)) as Hw.
  { destruct Hf as (? & ? & ? & ? & ?).
    repeat (apply words_cons; [match goal with
      H : load 8 ?a ?mm = Some ?v |- load 8 ?b ?mm = Some ?v => by replace b with a by lia end|]).
    apply words_nil. }
  unfold enter_exception. rewrite (bind_ok _ _ _ _ _ E1).
  destruct code as [e|]; [change (8 * Z.of_nat (length (option_list (Some e)))) with 8
                         |change (8 * Z.of_nat (length (option_list None))) with 0].
  - destruct (push_ok e m1) as (mm & E2 & Hl & Hd2 & Hs2).
    { rewrite Hsp. lia. } { by apply Hcode. } { rewrite Hsp. apply (mapped_same_dom _ _ _ _ Hd). eapply mapped_sub; [exact Hmap|lia|lia]. }
    rewrite Hsp in *. eexists. split; [exact E2|]. split; [exact Hfl|]. split; [reflexivity|].
    split; [|split].
    + intros r Hne. rewrite regs_set_reg, decide_False by done. by apply Hr.
    + apply words_cons; [exact Hl|]. intros i w Hi.
      rewrite <- (Hw i w Hi). replace (frame_top m - 40 - 8 + 8) with (frame_top m - 40) by lia.
      apply load_ext. apply Hs2. unfold disjoint. lia.
    + by eapply same_dom_trans.
  - exists m1. split; [done|]. split; [exact Hfl|]. split; [rewrite Hsp; lia|]. split; [exact Hr|].
    split; [|exact Hd]. by replace (frame_top m - 40 - 0) with (frame_top m - 40) by lia.
Qed.

(** The stub's part, below any words. *)
Lemma before_call_ok n ws m :
  let room := 8 * ((if has_errcode n then 1 else 2) + 15) in
  0 ≤ n < 32 → wf_regs m → room ≤ regs m RSP → mapped (regs m RSP - room) room (mmem m) →
  words_at (regs m RSP) ws (mmem m) → regs m RSP + 8 * Z.of_nat (length ws) ≤ 2 ^ 64 →
  ∃ m', run call (before_call n) m = Ok ((), m') ∧
    regs m' RSP = regs m RSP - room ∧ regs m' RDI = regs m' RSP ∧
    words_at (regs m' RSP)
      ((regs m <$> FRAME_REGS) ++ [n] ++ (if has_errcode n then [] else [0]) ++ ws) (mmem m') ∧
    rflags m' = rflags m.
Proof.
  intros room Hn Hwf Hroom Hmap Hws Hmax. unfold room in *. clear room. set (vs := if has_errcode n then [n] else [0; n]).
  pose proof (Hwf RSP) as Hsp0.
  assert (Z.of_nat (length vs) = if has_errcode n then 1 else 2) as Hvs
    by (unfold vs; by destruct (has_errcode n)).
  destruct (isr_pushes call vs m) as (m' & E & Hsp & Hdi & Hr & Hv & Hs & Hfl).
  { unfold vs. destruct (has_errcode n); repeat (apply List.Forall_cons; [lia|]); done. }
  { exact Hwf. } { lia. } { eapply mapped_sub; [exact Hmap|lia|lia]. }
  exists m'. split; [exact E|]. split; [rewrite Hsp; lia|]. split; [exact Hdi|].
  split; [|exact Hfl]. change FRAME_REGS with (reverse all_regs).
  apply words_app. split.
  - intros i w Hi. rewrite list_lookup_fmap in Hi.
    destruct (reverse all_regs !! i) as [r|] eqn:Hir; [|done]. injection Hi as <-. by apply Hr.
  - rewrite app_assoc. apply words_app. change (Z.of_nat (length _)) with 15 at 1 2. split.
    + intros i w Hi. apply Hv. rewrite <- Hi. unfold vs. by destruct (has_errcode n).
    +
      assert (regs m' RSP + 8 * 15 + 8 * Z.of_nat (length ([n] ++ if has_errcode n then [] else [0]))
        = regs m RSP) as -> by (rewrite Hsp; unfold vs; destruct (has_errcode n); cbn; lia).
      intros i w Hi. apply lookup_lt_Some in Hi as Hlt. rewrite <- (Hws i w Hi).
      apply load_ext. intros b Hb. apply Hs. lia.
Qed.

(** The whole way into [isr_handler], with as many words below the top as the
    processor, the stub and the fifteen registers push. *)
Lemma exception_words_ok n code handler m :
  let code_size := 8 * Z.of_nat (length (option_list code)) in
  let room := 40 + code_size + 8 * ((if has_errcode n then 1 else 2) + 15) in
  interruptible m → 0 ≤ n < 32 → (∀ e, code = Some e → 0 ≤ e < 2 ^ 64) →
  room ≤ frame_top m → mapped (frame_top m - room) room (mmem m) →
  ∃ m', (enter_exception code handler ≫= λ _, run call (before_call n)) m = Ok ((), m') ∧
    regs m' RDI = frame_top m - room ∧ regs m' RSP = frame_top m - room ∧
    rflags m' = clear_if (rflags m) ∧
    words_at (frame_top m - room) ((regs m <$> FRAME_REGS) ++ [n] ++
      (if has_errcode n then [] else [0]) ++
      option_list code ++ [rip m; cs m; rflags m; regs m RSP; ss m]) (mmem m').
Proof.
  intros code_size room Hint Hn Hcode Hroom Hmap. unfold room in *. clear room.
  pose proof Hint as [Hwf _ _ _]. pose proof (frame_top_range m Hwf).
  destruct (enter_exception_ok code handler m Hint Hcode) as (m1 & E1 & Hfl1 & Hsp1 & Hr1 & Hw1 & Hd1).
  fold code_size in Hsp1, Hw1. set (ws := option_list code ++ _) in *. rewrite <- Hsp1 in Hw1.
  assert (8 * Z.of_nat (length ws) = code_size + 40) as Hlen
    by (unfold ws, code_size; rewrite length_app; cbn [length]; lia).
  assert (0 ≤ code_size) by lia.
  destruct (before_call_ok n ws m1) as (m2 & E2 & Hsp2 & Hdi2 & Hw2 & Hfl2).
  { exact Hn. }
  { intros r. destruct (decide (r = RSP)) as [->|Hne]; [|rewrite Hr1 by done; apply Hwf].
    destruct (has_errcode n); lia. }
  { lia. } { apply (mapped_same_dom _ _ _ _ Hd1). eapply mapped_sub; [exact Hmap|lia|lia]. }
  { exact Hw1. } { lia. }
  assert (regs m1 <$> FRAME_REGS = regs m <$> FRAME_REGS) as Hregs.
  { apply list_fmap_ext. intros i r Hi. apply Hr1. intros ->.
    apply list_elem_of_lookup_2 in Hi. unfold FRAME_REGS in Hi. set_solver. }
  rewrite Hregs in Hw2.
  match goal with |- context [frame_top m - ?room] =>
    assert (regs m2 RSP = frame_top m - room) as Hsp by (rewrite Hsp2, Hsp1; lia) end.
  rewrite Hsp in Hw2. exists m2.
  split; [by rewrite (bind_ok _ _ _ _ _ E1)|]. rewrite Hdi2.
  split; [exact Hsp|]. split; [exact Hsp|]. split; [by rewrite Hfl2|exact Hw2].
Qed.

(** When the stub agrees with the processor on whether there is an error code. *)
Lemma exception_frame_ok n code handler m :
  interruptible m → 0 ≤ n < 32 → has_errcode n = bool_decide (is_Some code) →
  (∀ e, code = Some e → 0 ≤ e < 2 ^ 64) →
  ∃ m', (enter_exception code handler ≫= λ _, run call (before_call n)) m = Ok ((), m') ∧
    regs m' RSP `mod` 16 = 0 ∧ rflags m' = clear_if (rflags m) ∧
    read_frame (regs m' RDI) (mmem m') = Ok (frame_at m n (default 0 code), mmem m').
Proof.
  intros Hint Hn Hc Hcode. pose proof Hint as [Hwf _ Hroom Hmap].
  pose proof (exception_words_ok n code handler m) as H. cbv zeta in H.
  replace (40 + 8 * Z.of_nat (length (option_list code)) + 8 * ((if has_errcode n then 1 else 2) + 15))
    with 176 in H by (rewrite Hc; by destruct code).
  destruct (H Hint Hn Hcode Hroom Hmap) as (m' & E & Hdi & Hsp & Hfl & Hw).
  exists m'. split; [exact E|]. split; [|split; [exact Hfl|]].
  - rewrite Hsp. pose proof (frame_top_aligned m Hwf). Z.div_mod_to_equations. lia.
  - rewrite Hdi. apply (read_frame_ok _ _ _ _ _ _ _ (ss m)). rewrite Hc in Hw. unfold frame_words.
    by destruct code.
Qed.
End entry.

(** * Properties *)

(** C9: an exception is reported with the state it interrupted: for each of the 32
    vectors but 29 (see [vmm_exception_misread]), from the processor's entry, with the error code that it pushes
    for this vector if it does, the stub
    calls [isr_handler] with interrupts off, the stack aligned as the calling
    convention wants it, and a pointer through which [struct InterruptFrame]'s
    fields are the vector, the error code or 0, and the interrupted registers; the
    handler prints the vector and its name and these values, each with its 14 low
    hexadecimal digits only, followed by what two bytes of its buffer held before
    (see [hex_dump_short]), and panics. *)
Theorem exception_path (D : Type) (PL : Platform D) (call : fn → M machine unit) (m : machine)
    (n : Z) (code : option Z) (handler : Z) (buf : list Z) (d : D) (p : panic_state)
    (Hint : interruptible m) (Hn : 0 ≤ n < 32) (H29 : n ≠ 29)
    (Hc : bool_decide (is_Some code) = pushes_error n)
    (Hcode : ∀ e, code = Some e → 0 ≤ e < 2 ^ 64)
    (Hbuf : hex_buffer buf) (Hl : u_dlab (com1 d) = false) (Hp : panic_ok p) :
  ∃ m' rest d' p', isr_stub n = before_call n ++ Call Machine.isr_handler :: rest ∧
    (enter_exception code handler ≫= λ _, run call (before_call n)) m = Ok ((), m') ∧
    int_enabled m' = false ∧ regs m' RSP `mod` 16 = 0 ∧
    isr_handler_at buf (regs m' RDI) (mmem m') (d, p) = Ok ((), (d', p')) ∧
    u_tx (com1 d') =
      u_tx (com1 d) ++ crlf (report (gap_of buf) (frame_at m n (default 0 code))) ∧
    stopped p p'.
Proof.
  rewrite <- (stubs_agree n Hn H29) in Hc. symmetry in Hc.
  destruct (exception_frame_ok call n code handler m Hint Hn Hc Hcode) as (m' & E & Hal & Hfl & Hf).
  destruct (isr_handler_says (frame_at m n (default 0 code)) buf p Hbuf (proj1 Hn) Hp d Hl)
    as ([] & d' & p' & E' & Hst & Htx & _).
  exists m', (pop_all ++ [AddI RSP 16; Iretq]), d', p'.
  split; [by rewrite isr_stub_split|]. split; [exact E|].
  split; [|split; [exact Hal|split; [|split; [exact Htx|exact Hst]]]].
  - unfold int_enabled. rewrite Hfl. apply clear_if_clears.
    pose proof (int_ctl _ Hint) as Hctl. rewrite !Forall_cons_iff in Hctl. tauto.
  - unfold isr_handler_at. by rewrite Hf.
Qed.

Lemma exception_path_witness :
  ∃ m' d' p', (enter_exception (Some 2) 0x3000 ≫= λ _, run no_call (before_call 14)) demo_machine =
      Ok ((), m') ∧
    isr_handler_at (replicate 20 0) (regs m' RDI) (mmem m') (quiet_board, small_screen) =
      Ok ((), (d', p')) ∧ stopped small_screen p'.
Proof.
  destruct (exception_path board board_platform no_call demo_machine 14 (Some 2) 0x3000
    (replicate 20 0) quiet_board small_screen demo_interruptible)
    as (m' & rest & d' & p' & _ & E & _ & _ & E' & _ & Hst).
  - lia.
  - lia.
  - reflexivity.
  - intros e [= <-]. lia.
  - split; [reflexivity|]. apply Forall_replicate. lia.
  - reflexivity.
  - apply small_screen_ok.
  - exists m', d', p'. split; [exact E|]. split; [exact E'|exact Hst].
Defined.

(** C29: the stub of vector 29 pushes a 0 for the error code, also on the processors
    that have pushed one: the handler then takes the error code for [rip], [rip]
    for [cs], [cs] for [rflags] and the flags for [rsp], and its stack is not
    aligned. *)
Theorem vmm_exception_misread (call : fn → M machine unit) (m : machine) (e handler : Z)
    (Hint : interruptible m) (Hroom : 184 ≤ frame_top m)
    (Hmap : mapped (frame_top m - 184) 184 (mmem m)) (He : 0 ≤ e < 2 ^ 64) :
  ∃ m', (enter_exception (Some e) handler ≫= λ _, run call (before_call 29)) m = Ok ((), m') ∧
    regs m' RSP `mod` 16 = 8 ∧
    read_frame (regs m' RDI) (mmem m') =
      Ok (frame_of (regs m) 29 0 e (rip m) (cs m) (rflags m), mmem m').
Proof.
  destruct (exception_words_ok call 29 (Some e) handler m Hint ltac:(lia) ltac:(by intros ? [= <-])
    Hroom Hmap) as (m' & E & Hdi & Hsp & _ & Hw).
  exists m'. split; [exact E|]. split.
  - rewrite Hsp. change (frame_top m - _) with (frame_top m - 184).
    pose proof (frame_top_aligned m (int_regs _ Hint)). Z.div_mod_to_equations. lia.
  - rewrite Hdi. apply (read_frame_ok _ _ _ _ _ _ _ (regs m RSP)).
    eapply (proj1 (words_app _ _ [ss m] _)). exact Hw.
Qed.

Lemma vmm_exception_misread_witness :
  ∃ m', (enter_exception (Some 0x72) 0x3000 ≫= λ _, run no_call (before_call 29)) demo_machine =
      Ok ((), m') ∧ regs m' RSP `mod` 16 = 8.
Proof.
  destruct (vmm_exception_misread no_call demo_machine 0x72 0x3000 demo_interruptible)
    as (m' & E & Hal & _).
  - vm_compute. discriminate.
  - change (frame_top demo_machine) with 4096. apply demo_mapped; lia.
  - lia.
  - exists m'. split; [exact E|exact Hal].
Defined.
