(* ===== verification/Structs.v ===== *)
(** * The kernel's structures in memory

    The layouts of the structures that hardware or assembly code also reads, and
    of the heap's block header: the offsets and sizes that the other files use
    are those the compiler computes, and those the processor's manual requires. *)
From stdpp Require Import base tactics strings numbers list.
From S2P Require Import Prelude Layout Interfaces HeapSpec Heap Sched Vfs Switch Gdt Idt Exceptions.

Local Open Scope Z_scope.

(** ** Data *)

Definition HeapHeader : cstruct := Struct false
  [("magic", U32); ("size", U32); ("free", U8); ("next", Ptr); ("prev", Ptr)]%string.
Definition Task_struct : cstruct := Struct false
  [("rsp", U64); ("stack_base", Ptr); ("state", U8); ("id", U32); ("name", Arr SIZEOF_NAME U8)]%string.

Definition GDTEntry_struct : cstruct := Struct true
  [("limit_low", U16); ("base_low", U16); ("base_mid", U8); ("access", U8); ("granularity", U8);
   ("base_high", U8)]%string.
Definition GDTSystemEntry_struct : cstruct := Struct true
  [("limit_low", U16); ("base_low", U16); ("base_mid", U8); ("access", U8); ("granularity", U8);
   ("base_high", U8); ("base_upper", U32); ("reserved", U32)]%string.
Definition GDTR : cstruct := Struct true [("limit", U16); ("base", U64)]%string.
Definition TSS_struct : cstruct := Struct true
  [("reserved0", U32); ("rsp", Arr 3 U64); ("reserved1", U64); ("ist", Arr 7 U64);
   ("reserved2", U64); ("reserved3", U16); ("iomap_base", U16)]%string.
Definition IDTEntry_struct : cstruct := Struct true
  [("offset_low", U16); ("selector", U16); ("ist", U8); ("type_attr", U8); ("offset_mid", U16);
   ("offset_high", U32); ("reserved", U32)]%string.
Definition IDTR : cstruct := Struct true [("limit", U16); ("base", U64)]%string.

(** * Lemmas *)

(** The constants of the other files: the heap's header, the TSS limit, the two
    table limits, the saved stack pointer [context_switch] writes through the
    task's address, and the frame the stubs build. *)
Lemma layouts_used :
  sizeof HeapHeader = SIZEOF_HDR ∧
  offset_of HeapHeader <$> ["magic"; "size"; "free"; "next"; "prev"]%string =
    Some <$> [0; OFF_SIZE; OFF_FREE; OFF_NEXT; OFF_PREV] ∧
  offset_of Task_struct "rsp" = Some 0 ∧
  sizeof TSS_struct = SIZEOF_TSS ∧
  256 * sizeof IDTEntry_struct - 1 = 4095 ∧
  offset_of interrupt_frame <$> ["interrupt_number"; "error_code"; "rip"]%string =
    Some <$> [OFF_VECTOR; OFF_ERROR; OFF_RIP].
Proof. repeat split; vm_compute; reflexivity. Qed.

(** What the processor requires: an 8-byte segment descriptor, a 16-byte system
    descriptor and gate, 10-byte table registers, and in the task state segment
    the ring-0 stack pointer at 4, the interrupt stacks from 36 and the offset of
    the I/O map at 102. *)
Lemma layouts_hardware :
  sizeof <$> [GDTEntry_struct; GDTSystemEntry_struct; IDTEntry_struct; GDTR; IDTR] =
    [8; 16; 16; 10; 10] ∧
  offset_of GDTEntry_struct <$> ["limit_low"; "base_low"; "base_mid"; "access"; "granularity";
    "base_high"]%string = Some <$> [0; 2; 4; 5; 6; 7] ∧
  offset_of GDTSystemEntry_struct <$> ["base_upper"; "reserved"]%string = Some <$> [8; 12] ∧
  offset_of IDTEntry_struct <$> ["offset_low"; "selector"; "ist"; "type_attr"; "offset_mid";
    "offset_high"; "reserved"]%string = Some <$> [0; 2; 4; 5; 6; 8; 12] ∧
  (λ s, offset_of s "base") <$> [GDTR; IDTR] = [Some 2; Some 2] ∧
  offset_of TSS_struct <$> ["rsp"; "ist"; "iomap_base"]%string = Some <$> [4; 36; 102].
Proof. repeat split; vm_compute; reflexivity. Qed.
