(* ===== verification/Kernel.v ===== *)
(** * The state of the whole kernel

    Every component's static variables side by side, with the computations of
    each lifted to it.  The console's framebuffer and the one registered for
    panics are the same memory: [panic_view] is the panic code's view of it. *)
From stdpp Require Import base tactics strings gmap numbers list.
From S2P Require Import Prelude Memory Interfaces Pmm Heap Sched Platform Keyboard Vfs Serial.
From S2P Require Import Framebuffer Gdt Panic Idt.

Local Open Scope Z_scope.

(** ** Data *)

(** [k_buf] and [k_idx] are the statics of [shell_task]. *)
Record kernel (D : Type) := Kernel {
  k_dev : D; k_con : fbcon; k_pmm : pmm; k_heap : heap; k_sched : sched; k_ticks : Z;
  k_vfs : vfs; k_kbd : kbd; k_panic : panic_state; k_gdt : gdt_state; k_idt : idt_state;
  k_buf : list Z; k_idx : Z
}.
#[global] Arguments Kernel {D} _ _ _ _ _ _ _ _ _ _ _ _ _.
#[global] Arguments k_dev {D} _.
#[global] Arguments k_con {D} _.
#[global] Arguments k_pmm {D} _.
#[global] Arguments k_heap {D} _.
#[global] Arguments k_sched {D} _.
#[global] Arguments k_ticks {D} _.
#[global] Arguments k_vfs {D} _.
#[global] Arguments k_kbd {D} _.
#[global] Arguments k_panic {D} _.
#[global] Arguments k_gdt {D} _.
#[global] Arguments k_idt {D} _.
#[global] Arguments k_buf {D} _.
#[global] Arguments k_idx {D} _.

Section kernel.
Context {D : Type}.

Definition set_dev (v : D) (k : kernel D) : kernel D :=
  Kernel v (k_con k) (k_pmm k) (k_heap k) (k_sched k) (k_ticks k) (k_vfs k) (k_kbd k)
         (k_panic k) (k_gdt k) (k_idt k) (k_buf k) (k_idx k).
Definition set_con (v : fbcon) (k : kernel D) : kernel D :=
  Kernel (k_dev k) v (k_pmm k) (k_heap k) (k_sched k) (k_ticks k) (k_vfs k) (k_kbd k)
         (k_panic k) (k_gdt k) (k_idt k) (k_buf k) (k_idx k).
Definition set_pmm_heap (v : pmm * heap) (k : kernel D) : kernel D :=
  Kernel (k_dev k) (k_con k) (fst v) (snd v) (k_sched k) (k_ticks k) (k_vfs k) (k_kbd k)
         (k_panic k) (k_gdt k) (k_idt k) (k_buf k) (k_idx k).
Definition set_sched_heap (v : sched * heap) (k : kernel D) : kernel D :=
  Kernel (k_dev k) (k_con k) (k_pmm k) (snd v) (fst v) (k_ticks k) (k_vfs k) (k_kbd k)
         (k_panic k) (k_gdt k) (k_idt k) (k_buf k) (k_idx k).
Definition set_ticks (v : Z) (k : kernel D) : kernel D :=
  Kernel (k_dev k) (k_con k) (k_pmm k) (k_heap k) (k_sched k) v (k_vfs k) (k_kbd k)
         (k_panic k) (k_gdt k) (k_idt k) (k_buf k) (k_idx k).
Definition set_vfs (v : vfs) (k : kernel D) : kernel D :=
  Kernel (k_dev k) (k_con k) (k_pmm k) (k_heap k) (k_sched k) (k_ticks k) v (k_kbd k)
         (k_panic k) (k_gdt k) (k_idt k) (k_buf k) (k_idx k).
Definition set_kbd (v : kbd) (k : kernel D) : kernel D :=
  Kernel (k_dev k) (k_con k) (k_pmm k) (k_heap k) (k_sched k) (k_ticks k) (k_vfs k) v
         (k_panic k) (k_gdt k) (k_idt k) (k_buf k) (k_idx k).
Definition set_panic (v : panic_state) (k : kernel D) : kernel D :=
  Kernel (k_dev k) (k_con k) (k_pmm k) (k_heap k) (k_sched k) (k_ticks k) (k_vfs k) (k_kbd k)
         v (k_gdt k) (k_idt k) (k_buf k) (k_idx k).
Definition set_gdt (v : gdt_state) (k : kernel D) : kernel D :=
  Kernel (k_dev k) (k_con k) (k_pmm k) (k_heap k) (k_sched k) (k_ticks k) (k_vfs k) (k_kbd k)
         (k_panic k) v (k_idt k) (k_buf k) (k_idx k).
Definition set_kidt (v : idt_state) (k : kernel D) : kernel D :=
  Kernel (k_dev k) (k_con k) (k_pmm k) (k_heap k) (k_sched k) (k_ticks k) (k_vfs k) (k_kbd k)
         (k_panic k) (k_gdt k) v (k_buf k) (k_idx k).
Definition set_buf (b : list Z) (k : kernel D) : kernel D :=
  Kernel (k_dev k) (k_con k) (k_pmm k) (k_heap k) (k_sched k) (k_ticks k) (k_vfs k) (k_kbd k)
         (k_panic k) (k_gdt k) (k_idt k) b (k_idx k).
Definition set_idx (i : Z) (k : kernel D) : kernel D :=
  Kernel (k_dev k) (k_con k) (k_pmm k) (k_heap k) (k_sched k) (k_ticks k) (k_vfs k) (k_kbd k)
         (k_panic k) (k_gdt k) (k_idt k) (k_buf k) i.

(** ** The components' computations on the whole state *)

Definition dev {A} (m : M D A) : M (kernel D) A := zoom k_dev set_dev m.
Definition con {A} (m : M fbcon A) : M (kernel D) A := zoom k_con set_con m.
Definition keys {A} (m : M kbd A) : M (kernel D) A := zoom k_kbd set_kbd m.
Definition files {A} (m : M vfs A) : M (kernel D) A := zoom k_vfs set_vfs m.

(** The panic code's view: its framebuffer pointer, once registered, leads to
    the pixels the console draws. *)
Definition panic_view (k : kernel D) : panic_state :=
  match p_fb (k_panic k) with
  | Some _ => set_p_fb (s_fb (k_con k)) (k_panic k)
  | None => k_panic k
  end.
Definition panic_back (p : panic_state) (k : kernel D) : kernel D :=
  match p_fb p with
  | Some fb => set_panic p (set_con (set_fb fb (k_con k)) k)
  | None => set_panic p k
  end.

Definition panicking {A} (m : M (D * panic_state) A) : M (kernel D) A :=
  zoom (λ k, (k_dev k, panic_view k)) (λ t k, panic_back (snd t) (set_dev (fst t) k)) m.
End kernel.
