(* ===== verification/Shell.v ===== *)
(** * Interactive shell ([kernel/shell/shell.cpp])

    The commands, their dispatch, and the line editor with its input loop; what
    each command answers, and that the shell serves any sequence of interrupts
    without a fault. *)
From stdpp Require Import base tactics strings gmap numbers list.
From S2P Require Import Prelude CString Memory Interfaces Pmm Heap Sched Platform Pic Keyboard Vfs.
From S2P Require Import Serial Framebuffer Panic Kernel.

Local Open Scope Z_scope.

(** ** Operations *)

(** A command either returns to the input loop or never does. *)
Inductive outcome := Returned | Stopped.

(** [while ( *p == ' ') ++p;] *)
Fixpoint skip_spaces (s : list Z) : list Z :=
  match s with
  | c :: s' => if c =? 32 then skip_spaces s' else s
  | [] => []
  end.

Section shell.
Context {D : Type} `{PL : Platform D}.

Definition print_both (s : list Z) : M (kernel D) unit :=
  con (fb_print s) ≫= λ _, dev (print_serial s).

Definition color (fg : Z) : M (kernel D) unit := con (fb_set_color fg COLOR_DARK).

Definition help_text : list (list Z) := (λ s, cstr s ++ nl) <$> [
  "  help       - Display this assistance list";
  "  clear      - Clear the screen console";
  "  meminfo    - Show physical memory & heap statistics";
  "  ticks      - Show system PIT timer tick count";
  "  tasks      - List active kernel tasks";
  "  ls         - List files in virtual filesystem";
  "  cat <file> - Display contents of a file";
  "  echo <txt> - Print text to console";
  "  reboot     - Reset the computer";
  "  panic      - Test kernel panic red screen"]%string.

Definition cmd_help : M (kernel D) unit :=
  color COLOR_CYAN ≫= λ _,
  print_both (cstr "Available NovaOS Shell Commands:" ++ nl) ≫= λ _,
  color COLOR_WHITE ≫= λ _,
  for_each help_text print_both.

Definition cmd_clear : M (kernel D) unit :=
  con fb_clear ≫= λ _,
  color COLOR_GREEN ≫= λ _,
  print_both (cstr "=== NovaOS Interactive Shell ===" ++ nl) ≫= λ _,
  color COLOR_WHITE.

Definition cmd_meminfo : M (kernel D) unit :=
  color COLOR_YELLOW ≫= λ _,
  k ← get;
  con (fb_print_dec (cstr "PMM Free Pages : ") (pmm_free_pages (k_pmm k))) ≫= λ _,
  con (fb_print_dec (cstr "PMM Total Pages: ") (pmm_total_pages (k_pmm k))) ≫= λ _,
  con (fb_print_dec (cstr "PMM Used (KB)  : ") (pmm_used_bytes (k_pmm k) / 1024)) ≫= λ _,
  color COLOR_WHITE.

Definition cmd_ticks : M (kernel D) unit :=
  color COLOR_YELLOW ≫= λ _,
  k ← get;
  con (fb_print_dec (cstr "Timer Ticks: ") (pit_ticks (k_ticks k))) ≫= λ _,
  color COLOR_WHITE.

Definition cmd_tasks : M (kernel D) unit :=
  color COLOR_YELLOW ≫= λ _,
  k ← get;
  con (fb_print_dec (cstr "Active Tasks: ") (sched_task_count (k_sched k))) ≫= λ _,
  con (fb_print_dec (cstr "Current Task ID: ") (sched_current_id (k_sched k))) ≫= λ _,
  color COLOR_WHITE.

(** One line of the listing. *)
Definition list_node (i : Z) : M (kernel D) unit :=
  node ← files (arr_get i);
  print_both (cstr "  ") ≫= λ _,
  print_both (n_name node) ≫= λ _,
  con (fb_print_dec (cstr "  (") (n_size node)) ≫= λ _,
  print_both (cstr " bytes)" ++ nl).

Definition cmd_ls : M (kernel D) unit :=
  color COLOR_CYAN ≫= λ _,
  print_both (cstr "RAM Disk Files:" ++ nl) ≫= λ _,
  nodes ← files (vfs_list 16);
  color COLOR_WHITE ≫= λ _,
  for_each nodes list_node.

(** [data[size - 1]] is read at the width of [size_t]. *)
Definition cmd_cat (fname : list Z) : M (kernel D) unit :=
  node ← files (vfs_open fname);
  match node with
  | Some i =>
      node ← files (arr_get i);
      color COLOR_GREEN ≫= λ _,
      print_both (n_data node) ≫= λ _,
      last ← of_option (n_data node !! Z.to_nat (u64 (n_size node - 1)));
      (if negb (last =? 10) then print_both nl else mret tt) ≫= λ _,
      color COLOR_WHITE
  | None =>
      color COLOR_RED ≫= λ _,
      print_both (cstr "File not found: ") ≫= λ _,
      print_both fname ≫= λ _,
      print_both nl ≫= λ _,
      color COLOR_WHITE
  end.

Definition cmd_unknown (cmdline : list Z) : M (kernel D) unit :=
  color COLOR_RED ≫= λ _,
  print_both (cstr "Unknown command: '") ≫= λ _,
  print_both cmdline ≫= λ _,
  print_both (cstr "'. Type 'help' for commands." ++ nl) ≫= λ _,
  color COLOR_WHITE.

(** The reset pulse; the processor then halts. *)
Definition cmd_reboot : M (kernel D) unit :=
  print_both (cstr "Rebooting system..." ++ nl) ≫= λ _,
  dev (outb 0x64 0xFE).

Definition returned (m : M (kernel D) unit) : M (kernel D) outcome :=
  m ≫= λ _, mret Returned.
Definition stopped (m : M (kernel D) unit) : M (kernel D) outcome :=
  m ≫= λ _, mret Stopped.

Definition shell_execute (cmdline : list Z) : M (kernel D) outcome :=
  let cmdline := skip_spaces cmdline in
  if chr cmdline =? 0 then mret Returned else
  if streql cmdline (cstr "help") then returned cmd_help
  else if streql cmdline (cstr "clear") then returned cmd_clear
  else if streql cmdline (cstr "meminfo") then returned cmd_meminfo
  else if streql cmdline (cstr "ticks") then returned cmd_ticks
  else if streql cmdline (cstr "tasks") then returned cmd_tasks
  else if streql cmdline (cstr "ls") then returned cmd_ls
  else if strstarts cmdline (cstr "cat ") then
    returned (cmd_cat (skip_spaces (drop 4 cmdline)))
  else if strstarts cmdline (cstr "echo ") then
    returned (print_both (drop 5 cmdline) ≫= λ _, print_both nl)
  else if streql cmdline (cstr "reboot") then stopped cmd_reboot
  else if streql cmdline (cstr "panic") then
    stopped (panicking (kernel_panic
      (cstr "Explicit user-triggered kernel panic via shell command!")))
  else returned (cmd_unknown cmdline).

Definition shell_init : M (kernel D) unit :=
  color COLOR_GREEN ≫= λ _,
  print_both (nl ++ cstr "=== NovaOS Interactive Shell ===" ++ nl) ≫= λ _,
  color COLOR_WHITE ≫= λ _,
  print_both (cstr "Type 'help' to see available commands." ++ nl ++ nl).

Definition prompt : M (kernel D) unit :=
  color COLOR_CYAN ≫= λ _,
  print_both (cstr "NovaOS> ") ≫= λ _,
  color COLOR_WHITE.

(** [buf[i] = c]. *)
Definition put_buf (i c : Z) : M (kernel D) unit := zoom k_buf set_buf (arr_put i c).

(** The input loop's reaction to one character. *)
Definition shell_char (c : Z) : M (kernel D) outcome :=
  if c =? 10 then
    con (fb_putchar 10) ≫= λ _,
    k ← get;
    put_buf (k_idx k) 0 ≫= λ _,
    k ← get;
    o ← shell_execute (k_buf k);
    match o with
    | Stopped => mret Stopped
    | Returned => modify (set_idx 0) ≫= λ _, prompt ≫= λ _, mret Returned
    end
  else if c =? 8 then
    k ← get;
    if 0 <? k_idx k then
      modify (set_idx (k_idx k - 1)) ≫= λ _, returned (con (fb_putchar 8))
    else mret Returned
  else if (32 <=? c) && (c <=? 126) then
    k ← get;
    if k_idx k <? 128 - 1 then
      put_buf (k_idx k) c ≫= λ _,
      modify (set_idx (k_idx k + 1)) ≫= λ _,
      returned (con (fb_putchar c))
    else mret Returned
  else mret Returned.

(** One turn of the loop, up to its [hlt]. *)
Definition shell_iter : M (kernel D) outcome :=
  k ← get;
  if keyboard_has_char (k_kbd k) then
    r ← keys (keyboard_getchar []); shell_char (fst r)
  else mret Returned.
End shell.
