(* ===== verification/ShellReplies.v ===== *)
(** * What the shell answers

    Every command as a list of outputs ([reply]), and the proof that
    [shell_execute] produces exactly these on the screen and the serial line and
    changes nothing else. *)
From stdpp Require Import base tactics strings gmap numbers list.
From S2P Require Import Prelude CString Digits Memory Interfaces Pmm Heap Sched SchedTheorems Platform Pic.
From S2P Require Import Keyboard Vfs Serial Framebuffer Terminal Panic Idt Kernel Shell.

Local Open Scope Z_scope.

(** ** Specification: what a command answers *)

(** An item of output: a foreground colour, a text for the screen and the serial
    line, a text for the screen alone, or a cleared screen. *)
Inductive out := Colour (fg : Z) | Both (t : list Z) | Screen (t : list Z) | Clear.

(** What an output does to the console, and what it sends. *)
Definition perform1 (o : out) : M fbcon unit :=
  match o with
  | Colour fg => fb_set_color fg COLOR_DARK
  | Both t | Screen t => fb_print t
  | Clear => fb_clear
  end.
Definition perform (outs : list out) : M fbcon unit := for_each outs perform1.
Definition serial1 (o : out) : list Z := match o with Both t => t | _ => [] end.
Definition serial_of (outs : list out) : list Z := concat (serial1 <$> outs).

Definition number_line (label : string) (v : Z) : out := Screen (cstr label ++ decimal v ++ nl).

Section reply.
Context {D : Type} (k : kernel D) (fs : list file).

Definition reply_help : list out :=
  Colour COLOR_CYAN :: Both (cstr "Available NovaOS Shell Commands:" ++ nl) ::
  Colour COLOR_WHITE :: (Both <$> help_text).
Definition reply_clear : list out := [
  Clear; Colour COLOR_GREEN; Both (cstr "=== NovaOS Interactive Shell ===" ++ nl);
  Colour COLOR_WHITE].
Definition reply_meminfo : list out := [
  Colour COLOR_YELLOW;
  number_line "PMM Free Pages : " (s_free_pages (k_pmm k));
  number_line "PMM Total Pages: " (s_total_pages (k_pmm k));
  number_line "PMM Used (KB)  : " (pmm_used_bytes (k_pmm k) / 1024);
  Colour COLOR_WHITE].

Definition reply_ticks : list out :=
  [Colour COLOR_YELLOW; number_line "Timer Ticks: " (k_ticks k); Colour COLOR_WHITE].
Definition reply_tasks : list out := [
  Colour COLOR_YELLOW; number_line "Active Tasks: " (s_count (k_sched k));
  number_line "Current Task ID: " (s_current (k_sched k)); Colour COLOR_WHITE].

Definition reply_file (f : file) : list out := [
  Both (cstr "  "); Both (f_name f); number_line "  (" (f_size f);
  Both (cstr " bytes)" ++ nl)].

Definition reply_ls : list out :=
  Colour COLOR_CYAN :: Both (cstr "RAM Disk Files:" ++ nl) :: Colour COLOR_WHITE ::
  concat (reply_file <$> fs).

Definition reply_cat (name : list Z) : list out :=
  match list_find (λ f, f_name f = name) fs with
  | Some (_, f) =>
      [Colour COLOR_GREEN; Both (c_text (f_data f))] ++
      (if decide (last (take (Z.to_nat (f_size f)) (f_data f)) = Some 10) then [] else [Both nl]) ++
      [Colour COLOR_WHITE]
  | None =>
      [Colour COLOR_RED; Both (cstr "File not found: "); Both name; Both nl; Colour COLOR_WHITE]
  end.

Definition reply_unknown (cmd : list Z) : list out := [
  Colour COLOR_RED; Both (cstr "Unknown command: '"); Both cmd;
  Both (cstr "'. Type 'help' for commands." ++ nl); Colour COLOR_WHITE].

(** The answer to a command line, by the text of the command. *)
Definition reply (cmd : list Z) : list out :=
  if decide (cmd = []) then []
  else if decide (cmd = cstr "help") then reply_help
  else if decide (cmd = cstr "clear") then reply_clear
  else if decide (cmd = cstr "meminfo") then reply_meminfo
  else if decide (cmd = cstr "ticks") then reply_ticks
  else if decide (cmd = cstr "tasks") then reply_tasks
  else if decide (cmd = cstr "ls") then reply_ls
  else if decide (cstr "cat " `prefix_of` cmd) then reply_cat (skip_spaces (drop 4 cmd))
  else if decide (cstr "echo " `prefix_of` cmd) then [Both (drop 5 cmd); Both nl]
  else if decide (cmd = cstr "reboot") then [Both (cstr "Rebooting system..." ++ nl)]
  else reply_unknown cmd.
End reply.

(** Characters that both consoles print: no terminator, no tab. *)
Definition plain (s : list Z) : Prop := Forall (λ c, 0 < c < 256 ∧ c ≠ 9) s.

Definition file_ok (f : file) : Prop :=
  plain (f_name f) ∧ plain (c_text (f_data f)) ∧
  1 ≤ f_size f ≤ Z.of_nat (length (f_data f)) ∧ f_size f < 2 ^ 64.

(** The framebuffer registered for panics is the console's. *)
Definition same_screen (p : panic_state) (c : fbcon) : Prop :=
  is_Some (p_fb p) ∧ p_width p = s_width c ∧ p_height p = s_height c ∧
  p_pitch p / 4 = s_pitch_p c.

(** The kernel the commands need: a usable console and serial line, the file
    table, and counters that fit their types. *)
Record shell_ok {D} `{PL : Platform D} (k : kernel D) (fs : list file) : Prop := {
  sh_con : fb_ok (k_con k);
  sh_com : u_dlab (com1 (k_dev k)) = false;
  sh_vfs : vfs_rep (k_vfs k) fs;
  sh_files : Forall file_ok fs;
  sh_sched : sched_ok (k_sched k);
  sh_pmm : 0 ≤ s_free_pages (k_pmm k) < 2 ^ 64 ∧ 0 ≤ s_total_pages (k_pmm k) < 2 ^ 64;
  sh_ticks : 0 ≤ k_ticks k < 2 ^ 64;
  sh_panic : same_screen (k_panic k) (k_con k)
}.

(** * Lemmas *)

(** *** Texts *)

Lemma plain_no_nul s : plain s → no_nul s.
Proof. intros H. eapply Forall_impl; [exact H|]. cbn. lia. Qed.
Lemma plain_bytes s : plain s → bytes s.
Proof. intros H. eapply Forall_impl; [exact H|]. cbn. lia. Qed.
Lemma plain_no_tab s : plain s → no_tab s.
Proof. intros H. eapply Forall_impl; [exact H|]. cbn. lia. Qed.
Lemma plain_text s : plain s → c_text s = s.
Proof. intros H. by apply c_text_id, plain_no_nul. Qed.
Lemma plain_app s t : plain s → plain t → plain (s ++ t).
Proof. intros. by apply Forall_app. Qed.
Lemma plain_drop n s : plain s → plain (drop n s).
Proof. apply Forall_drop. Qed.

Lemma plain_check s : forallb (λ c, (0 <? c) && (c <? 256) && negb (c =? 9)) s = true → plain s.
Proof.
  intros H. apply Forall_forall. intros c Hc. apply list_elem_of_In in Hc.
  rewrite List.forallb_forall in H. apply H in Hc. rewrite !andb_true_iff, negb_true_iff in Hc.
  destruct Hc as [[? ?] ?%Z.eqb_neq]. lia.
Qed.

Lemma skip_spaces_text s : c_text (skip_spaces s) = skip_spaces (c_text s).
Proof.
  induction s as [|c s IH]; [done|]. cbn [skip_spaces c_text].
  destruct (Z.eqb_spec c 32) as [->|Hc]; [exact IH|].
  cbn [c_text]. destruct (Z.eqb_spec c 0); [done|]. cbn. by destruct (Z.eqb_spec c 32).
Qed.

Lemma skip_spaces_plain s : plain s → plain (skip_spaces s).
Proof.
  intros H. induction H as [|c s Hc Hs IH]; [constructor|]. cbn.
  destruct (c =? 32); [exact IH|]. by constructor.
Qed.

Lemma c_text_drop n s : (n ≤ length (c_text s))%nat → c_text (drop n s) = drop n (c_text s).
Proof.
  revert s; induction n as [|n IH]; intros s Hn; [done|]. destruct s as [|c s]; [done|].
  cbn in *. destruct (Z.eqb_spec c 0); [cbn in Hn; lia|]. apply IH. cbn in Hn. lia.
Qed.

Lemma chr_text s : chr s = 0 ↔ c_text s = [].
Proof.
  destruct s as [|c s]; cbn; [done|]. destruct (Z.eqb_spec c 0); [done|]. by split.
Qed.

(** Printing reads a string up to its terminator. *)
Lemma decimal_plain v : 0 ≤ v < 2 ^ 64 → plain (decimal v).
Proof.
  intros Hv. destruct (decimal_ok v Hv) as (H & _). eapply Forall_impl; [exact H|].
  unfold dec_digit. lia.
Qed.

(** A labelled number is one line of text. *)
Lemma print_dec_eq p v s : plain p → 0 ≤ v < 2 ^ 64 →
  fb_print_dec p v s = fb_print (p ++ decimal v ++ nl) s.
Proof.
  intros Hp Hv. pose proof (decimal_plain v Hv) as Hd. unfold fb_print_dec.
  rewrite fb_print_app by by apply plain_no_nul. apply bind_cong; [done|]. intros _ s1.
  rewrite fb_print_app by by apply plain_no_nul.
  apply bind_cong; [by apply print_decimal|]. intros _ s2. by rewrite (fb_print_one 10).
Qed.

(** *** Computations that only talk *)

Lemma perform_app o1 o2 s : perform (o1 ++ o2) s = (perform o1 ≫= λ _, perform o2) s.
Proof. apply for_each_app. Qed.

Lemma serial_app o1 o2 : serial_of (o1 ++ o2) = serial_of o1 ++ serial_of o2.
Proof. unfold serial_of. by rewrite fmap_app, concat_app. Qed.

(** The same screen and text grid; the colours may differ. *)
Definition same_geo (s s' : fbcon) : Prop :=
  s_width s' = s_width s ∧ s_height s' = s_height s ∧ s_pitch_p s' = s_pitch_p s ∧
  s_cols s' = s_cols s ∧ s_rows s' = s_rows s.

Lemma same_geo_config s s' : same_config s s' → same_geo s s'.
Proof. intros (? & ? & ? & ? & ? & _). by split_and!. Qed.
Lemma same_geo_trans s1 s2 s3 : same_geo s1 s2 → same_geo s2 s3 → same_geo s1 s3.
Proof. unfold same_geo. intuition congruence. Qed.

Section speaks.
Context {D : Type} `{PL : Platform D}.
Implicit Types k : kernel D.

(** From [k], the computation returns [a] and only outputs [outs]: the console
    and the serial line are all that changes. *)
Definition speaks {A} (m : M (kernel D) A) (a : A) k (outs : list out) : Prop :=
  fb_ok (k_con k) → u_dlab (com1 (k_dev k)) = false →
  ∃ c d, m k = Ok (a, set_con c (set_dev d k)) ∧ perform outs (k_con k) = Ok ((), c) ∧
    fb_ok c ∧ same_geo (k_con k) c ∧ sent (k_dev k) d (crlf (serial_of outs)).

Lemma speaks_ret {A} (a : A) k : speaks (mret a) a k [].
Proof.
  intros Hc Hl. exists (k_con k), (k_dev k). split; [by destruct k|]. split; [done|].
  split; [done|]. split; [done|]. unfold sent. by rewrite app_nil_r.
Qed.

Lemma speaks_bind {A B} (m : M (kernel D) A) (f : A → M (kernel D) B) a b k o1 o2 :
  speaks m a k o1 → (∀ c d, speaks (f a) b (set_con c (set_dev d k)) o2) →
  speaks (m ≫= f) b k (o1 ++ o2).
Proof.
  intros Hm Hf Hc Hl. destruct (Hm Hc Hl) as (c1 & d1 & E1 & P1 & Hc1 & Hg1 & Hs1).
  rewrite (bind_ok _ _ _ _ _ E1).
  destruct (Hf c1 d1 Hc1) as (c2 & d2 & E2 & P2 & Hc2 & Hg2 & Hs2); [by destruct Hs1 as (_ & ? & _)|].
  exists c2, d2. split; [exact E2|]. split; [|split; [exact Hc2|split; [by eapply same_geo_trans|]]].
  - rewrite perform_app, (bind_ok _ _ _ _ _ P1). exact P2.
  - rewrite serial_app, crlf_app. by eapply sent_trans.
Qed.

(** Reading the state, or a component without changing it. *)
Lemma speaks_get {B} (f : kernel D → M (kernel D) B) b k o :
  speaks (f k) b k o → speaks (get ≫= f) b k o.
Proof. done. Qed.

Lemma speaks_files {A B} (m : M vfs A) (f : A → M (kernel D) B) a b k o :
  m (k_vfs k) = Ok (a, k_vfs k) → speaks (f a) b k o → speaks (files m ≫= f) b k o.
Proof.
  intros E Hf Hc Hl. rewrite (bind_ok _ _ _ a k); [by apply Hf|].
  unfold files, zoom. rewrite E. by destruct k.
Qed.

(** One output. *)
Lemma speaks_color fg k : speaks (color fg) () k [Colour fg].
Proof.
  intros Hc Hl. eexists _, (k_dev k). split; [by destruct k|]. split; [reflexivity|].
  split; [by destruct Hc as [[] ? ?]|]. split; [done|]. unfold sent. cbn. by rewrite app_nil_r.
Qed.

Lemma speaks_clear k : speaks (con fb_clear) () k [Clear].
Proof.
  intros Hc Hl. pose proof Hc as [Hg Hcol Hrow].
  destruct (clear_ok (k_con k) Hg ltac:(lia) ltac:(lia)) as (c & E & Hc' & Hg' & _).
  exists c, (k_dev k). split; [unfold con, zoom; rewrite E; by destruct k|].
  split; [cbn; by rewrite (bind_ok _ _ _ _ _ E)|]. split; [done|].
  split; [by apply same_geo_config|].
  unfold sent. cbn. by rewrite app_nil_r.
Qed.

Lemma perform_text t s c : plain t → fb_print t s = Ok ((), c) → perform [Both t] s = Ok ((), c).
Proof. intros Ht E. cbn. by rewrite (bind_ok _ _ _ _ _ E). Qed.

Lemma speaks_print t k : plain (c_text t) → speaks (print_both t) () k [Both (c_text t)].
Proof.
  intros Ht Hc Hl. destruct (print_moves (c_text t) (k_con k) Hc) as (c & E & Hc' & Hg' & _).
  { by apply plain_no_tab. }
  assert (∀ u, bytes (c_text u) → ∀ d, u_dlab (com1 d) = false →
    ∃ d', print_serial u d = Ok ((), d') ∧ sent d d' (crlf (c_text u))) as Hser.
  { intros u Hu d Hd. rewrite print_serial_text.
    destruct (print_serial_ok (c_text u) d Hu Hd) as (d' & E' & Hs). exists d'.
    split; [done|]. by rewrite (c_text_id (c_text u)) in Hs by apply c_text_no_nul. }
  destruct (Hser t (plain_bytes _ Ht) (k_dev k) Hl) as (d & E' & Hs).
  exists c, d. split; [|split; [by apply perform_text|split; [done|]]].
  2: split; [by apply same_geo_config|].
  - unfold print_both. rewrite (bind_ok _ _ _ () (set_con c k)).
    + unfold dev, zoom. cbn [k_dev set_con]. rewrite E'. by destruct k.
    + unfold con, zoom. rewrite <- fb_print_text. by rewrite E.
  - unfold serial_of. cbn [fmap list_fmap serial1 concat]. by rewrite app_nil_r.
Qed.

Lemma speaks_plain t k : plain t → speaks (print_both t) () k [Both t].
Proof. intros Ht. pose proof (speaks_print t k) as H. rewrite plain_text in H by done. by apply H. Qed.

Lemma speaks_number label v k :
  plain (cstr label) → 0 ≤ v < 2 ^ 64 →
  speaks (con (fb_print_dec (cstr label) v)) () k [number_line label v].
Proof.
  intros Hp Hv Hc Hl.
  destruct (print_moves (cstr label ++ decimal v ++ nl) (k_con k) Hc) as (c & E & Hc' & Hg' & _).
  { apply plain_no_tab, plain_app; [done|]. apply plain_app; [by apply decimal_plain|].
    by apply plain_check. }
  exists c, (k_dev k). split; [|split; [|split; [done|split; [by apply same_geo_config|]]]].
  - unfold con, zoom. rewrite print_dec_eq, E by done. by destruct k.
  - cbn. by rewrite (bind_ok _ _ _ _ _ E).
  - unfold sent. cbn. by rewrite app_nil_r.
Qed.

(** The same, followed by the rest. *)
Lemma speaks_seq {B} (m : M (kernel D) unit) (f : M (kernel D) B) b k o1 o2 :
  speaks m () k [o1] → (∀ c d, speaks f b (set_con c (set_dev d k)) o2) →
  speaks (m ≫= λ _, f) b k (o1 :: o2).
Proof. intros Hm Hf. exact (speaks_bind m (λ _, f) () b k [o1] o2 Hm Hf). Qed.

Lemma speaks_each {A} (l : list A) (body : A → M (kernel D) unit) (o : A → list out) k :
  (∀ x c d, x ∈ l → speaks (body x) () (set_con c (set_dev d k)) (o x)) →
  speaks (for_each l body) () k (concat (o <$> l)).
Proof.
  intros H. assert (∀ c d, speaks (for_each l body) () (set_con c (set_dev d k)) (concat (o <$> l))) as Hg.
  { induction l as [|x l IH]; intros c d; [apply speaks_ret|]. cbn [for_each fmap list_fmap concat].
    apply (speaks_bind _ _ () ()).
    - apply H. apply elem_of_cons. by left.
    - intros c' d'. apply IH. intros y c2 d2 Hy. apply H. apply elem_of_cons. by right. }
  specialize (Hg (k_con k) (k_dev k)). by destruct k.
Qed.

Lemma speaks_returned (m : M (kernel D) unit) k o :
  speaks m () k o → speaks (returned m) Returned k o.
Proof.
  intros Hm. rewrite <- (app_nil_r o). eapply speaks_bind; [exact Hm|]. intros c d. apply speaks_ret.
Qed.

Lemma speaks_stopped (m : M (kernel D) unit) k o :
  speaks m () k o → speaks (stopped m) Stopped k o.
Proof.
  intros Hm. rewrite <- (app_nil_r o). eapply speaks_bind; [exact Hm|]. intros c d. apply speaks_ret.
Qed.
End speaks.

(** Go through the outputs in front. *)
Ltac plain_text := first [assumption|by apply plain_check|apply plain_app; plain_text].
Ltac say1 := first
  [ apply speaks_color | apply speaks_clear | apply speaks_plain; plain_text
  | apply speaks_number; [plain_text|first [assumption|lia]] ].
Ltac say := repeat (apply speaks_seq; [say1|intros ? ?]).

Section commands.
Context {D : Type} `{PL : Platform D} (k : kernel D) (fs : list file) (Hok : shell_ok k fs).

Lemma help_speaks : speaks cmd_help () k reply_help.
Proof. unfold cmd_help, reply_help. say. apply speaks_ret. Qed.

Lemma clear_speaks : speaks cmd_clear () k reply_clear.
Proof. unfold cmd_clear, reply_clear. say. say1. Qed.

Lemma meminfo_speaks : speaks cmd_meminfo () k (reply_meminfo k).
Proof.
  pose proof (sh_pmm _ _ Hok) as [? ?].
  assert (0 ≤ pmm_used_bytes (k_pmm k) / 1024 < 2 ^ 64).
  { unfold pmm_used_bytes.
    pose proof (u64_range (u64 (s_total_pages (k_pmm k) - s_free_pages (k_pmm k)) * 4096)).
    Z.div_mod_to_equations. lia. }
  unfold cmd_meminfo, reply_meminfo. apply speaks_seq; [say1|intros ? ?]. apply speaks_get. say. say1.
Qed.

Lemma ticks_speaks : speaks cmd_ticks () k (reply_ticks k).
Proof.
  pose proof (sh_ticks _ _ Hok).
  unfold cmd_ticks, reply_ticks. apply speaks_seq; [say1|intros ? ?]. apply speaks_get. say. say1.
Qed.

Lemma tasks_speaks : speaks cmd_tasks () k (reply_tasks k).
Proof.
  pose proof (so_count _ (sh_sched _ _ Hok)). pose proof (so_current _ (sh_sched _ _ Hok)).
  unfold MAX_TASKS in *.
  assert (0 ≤ s_count (k_sched k) < 2 ^ 64) by lia. assert (0 ≤ s_current (k_sched k) < 2 ^ 64) by lia.
  unfold cmd_tasks, reply_tasks. apply speaks_seq; [say1|intros ? ?]. apply speaks_get. say. say1.
Qed.

(** The listing: one group of outputs per slot in use. *)
Lemma node_speaks c d i f : fs !! Z.to_nat i = Some f → 0 ≤ i →
  speaks (list_node i) () (set_con c (set_dev d k)) (reply_file f).
Proof.
  intros Hf Hi. destruct (vr_files _ _ (sh_vfs _ _ Hok) _ _ Hf) as (v & Hv & <-).
  pose proof (Forall_lookup_1 _ _ _ _ (sh_files _ _ Hok) Hf) as (Hn & _ & Hs & Hs').
  cbn [f_name f_size node_of] in Hn, Hs, Hs'.
  assert (0 ≤ n_size v < 2 ^ 64) by lia. unfold list_node, reply_file.
  apply (speaks_files _ _ v); [by apply arr_get_ok|]. say.
  apply speaks_seq; [by apply speaks_print|intros ? ?]. say. say1.
Qed.

Lemma concat_range {B} (g : file → list B) (h : Z → list B) (l : list file) n :
  (∀ i f, l !! i = Some f → h (n + Z.of_nat i) = g f) →
  concat (h <$> range n (Z.of_nat (length l))) = concat (g <$> l).
Proof.
  revert n; induction l as [|f l IH]; intros n H; [done|]. rewrite range_cons by (cbn; lia).
  cbn [fmap list_fmap concat length]. f_equal.
  - rewrite <- (H 0%nat f eq_refl). f_equal. cbn. lia.
  - replace (Z.of_nat (S (length l)) - 1) with (Z.of_nat (length l)) by lia.
    apply IH. intros i f' Hi. rewrite <- (H (S i) f' Hi). f_equal. lia.
Qed.

Lemma ls_speaks : speaks cmd_ls () k (reply_ls fs).
Proof.
  unfold cmd_ls, reply_ls. apply speaks_seq; [say1|intros ? ?]. apply speaks_seq; [say1|intros ? ?].
  pose proof (sh_vfs _ _ Hok) as Hrep. pose proof (vr_max _ _ Hrep).
  apply (speaks_files _ _ (range 0 (Z.of_nat (length fs)))).
  { refine (eq_trans (list_ok (k_vfs k) fs 16 Hrep ltac:(lia)) _). by rewrite Z.min_r by lia. }
  apply speaks_seq; [say1|intros ? ?].
  rewrite <- (concat_range reply_file (λ i, default [] (reply_file <$> fs !! Z.to_nat i)) fs 0).
  - apply speaks_each. intros i c' d' Hi%elem_of_range.
    destruct (lookup_lt_is_Some_2 fs (Z.to_nat i)) as [f Hf]; [lia|]. rewrite Hf.
    apply (node_speaks c' d' i f Hf). lia.
  - intros i f Hf. rewrite Z.add_0_l, Nat2Z.id. by rewrite Hf.
Qed.

(** The lookup by name, on both sides. *)
Lemma open_named name : plain (c_text name) →
  vfs_open name (k_vfs k) = Ok (Z.of_nat ∘ fst <$> list_find (λ f, f_name f = c_text name) fs, k_vfs k).
Proof. intros _. exact (open_ok _ _ name (sh_vfs _ _ Hok)). Qed.

Lemma last_of_data (data : list Z) (n : Z) :
  1 ≤ n ≤ Z.of_nat (length data) → n < 2 ^ 64 →
  last (take (Z.to_nat n) data) = data !! Z.to_nat (u64 (n - 1)).
Proof.
  intros Hn Hn'. rewrite u64_small by lia. rewrite last_lookup, length_take.
  replace (pred (Z.to_nat n `min` length data)) with (Z.to_nat (n - 1)) by lia.
  by rewrite lookup_take_lt by lia.
Qed.

Lemma cat_speaks name : plain (c_text name) → speaks (cmd_cat name) () k (reply_cat fs (c_text name)).
Proof.
  intros Hname. unfold cmd_cat, reply_cat. eapply speaks_files; [by apply open_named|].
  destruct (list_find (λ f, f_name f = c_text name) fs) as [[i f]|] eqn:Hfind; cbn [fmap option_fmap option_map compose fst].
  - apply list_find_Some in Hfind as (Hf & _ & _).
    destruct (vr_files _ _ (sh_vfs _ _ Hok) _ _ Hf) as (v & Hv & <-).
    pose proof (Forall_lookup_1 _ _ _ _ (sh_files _ _ Hok) Hf) as (_ & Hd & Hs & Hs').
    cbn [f_data f_size node_of] in *.
    apply (speaks_files _ _ v); [apply arr_get_ok; [lia|by rewrite Nat2Z.id]|].
    cbn [app]. apply speaks_seq; [say1|intros ? ?]. apply speaks_seq; [by apply speaks_print|intros ? ?].
    rewrite (last_of_data (n_data v) (n_size v)) by lia.
    destruct (lookup_lt_is_Some_2 (n_data v) (Z.to_nat (u64 (n_size v - 1)))) as [x Hx];
      [rewrite u64_small; lia|]. rewrite Hx. cbn [of_option].
    change (speaks ((if negb (x =? 10) then print_both nl else mret tt) ≫= λ _, color COLOR_WHITE) ()
      (set_con c0 (set_dev d0 (set_con c (set_dev d k))))
      ((if decide (Some x = Some 10) then [] else [Both nl]) ++ [Colour COLOR_WHITE])).
    eapply speaks_bind; [|intros ? ?; say1].
    destruct (Z.eqb_spec x 10) as [->|Hx10]; cbn [negb].
    + rewrite decide_True by done. apply speaks_ret.
    + rewrite decide_False by congruence. say1.
  - apply speaks_seq; [say1|intros ? ?]. apply speaks_seq; [say1|intros ? ?].
    apply speaks_seq; [by apply speaks_print|intros ? ?]. say. say1.
Qed.

Lemma unknown_speaks cmd : plain (c_text cmd) →
  speaks (cmd_unknown cmd) () k (reply_unknown (c_text cmd)).
Proof.
  intros Hc. unfold cmd_unknown, reply_unknown. say.
  apply speaks_seq; [by apply speaks_print|intros ? ?]. say. say1.
Qed.

Lemma echo_speaks t : plain (c_text t) →
  speaks (print_both t ≫= λ _, print_both nl) () k [Both (c_text t); Both nl].
Proof. intros Ht. apply speaks_seq; [by apply speaks_print|intros ? ?]. say1. Qed.

Lemma reboot_speaks : speaks cmd_reboot () k [Both (cstr "Rebooting system..." ++ nl)].
Proof.
  unfold cmd_reboot. apply (speaks_bind _ _ () () _ [_] []); [say1|]. intros c d Hc Hl.
  destruct (outb_ok 0x64 0xFE d) as (d' & b & E & _ & H1 & H2 & Ht & Hu); [lia|done|].
  exists c, d'. split; [unfold dev, zoom; cbn [k_dev set_con set_dev]; rewrite E; reflexivity|].
  split; [done|]. split; [done|]. split; [done|]. cbn [k_dev set_con set_dev]. unfold sent. rewrite Hu. cbn.
  by rewrite app_nil_r.
Qed.
End commands.

(** *** Dispatch *)

(** The command a line holds, and whether it comes back. *)
Definition command (line : list Z) : list Z := skip_spaces (c_text line).
Definition stops (cmd : list Z) : bool :=
  bool_decide (cmd = cstr "reboot") || bool_decide (cmd = cstr "panic").

(** The console's invariant makes the panic code's view paintable. *)
Lemma panic_view_ok {D} `{PL : Platform D} (k : kernel D) fs :
  shell_ok k fs → panic_ok (panic_view k).
Proof.
  intros H. destruct (sh_panic _ _ H) as ([fb Hfb] & Hw & Hh & Hpp).
  destruct (fo_geo _ (sh_con _ _ H)) as [Hwd Hht Hsz _ _ Hmap].
  right. exists (s_fb (k_con k)). unfold panic_view. rewrite Hfb.
  split; cbn [p_fb set_p_fb p_width p_height p_pitch]; rewrite ?Hw, ?Hh, ?Hpp; [done|lia|lia|done|done].
Qed.

Section dispatch.
Context {D : Type} `{PL : Platform D} (k : kernel D) (fs : list file) (Hok : shell_ok k fs).

Lemma streql_command line s : no_nul s →
  streql (skip_spaces line) s = bool_decide (command line = s).
Proof. intros Hs. rewrite streql_spec, skip_spaces_text. by rewrite (c_text_id s) by done. Qed.

Lemma strstarts_command line s : no_nul s →
  strstarts (skip_spaces line) s = bool_decide (s `prefix_of` command line).
Proof. intros Hs. rewrite strstarts_spec, skip_spaces_text. by rewrite (c_text_id s) by done. Qed.

(** What follows a prefix of the command. *)
Lemma rest_of_command line s : s `prefix_of` command line →
  c_text (drop (length s) (skip_spaces line)) = drop (length s) (command line).
Proof.
  intros Hs%prefix_length. unfold command in *. rewrite <- skip_spaces_text in *.
  by apply c_text_drop.
Qed.

Lemma command_plain line : plain (c_text line) → plain (command line).
Proof. apply skip_spaces_plain. Qed.

Lemma command_nil line : (chr (skip_spaces line) =? 0) = bool_decide (command line = []).
Proof.
  unfold command. rewrite <- skip_spaces_text. case_bool_decide as H.
  - apply Z.eqb_eq. by apply chr_text.
  - apply Z.eqb_neq. by rewrite chr_text.
Qed.

(** Only the two commands that end the session are not prefixed by one with an
    argument. *)
Lemma argument_returns s cmd : s `prefix_of` cmd →
  ¬ s `prefix_of` cstr "reboot" → ¬ s `prefix_of` cstr "panic" → stops cmd = false.
Proof.
  intros Hs Hr Hp. unfold stops. rewrite !bool_decide_eq_false_2; [done| |]; by intros ->.
Qed.

(** A command given by its name: decide it on both sides. *)
Ltac named_command :=
  match goal with
  | |- context [decide (?x = ?l)] =>
      let E := fresh "E" in
      destruct (decide (x = l)) as [E|E];
      [rewrite (bool_decide_eq_true_2 _ E), E|rewrite (bool_decide_eq_false_2 _ E)]
  end.

Lemma execute_speaks line :
  plain (c_text line) → command line ≠ cstr "panic" →
  speaks (shell_execute line) (if stops (command line) then Stopped else Returned) k
    (reply k fs (command line)).
Proof.
  intros Hp Hnp. pose proof (command_plain line Hp) as Hc.
  unfold shell_execute, reply. rewrite command_nil.
  rewrite !streql_command, !strstarts_command by by apply plain_no_nul, plain_check.
  named_command; [apply speaks_ret|].
  named_command; [apply speaks_returned, help_speaks|].
  named_command; [apply speaks_returned, clear_speaks|].
  named_command; [apply speaks_returned; by apply (meminfo_speaks k fs)|].
  named_command; [apply speaks_returned; by apply (ticks_speaks k fs)|].
  named_command; [apply speaks_returned; by apply (tasks_speaks k fs)|].
  named_command; [apply speaks_returned; by apply ls_speaks|].
  destruct (decide (cstr "cat " `prefix_of` command line)) as [Hcat|Hcat].
  { rewrite (bool_decide_eq_true_2 _ Hcat).
    rewrite (argument_returns _ _ Hcat) by (apply (bool_decide_unpack _); vm_compute; exact I).
    pose proof (rest_of_command line (cstr "cat ") Hcat) as Hr.
    change (length (cstr "cat ")) with 4%nat in Hr.
    apply speaks_returned. rewrite <- Hr, <- skip_spaces_text. apply cat_speaks; [done|].
    rewrite skip_spaces_text, Hr. by apply skip_spaces_plain, plain_drop. }
  rewrite (bool_decide_eq_false_2 _ Hcat).
  destruct (decide (cstr "echo " `prefix_of` command line)) as [Hecho|Hecho].
  { rewrite (bool_decide_eq_true_2 _ Hecho).
    rewrite (argument_returns _ _ Hecho) by (apply (bool_decide_unpack _); vm_compute; exact I).
    pose proof (rest_of_command line (cstr "echo ") Hecho) as Hr.
    change (length (cstr "echo ")) with 5%nat in Hr.
    apply speaks_returned. rewrite <- Hr. apply echo_speaks. rewrite Hr. by apply plain_drop. }
  rewrite (bool_decide_eq_false_2 _ Hecho).
  named_command; [by apply (speaks_stopped _ _ _ (reboot_speaks k))|].
  rewrite (bool_decide_eq_false_2 _ Hnp).
  assert (stops (command line) = false) as ->.
  { unfold stops. by rewrite !bool_decide_eq_false_2. }
  apply speaks_returned. unfold command. rewrite <- skip_spaces_text.
  apply unknown_speaks. by rewrite skip_spaces_text.
Qed.

(** The explicit panic, on the memory the console draws. *)
Lemma execute_panics line :
  command line = cstr "panic" →
  ∃ k', shell_execute line k = Ok (Stopped, k') ∧
    p_int (k_panic k') = false ∧ p_halted (k_panic k') = true ∧
    sent (k_dev k) (k_dev k') (crlf (PANIC_BANNER ++
      cstr "Explicit user-triggered kernel panic via shell command!" ++ PANIC_FOOTER)) ∧
    painted (s_pitch_p (k_con k)) (s_width (k_con k)) (s_height (k_con k)) 0x00CC0000
      (s_fb (k_con k)) (s_fb (k_con k')).
Proof.
  intros Hl. unfold shell_execute. rewrite command_nil.
  rewrite !streql_command, !strstarts_command, Hl by by apply plain_no_nul, plain_check.
  rewrite (bool_decide_eq_true_2 (cstr "panic" = cstr "panic")) by done.
  rewrite !bool_decide_eq_false_2 by (apply (bool_decide_unpack _); vm_compute; exact I).
  destruct (kernel_panic_says (cstr "Explicit user-triggered kernel panic via shell command!")
    (panic_view k) ltac:(by apply printable_check) (panic_view_ok _ _ Hok) (k_dev k) (sh_com _ _ Hok))
    as ([] & d & p & E & (Hi & Hh & Hf) & Hs).
  exists (panic_back p (set_dev d k)). split.
  { unfold stopped. rewrite (bind_ok _ _ _ () (panic_back p (set_dev d k))); [done|].
    unfold panicking, zoom. by rewrite E. }
  unfold filled, panic_view in Hf. unfold panic_back.
  destruct (sh_panic _ _ Hok) as ([fb0 Hfb] & Hw & Hh' & Hpp). rewrite Hfb in Hf.
  cbn [p_fb set_p_fb p_pitch p_width p_height] in Hf. rewrite Hw, Hh', Hpp in Hf.
  destruct (p_fb p) as [fb|]; [|done]. cbn. by split_and!.
Qed.
End dispatch.

(** ** A kernel to try it on *)

Definition boot_files : list file := [
  File (cstr "sysinfo.txt") sysinfo_content (text_size sysinfo_content);
  File (cstr "readme.txt") readme_content (text_size readme_content);
  File (cstr "credits.txt") credits_content (text_size credits_content)].

Definition file_check (f : file) : bool :=
  let plainb := forallb (λ c, (0 <? c) && (c <? 256) && negb (c =? 9)) in
  plainb (f_name f) && plainb (c_text (f_data f)) && (1 <=? f_size f) &&
  (f_size f <=? Z.of_nat (length (f_data f))) && (f_size f <? 2 ^ 64).

Lemma file_check_ok f : file_check f = true → file_ok f.
Proof.
  unfold file_check. rewrite !andb_true_iff. intros [[[[Hn Hd] ?] ?] ?].
  split; [by apply plain_check|]. split; [by apply plain_check|]. lia.
Qed.

Lemma boot_files_ok : Forall file_ok boot_files.
Proof. repeat (apply List.Forall_cons; [by apply file_check_ok; vm_compute|]). constructor. Qed.

Lemma demo_kernel : ∃ k : kernel board,
  shell_ok k boot_files ∧ k_kbd k = kbd_boot ∧ k_buf k = replicate 128 0 ∧ k_idx k = 0 ∧
  u_tx (com1 (k_dev k)) = [] ∧ k_ticks k = 0 ∧
  shows_term (k_con k) (blank_term 8 2 COLOR_WHITE COLOR_DARK).
Proof.
  destruct demo_terminal as (c & (Hw & Hh & Hpp) & Hc).
  destruct vfs_boot_init as (v & _ & Hv). destruct demo_two_tasks as (s & Hs & _).
  exists (Kernel quiet_board c pmm_boot (Heap 0 ∅) s 0 v kbd_boot
    (PanicState (Some ∅) 64 20 256 false false) Gdt.gdt_boot (IdtState [] 0 0) (replicate 128 0) 0).
  split; [|by split_and!]. split; cbn [k_con k_dev k_vfs k_sched k_pmm k_ticks k_panic]; try done.
  - exact (sw_ok _ _ Hc).
  - exact boot_files_ok.
Qed.

(** * Properties *)

(** C31: for every command line without tabs, except the one that panics, the shell
    produces exactly the outputs of [reply] (the texts, numbers and colours of the
    command it names, with file contents and error messages) on the screen and,
    for the texts, on the serial line; nothing else of the kernel changes, and
    only [reboot] does not come back. *)
Theorem shell_replies (D : Type) (PL : Platform D) (k : kernel D) (fs : list file) (line : list Z)
    (Hok : shell_ok k fs) (Hline : plain (c_text line)) (Hp : command line ≠ cstr "panic") :
  ∃ c d, shell_execute line k =
      Ok (if stops (command line) then Stopped else Returned, set_con c (set_dev d k)) ∧
    perform (reply k fs (command line)) (k_con k) = Ok ((), c) ∧ fb_ok c ∧
    u_tx (com1 d) = u_tx (com1 (k_dev k)) ++ crlf (serial_of (reply k fs (command line))).
Proof.
  destruct (execute_speaks k fs Hok line Hline Hp (sh_con _ _ Hok) (sh_com _ _ Hok))
    as (c & d & E & P & Hc & _ & Hs & _).
  by exists c, d.
Qed.

Lemma shell_replies_witness :
  ∃ (k k' : kernel board), shell_execute (cstr "  cat nosuch") k = Ok (Returned, k') ∧
    u_tx (com1 (k_dev k')) = cstr "File not found: nosuch" ++ [13; 10].
Proof.
  destruct demo_kernel as (k & Hok & _ & _ & _ & Htx & _).
  destruct (shell_replies board board_platform k boot_files (cstr "  cat nosuch") Hok)
    as (c & d & E & _ & _ & Hs).
  - apply plain_check. reflexivity.
  - apply (bool_decide_unpack _). vm_compute. exact I.
  - exists k, (set_con c (set_dev d k)). split; [exact E|].
    cbn [k_dev set_con set_dev]. rewrite Hs, Htx. vm_compute. reflexivity.
Defined.

(** C32: the command [panic] ends in a kernel panic: its report goes out on the
    serial line, interrupts are off, the processor is halted, and exactly the
    visible pixels of the console's screen are red. *)
Theorem shell_panics (D : Type) (PL : Platform D) (k : kernel D) (fs : list file) (line : list Z)
    (Hok : shell_ok k fs) (Hl : command line = cstr "panic") :
  ∃ k', shell_execute line k = Ok (Stopped, k') ∧
    p_int (k_panic k') = false ∧ p_halted (k_panic k') = true ∧
    u_tx (com1 (k_dev k')) = u_tx (com1 (k_dev k)) ++ crlf (PANIC_BANNER ++
      cstr "Explicit user-triggered kernel panic via shell command!" ++ PANIC_FOOTER) ∧
    painted (s_pitch_p (k_con k)) (s_width (k_con k)) (s_height (k_con k)) 0x00CC0000
      (s_fb (k_con k)) (s_fb (k_con k')).
Proof.
  destruct (execute_panics k fs Hok line Hl) as (k' & E & Hi & Hh & [Hs _] & Hp). by exists k'.
Qed.

Lemma shell_panics_witness :
  ∃ (k k' : kernel board), shell_execute (cstr " panic") k = Ok (Stopped, k') ∧
    p_halted (k_panic k') = true.
Proof.
  destruct demo_kernel as (k & Hok & _).
  destruct (shell_panics board board_platform k boot_files (cstr " panic") Hok) as (k' & E & _ & Hh & _).
  - reflexivity.
  - exists k, k'. split; [exact E|exact Hh].
Defined.

(** Showing a file of size 0 reads the byte in front of its data, at index
    2^64 - 1, which no memory holds: the command faults after it has printed the
    text. *)
Theorem cat_empty_faults (D : Type) (PL : Platform D) (k : kernel D) (fs : list file)
    (name : list Z) (i : nat) (f : file)
    (Hcon : fb_ok (k_con k)) (Hcom : u_dlab (com1 (k_dev k)) = false) (Hrep : vfs_rep (k_vfs k) fs)
    (Hfind : list_find (λ f, f_name f = c_text name) fs = Some (i, f))
    (Hsize : f_size f = 0) (Hdata : plain (c_text (f_data f)))
    (Hlen : Z.of_nat (length (f_data f)) < 2 ^ 64) :
  cmd_cat name k = Fault.
Proof.
  unfold cmd_cat. rewrite (bind_ok _ _ _ (Some (Z.of_nat i)) k).
  2:{ unfold files, zoom. rewrite (open_ok _ _ name Hrep). unfold named. rewrite Hfind. by destruct k. }
  apply list_find_Some in Hfind as (Hf & _ & _).
  destruct (vr_files _ _ Hrep _ _ Hf) as (v & Hv & <-). cbn [f_data f_size node_of] in *.
  rewrite (bind_ok _ _ _ v k).
  2:{ unfold files, zoom. rewrite (arr_get_ok _ _ v); [by destruct k|lia|by rewrite Nat2Z.id]. }
  destruct (speaks_color COLOR_GREEN k Hcon Hcom) as (c1 & d1 & E1 & _ & Hc1 & _ & _ & Hl1 & _).
  rewrite (bind_ok _ _ _ _ _ E1).
  destruct (speaks_print (n_data v) (set_con c1 (set_dev d1 k)) Hdata Hc1 Hl1)
    as (c2 & d2 & E2 & _).
  rewrite (bind_ok _ _ _ _ _ E2). apply bind_fault. rewrite Hsize.
  change (u64 (0 - 1)) with (2 ^ 64 - 1). by rewrite lookup_ge_None_2 by lia.
Qed.

Lemma cat_empty_faults_witness :
  ∃ k : kernel board, cmd_cat (cstr "empty") k = Fault.
Proof.
  destruct demo_kernel as (k & Hok & _).
  destruct (create_ok (k_vfs k) boot_files (cstr "empty") [] 0 (sh_vfs _ _ Hok)) as (v & _ & Hv);
    [cbn; lia|].
  exists (set_vfs v k). eapply (cat_empty_faults board board_platform (set_vfs v k) _ (cstr "empty") 3).
  - exact (sh_con _ _ Hok).
  - exact (sh_com _ _ Hok).
  - exact Hv.
  - vm_compute. reflexivity.
  - reflexivity.
  - constructor.
  - cbn. lia.
Defined.
