(* ===== verification/Display.v ===== *)
(** * What the screen shows of the shell

    The outputs of [ShellReplies] on the text terminal of [Terminal]: a console
    that shows a terminal shows, after a list of outputs, the terminal after
    them; and no answer of the shell has a tab. *)
From stdpp Require Import base tactics strings gmap numbers list.
From S2P Require Import Prelude CString Digits Memory Interfaces Pmm Heap Sched SchedTheorems Platform Pic.
From S2P Require Import Keyboard Vfs Serial Framebuffer Terminal Panic Idt Kernel Shell ShellReplies.

Local Open Scope Z_scope.

(** ** Specification *)

Definition term_out (t : term) (o : out) : term :=
  match o with
  | Colour fg => term_color fg t
  | Both u | Screen u => term_print u t
  | Clear => term_clear t
  end.
Definition term_perform (outs : list out) (t : term) : term := foldl term_out t outs.

(** The text of a terminal: its rows without the blanks at their ends. *)
Definition row_text (row : list cell) : list Z :=
  reverse (skip_spaces (reverse (cl_char <$> row))).
Definition term_text (t : term) : list (list Z) := row_text <$> t_cells t.

(** An output without tabs. *)
Definition out_ok (o : out) : Prop :=
  match o with Both u | Screen u => no_tab u | _ => True end.

(** * Lemmas *)

Lemma term_perform_app o1 o2 t : term_perform (o1 ++ o2) t = term_perform o2 (term_perform o1 t).
Proof. apply foldl_app. Qed.

(** *** The background never changes *)

Lemma feed_bg t : t_bg (term_feed t) = t_bg t.
Proof. unfold term_feed. by destruct (_ <? _). Qed.
Lemma plain_bg c t : t_bg (term_plain c t) = t_bg t.
Proof. unfold term_plain. destruct (_ <? _); [done|exact (feed_bg (term_store c t))]. Qed.
Lemma putchar_bg c t : t_bg (term_putchar c t) = t_bg t.
Proof.
  unfold term_putchar. destruct (c =? 13); [done|]. destruct (c =? 8); [done|].
  destruct (c =? 9); [|destruct (c =? 10); [apply feed_bg|apply plain_bg]].
  induction (Z.to_nat _) as [|n IH]; [done|]. by rewrite Nat.iter_succ, plain_bg.
Qed.
Lemma print_bg u t : t_bg (term_print u t) = t_bg t.
Proof.
  unfold term_print. revert t; induction (c_text u) as [|c l IH]; intros t; [done|].
  cbn [foldl]. by rewrite IH, putchar_bg.
Qed.

Lemma perform_bg outs : ∀ t, t_bg (term_perform outs t) = t_bg t.
Proof.
  induction outs as [|o outs IH]; intros t; [done|]. cbn [term_perform foldl]. rewrite <- (print_bg [] t).
  change (t_bg (term_perform outs (term_out t o)) = t_bg (term_print [] t)). rewrite IH.
  destruct o; cbn [term_out]; rewrite ?print_bg; done.
Qed.

(** *** Outputs on a console that shows a terminal *)

Lemma out_shows o s t : shows_term s t → t_bg t = COLOR_DARK → out_ok o →
  ∃ s', perform1 o s = Ok ((), s') ∧ shows_term s' (term_out t o) ∧ t_bg (term_out t o) = COLOR_DARK.
Proof.
  intros H Hbg Ho. destruct o as [fg|u|u|]; cbn [perform1 term_out out_ok] in *.
  - eexists. split; [reflexivity|]. split; [|exact Hbg]. rewrite <- Hbg. by apply color_shows.
  - destruct (print_shows u s t H (no_tab_fits u t Ho)) as (s' & E & H').
    exists s'. by rewrite print_bg.
  - destruct (print_shows u s t H (no_tab_fits u t Ho)) as (s' & E & H').
    exists s'. by rewrite print_bg.
  - destruct (clear_shows s t H) as (s' & E & H'). by exists s'.
Qed.

Lemma perform_shows outs : ∀ s t, shows_term s t → t_bg t = COLOR_DARK → Forall out_ok outs →
  ∃ s', perform outs s = Ok ((), s') ∧ shows_term s' (term_perform outs t) ∧
    t_bg (term_perform outs t) = COLOR_DARK.
Proof.
  induction outs as [|o outs IH]; intros s t H Hbg Ho; [by exists s|].
  apply Forall_cons_iff in Ho as [Ho Hos].
  destruct (out_shows o s t H Hbg Ho) as (s1 & E1 & H1 & Hbg1).
  destruct (IH s1 _ H1 Hbg1 Hos) as (s2 & E2 & H2). exists s2. split; [|exact H2].
  unfold perform. cbn [for_each]. by rewrite (bind_ok _ _ _ _ _ E1).
Qed.

(** *** No answer has a tab *)

Lemma no_tab_check s : forallb (λ c, negb (c =? 9)) s = true → no_tab s.
Proof.
  intros H. apply Forall_forall. intros c Hc. apply list_elem_of_In in Hc.
  rewrite List.forallb_forall in H. apply H in Hc. by apply negb_true_iff, Z.eqb_neq in Hc.
Qed.

Lemma number_ok label v : no_tab (cstr label) → 0 ≤ v < 2 ^ 64 → out_ok (number_line label v).
Proof.
  intros Hl Hv. cbn. apply Forall_app. split; [exact Hl|]. apply Forall_app.
  split; [by apply plain_no_tab, decimal_plain|by apply no_tab_check].
Qed.

(** Go through a list of outputs. *)
Ltac outs_ok := repeat (apply List.Forall_cons;
  [first [exact I|by apply no_tab_check|apply number_ok; [by apply no_tab_check|assumption || lia]]|]);
  try apply List.Forall_nil.

Section replies.
Context {D : Type} `{PL : Platform D} (k : kernel D) (fs : list file) (Hok : shell_ok k fs).

Lemma file_outs_ok f : f ∈ fs → Forall out_ok (reply_file f).
Proof using Hok.
  intros Hf. destruct (proj1 (list.Forall_forall _ _) (sh_files _ _ Hok) f Hf) as (Hn & _ & Hs & Hs').
  unfold reply_file. apply List.Forall_cons; [by apply no_tab_check|].
  apply List.Forall_cons; [by apply plain_no_tab|]. outs_ok.
Qed.

Lemma cat_outs_ok name : no_tab name → Forall out_ok (reply_cat fs name).
Proof using Hok.
  intros Hn. unfold reply_cat. destruct (list_find _ fs) as [[i f]|] eqn:E.
  - apply list_find_Some in E as (Hf & _ & _). apply list_elem_of_lookup_2 in Hf.
    destruct (proj1 (list.Forall_forall _ _) (sh_files _ _ Hok) f Hf) as (_ & Hd & _).
    apply Forall_app. split; [apply List.Forall_cons; [exact I|]; apply List.Forall_cons|].
    + by apply plain_no_tab.
    + constructor.
    + apply Forall_app. split; [destruct (decide _)|]; outs_ok.
  - apply List.Forall_cons; [exact I|]. apply List.Forall_cons; [by apply no_tab_check|].
    apply List.Forall_cons; [exact Hn|]. outs_ok.
Qed.

Lemma used_kb_range : 0 ≤ pmm_used_bytes (k_pmm k) / 1024 < 2 ^ 64.
Proof using.
  unfold pmm_used_bytes.
  pose proof (u64_range (u64 (s_total_pages (k_pmm k) - s_free_pages (k_pmm k)) * 4096)).
  Z.div_mod_to_equations. lia.
Qed.

Lemma reply_outs_ok cmd : plain cmd → Forall out_ok (reply k fs cmd).
Proof using Hok.
  intros Hc. pose proof (sh_pmm _ _ Hok) as [Hf Ht]. pose proof (sh_ticks _ _ Hok) as Hk.
  pose proof (so_count _ (sh_sched _ _ Hok)) as Hn. pose proof (so_current _ (sh_sched _ _ Hok)) as Hcur.
  pose proof used_kb_range as Hu. unfold MAX_TASKS in *.
  unfold reply. repeat case_decide; try by outs_ok.
  - apply List.Forall_cons; [exact I|]. apply List.Forall_cons; [by apply no_tab_check|].
    apply List.Forall_cons; [exact I|]. apply Forall_concat, Forall_fmap, list.Forall_forall.
    intros f Hfs. by apply file_outs_ok.
  - by apply cat_outs_ok, plain_no_tab, skip_spaces_plain, plain_drop.
  - apply List.Forall_cons; [by apply plain_no_tab, plain_drop|]. outs_ok.
  - apply List.Forall_cons; [exact I|]. apply List.Forall_cons; [by apply no_tab_check|].
    apply List.Forall_cons; [by apply plain_no_tab|]. outs_ok.
Qed.
End replies.

(** ** Pages: rows of text at the top of a terminal *)

Definition pad (cols : Z) (row : list cell) : list cell :=
  row ++ replicate (Z.to_nat cols - length row) (Cell 32 0).

(** The rows [ls], the row [cur] with the cursor behind it, and blank rows. *)
Record page (t : term) (ls : list (list cell)) (cur : list cell) : Prop := {
  pg_cells : t_cells t = (pad (t_cols t) <$> ls) ++ pad (t_cols t) cur ::
    replicate (Z.to_nat (t_rows t) - S (length ls)) (blank_row (t_cols t));
  pg_row : t_row t = Z.of_nat (length ls);
  pg_col : t_col t = Z.of_nat (length cur);
  pg_rows : Z.of_nat (length ls) < t_rows t;
  pg_cols : Z.of_nat (length cur) < t_cols t
}.

Lemma page_blank cols rows fg bg : 0 < cols → 0 < rows → page (blank_term cols rows fg bg) [] [].
Proof.
  intros Hc Hr. split; cbn; try lia. unfold pad, blank_row. cbn. rewrite Nat.sub_0_r.
  destruct (Z.to_nat rows) eqn:E; [lia|]. cbn. by rewrite Nat.sub_0_r.
Qed.

Lemma page_color t ls cur fg : page t ls cur → page (term_color fg t) ls cur.
Proof. intros []. by split. Qed.

Lemma pad_store cols cur c : (length cur < Z.to_nat cols)%nat →
  <[length cur := c]> (pad cols cur) = pad cols (cur ++ [c]).
Proof.
  intros H. unfold pad. rewrite insert_app_r_alt by done. rewrite Nat.sub_diag.
  rewrite length_app. cbn [length].
  replace (Z.to_nat cols - length cur)%nat with (S (Z.to_nat cols - (length cur + 1))) by lia.
  cbn [replicate insert list_insert]. by rewrite <- app_assoc.
Qed.

Lemma page_plain c t ls cur : page t ls cur → Z.of_nat (length cur) + 1 < t_cols t →
  page (term_plain c t) ls (cur ++ [Cell c (t_fg t)]).
Proof.
  intros [Hc Hrow Hcol Hrows Hcols] Hlt. unfold term_plain. rewrite Hcol.
  destruct (Z.ltb_spec (Z.of_nat (length cur) + 1) (t_cols t)); [|lia].
  split; cbn [term_move term_store term_cells t_cells t_cols t_rows t_row t_col t_fg];
    rewrite ?length_app; cbn [length]; try lia.
  rewrite Hc, Hrow, Hcol, !Nat2Z.id.
  rewrite (alter_app_r_alt _ _ _ (length ls)) by (rewrite length_fmap; lia).
  rewrite length_fmap, Nat.sub_diag. cbn [alter list_alter]. by rewrite pad_store by lia.
Qed.

Lemma page_feed t ls cur : page t ls cur → Z.of_nat (length ls) + 1 < t_rows t → 0 < t_cols t →
  page (term_feed t) (ls ++ [cur]) [].
Proof.
  intros [Hc Hrow Hcol Hrows Hcols] Hlt Hpos. unfold term_feed. rewrite Hrow.
  destruct (Z.ltb_spec (Z.of_nat (length ls) + 1) (t_rows t)); [|lia].
  split; cbn [term_move t_cells t_cols t_rows t_row t_col]; rewrite ?length_app; cbn [length]; try lia.
  rewrite Hc, fmap_app, <- app_assoc. cbn [fmap list_fmap app]. do 2 f_equal.
  replace (Z.to_nat (t_rows t) - S (length ls))%nat
    with (S (Z.to_nat (t_rows t) - S (length ls + 1))) by lia.
  cbn [replicate]. f_equal. unfold pad, blank_row. cbn. by rewrite Nat.sub_0_r.
Qed.

Lemma term_plain_fg c t : t_fg (term_plain c t) = t_fg t ∧ t_cols (term_plain c t) = t_cols t ∧
  t_rows (term_plain c t) = t_rows t.
Proof. unfold term_plain, term_feed. by repeat case_match. Qed.

(** Text that fits behind the cursor. *)
Lemma page_print u : ∀ t ls cur, page t ls cur → Forall (λ c, 32 ≤ c) u →
  Z.of_nat (length cur + length u) < t_cols t →
  page (term_print u t) ls (cur ++ ((λ c, Cell c (t_fg t)) <$> u)) ∧
  t_fg (term_print u t) = t_fg t ∧ t_cols (term_print u t) = t_cols t ∧
  t_rows (term_print u t) = t_rows t.
Proof.
  induction u as [|c u IH]; intros t ls cur H Hu Hlen; [by rewrite app_nil_r|].
  apply Forall_cons_iff in Hu as [Hc Hu]. cbn [length] in Hlen.
  assert (term_print (c :: u) t = term_print u (term_plain c t)) as ->.
  { unfold term_print. cbn [c_text]. destruct (Z.eqb_spec c 0); [lia|]. cbn [foldl]. f_equal.
    unfold term_putchar. destruct (Z.eqb_spec c 13), (Z.eqb_spec c 8), (Z.eqb_spec c 9),
      (Z.eqb_spec c 10); done || lia. }
  destruct (term_plain_fg c t) as (Hf & Hcs & Hrs).
  destruct (IH (term_plain c t) ls (cur ++ [Cell c (t_fg t)])) as (Hp & ? & ? & ?).
  - apply page_plain; [done|lia].
  - done.
  - rewrite length_app, Hcs. cbn [length]. lia.
  - rewrite Hf, <- app_assoc in Hp. split_and!; [exact Hp|congruence..].
Qed.

(** The text of a page. *)
Lemma skip_spaces_replicate n s : skip_spaces (replicate n 32 ++ s) = skip_spaces s.
Proof. by induction n. Qed.

Lemma row_text_pad cols row : row_text (pad cols row) = row_text row.
Proof.
  unfold row_text, pad. rewrite fmap_app, reverse_app, fmap_replicate, reverse_replicate.
  by rewrite skip_spaces_replicate.
Qed.

Lemma page_text t ls cur : page t ls cur →
  term_text t = (row_text <$> ls) ++ row_text cur ::
    replicate (Z.to_nat (t_rows t) - S (length ls)) [].
Proof.
  intros [Hc _ _ _ _]. unfold term_text. rewrite Hc, fmap_app. cbn [fmap list_fmap].
  rewrite row_text_pad, fmap_replicate. f_equal.
  - rewrite <- list_fmap_compose. apply list_fmap_ext. intros i row _. apply row_text_pad.
  - do 2 f_equal. unfold row_text, blank_row.
    by rewrite fmap_replicate, reverse_replicate, <- (app_nil_r (replicate _ _)), skip_spaces_replicate.
Qed.

(** *** Lines *)

Lemma term_print_app u v t : no_nul u → term_print (u ++ v) t = term_print v (term_print u t).
Proof.
  intros Hu. unfold term_print. by rewrite c_text_app_l, foldl_app, (c_text_id u) by done.
Qed.

Definition letters (u : list Z) : Prop := Forall (λ c, 32 ≤ c) u.

Lemma letters_no_nul u : letters u → no_nul u.
Proof. intros H. eapply Forall_impl; [exact H|]. cbn. lia. Qed.

Lemma letters_check u : forallb (λ c, 32 <=? c) u = true → letters u.
Proof.
  intros H. apply Forall_forall. intros c Hc. apply list_elem_of_In in Hc.
  rewrite List.forallb_forall in H. apply H in Hc. lia.
Qed.

(** A text without the blanks at its end. *)
Definition strip (u : list Z) : list Z := reverse (skip_spaces (reverse u)).

Lemma row_text_cells fg u : row_text ((λ c, Cell c fg) <$> u) = strip u.
Proof.
  unfold row_text, strip. rewrite <- list_fmap_compose.
  by replace ((cl_char ∘ λ c, Cell c fg) <$> u) with u by (symmetry; apply list_fmap_id).
Qed.

(** A terminal of the given size with the texts [ls] in its first rows and the
    cursor on the next. *)
Definition laid (cols rows : Z) (t : term) (ls : list (list Z)) : Prop :=
  t_cols t = cols ∧ t_rows t = rows ∧ ∃ cells, page t cells [] ∧ row_text <$> cells = ls.

Lemma laid_blank cols rows fg bg : 0 < cols → 0 < rows → laid cols rows (blank_term cols rows fg bg) [].
Proof. intros. split; [done|]. split; [done|]. exists []. split; [by apply page_blank|done]. Qed.

Lemma laid_color cols rows t ls fg : laid cols rows t ls → laid cols rows (term_color fg t) ls.
Proof. intros (Hc & Hr & cells & H & Hl). do 2 (split; [done|]). exists cells. split; [by apply page_color|done]. Qed.

(** An empty row, and a row of text that fits. *)
Lemma laid_nl cols rows t ls : laid cols rows t ls → Z.of_nat (length ls) + 1 < rows →
  laid cols rows (term_print nl t) (ls ++ [[]]).
Proof.
  intros (Hc & Hr & cells & H & Hl) Hlt. unfold laid. change (term_print nl t) with (term_feed t).
  assert (t_cols (term_feed t) = t_cols t ∧ t_rows (term_feed t) = t_rows t) as [-> ->]
    by (unfold term_feed; by case_match).
  do 2 (split; [done|]). exists (cells ++ [[]]). split; [|by rewrite fmap_app, Hl].
  rewrite <- Hl, length_fmap in Hlt. pose proof (pg_cols _ _ _ H).
  by apply page_feed; [|lia..].
Qed.

Lemma laid_line cols rows t ls u : laid cols rows t ls → letters u →
  Z.of_nat (length u) < cols → Z.of_nat (length ls) + 1 < rows →
  laid cols rows (term_print nl (term_print u t)) (ls ++ [strip u]).
Proof.
  intros (Hc & Hr & cells & H & Hl) Hu Hlen Hlt.
  destruct (page_print u t cells [] H Hu) as (H1 & _ & Hc1 & Hr1); [by rewrite Hc|].
  rewrite <- Hl, length_fmap in Hlt. unfold laid. change (term_print nl ?t) with (term_feed t).
  assert (∀ t, t_cols (term_feed t) = t_cols t ∧ t_rows (term_feed t) = t_rows t) as Hfeed
    by (intros t'; unfold term_feed; by case_match).
  destruct (Hfeed (term_print u t)) as [-> ->]. rewrite Hc1, Hr1. do 2 (split; [done|]).
  eexists. split; [apply (page_feed _ _ _ H1); lia|].
  cbn [app]. by rewrite fmap_app, Hl, <- (row_text_cells (t_fg t)).
Qed.

(** The text with a last row that is not finished. *)
Lemma laid_text cols rows t ls u : laid cols rows t ls → letters u → Z.of_nat (length u) < cols →
  term_text (term_print u t) = ls ++ strip u :: replicate (Z.to_nat rows - S (length ls)) [].
Proof.
  intros (Hc & Hr & cells & H & Hl) Hu Hlen.
  destruct (page_print u t cells [] H Hu) as (H1 & _ & Hc1 & Hr1); [by rewrite Hc|].
  rewrite (page_text _ _ _ H1), Hr1, Hr, Hl, <- Hl, length_fmap. cbn [app].
  by rewrite row_text_cells.
Qed.

Lemma text_color fg t : term_text (term_color fg t) = term_text t.
Proof. reflexivity. Qed.
