(* ===== verification/Session.v ===== *)
(** * The shell under interrupts

    What the timer and keyboard stubs of [isr_stubs.asm] call, the turns of the
    input loop of [shell_task] between interrupts, and the invariant that both
    keep. *)
From stdpp Require Import base tactics strings gmap numbers list.
From S2P Require Import Prelude CString Memory Interfaces Pmm Heap Sched SchedTheorems Platform Pic.
From S2P Require Import Keyboard Vfs Serial Framebuffer Terminal Panic Kernel Shell ShellReplies Display.

Local Open Scope Z_scope.

(** ** Operations *)

Inductive irq := TimerIrq | KeyboardIrq.
#[export] Instance irq_eq_dec : EqDecision irq.
Proof. solve_decision. Defined.

Section session.
Context {D : Type} `{PL : Platform D}.

(** The three calls of [irq_stub_0].  Whether the tick switches tasks shows in
    the scheduler's state. *)
Definition irq0 : M (kernel D) unit :=
  zoom k_ticks set_ticks pit_tick_handler ≫= λ _,
  dev (pic_send_eoi 0) ≫= λ _,
  zoom k_sched (λ s k, set_sched_heap (s, k_heap k) k) (Sched.sched_tick ≫= λ _, mret tt).

(** The two calls of [irq_stub_1]. *)
Definition irq1 : M (kernel D) unit :=
  zoom (λ k, (k_dev k, k_kbd k)) (λ t k, set_kbd (snd t) (set_dev (fst t) k))
    keyboard_irq_handler ≫= λ _,
  dev (pic_send_eoi 1).

Definition serve (i : irq) : M (kernel D) unit :=
  match i with TimerIrq => irq0 | KeyboardIrq => irq1 end.

(** [n] turns of the loop on its own. *)
Fixpoint shell_turns (n : nat) : M (kernel D) outcome :=
  match n with
  | O => mret Returned
  | S n =>
      o ← shell_iter;
      match o with Returned => shell_turns n | Stopped => mret Stopped end
  end.
End session.

(** ** Specification: the line being edited *)

(** A character the decoder produces. *)
Definition key (c : Z) : bool := ((8 <=? c) && (c <=? 10)) || ((32 <=? c) && (c <=? 126)).
Definition visible (c : Z) : bool := (32 <=? c) && (c <=? 126).

(** The line after a character: Enter starts a new one, Backspace removes the
    last character, a visible one is appended while there is room for 127. *)
Definition edit (l : list Z) (c : Z) : list Z :=
  if c =? 10 then []
  else if c =? 8 then take (pred (length l)) l
  else if visible c && (Z.of_nat (length l) <? 127) then l ++ [c]
  else l.

(** The line in the shell's buffer. *)
Definition line {D} (k : kernel D) : list Z := take (Z.to_nat (k_idx k)) (k_buf k).

(** What the shell never changes. *)
Definition core {D} (k : kernel D) : pmm * heap * sched * Z * vfs * panic_state :=
  (k_pmm k, k_heap k, k_sched k, k_ticks k, k_vfs k, k_panic k).

(** A kernel whose shell waits for input, with [q] typed and not yet read. *)
Record ready {D} `{PL : Platform D} (k : kernel D) (fs : list file) (q : list Z) : Prop := {
  rd_shell : shell_ok k fs;
  rd_kbd : kb_rep (k_kbd k) q;
  rd_keys : Forall (λ c, key c = true) q;
  rd_buf : length (k_buf k) = 128%nat;
  rd_idx : 0 ≤ k_idx k ≤ 127;
  rd_line : Forall (λ c, visible c = true) (line k)
}.

Definition prompt_outs : list out :=
  [Colour COLOR_CYAN; Both (cstr "NovaOS> "); Colour COLOR_WHITE].

(** What a command line is answered with: a new row, the command's answer and
    the next prompt. *)
Definition answer {D} (k : kernel D) (fs : list file) (l : list Z) : list out :=
  Screen nl :: reply k fs (command l) ++ (if stops (command l) then [] else prompt_outs).

(** What a character is answered with: Enter as above, Backspace erases the last
    character, and a visible one is echoed while there is room, on the screen
    only. *)
Definition echo {D} (k : kernel D) (fs : list file) (c : Z) : list out :=
  if c =? 10 then answer k fs (line k)
  else if c =? 8 then (if bool_decide (line k = []) then [] else [Screen [8]])
  else if visible c && (Z.of_nat (length (line k)) <? 127) then [Screen [c]]
  else [].

(** Between [k] and [k'], exactly [outs] went to the console and the serial line. *)
Definition talked {D} `{PL : Platform D} (k k' : kernel D) (outs : list out) : Prop :=
  perform outs (k_con k) = Ok ((), k_con k') ∧ sent (k_dev k) (k_dev k') (crlf (serial_of outs)).

(** * Lemmas *)

Lemma visible_plain l : Forall (λ c, visible c = true) l → plain l.
Proof.
  intros H. eapply Forall_impl; [exact H|]. cbn. unfold visible. intros c Hc.
  apply andb_true_iff in Hc. lia.
Qed.

(** Every decoded character is one the loop handles. *)
Lemma decode_key sh cp sc : decode sh cp sc ≠ 0 → key (decode sh cp sc) = true.
Proof.
  destruct (decide (0 ≤ sc < 0 + 128)) as [Hr|Hr].
  - pose proof (range_forallb (λ sc, forallb (λ p : bool * bool,
      let c := decode p.1 p.2 sc in (c =? 0) || key c)
      [(false, false); (false, true); (true, false); (true, true)]) 0 128 sc eq_refl Hr) as H.
    cbn [forallb fst snd] in H. rewrite !andb_true_iff, !orb_true_iff, !Z.eqb_eq in H.
    destruct sh, cp; intuition.
  - unfold decode. destruct (Z.ltb_spec sc 0), (Z.leb_spec 128 sc); cbn; done || lia.
Qed.

Lemma core_reply {D} (k k' : kernel D) fs : core k' = core k → reply k' fs = reply k fs.
Proof.
  intros [= Hp _ Hs Ht _ _]. unfold reply, reply_meminfo, reply_ticks, reply_tasks.
  by rewrite Hp, Hs, Ht.
Qed.

Section keeps.
Context {D : Type} `{PL : Platform D} (fs : list file).

(** The shell's invariant only looks at the console through its geometry. *)
Lemma shell_ok_talk k c d : shell_ok k fs → fb_ok c → same_geo (k_con k) c →
  u_dlab (com1 d) = false → shell_ok (set_con c (set_dev d k)) fs.
Proof.
  intros H Hc (Hw & Hh & Hp & _) Hl. pose proof (sh_panic _ _ H) as (Hfb & ? & ? & ?).
  destruct H. split; try done. split; [exact Hfb|]. cbn. split_and!; congruence.
Qed.

Lemma ready_talk k c d q : ready k fs q → fb_ok c → same_geo (k_con k) c →
  u_dlab (com1 d) = false → ready (set_con c (set_dev d k)) fs q.
Proof. intros H ? ? ?. pose proof (shell_ok_talk k c d (rd_shell _ _ _ H)). destruct H. split; auto. Qed.

(** *** Interrupts *)

Lemma irq0_ok k q : ready k fs q →
  ∃ k', irq0 k = Ok ((), k') ∧ ready k' fs q ∧ line k' = line k ∧ k_con k' = k_con k ∧
    com1 (k_dev k') = com1 (k_dev k) ∧ k_ticks k' = u64 (k_ticks k + 1) ∧
    k_panic k' = k_panic k ∧ ∃ sw, Sched.sched_tick (k_sched k) = Ok (sw, k_sched k').
Proof.
  intros H. pose proof (rd_shell _ _ _ H) as Hs.
  destruct (eoi_ok 0 (k_dev k)) as (d & E & _ & Hd).
  destruct (tick_total (k_sched k) (sh_sched _ _ Hs)) as (o & s & Et & Hso).
  exists (set_sched_heap (s, k_heap k) (set_dev d (set_ticks (u64 (k_ticks k + 1)) k))).
  split; [|split; [|split_and!; try done; by exists o]].
  - unfold irq0. rewrite (bind_ok _ _ _ () (set_ticks (u64 (k_ticks k + 1)) k)) by done.
    rewrite (bind_ok _ _ _ () (set_dev d (set_ticks (u64 (k_ticks k + 1)) k))).
    + unfold zoom. cbn [k_sched set_dev set_ticks]. by rewrite (bind_ok _ _ _ _ _ Et).
    + unfold dev, zoom. cbn [k_dev set_ticks]. by rewrite E.
  - destruct Hs, H. split; try done. split; try done.
    + cbn. by rewrite Hd.
    + apply u64_range.
Qed.

Lemma key_handler_ok k q : ready k fs q →
  ∃ d kb q', keyboard_irq_handler (k_dev k, k_kbd k) = Ok ((), (d, kb)) ∧
    com1 d = com1 (k_dev k) ∧ kb_rep kb q' ∧ Forall (λ c, key c = true) q' ∧ q `prefix_of` q'.
Proof.
  intros H. destruct (inb_ok PS2_DATA (k_dev k)) as (sc & d & E & Hsc & _ & _ & _ & Hu & _).
  destruct (kb_scan_ok (k_kbd k) q sc (rd_kbd _ _ _ H) Hsc) as (kb & Ek & Hr & _).
  eexists d, kb, _. split; [|split; [exact Hu|split; [exact Hr|]]].
  - unfold keyboard_irq_handler. rewrite (bind_ok _ _ _ sc (d, k_kbd k)).
    + unfold zoom. cbn [snd fst]. by rewrite Ek.
    + unfold zoom. cbn [fst snd]. by rewrite E.
  - destruct (decide _) as [[Hne _]|_]; [|by split; [apply H|]].
    split; [|by apply prefix_app_r]. apply Forall_app. split; [apply H|].
    apply List.Forall_cons; [by apply decode_key|done].
Qed.

Lemma irq1_ok k q : ready k fs q →
  ∃ k' q', irq1 k = Ok ((), k') ∧ ready k' fs q' ∧ q `prefix_of` q' ∧ line k' = line k ∧
    k_con k' = k_con k ∧ com1 (k_dev k') = com1 (k_dev k) ∧ core k' = core k.
Proof.
  intros H. destruct (key_handler_ok k q H) as (d & kb & q' & E & Hd & Hr & Hk & Hq).
  destruct (eoi_ok 1 d) as (d' & E' & _ & Hd').
  exists (set_dev d' (set_kbd kb (set_dev d k))), q'. split; [|split; [|split; [done|]]].
  - unfold irq1. rewrite (bind_ok _ _ _ () (set_kbd kb (set_dev d k))).
    + unfold dev, zoom. cbn [k_dev set_kbd set_dev]. by rewrite E'.
    + unfold zoom. by rewrite E.
  - destruct H as [[] ? ? ? ? ?]. split; try done. split; try done. cbn. congruence.
  - split; [done|]. split; [done|]. split; [|done]. cbn. congruence.
Qed.

(** *** One character *)

(** The line, and the text of the buffer once it is terminated. *)
Lemma line_length k q : ready k fs q → Z.of_nat (length (line k)) = k_idx k.
Proof. intros H. unfold line. rewrite length_take, (rd_buf _ _ _ H). pose proof (rd_idx _ _ _ H). lia. Qed.

Lemma buf_text k q : ready k fs q → c_text (<[Z.to_nat (k_idx k) := 0]> (k_buf k)) = line k.
Proof.
  intros H. pose proof (rd_idx _ _ _ H). pose proof (rd_buf _ _ _ H).
  rewrite insert_take_drop by lia. apply c_text_app, plain_no_nul, visible_plain, H.
Qed.

Lemma talked_trans (k1 k2 k3 : kernel D) o1 o2 :
  talked k1 k2 o1 → talked k2 k3 o2 → talked k1 k3 (o1 ++ o2).
Proof.
  intros [P1 S1] [P2 S2]. split; [by rewrite perform_app, (bind_ok _ _ _ _ _ P1)|].
  rewrite serial_app, crlf_app. by eapply sent_trans.
Qed.

Lemma serial_screens (l : list Z) : serial_of ((λ c, Screen [c]) <$> l) = [].
Proof. by induction l. Qed.

Lemma talked_none k k' q : ready k fs q → k_con k' = k_con k → k_dev k' = k_dev k → talked k k' [].
Proof.
  intros H Hc Hd. split; [cbn; by rewrite Hc|]. rewrite Hd. unfold sent. cbn.
  rewrite app_nil_r. pose proof (sh_com _ _ (rd_shell _ _ _ H)). by split_and!.
Qed.

(** What it shows. *)
Lemma talked_shows (k k' : kernel D) outs t : talked k k' outs → shows_term (k_con k) t →
  t_bg t = COLOR_DARK → Forall out_ok outs → shows_term (k_con k') (term_perform outs t).
Proof.
  intros [P _] H Hbg Ho. destruct (perform_shows outs _ t H Hbg Ho) as (c & P' & H' & _).
  rewrite P in P'. by injection P' as ->.
Qed.

(** One character on the screen. *)
Lemma talked_char c k k' q : ready k fs q → c ≠ 0 →
  fb_putchar c (k_con k) = Ok ((), k_con k') → k_dev k' = k_dev k → talked k k' [Screen [c]].
Proof.
  intros H Hc E Hd. split.
  - unfold perform. cbn [for_each perform1].
    by rewrite (bind_ok _ _ _ () (k_con k')) by (by rewrite fb_print_one).
  - exact (proj2 (talked_none k (set_con (k_con k) k') q H eq_refl Hd)).
Qed.

(** A new buffer and index keep the rest of the invariant. *)
Lemma ready_line k q b i : ready k fs q → length b = 128%nat → 0 ≤ i ≤ 127 →
  Forall (λ c, visible c = true) (take (Z.to_nat i) b) → ready (set_idx i (set_buf b k)) fs q.
Proof. intros H Hb Hi Hl. destruct H as [[] ? ? ? ? ?]. split; try done. Qed.

(** A character drawn on the console. *)
Lemma putchar_con c k q : ready k fs q → c ≠ 9 →
  ∃ c1, con (fb_putchar c) k = Ok ((), set_con c1 k) ∧ fb_putchar c (k_con k) = Ok ((), c1) ∧
    ready (set_con c1 k) fs q.
Proof.
  intros H Hc. pose proof (rd_shell _ _ _ H) as Hs.
  destruct (putchar_moves c (k_con k) (sh_con _ _ Hs) ltac:(done)) as (c1 & E & Hok & Hg & _).
  exists c1. split; [unfold con, zoom; by rewrite E|]. split; [done|].
  pose proof (ready_talk k c1 (k_dev k) q H Hok (same_geo_config _ _ Hg) (sh_com _ _ Hs)) as Hr.
  by destruct k.
Qed.

Lemma put_buf_ok (k : kernel D) i c : length (k_buf k) = 128%nat → 0 ≤ i < 128 →
  put_buf i c k = Ok ((), set_buf (<[Z.to_nat i := c]> (k_buf k)) k).
Proof. intros Hl Hi. unfold put_buf, zoom. by rewrite arr_put_ok by lia. Qed.

(** A visible character: appended while there is room. *)
Lemma visible_ok k q c : ready k fs q → visible c = true →
  ∃ k', shell_char c k = Ok (Returned, k') ∧ ready k' fs q ∧ line k' = edit (line k) c ∧
    core k' = core k ∧ talked k k' (echo k fs c).
Proof.
  intros H Hv. pose proof (line_length k q H) as Hl. pose proof (rd_idx _ _ _ H) as Hi.
  pose proof (rd_buf _ _ _ H) as Hb. unfold shell_char, edit, echo. rewrite Hv. unfold visible in Hv. rewrite Hv.
  apply andb_true_iff in Hv as Hr.
  destruct (Z.eqb_spec c 10); [lia|]. destruct (Z.eqb_spec c 8); [lia|].
  rewrite (bind_ok _ _ _ k k) by done. rewrite Hl. change (128 - 1) with 127.
  destruct (Z.ltb_spec (k_idx k) 127) as [Hlt|Hge]; cbn [andb];
    [|exists k; split_and!; [done..|by apply (talked_none k k q)]].
  set (b := <[Z.to_nat (k_idx k) := c]> (k_buf k)).
  assert (take (Z.to_nat (k_idx k + 1)) b = line k ++ [c]) as Htake.
  { replace (Z.to_nat (k_idx k + 1)) with (S (Z.to_nat (k_idx k))) by lia.
    rewrite (take_S_r _ _ c) by (apply list_lookup_insert_eq; lia).
    unfold b, line. by rewrite take_insert_ge by lia. }
  destruct (putchar_con c (set_idx (k_idx k + 1) (set_buf b k)) q) as (c1 & E1 & P1 & Hr1).
  { apply ready_line; [done|unfold b; by rewrite length_insert|lia|]. rewrite Htake.
    apply Forall_app. split; [apply H|]. by apply List.Forall_cons; [|done]. }
  { lia. }
  eexists. split; [|split; [exact Hr1|split; [exact Htake|split; [done|]]]].
  2:{ by apply (talked_char c k _ q); [|lia|..]. }
  rewrite (bind_ok _ _ _ _ _ (put_buf_ok k (k_idx k) c Hb ltac:(lia))).
  rewrite (bind_ok _ _ _ () (set_idx (k_idx k + 1) (set_buf b k))) by done.
  unfold returned. by rewrite (bind_ok _ _ _ _ _ E1).
Qed.

(** Backspace: the last character goes, and is erased on the screen. *)
Lemma backspace_ok k q : ready k fs q →
  ∃ k', shell_char 8 k = Ok (Returned, k') ∧ ready k' fs q ∧ line k' = edit (line k) 8 ∧
    core k' = core k ∧ talked k k' (echo k fs 8).
Proof.
  intros H. pose proof (line_length k q H) as Hl. pose proof (rd_idx _ _ _ H) as Hi.
  unfold shell_char, edit, echo. cbn [Z.eqb Pos.eqb]. rewrite (bind_ok _ _ _ k k) by done.
  destruct (Z.ltb_spec 0 (k_idx k)) as [Hlt|Hge].
  2:{ assert (line k = []) as Hnil by (apply length_zero_iff_nil; lia). rewrite Hnil.
      exists k. split_and!; [done..|by apply (talked_none k k q)]. }
  rewrite bool_decide_eq_false_2 by (intros Hnil; rewrite Hnil in Hl; cbn in Hl; lia).
  assert (take (Z.to_nat (k_idx k - 1)) (k_buf k) = take (pred (length (line k))) (line k)) as Htake.
  { unfold line at 2. rewrite take_take. f_equal. lia. }
  destruct (putchar_con 8 (set_idx (k_idx k - 1) (set_buf (k_buf k) k)) q) as (c1 & E1 & P1 & Hr1);
    [|done|].
  { apply ready_line; [done|apply H|lia|]. rewrite Htake. apply Forall_take, H. }
  exists (set_con c1 (set_idx (k_idx k - 1) (set_buf (k_buf k) k))).
  split; [|split; [exact Hr1|split; [exact Htake|split; [done|]]]].
  2:{ by apply (talked_char 8 k _ q). }
  rewrite (bind_ok _ _ _ () (set_idx (k_idx k - 1) (set_buf (k_buf k) k))) by (by destruct k).
  unfold returned. by rewrite (bind_ok _ _ _ _ _ E1).
Qed.

(** Enter: the line is a command. *)
Lemma prompt_speaks (k : kernel D) :
  speaks prompt () k prompt_outs.
Proof. unfold prompt, prompt_outs. say. say1. Qed.

(** The kernel after a step that only talks, and its serial line. *)
Lemma ready_spoken {A} (m : M (kernel D) A) a k q outs :
  ready k fs q → speaks m a k outs →
  ∃ k', m k = Ok (a, k') ∧ ready k' fs q ∧ line k' = line k ∧ core k' = core k ∧
    talked k k' outs.
Proof.
  intros H Hm. pose proof (rd_shell _ _ _ H) as Hs.
  destruct (Hm (sh_con _ _ Hs) (sh_com _ _ Hs)) as (c & d & E & P & Hc & Hg & Hsent).
  exists (set_con c (set_dev d k)). split; [exact E|].
  split; [|split; [done|split; [done|by split]]].
  apply ready_talk; [done|done|done|]. by destruct Hsent as (_ & ? & _).
Qed.

(** The state in which the command runs: a new row, the line terminated. *)
Lemma enter_starts k q : ready k fs q →
  ∃ k1, (con (fb_putchar 10) ≫= λ _, k ← get; put_buf (k_idx k) 0) k = Ok ((), k1) ∧
    ready k1 fs q ∧ line k1 = line k ∧ c_text (k_buf k1) = line k ∧ talked k k1 [Screen nl] ∧
    core k1 = core k.
Proof.
  intros H. pose proof (rd_idx _ _ _ H) as Hi. pose proof (rd_buf _ _ _ H) as Hb.
  destruct (putchar_con 10 k q H ltac:(lia)) as (c1 & E1 & P1 & Hr1).
  set (b := <[Z.to_nat (k_idx k) := 0]> (k_buf k)).
  assert (take (Z.to_nat (k_idx k)) b = line k) as Htake.
  { unfold b, line. by rewrite take_insert_ge by lia. }
  exists (set_idx (k_idx k) (set_buf b (set_con c1 k))). split; [|split; [|split; [exact Htake|]]].
  - rewrite (bind_ok _ _ _ _ _ E1), (bind_ok _ _ _ (set_con c1 k) (set_con c1 k)) by done.
    cbn [k_idx set_con]. rewrite put_buf_ok by (cbn; lia || done). by destruct k.
  - apply ready_line; [done|unfold b; by rewrite length_insert|lia|]. rewrite Htake. apply H.
  - split; [exact (buf_text k q H)|]. split; [by apply (talked_char 10 k _ q)|done].
Qed.

(** The rest of the turn after [shell_execute]. *)
Lemma enter_line_ok k q : ready k fs q →
  ∃ o k', shell_char 10 k = Ok (o, k') ∧
    (o = Stopped ↔ stops (command (line k)) = true) ∧
    (o = Returned → ready k' fs q ∧ line k' = [] ∧ core k' = core k ∧ talked k k' (echo k fs 10)).
Proof.
  intros H. destruct (enter_starts k q H) as (k1 & E1 & H1 & Hl1 & Ht1 & Hd1 & Hcore).
  pose proof (core_reply k k1 fs Hcore) as Hrep.
  assert (∀ f : M (kernel D) outcome,
    (con (fb_putchar 10) ≫= λ _, k ← get; put_buf (k_idx k) 0 ≫= λ _, f) k = f k1) as Hstart.
  { intros f. rewrite <- (bind_ok _ (λ _, f) _ _ _ E1). unfold mbind, M_bind, get.
    by destruct (con (fb_putchar 10) k) as [[[] ?]| |]. }
  assert (shell_char 10 k = (o ← shell_execute (k_buf k1);
    match o with
    | Stopped => mret Stopped
    | Returned => modify (set_idx 0) ≫= λ _, prompt ≫= λ _, mret Returned
    end) k1) as Eq.
  { unfold shell_char. cbn [Z.eqb Pos.eqb]. rewrite (Hstart (k ← get; _)). done. }
  assert (plain (c_text (k_buf k1))) as Hp by (rewrite Ht1; by apply visible_plain, (rd_line k fs q)).
  assert (command (k_buf k1) = command (line k)) as Hcmd.
  { unfold command. rewrite Ht1. f_equal. symmetry. apply plain_text. by rewrite <- Ht1. }
  rewrite Eq. clear Eq Hstart.
  destruct (decide (command (line k) = cstr "panic")) as [Hpan|Hpan].
  { destruct (execute_panics k1 fs (rd_shell _ _ _ H1) (k_buf k1) ltac:(by rewrite Hcmd))
      as (k' & E & _). rewrite (bind_ok _ _ _ _ _ E). exists Stopped, k'.
    split; [done|]. rewrite Hpan. by split. }
  destruct (ready_spoken _ _ k1 q _ H1 (execute_speaks k1 fs (rd_shell _ _ _ H1) (k_buf k1) Hp
    ltac:(by rewrite Hcmd))) as (k2 & E2 & H2 & _ & Hc2 & Hs2).
  rewrite (bind_ok _ _ _ _ _ E2). rewrite Hcmd in *. unfold echo, answer. cbn [Z.eqb Pos.eqb].
  rewrite Hrep in Hs2. destruct (stops (command (line k))); [exists Stopped, k2; by split|].
  assert (ready (set_idx 0 k2) fs q) as H3.
  { replace (set_idx 0 k2) with (set_idx 0 (set_buf (k_buf k2) k2)) by (by destruct k2).
    apply ready_line; [done|apply H2|lia|constructor]. }
  destruct (ready_spoken _ _ (set_idx 0 k2) q _ H3 (prompt_speaks (set_idx 0 k2)))
    as (k4 & E4 & H4 & Hl4 & Hc4 & Hs4).
  exists Returned, k4. split; [|split; [done|intros _; split; [done|split; [by rewrite Hl4|split]]]].
  - rewrite (bind_ok _ _ _ () (set_idx 0 k2)) by done. by rewrite (bind_ok _ _ _ _ _ E4).
  - rewrite Hc4, <- Hcore, <- Hc2. done.
  - apply (talked_trans k k1 k4 [Screen nl]); [exact Hd1|].
    eapply talked_trans; [exact Hs2|exact Hs4].
Qed.

(** Any character of the queue. *)
Lemma char_ok k q c : ready k fs q → key c = true →
  ∃ o k', shell_char c k = Ok (o, k') ∧
    (o = Stopped ↔ c = 10 ∧ stops (command (line k)) = true) ∧
    (o = Returned → ready k' fs q ∧ line k' = edit (line k) c ∧ core k' = core k ∧
       talked k k' (echo k fs c)).
Proof.
  intros H Hk. destruct (decide (c = 10)) as [->|Hc10].
  { destruct (enter_line_ok k q H) as (o & k' & E & Ho & Hr). exists o, k'. split; [done|].
    split; [rewrite Ho; tauto|]. intros Hret. destruct (Hr Hret) as (? & -> & ? & ?). by split_and!. }
  destruct (decide (c = 8)) as [->|Hc8].
  { destruct (backspace_ok k q H) as (k' & E & Hr). exists Returned, k'.
    split; [done|]. split; [split; [done|lia]|]. by intros _. }
  destruct (visible c) eqn:Hv.
  { destruct (visible_ok k q c H Hv) as (k' & E & Hr). exists Returned, k'.
    split; [done|]. split; [split; [done|lia]|]. by intros _. }
  exists Returned, k. unfold shell_char, edit, echo. rewrite Hv. unfold visible in Hv. rewrite Hv.
  destruct (Z.eqb_spec c 10), (Z.eqb_spec c 8); try done.
  split; [done|]. split; [split; [done|lia]|]. intros _. split_and!; [done..|].
  by apply (talked_none k k q).
Qed.

(** *** The loop *)

(** A turn with a key in the queue handles the oldest. *)
Lemma iter_taken k q c : ready k fs (c :: q) →
  ∃ kb, shell_iter k = shell_char c (set_kbd kb k) ∧ ready (set_kbd kb k) fs q.
Proof.
  intros H. unfold shell_iter. rewrite (bind_ok _ _ _ k k) by done.
  rewrite (has_char_rep _ _ (rd_kbd _ _ _ H)), bool_decide_eq_false_2 by done. cbn [negb].
  destruct (getchar_front (k_kbd k) c q [] (rd_kbd _ _ _ H)) as (kb & E & Hr & _).
  rewrite (bind_ok _ _ _ (c, []) (set_kbd kb k)) by (unfold keys, zoom; by rewrite E).
  exists kb. split; [done|]. pose proof (rd_keys _ _ _ H) as [_ Hks]%Forall_cons_iff.
  destruct H as [[] ? ? ? ? ?]. by split.
Qed.

Lemma iter_ok k q : ready k fs q →
  ∃ o k', shell_iter k = Ok (o, k') ∧
    (o = Returned → ready k' fs (tail q) ∧ core k' = core k) ∧
    match q with
    | [] => o = Returned ∧ k' = k
    | c :: _ =>
        (o = Stopped ↔ c = 10 ∧ stops (command (line k)) = true) ∧
        (o = Returned → line k' = edit (line k) c ∧ talked k k' (echo k fs c))
    end.
Proof.
  intros H. destruct q as [|c q].
  { exists Returned, k. unfold shell_iter. rewrite (bind_ok _ _ _ k k) by done.
    rewrite (has_char_rep _ _ (rd_kbd _ _ _ H)), bool_decide_eq_true_2 by done. by split_and!. }
  pose proof (rd_keys _ _ _ H) as [Hk _]%Forall_cons_iff.
  destruct (iter_taken k q c H) as (kb & E & H1).
  destruct (char_ok (set_kbd kb k) q c H1 Hk) as (o & k' & E' & Ho & Hret).
  exists o, k'. rewrite E. split; [exact E'|]. split; [intros Ho'; by destruct (Hret Ho') as (? & _ & ? & _)|].
  split; [exact Ho|]. intros Ho'. destruct (Hret Ho') as (_ & Hl & _ & Hs). by split.
Qed.

(** A turn that takes a visible character. *)
Lemma iter_visible k q c : ready k fs (c :: q) → visible c = true → k_idx k < 127 →
  ∃ k', shell_iter k = Ok (Returned, k') ∧ ready k' fs q ∧ line k' = line k ++ [c] ∧
    core k' = core k ∧ talked k k' [Screen [c]].
Proof.
  intros H Hv Hi. destruct (iter_taken k q c H) as (kb & E & H1). rewrite E.
  destruct (visible_ok (set_kbd kb k) q c H1 Hv) as (k' & E' & Hr & Hl & Hc & Ht).
  exists k'. split; [exact E'|]. split; [exact Hr|].
  unfold edit, echo in *. change (line (set_kbd kb k)) with (line k) in *.
  rewrite (line_length k _ H), Hv in Hl, Ht. unfold visible in Hv. apply andb_true_iff in Hv.
  destruct (Z.eqb_spec c 10), (Z.eqb_spec c 8), (Z.ltb_spec (k_idx k) 127); try lia.
  cbn [andb] in *. split; [exact Hl|]. by split.
Qed.

(** A typed line: its characters one by one, then Enter. *)
Lemma turns_line l : ∀ k q, ready k fs (l ++ 10 :: q) → Forall (λ c, visible c = true) l →
  k_idx k + Z.of_nat (length l) ≤ 127 →
  ∃ o k', shell_turns (S (length l)) k = Ok (o, k') ∧
    (o = Stopped ↔ stops (command (line k ++ l)) = true) ∧
    (o = Returned → ready k' fs q ∧ line k' = [] ∧ core k' = core k ∧
       talked k k' (((λ c, Screen [c]) <$> l) ++ answer k fs (line k ++ l))).
Proof.
  induction l as [|c l IH]; intros k q H Hl Hi.
  - rewrite app_nil_r. cbn [app length shell_turns] in *. destruct (iter_ok k _ H) as (o & k' & E & Hr & Ho & Hs).
    exists o, k'. split; [rewrite (bind_ok _ _ _ _ _ E); by destruct o|]. split; [rewrite Ho; tauto|].
    intros Hret. destruct (Hs Hret) as [Hline Hsent]. destruct (Hr Hret) as [Hr' Hc'].
    split; [exact Hr'|]. split; [exact Hline|]. split; [exact Hc'|exact Hsent].
  - apply Forall_cons_iff in Hl as [Hc Hl]. cbn [length app] in *.
    destruct (iter_visible k _ c H Hc ltac:(lia)) as (k1 & E1 & H1 & Hl1 & Hc1 & Ht1).
    destruct (IH k1 q H1 Hl) as (o & k' & E & Ho & Hs).
    { rewrite <- (line_length k1 _ H1), Hl1, length_app. cbn [length].
      pose proof (line_length k _ H). lia. }
    unfold answer in *. rewrite Hl1, <- app_assoc, (core_reply k k1 fs Hc1), Hc1 in *.
    exists o, k'. split.
    2:{ split; [exact Ho|]. intros Hret. destruct (Hs Hret) as (Hr & Hline & Hc2 & Ht2).
        split; [exact Hr|]. split; [exact Hline|]. split; [exact Hc2|].
        exact (talked_trans k k1 k' [Screen [c]] _ Ht1 Ht2). }
    change (shell_turns (S (S (length l)))) with
      (o ← shell_iter; match o with Returned => shell_turns (S (length l)) | Stopped => mret Stopped end).
    rewrite (bind_ok _ _ _ _ _ E1). exact E.
Qed.

(** No output for a line has a tab. *)
Lemma line_outs_ok k l q : ready k fs q → Forall (λ c, visible c = true) l →
  Forall out_ok (((λ c, Screen [c]) <$> l) ++ answer k fs l).
Proof.
  intros H Hl. apply Forall_app. split.
  - apply Forall_fmap. eapply Forall_impl; [exact Hl|]. intros c Hc.
    unfold visible in Hc. apply andb_true_iff in Hc. cbn. apply List.Forall_cons; [lia|done].
  - apply List.Forall_cons; [by apply no_tab_check|]. apply Forall_app. split.
    + apply (reply_outs_ok k fs (rd_shell _ _ _ H)), skip_spaces_plain.
      rewrite plain_text by by apply visible_plain. by apply visible_plain.
    + destruct (stops _); [constructor|]. unfold prompt_outs. outs_ok.
Qed.

Lemma serve_ok i k q : ready k fs q →
  ∃ k' q', serve i k = Ok ((), k') ∧ ready k' fs q' ∧ q `prefix_of` q' ∧ line k' = line k.
Proof.
  intros H. destruct i; cbn [serve].
  - destruct (irq0_ok k q H) as (k' & E & Hr & Hl & _). exists k', q. by split_and!.
  - destruct (irq1_ok k q H) as (k' & q' & E & Hr & Hq & Hl & _). exists k', q'. by split_and!.
Qed.

(** Either ends the interrupt at the controller. *)
Lemma serve_ends i k k' : serve i k = Ok ((), k') →
  pic1 (k_dev k') = pic_cmd PIC_EOI (pic1 (k_dev k)).
Proof.
  destruct i; cbn [serve].
  - unfold irq0. intros ([] & k1 & E1 & ([] & k2 & E2 & E3)%bind_inv)%bind_inv.
    injection E1 as <-. destruct (eoi_ok 0 (k_dev k)) as (d & E & Hd & _).
    unfold dev, zoom in E2. cbn [k_dev set_ticks] in E2. rewrite E in E2. injection E2 as <-.
    unfold zoom in E3. destruct ((Sched.sched_tick ≫= λ _, mret tt) _) as [[[] s]| |]; [|done..].
    by injection E3 as <-.
  - unfold irq1. intros ([] & k1 & E1 & E2)%bind_inv.
    unfold zoom in E1. destruct (keyboard_irq_handler _) as [[[] t]| |] eqn:Eh; [|done..].
    injection E1 as <-. unfold keyboard_irq_handler in Eh. apply bind_inv in Eh as (sc & t1 & E3 & E4).
    destruct (inb_ok PS2_DATA (k_dev k)) as (v & d & E & _ & H1 & _).
    unfold zoom in E3. cbn [fst snd] in E3. rewrite E in E3. injection E3 as <- <-.
    unfold zoom in E4. destruct (kb_scan _ _) as [[[] kb]| |]; [|done..]. injection E4 as <-.
    destruct (eoi_ok 1 d) as (d' & E' & Hd' & _).
    unfold dev, zoom in E2. cbn [k_dev set_kbd set_dev fst snd] in E2. rewrite E' in E2.
    injection E2 as <-. cbn [k_dev set_dev]. by rewrite Hd', H1.
Qed.
End keeps.

(** ** A waiting shell to try it on *)

Lemma demo_typed : ∃ k : kernel board, ready k boot_files [97; 10] ∧ line k = [] ∧
  u_tx (com1 (k_dev k)) = [] ∧ shows_term (k_con k) (blank_term 8 2 COLOR_WHITE COLOR_DARK).
Proof.
  destruct demo_kernel as (k & Hok & Hk & Hb & Hi & Htx & _ & Ht).
  destruct (put_char_ok kbd_boot [] 97 kbd_boot_rep) as (k1 & _ & H1 & _).
  destruct (put_char_ok k1 [97] 10 H1) as (k2 & _ & H2 & _).
  exists (set_kbd k2 k). split; [|split; [|by split]].
  - split; [by destruct Hok|exact H2|by repeat constructor|cbn; by rewrite Hb|cbn; by rewrite Hi|].
    unfold line. cbn [k_idx k_buf set_kbd]. rewrite Hi. constructor.
  - unfold line. cbn [k_idx k_buf set_kbd]. by rewrite Hi.
Qed.

(** * Properties *)

(** C6: a line that was typed, of at most 127 visible characters and Enter, is taken
    by as many turns of the loop, which send exactly the answer to it as a command
    and the next prompt, and leave an empty line with the rest of the queue and the
    rest of the kernel as it was; a screen that showed a terminal shows it with the
    line, the answer and the prompt printed; the loop ends if and only if the line says [reboot] or [panic]. *)
Theorem shell_line (D : Type) (PL : Platform D) (k : kernel D) (fs : list file)
    (l q : list Z) (H : ready k fs (l ++ 10 :: q)) (Hk : line k = [])
    (Hl : Forall (λ c, visible c = true) l) (Hlen : (length l ≤ 127)%nat) :
  ∃ o k', shell_turns (S (length l)) k = Ok (o, k') ∧
    (o = Stopped ↔ stops (command l) = true) ∧
    (o = Returned → ready k' fs q ∧ line k' = [] ∧ core k' = core k ∧
       u_tx (com1 (k_dev k')) = u_tx (com1 (k_dev k)) ++
         crlf (serial_of (reply k fs (command l)) ++ cstr "NovaOS> ") ∧
       ∀ t, shows_term (k_con k) t → t_bg t = COLOR_DARK →
         shows_term (k_con k') (term_perform (((λ c, Screen [c]) <$> l) ++ answer k fs l) t)).
Proof.
  destruct (turns_line fs l k q H Hl) as (o & k' & E & Ho & Hs).
  { rewrite <- (line_length fs k _ H), Hk. cbn [length]. lia. }
  rewrite Hk in Ho, Hs. cbn [app] in Ho, Hs. exists o, k'. split; [exact E|]. split; [exact Ho|].
  intros Hret. destruct (Hs Hret) as (Hr & Hl' & Hc & Ht). do 3 (split; [done|]). split.
  - destruct Ht as [_ [-> _]]. do 2 f_equal. rewrite serial_app, serial_screens. unfold answer.
    assert (stops (command l) = false) as -> by (apply not_true_is_false; intros Hst%Ho; congruence).
    change (serial_of (Screen nl :: ?o)) with (serial_of o). by rewrite serial_app.
  - intros t Hshow Hbg. apply (talked_shows k k'); [exact Ht|done|done|]. by apply (line_outs_ok fs k l _ H).
Qed.

Lemma shell_line_witness :
  ∃ (k k' : kernel board), shell_turns 2 k = Ok (Returned, k') ∧
    u_tx (com1 (k_dev k')) =
      cstr "Unknown command: 'a'. Type 'help' for commands." ++ [13; 10] ++ cstr "NovaOS> " ∧
    ∃ t, shows_term (k_con k') t ∧ term_text t = [cstr "NovaOS>"; []].
Proof.
  destruct demo_typed as (k & H & Hl & Htx & Hshow).
  destruct (shell_line board board_platform k boot_files [97] [] H Hl) as (o & k' & E & Ho & Hr).
  - repeat constructor.
  - cbn. lia.
  - destruct o; [|destruct Ho as [Ho _]; discriminate (Ho eq_refl)].
    exists k, k'. split; [exact E|]. destruct (Hr eq_refl) as (_ & _ & _ & Hs & Hscreen).
    split; [rewrite Hs, Htx; vm_compute; reflexivity|].
    eexists. split; [apply (Hscreen _ Hshow); reflexivity|].
    vm_compute. reflexivity.
Defined.

(** One turn of the input loop consumes the oldest typed character and edits the
    line with it: visible characters are appended up to 127, Backspace removes the
    last one, Enter executes the line, after which the buffer is empty; the screen
    and the serial line get exactly the character's echo, for Enter the command's
    answer and a new prompt; the loop ends exactly on Enter after [reboot] or [panic]. *)
Theorem shell_turn (D : Type) (PL : Platform D) (k : kernel D) (fs : list file)
    (c : Z) (q : list Z) (H : ready k fs (c :: q)) :
  ∃ o k', shell_iter k = Ok (o, k') ∧
    (o = Stopped ↔ c = 10 ∧ stops (command (line k)) = true) ∧
    (o = Returned → ready k' fs q ∧ line k' = edit (line k) c ∧
       talked k k' (echo k fs c)).
Proof.
  destruct (iter_ok fs k (c :: q) H) as (o & k' & E & Hr & Ho & Hl).
  exists o, k'. split; [exact E|]. split; [exact Ho|]. intros Hret.
  destruct (Hl Hret) as [Hline Ht]. split; [by apply Hr|]. by split.
Qed.

Lemma shell_turn_witness :
  ∃ (k k' : kernel board), shell_iter k = Ok (Returned, k') ∧ line k' = [97].
Proof.
  destruct demo_typed as (k & H & Hl & _).
  destruct (shell_turn board board_platform k boot_files 97 [10] H) as (o & k' & E & Ho & Hr).
  destruct o; [|destruct Ho as [Ho _]; destruct (Ho eq_refl) as [[=] _]].
  exists k, k'. split; [exact E|]. destruct (Hr eq_refl) as (_ & Hl' & _).
  rewrite Hl', Hl. reflexivity.
Defined.
