(* ===== verification/Boot.v ===== *)
(** * Boot sequence ([_start] of [kernel/kernel_main.cpp])

    The calls of [_start] in their order, over what the boot loader hands over,
    and the state in which they leave the kernel: the composition of the
    components' initialisations, up to the [sti] that turns interrupts on.  Until
    then nothing interrupts them ([stages_masked]); what [_start] does after it is
    in [Interleaving]. *)
From stdpp Require Import base tactics strings gmap numbers list.
From S2P Require Import Prelude CString Memory Ensures Interfaces Pmm HeapSpec Heap HeapProofs HeapTheorems.
From S2P Require Import Sched SchedTheorems Platform Pic Keyboard Vfs Serial Framebuffer Gdt Panic Idt Kernel Shell.
From S2P Require Import Terminal ShellReplies Display Session.

Local Open Scope Z_scope.

(** ** Data *)

(** The fields of [struct limine_framebuffer] that the kernel reads; the address
    leads to the pixels. *)
Record limine_framebuffer := FbInfo {
  fi_pixels : gmap Z Z; fi_width : Z; fi_height : Z; fi_pitch : Z
}.

(** The responses to the boot protocol's requests, [None] for a null pointer. *)
Record boot_info := BootInfo {
  bi_revision : bool;
  bi_framebuffers : option (list limine_framebuffer);
  bi_memmap : option (list memmap_entry);
  bi_hhdm : option Z
}.

(** The addresses the linker chooses. *)
Record link_map := LinkMap {
  lm_tss : Z; lm_stack : Z; lm_gdt : Z; lm_idt : Z;
  lm_isr_stub : Z → Z; lm_irq_stub : Z → Z; lm_ticker : Z
}.

(** ** Operations *)

Section boot.
Context {D : Type} `{PL : Platform D} (lm : link_map) (bi : boot_info).

Definition log (s : list Z) : M (kernel D) unit := dev (print_serial s).

(** Items 1 and 2. *)
Definition start_cpu : M (kernel D) unit :=
  dev init_serial ≫= λ _,
  log (nl ++ cstr "=== NovaOS Kernel Booting ===" ++ nl) ≫= λ _,
  zoom k_gdt set_gdt (gdt_init (lm_tss lm) (lm_stack lm) (lm_gdt lm)) ≫= λ _,
  log (cstr "[M2] GDT loaded (Null, KCode, KData, UCode, UData, TSS)." ++ nl).

(** Item 4, once there is a framebuffer. *)
Definition start_screen (fb : limine_framebuffer) : M (kernel D) unit :=
  zoom k_panic set_panic (set_panic_framebuffer (Some (fi_pixels fb))
    (u32 (fi_width fb)) (u32 (fi_height fb)) (u32 (fi_pitch fb))) ≫= λ _,
  con (fb_init (fi_pixels fb) (u32 (fi_width fb)) (u32 (fi_height fb)) (u32 (fi_pitch fb))) ≫= λ _,
  log (cstr "[M1] GOP Framebuffer initialized." ++ nl).

(** Item 5. *)
Definition start_memory : M (kernel D) unit :=
  match bi_memmap bi, bi_hhdm bi with
  | Some entries, Some offset =>
      zoom k_pmm (λ p k, set_pmm_heap (p, k_heap k) k) (pmm_init offset entries) ≫= λ _,
      log (cstr "[M3] PMM initialized (Bitmap physical allocator)." ++ nl) ≫= λ _,
      zoom (λ k, (k_pmm k, k_heap k)) set_pmm_heap heap_init ≫= λ _,
      log (cstr "[M3] Kernel Heap initialized (kmalloc/kfree ready)." ++ nl)
  | _, _ => log (cstr "[M3] Warning: Memory map or HHDM unavailable." ++ nl)
  end.

(** Items 6 and 7. *)
Definition start_interrupts : M (kernel D) unit :=
  dev (pic_init 32 40) ≫= λ _,
  log (cstr "[M4] PIC remapped (Master: 32, Slave: 40)." ++ nl) ≫= λ _,
  dev (pit_init 100) ≫= λ _,
  log (cstr "[M4] PIT timer configured at 100 Hz." ++ nl) ≫= λ _,
  dev keyboard_init ≫= λ _,
  log (cstr "[M4] PS/2 Keyboard driver active." ++ nl) ≫= λ _,
  zoom k_idt set_kidt (idt_init (lm_isr_stub lm) (lm_irq_stub lm) (lm_idt lm)) ≫= λ _,
  log (cstr "[M2/M4] IDT installed (32 Exceptions + IRQ0 + IRQ1)." ++ nl).

(** Items 8 and 9. *)
Definition start_tasks : M (kernel D) unit :=
  files vfs_init ≫= λ _,
  log (cstr "[M6] Virtual File System mounted (RAM Disk)." ++ nl) ≫= λ _,
  zoom k_sched (λ s k, set_sched_heap (s, k_heap k) k) sched_init ≫= λ _,
  zoom (λ k, (k_sched k, k_heap k)) set_sched_heap
    (sched_create_task (lm_ticker lm) (cstr "ticker")) ≫= λ _,
  log (cstr "[M5] Round-robin scheduler active." ++ nl).

Definition sti : M panic_state unit :=
  modify (λ s, PanicState (p_fb s) (p_width s) (p_height s) (p_pitch s) true (p_halted s)).

(** Item 10, and the [sti] of item 11. *)
Definition start_shell : M (kernel D) unit :=
  shell_init ≫= λ _,
  log (cstr "[M7] Interactive Kernel Shell ready." ++ nl) ≫= λ _,
  zoom k_panic set_panic sti.

(** [_start] up to its [sti]; item 3 are the two checks. *)
Definition start : M (kernel D) outcome :=
  start_cpu ≫= λ _,
  if negb (bi_revision bi) then
    stopped (panicking (kernel_panic (cstr "Limine base revision unsupported!")))
  else
    match bi_framebuffers bi with
    | None | Some [] =>
        stopped (panicking (kernel_panic (cstr "No framebuffer provided by bootloader!")))
    | Some (fb :: _) =>
        returned (start_screen fb ≫= λ _, start_memory ≫= λ _, start_interrupts ≫= λ _,
                  start_tasks ≫= λ _, start_shell)
    end.
End boot.

(** The statics before [_start]. *)
Definition kernel_boot {D} (d : D) (memory : mem) (g : gdt_state) (i : idt_state) : kernel D :=
  Kernel d fbcon_boot pmm_boot (Heap 0 memory) sched_boot 0 vfs_boot kbd_boot
    (PanicState None 0 0 0 false false) g i (replicate 128 0) 0.

(** ** What the serial line shows of a boot *)

Definition with_nl (s : list Z) : list Z := s ++ nl.

Definition memory_log : list (list Z) := [
  cstr "[M3] PMM initialized (Bitmap physical allocator).";
  cstr "[M3] Kernel Heap initialized (kmalloc/kfree ready)."].
Definition no_memory_log : list (list Z) := [
  cstr "[M3] Warning: Memory map or HHDM unavailable."].

(** The log that [README.md] shows, with what it says of the memory, up to the
    message that follows the [sti]. *)
Definition boot_log (memory : list (list Z)) : list Z := concat (with_nl <$> (
  [[]; cstr "=== NovaOS Kernel Booting ===";
   cstr "[M2] GDT loaded (Null, KCode, KData, UCode, UData, TSS).";
   cstr "[M1] GOP Framebuffer initialized."] ++ memory ++
  [cstr "[M4] PIC remapped (Master: 32, Slave: 40).";
   cstr "[M4] PIT timer configured at 100 Hz.";
   cstr "[M4] PS/2 Keyboard driver active.";
   cstr "[M2/M4] IDT installed (32 Exceptions + IRQ0 + IRQ1).";
   cstr "[M6] Virtual File System mounted (RAM Disk).";
   cstr "[M5] Round-robin scheduler active.";
   [];
   cstr "=== NovaOS Interactive Shell ===";
   cstr "Type 'help' to see available commands.";
   [];
   cstr "[M7] Interactive Kernel Shell ready."])).

(** The message of [_start] after its [sti]. *)
Definition sti_message : list Z :=
  cstr "[boot] Interrupts enabled (STI). Boot sequence finished!" ++ nl ++ nl.

(** ** What the screen shows after it *)

Definition banner_outs : list out := [
  Colour COLOR_GREEN; Both (nl ++ cstr "=== NovaOS Interactive Shell ===" ++ nl);
  Colour COLOR_WHITE; Both (cstr "Type 'help' to see available commands." ++ nl ++ nl)].
Definition boot_blank (fb : limine_framebuffer) : term :=
  blank_term (fi_width fb / 8) (fi_height fb / 10) COLOR_WHITE COLOR_DARK.

(** ** What the boot loader has to provide *)

(** A screen of at least one cell, its rows inside the pitch, its pixels mapped. *)
Record screen_given (fb : limine_framebuffer) : Prop := {
  sg_width : 8 ≤ fi_width fb ≤ fi_pitch fb / 4;
  sg_height : 10 ≤ fi_height fb;
  sg_pitch : 0 ≤ fi_pitch fb < 2 ^ 32;
  sg_size : fi_height fb * (fi_pitch fb / 4) < 2 ^ 32;
  sg_map : ∀ i, 0 ≤ i < fi_height fb * (fi_pitch fb / 4) → is_Some (fi_pixels fb !! i)
}.

(** A memory map in which the lowest usable page above 1 MB starts a run of 64,
    mapped through the higher half. *)
Record memory_given (es : list memmap_entry) (offset p : Z) (memory : mem) : Prop := {
  mg_entries : Forall entry_ok es;
  mg_disjoint : usable_disjoint es;
  mg_pages : 256 ≤ p ∧ p + HEAP_PAGES ≤ PAGES;
  mg_run : ∀ i, 0 ≤ i < HEAP_PAGES → ∃ e, e ∈ es ∧ usable_page e (p + i);
  mg_lowest : ∀ q e, 256 ≤ q < PAGES → e ∈ es → usable_page e q → p ≤ q;
  mg_base : base_ok (4096 * p + offset);
  mg_mapped : mapped (4096 * p + offset) POOL memory
}.

Record link_given (lm : link_map) : Prop := {
  lg_isr : ∀ v, 0 ≤ lm_isr_stub lm v < 2 ^ 64;
  lg_irq : ∀ v, 0 ≤ lm_irq_stub lm v < 2 ^ 64;
  lg_ticker : 0 ≤ lm_ticker lm < 2 ^ 64
}.

(** * Lemmas *)

(** *** The page counters *)

Lemma keeps_total_bind {A B} (m : M pmm A) (f : A → M pmm B) :
  (∀ s a s', m s = Ok (a, s') → s_total_pages s' = s_total_pages s) →
  (∀ x s a s', f x s = Ok (a, s') → s_total_pages s' = s_total_pages s) →
  ∀ s a s', (m ≫= f) s = Ok (a, s') → s_total_pages s' = s_total_pages s.
Proof.
  intros Hm Hf s a s' (x & s1 & E1 & E2)%bind_inv. rewrite (Hf _ _ _ _ E2). by eapply Hm.
Qed.

Lemma bm_get_total qi s a s' : bm_get qi s = Ok (a, s') → s_total_pages s' = s_total_pages s.
Proof. unfold bm_get, of_option. destruct (bitmap s !! qi); [|done]. by intros [= _ <-]. Qed.

Lemma bit_clear_total p s a s' : bit_clear p s = Ok (a, s') → s_total_pages s' = s_total_pages s.
Proof.
  apply keeps_total_bind; [apply bm_get_total|]. intros w s1 a1 s2. unfold bm_put.
  destruct (bitmap s1 !! (p / 64)); [|done]. by intros [= _ <-].
Qed.

Lemma pmm_alloc_total s a s' : pmm_alloc s = Ok (a, s') → s_total_pages s' = s_total_pages s.
Proof.
  unfold pmm_alloc. generalize (range 0 BITMAP_QWORDS) as qis. intros qis.
  revert s a s'; induction qis as [|qi qis IH]; intros s a s'; cbn [alloc_scan].
  { by intros [= _ <-]. }
  apply keeps_total_bind; [apply bm_get_total|]. intros w. destruct (w =? 0); [exact IH|].
  apply keeps_total_bind; [apply bit_clear_total|]. intros _ s1 a1 s2.
  apply keeps_total_bind; [|by intros ? ? ? ? [= _ <-]]. by intros ? ? ? [= _ <-].
Qed.

(** [heap_init] only allocates pages: it keeps what allocation keeps. *)
Section heap_keeps.
Context {P : Type} `{PA : PageAllocator P} (f : P → Z)
  (Hf : ∀ s a s', pa_alloc s = Ok (a, s') → f s' = f s).

Lemma page_alloc_keeps (t : P * heap) a t' : page_alloc t = Ok (a, t') → f (fst t') = f (fst t).
Proof using Hf.
  unfold page_alloc, zoom. destruct (pa_alloc (fst t)) as [[x s]| |] eqn:E; [|done..].
  intros [= _ <-]. exact (Hf _ _ _ E).
Qed.

Lemma pages_keep (l : list Z) (t : P * heap) a t' :
  for_each l (λ _, page_alloc ≫= λ _, mret tt) t = Ok (a, t') → f (fst t') = f (fst t).
Proof using Hf.
  revert t a t'; induction l as [|i l IH]; intros t a t' E; cbn [for_each] in E.
  { by injection E as _ <-. }
  apply bind_inv in E as (u & t3 & E3 & E2). apply bind_inv in E3 as (v & t4 & E3 & E4).
  injection E4 as _ <-. rewrite (IH _ _ _ E2). by eapply page_alloc_keeps.
Qed.

Lemma heap_init_keeps (t : P * heap) a t' : heap_init t = Ok (a, t') → f (fst t') = f (fst t).
Proof using Hf.
  unfold heap_init. intros E. apply bind_inv in E as (p & t1 & E1 & E).
  rewrite <- (page_alloc_keeps _ _ _ E1). clear E1.
  destruct (p =? 0); [by injection E as _ <-|]. cbv zeta in E.
  apply bind_inv in E as (x & t2 & E2 & E). rewrite <- (pages_keep _ _ _ _ E2). clear E2.
  apply bind_inv in E as (t3 & t4 & E3 & E). injection E3 as <- <-.
  apply bind_inv in E as ([] & t5 & E5 & E). injection E5 as <-.
  unfold zoom in E. destruct (put_head _ _) as [[? ?]| |]; [|done..]. by injection E as _ <-.
Qed.
End heap_keeps.

(** *** The stages *)

(** What each of them sends. *)
Definition cpu_log : list Z :=
  (nl ++ cstr "=== NovaOS Kernel Booting ===" ++ nl) ++
  cstr "[M2] GDT loaded (Null, KCode, KData, UCode, UData, TSS)." ++ nl.
Definition screen_log : list Z := cstr "[M1] GOP Framebuffer initialized." ++ nl.
Definition interrupts_log : list Z :=
  (cstr "[M4] PIC remapped (Master: 32, Slave: 40)." ++ nl) ++
  (cstr "[M4] PIT timer configured at 100 Hz." ++ nl) ++
  (cstr "[M4] PS/2 Keyboard driver active." ++ nl) ++
  cstr "[M2/M4] IDT installed (32 Exceptions + IRQ0 + IRQ1)." ++ nl.
Definition tasks_log : list Z :=
  (cstr "[M6] Virtual File System mounted (RAM Disk)." ++ nl) ++
  cstr "[M5] Round-robin scheduler active." ++ nl.
Definition shell_log : list Z :=
  (nl ++ cstr "=== NovaOS Interactive Shell ===" ++ nl) ++
  (cstr "Type 'help' to see available commands." ++ nl ++ nl) ++
  cstr "[M7] Interactive Kernel Shell ready." ++ nl.

(** The serial line is ready and has sent [s] more. *)
Definition said {D} `{PL : Platform D} (d d' : D) (s : list Z) : Prop :=
  u_dlab (com1 d') = false ∧ u_tx (com1 d') = u_tx (com1 d) ++ crlf s.

(** The two devices agree on everything but the serial line. *)
Definition same_chips {D} `{PL : Platform D} (d d' : D) : Prop :=
  pic1 d' = pic1 d ∧ pic2 d' = pic2 d ∧ pit d' = pit d.

Section stages.
Context {D : Type} `{PL : Platform D} (lm : link_map) (bi : boot_info).

Lemma same_chips_trans (d1 d2 d3 : D) : same_chips d1 d2 → same_chips d2 d3 → same_chips d1 d3.
Proof. intros (? & ? & ?) (? & ? & ?). unfold same_chips. split_and!; congruence. Qed.

Lemma said_trans (d1 d2 d3 : D) s t : said d1 d2 s → said d2 d3 t → said d1 d3 (s ++ t).
Proof. intros [_ H] [? H']. split; [done|]. by rewrite H', H, crlf_app, app_assoc. Qed.

Lemma said_quiet (d1 d2 : D) : com1 d2 = com1 d1 → u_dlab (com1 d1) = false → said d1 d2 [].
Proof. intros H Hl. unfold said. rewrite H. split; [done|]. cbn. by rewrite app_nil_r. Qed.

Lemma sent_said (d d' : D) s : sent d d' (crlf s) → same_chips d d' ∧ said d d' s.
Proof. intros (? & ? & ? & ? & ?). by split_and!. Qed.

Lemma log_ok s (k : kernel D) : plain s → u_dlab (com1 (k_dev k)) = false →
  ∃ d, log s k = Ok ((), set_dev d k) ∧ same_chips (k_dev k) d ∧ said (k_dev k) d s.
Proof.
  intros Hs Hl. destruct (print_serial_ok s (k_dev k) (plain_bytes _ Hs) Hl) as (d & E & Hd).
  rewrite (plain_text _ Hs) in Hd. exists d. split; [|by apply sent_said].
  unfold log, dev, zoom. by rewrite E.
Qed.

(** The log line in front, or at the end. *)
Ltac log_at k s :=
  let d := fresh "d" in let E := fresh "E" in let C := fresh "C" in let S := fresh "S" in
  destruct (log_ok s k) as (d & E & C & S); [plain_text|cbn; assumption|];
  first [rewrite (bind_ok _ _ _ _ _ E)|rewrite E]; clear E;
  cbn [k_dev set_dev set_gdt set_con set_panic set_pmm_heap set_kidt set_vfs set_sched_heap] in C, S;
  pose proof (proj1 S).
Ltac log_step :=
  lazymatch goal with
  | |- context [mbind _ (log ?s) ?k] => log_at k s
  | |- context [log ?s ?k] => log_at k s
  end.

(** The stages in the context, one after the other. *)
Ltac said_all :=
  unfold said in *; split; [tauto|];
  repeat match goal with
  | H : _ ∧ u_tx (com1 ?d) = _ |- context [u_tx (com1 ?d)] => rewrite (proj2 H)
  | H : com1 ?d = _ |- context [com1 ?d] => rewrite H
  end;
  rewrite ?crlf_app, <- ?app_assoc; reflexivity.

Ltac chips_all := repeat first [eassumption|eapply same_chips_trans; [eassumption|]].

Lemma start_cpu_ok (k : kernel D) : ∃ d g, start_cpu lm k = Ok ((), set_dev d (set_gdt g k)) ∧
  same_chips (k_dev k) d ∧ said (k_dev k) d cpu_log.
Proof.
  unfold start_cpu. destruct (init_serial_ok (k_dev k)) as (d0 & E0 & Hs).
  destruct (sent_said _ _ [] Hs) as [C0 Hs0].
  pose proof (proj1 Hs0). rewrite (bind_ok _ _ _ () (set_dev d0 k)) by exact (zoom_ok _ _ _ k _ _ E0).
  log_step.
  assert (∃ g, gdt_init (lm_tss lm) (lm_stack lm) (lm_gdt lm) (k_gdt k) = Ok ((), g)) as [g Eg]
    by (eexists; reflexivity).
  rewrite (bind_ok _ _ _ () (set_gdt g (set_dev d k))) by (unfold zoom; cbn [k_gdt set_dev]; by rewrite Eg).
  log_step. eexists _, g. split; [reflexivity|]. split; [chips_all|]. unfold cpu_log. said_all.
Qed.

Lemma start_screen_ok fb (k : kernel D) :
  screen_given fb → u_dlab (com1 (k_dev k)) = false →
  ∃ d c p, start_screen fb k = Ok ((), set_dev d (set_con c (set_panic p k))) ∧
    shows_term c (blank_term (fi_width fb / 8) (fi_height fb / 10) (s_fg (k_con k)) (s_bg (k_con k))) ∧
    same_screen p c ∧ p_halted p = p_halted (k_panic k) ∧
    same_chips (k_dev k) d ∧ said (k_dev k) d screen_log.
Proof.
  intros [Hw Hh Hp Hsz Hm] Hl. unfold start_screen.
  assert (0 ≤ fi_pitch fb / 4 < 2 ^ 32) by (Z.div_mod_to_equations; lia).
  assert (0 ≤ fi_height fb < 2 ^ 32) by (revert Hw Hsz; clear -Hh; generalize (fi_pitch fb / 4); intros pp; nia).
  rewrite !(u32_small (fi_pitch fb)), !(u32_small (fi_width fb)), !(u32_small (fi_height fb)) by lia.
  set (p := PanicState (Some (fi_pixels fb)) (fi_width fb) (fi_height fb) (fi_pitch fb)
    (p_int (k_panic k)) (p_halted (k_panic k))).
  rewrite (bind_ok _ _ _ () (set_panic p k)) by done.
  destruct (init_ok (fi_pixels fb) (fi_width fb) (fi_height fb) (fi_pitch fb) (k_con k))
    as (c & Ec & _ & _ & Hcw & Hch & _ & _ & _ & _ & Hcp & _); [done..|].
  destruct (init_shows (fi_pixels fb) (fi_width fb) (fi_height fb) (fi_pitch fb) (k_con k))
    as (c' & Ec' & Hc); [done..|]. rewrite Ec in Ec'. injection Ec' as <-.
  rewrite (bind_ok _ _ _ () (set_con c (set_panic p k)))
    by (unfold con, zoom; cbn [k_con set_panic]; by rewrite Ec).
  log_step. exists d, c, p. split; [reflexivity|]. split; [done|]. split; [|split_and!; done].
  split; [by eexists|]. by rewrite Hcw, Hch, Hcp.
Qed.

Lemma last_page_nonneg es : 0 ≤ last_page es.
Proof. unfold last_page. induction es as [|e es IH]; cbn [foldr]; lia. Qed.

(** What item 5 leaves of the two allocators, on whatever kernel it runs. *)
Definition memory_becomes (memory : mem) (s : pmm) (h : heap) (text : list Z) : Prop :=
  ∀ k : kernel D, k_pmm k = pmm_boot → k_heap k = Heap 0 memory → u_dlab (com1 (k_dev k)) = false →
    ∃ d, start_memory bi k = Ok ((), set_dev d (set_pmm_heap (s, h) k)) ∧
      same_chips (k_dev k) d ∧ said (k_dev k) d text.

Lemma start_memory_ok es offset p memory :
  bi_memmap bi = Some es → bi_hhdm bi = Some offset → memory_given es offset p memory →
  ∃ s h F, memory_becomes memory s h (concat (with_nl <$> memory_log)) ∧ heap_rep (4096 * p + offset) fresh_pool h ∧
    pmm_rep s F ∧ 0 ≤ s_total_pages s < 2 ^ 64.
Proof.
  intros Hes Hoff [Hent Hdis [Hp Hp'] Hrun Hlow Hbase Hmap].
  destruct (pmm_init_rep offset es pmm_boot pmm_boot_wf eq_refl eq_refl Hent Hdis)
    as (s0 & F & E0 & HF & HFp & Ht & Hh). assert (pa_hhdm s0 = offset) as Hoff' by exact Hh.
  destruct (heap_init_ok pmm pmm_page_allocator s0 F (Heap 0 memory) p) as (s1 & h & E1 & Hrep & HF1).
  - exact HF.
  - split; [apply HFp; split; [unfold HEAP_PAGES in *; lia|]|].
    + replace p with (p + 0) by lia. apply Hrun. unfold HEAP_PAGES. lia.
    + intros q [Hq (e & He & Hu)]%HFp. exact (Hlow q e Hq He Hu).
  - lia.
  - intros i Hi. apply HFp. split; [lia|]. exact (Hrun i Hi).
  - rewrite Hoff'. exact Hbase.
  - rewrite Hoff'. exact Hmap.
  - rewrite Hoff' in Hrep. exists s1, h, (F ∖ list_to_set (range p HEAP_PAGES)).
    split; [|split; [exact Hrep|split; [exact HF1|]]].
    + intros k Hpmm Hheap Hl. unfold start_memory. rewrite Hes, Hoff.
      rewrite (bind_ok _ _ _ () (set_pmm_heap (s0, k_heap k) k))
        by (unfold zoom; rewrite Hpmm; by rewrite E0).
      log_step. rewrite <- Hheap in E1.
      rewrite (bind_ok _ _ _ () (set_dev d (set_pmm_heap (s1, h) k)))
        by exact (zoom_ok _ _ _ (set_dev d (set_pmm_heap (s0, k_heap k) k)) _ _ E1).
      log_step. eexists _. split; [reflexivity|]. split; [chips_all|]. unfold memory_log, with_nl. cbn [fmap list_fmap concat]. said_all.
    + pose proof (heap_init_keeps s_total_pages pmm_alloc_total _ _ _ E1) as Htot.
      cbn [fst] in Htot. rewrite Htot, Ht. pose proof (last_page_nonneg es). unfold PAGES, BITMAP_QWORDS. lia.
Qed.

Lemma no_memory_ok memory : bi_memmap bi = None ∨ bi_hhdm bi = None →
  memory_becomes memory pmm_boot (Heap 0 memory) (concat (with_nl <$> no_memory_log)).
Proof.
  intros Hnone k Hpmm Hheap Hl. unfold start_memory.
  destruct (log_ok (cstr "[M3] Warning: Memory map or HHDM unavailable." ++ nl) k) as (d & E & C & S);
    [plain_text|done|].
  exists d. split; [|split; [exact C|]; unfold no_memory_log, with_nl; cbn [fmap list_fmap concat]; rewrite app_nil_r; exact S]. rewrite <- Hpmm, <- Hheap.
  replace (set_pmm_heap (k_pmm k, k_heap k) k) with k by by destruct k.
  destruct Hnone as [-> | ->]; [exact E|]. destruct (bi_memmap bi); exact E.
Qed.

(** The two lines in use are unmasked, the other fourteen are not. *)
Definition lines_open (d : D) : Prop := ∀ j, 0 ≤ j < 16 → masked d j = negb (bool_decide (j < 2)).

Lemma chips_masked (d d' : D) j : same_chips d d' → masked d' j = masked d j.
Proof. intros (H1 & H2 & _). unfold masked. by rewrite H1, H2. Qed.

Lemma chips_operational (d d' : D) : same_chips d d' → operational d → operational d'.
Proof. intros (H1 & H2 & _). unfold operational. by rewrite H1, H2. Qed.

(** What [pic_init] leaves of the first controller apart from the masks. *)
Definition remapped (d : D) (isr : Z) : Prop :=
  p_vector (pic1 d) = 32 ∧ p_mode (pic1 d) = 1 ∧ p_isr (pic1 d) = isr.

Lemma chips_remapped (d d' : D) isr : same_chips d d' → remapped d isr → remapped d' isr.
Proof. intros (H & _). unfold remapped. by rewrite H. Qed.

Lemma remapped_delivers (d : D) : remapped d 0 → operational d → lines_open d → delivers d.
Proof.
  intros (Hv & Hm & Hr) [Hs _] Ho. split; try done. intros j Hj.
  specialize (Ho j ltac:(lia)). unfold masked in Ho. rewrite Z.mod_small in Ho by lia.
  destruct (Z.ltb_spec j 8); [|lia]. by rewrite bool_decide_eq_true_2 in Ho by lia.
Qed.

Lemma pic_ready (d : D) : ∃ d', pic_init 32 40 d = Ok ((), d') ∧ operational d' ∧
  com1 d' = com1 d ∧ remapped d' (p_isr (pic1 d)) ∧ ∀ j, 0 ≤ j < 16 → masked d' j = true.
Proof.
  destruct (pic_init_chips d 32 40) as (d' & E & H1 & H2 & _ & Hu); [lia|lia|].
  exists d'. split; [exact E|]. split; [unfold operational; by rewrite H1, H2|]. split; [done|].
  split; [unfold remapped; by rewrite H1|].
  intros j Hj. unfold masked. rewrite H1, H2. pose proof (Z.mod_pos_bound j 8 ltac:(lia)) as Hb.
  assert (Z.testbit 0xFF (j `mod` 8) = true) as Hbit.
  { change 0xFF with (Z.ones 8). apply Z.ones_spec_low. lia. }
  destruct (j <? 8); exact Hbit.
Qed.

Lemma start_interrupts_ok (k : kernel D) :
  link_given lm → u_dlab (com1 (k_dev k)) = false →
  ∃ d i, start_interrupts lm k = Ok ((), set_dev d (set_kidt i k)) ∧
    said (k_dev k) d interrupts_log ∧ lines_open d ∧
    (p_isr (pic1 (k_dev k)) = 0 → delivers d) ∧ t_mode (pit d) = PIT_MODE ∧ t_reload (pit d) = 11931 ∧
    ∃ g0 g1, idt i !! 32%nat = Some g0 ∧ gate_target g0 = Some (lm_irq_stub lm 0) ∧
      idt i !! 33%nat = Some g1 ∧ gate_target g1 = Some (lm_irq_stub lm 1).
Proof.
  intros [Hisr Hirq _] Hl. unfold start_interrupts.
  destruct (pic_ready (k_dev k)) as (d1 & E1 & Ho1 & Hu1 & Hr1 & Hm1).
  rewrite (bind_ok _ _ _ () (set_dev d1 k)) by exact (zoom_ok _ _ _ _ _ _ E1).
  assert (u_dlab (com1 d1) = false) by (rewrite Hu1; exact Hl). log_step.
  destruct (pit_init_run d 100 (chips_operational _ _ C Ho1)) as (d2 & E2 & Hmode & Hrel & Hm20 & Ho2 & Hu2 & Hm2);
    [lia|].
  rewrite (bind_ok _ _ _ () (set_dev d2 k)) by exact (zoom_ok _ _ _ (set_dev d k) _ _ E2).
  assert (u_dlab (com1 d2) = false) by (rewrite Hu2; assumption). log_step.
  destruct (enable_masks D PL d0 1 (chips_operational _ _ C0 Ho2)) as (d3 & E3 & Ho3 & Ht3 & Hu3 & Hm3); [lia|].
  rewrite (bind_ok _ _ _ () (set_dev d3 k)) by exact (zoom_ok _ _ _ (set_dev d0 k) _ _ E3).
  assert (u_dlab (com1 d3) = false) by (rewrite Hu3; assumption). log_step.
  destruct (idt_init_ok (lm_isr_stub lm) (lm_irq_stub lm) (lm_idt lm) (k_idt k) Hisr Hirq)
    as (i & Ei & _ & _ & _ & Hi).
  rewrite (bind_ok _ _ _ () (set_kidt i (set_dev d4 k))) by exact (zoom_ok _ _ _ (set_dev d4 k) _ _ Ei).
  log_step. exists d5, i. split; [reflexivity|]. split; [unfold interrupts_log; said_all|].
  assert (pit d5 = pit d2) as Hpit.
  { pose proof (proj2 (proj2 C0)). pose proof (proj2 (proj2 C1)). pose proof (proj2 (proj2 C2)). congruence. }
  assert (lines_open d5) as Hopen.
  2: split; [exact Hopen|]; split; [|split; [by rewrite Hpit|split; [by rewrite Hpit, Hrel|]]].
  - intros j Hj. rewrite (chips_masked _ _ j C2), (chips_masked _ _ j C1), Hm3 by exact Hj.
    rewrite (chips_masked _ _ j C0). destruct (decide (j = 1 ∨ 8 ≤ 1 ∧ j = 2)) as [Hd|Hd].
    { by rewrite bool_decide_eq_true_2 by lia. }
    destruct (decide (j = 0)) as [->|Hj0]; [by rewrite Hm20|].
    rewrite Hm2, (chips_masked _ _ j C), Hm1 by lia. by rewrite bool_decide_eq_false_2 by lia.
  - intros Hisr0. assert (remapped d5 0) as Hr5.
    { pose proof (chips_remapped _ _ _ C Hr1) as Hr.
      pose proof (pit_init_setup _ _ _ (chips_operational _ _ C Ho1) E2) as [= _ Hv2 Hk2 Hs2].
      pose proof (enable_setup _ _ _ (chips_operational _ _ C0 Ho2) E3) as [= _ Hv3 Hk3 Hs3].
      apply (chips_remapped _ _ _ (same_chips_trans _ _ _ C1 C2)).
      rewrite (proj1 C0) in *. unfold remapped in *. rewrite Hisr0 in Hr. intuition congruence. }
    apply (remapped_delivers _ Hr5); [|exact Hopen].
    apply (chips_operational _ _ C2), (chips_operational _ _ C1), Ho3.
  - destruct (Hi 32 ltac:(lia)) as (g0 & Hg0 & Ht0 & _). destruct (Hi 33 ltac:(lia)) as (g1 & Hg1 & Ht1 & _).
    exists g0, g1. split; [exact Hg0|]. split; [exact Ht0|]. split; [exact Hg1|exact Ht1].
Qed.

(** What [sched_create_task] leaves of the ticker: its entry of the task table,
    and the heap with its stack. *)
Definition ticker_task (base : Z) : Task :=
  MkTask (base + 32 + 16384 - 56) (base + 32) READY 1 (cstr "ticker" ++ replicate 18 0).
Definition ticker_pool : list block := [Blk 16384 false; Blk (POOL - 32 - 16384 - 32) true].

(** The table after [sched_init]. *)
Definition sched_idle : sched :=
  Sched (MkTask 0 0 RUNNING 0 (cstr "idle" ++ replicate 20 0) :: replicate 15 task_boot) 1 0 0.

Lemma sched_idle_ok : sched_ok sched_idle.
Proof.
  destruct sched_boot_ok as (s & E & Hok). rewrite sched_boot_init in E. by injection E as <-.
Qed.

Lemma start_tasks_ok id s h (k : kernel D) :
  sched_create_task (lm_ticker lm) (cstr "ticker") (sched_idle, k_heap k) = Ok (id, (s, h)) →
  k_sched k = sched_boot → k_vfs k = vfs_boot → u_dlab (com1 (k_dev k)) = false →
  ∃ d v, start_tasks lm k = Ok ((), set_dev d (set_sched_heap (s, h) (set_vfs v k))) ∧
    vfs_rep v boot_files ∧ same_chips (k_dev k) d ∧ said (k_dev k) d tasks_log.
Proof.
  intros E Hsched Hvfs Hl. unfold start_tasks. destruct vfs_boot_init as (v & Ev & Hv).
  rewrite (bind_ok _ _ _ () (set_vfs v k)) by (apply zoom_ok; rewrite Hvfs; exact Ev).
  log_step.
  rewrite (bind_ok _ _ _ () (set_sched_heap (sched_idle, k_heap k) (set_dev d (set_vfs v k))))
    by (unfold zoom; cbn [k_sched set_dev set_vfs]; rewrite Hsched, sched_boot_init; reflexivity).
  rewrite (bind_ok _ _ _ id (set_sched_heap (s, h) (set_dev d (set_vfs v k))))
    by exact (zoom_ok _ _ _ (set_sched_heap (sched_idle, k_heap k) (set_dev d (set_vfs v k))) _ _ E).
  log_step. exists d0, v. split; [reflexivity|]. split; [exact Hv|].
  split; [by eapply same_chips_trans|unfold tasks_log; said_all].
Qed.

(** The ticker's creation on the fresh heap, and without a heap. *)
Lemma ticker_created base h : heap_rep base fresh_pool h → 0 ≤ lm_ticker lm < 2 ^ 64 →
  ∃ s h', sched_create_task (lm_ticker lm) (cstr "ticker") (sched_idle, h) = Ok (1, (s, h')) ∧
    sched_ok s ∧ s_count s = 2 ∧ s_current s = 0 ∧ s_tasks s !! 1%nat = Some (ticker_task base) ∧
    fresh_stack (lm_ticker lm) (t_rsp (ticker_task base)) (hmem h') ∧ heap_rep base ticker_pool h' ∧
    s_ticks s = 0.
Proof.
  intros Hrep He.
  destruct (create_task_some sched_idle h base fresh_pool (lm_ticker lm) (cstr "ticker") sched_idle_ok
    ltac:(reflexivity) Hrep fresh_pool_coalesced He HDR _ eq_refl)
    as (s & h' & E & -> & Hok & Hrep' & _ & Hfs & _).
  eexists _, h'. split; [exact E|]. split; [exact Hok|]. split; [reflexivity|]. split; [reflexivity|].
  split; [reflexivity|]. split; [exact Hfs|]. split; [exact Hrep'|reflexivity].
Qed.

Lemma ticker_refused memory :
  ∃ s, sched_create_task (lm_ticker lm) (cstr "ticker") (sched_idle, Heap 0 memory) =
      Ok (NO_TASK, (s, Heap 0 memory)) ∧ sched_ok s ∧ s_count s = 1.
Proof.
  destruct (create_task_null sched_idle (Heap 0 memory) (lm_ticker lm) (cstr "ticker") sched_idle_ok)
    as (s & E & Hok & Hc & _); [reflexivity| |by exists s].
  unfold kmalloc, zoom. cbn [Z.eqb]. by destruct HEAP_FUEL.
Qed.

Lemma shell_init_speaks (k : kernel D) : speaks shell_init () k banner_outs.
Proof. unfold shell_init, banner_outs. say. say1. Qed.

Lemma start_shell_ok (k : kernel D) :
  fb_ok (k_con k) → u_dlab (com1 (k_dev k)) = false →
  ∃ d c, start_shell k = Ok ((), set_dev d (set_panic (PanicState (p_fb (k_panic k))
      (p_width (k_panic k)) (p_height (k_panic k)) (p_pitch (k_panic k)) true (p_halted (k_panic k)))
      (set_con c k))) ∧
    perform banner_outs (k_con k) = Ok ((), c) ∧
    fb_ok c ∧ same_geo (k_con k) c ∧ same_chips (k_dev k) d ∧ said (k_dev k) d shell_log.
Proof.
  intros Hc Hl. unfold start_shell.
  destruct (shell_init_speaks k Hc Hl) as (c & d & E & P & Hc' & Hg & [Hs Hsaid]%sent_said).
  pose proof (proj1 Hsaid). rewrite (bind_ok _ _ _ _ _ E). log_step.
  erewrite (zoom_ok k_panic set_panic sti) by reflexivity.
  exists d0, c. split; [reflexivity|]. split; [exact P|]. split; [exact Hc'|]. split; [exact Hg|].
  split; [chips_all|].
  cbn [serial_of flat_map app] in Hsaid. unfold shell_log. said_all.
Qed.
End stages.

(** ** The whole log *)

Lemma boot_log_stages mlog :
  cpu_log ++ screen_log ++ concat (with_nl <$> mlog) ++ interrupts_log ++ tasks_log ++ shell_log =
  boot_log mlog.
Proof.
  unfold boot_log. rewrite !fmap_app, !concat_app, app_assoc. f_equal.
Qed.

(** ** What the loader hands over, and the booted kernel *)

(** No line of the first interrupt controller is in service: [ICW1] would not end it. *)
Record boot_given {D} `{PL : Platform D} (lm : link_map) (bi : boot_info) (d : D) : Prop := {
  bg_service : p_isr (pic1 d) = 0;
  bg_link : link_given lm;
  bg_revision : bi_revision bi = true;
  bg_screen : ∃ fb fbs, bi_framebuffers bi = Some (fb :: fbs) ∧ screen_given fb
}.

(** A shell with no key typed yet over the three boot files, interrupts
    on, the timer and the keyboard lines, and no others, open and delivered at the
    vectors 32 and 33, whose gates lead to their stubs, and the timer at 100 Hz. *)
Record booted {D} `{PL : Platform D} (lm : link_map) (bi : boot_info) (k : kernel D) : Prop := {
  bt_ready : ready k boot_files [];
  bt_line : line k = [];
  bt_running : p_int (k_panic k) = true ∧ p_halted (k_panic k) = false;
  bt_lines : lines_open (k_dev k);
  bt_delivers : delivers (k_dev k);
  bt_timer : t_mode (pit (k_dev k)) = PIT_MODE ∧ t_reload (pit (k_dev k)) = 11931;
  bt_gates : ∃ g0 g1, idt (k_idt k) !! 32%nat = Some g0 ∧ gate_target g0 = Some (lm_irq_stub lm 0) ∧
    idt (k_idt k) !! 33%nat = Some g1 ∧ gate_target g1 = Some (lm_irq_stub lm 1);
  bt_screen : ∃ fb fbs, bi_framebuffers bi = Some (fb :: fbs) ∧ shows_term (k_con k) (term_perform banner_outs (boot_blank fb))
}.

Section boots.
Context {D : Type} `{PL : Platform D} (lm : link_map) (bi : boot_info)
  (d : D) (memory : mem) (g : gdt_state) (i : idt_state).

Lemma start_ok id s h s' h' mlog : boot_given lm bi d →
  memory_becomes (D:=D) bi memory s h (concat (with_nl <$> mlog)) →
  0 ≤ s_free_pages s < 2 ^ 64 ∧ 0 ≤ s_total_pages s < 2 ^ 64 →
  sched_create_task (lm_ticker lm) (cstr "ticker") (sched_idle, h) = Ok (id, (s', h')) →
  sched_ok s' →
  ∃ k, start lm bi (kernel_boot d memory g i) = Ok (Returned, k) ∧ booted lm bi k ∧
    k_pmm k = s ∧ k_heap k = h' ∧ k_sched k = s' ∧ said d (k_dev k) (boot_log mlog).
Proof.
  intros [Hisr Hlm Hrev (fb & fbs & Hfb & Hsg)] Hmem Hcnt Htask Hok. unfold start.
  destruct (start_cpu_ok lm (kernel_boot d memory g i)) as (d1 & g1 & E1 & C1 & S1).
  rewrite (bind_ok _ _ _ _ _ E1), Hrev, Hfb. cbn [negb]. clear E1. unfold returned.
  set (k1 := set_dev d1 (set_gdt g1 (kernel_boot d memory g i))).
  destruct (start_screen_ok fb k1 Hsg (proj1 S1)) as (d2 & c & ps & E2 & Hc & Hps & Hhalt & C2 & S2).
  set (k2 := set_dev d2 (set_con c (set_panic ps k1))) in E2.
  destruct (Hmem k2 eq_refl eq_refl (proj1 S2)) as (d3 & E3 & C3 & S3).
  set (k3 := set_dev d3 (set_pmm_heap (s, h) k2)) in E3.
  destruct (start_interrupts_ok lm k3 Hlm (proj1 S3))
    as (d4 & i4 & E4 & S4 & Hop & Hdel & Hmode & Hrel & Hgates).
  set (k4 := set_dev d4 (set_kidt i4 k3)) in E4.
  destruct (start_tasks_ok lm id s' h' k4 Htask eq_refl eq_refl (proj1 S4)) as (d5 & v & E5 & Hv & C5 & S5).
  set (k5 := set_dev d5 (set_sched_heap (s', h') (set_vfs v k4))) in E5.
  destruct (start_shell_ok k5 (sw_ok _ _ Hc) (proj1 S5)) as (d6 & c6 & E6 & P6 & Hc6 & Hg6 & C6 & S6).
  eexists. split.
  { rewrite (bind_ok _ _ _ () _ (eq_trans (bind_ok _ _ _ () k2 E2)
      (eq_trans (bind_ok _ _ _ () k3 E3) (eq_trans (bind_ok _ _ _ () k4 E4)
      (eq_trans (bind_ok _ _ _ () k5 E5) E6))))). reflexivity. }
  pose proof (same_chips_trans _ _ _ C5 C6) as C.
  assert (p_isr (pic1 d3) = 0) as Hisr3.
  { pose proof (same_chips_trans _ _ _ (same_chips_trans _ _ _ C1 C2) C3) as [Hp _].
    cbn [k_dev set_dev kernel_boot] in Hp. by rewrite Hp. }
  split; [|split; [reflexivity|split; [reflexivity|split; [reflexivity|]]]].
  2:{ rewrite <- boot_log_stages.
      repeat (eapply said_trans; [eassumption|]). exact S6. }
  split; cbn [k_panic k_dev k_idt set_dev set_panic set_con k5 k4 k3 k2 k1].
  - split; [split|exact kbd_boot_rep|constructor|reflexivity|cbn; lia|constructor];
      [exact Hc6|exact (proj1 S6)|exact Hv|exact boot_files_ok|exact Hok|
       exact Hcnt|cbn; lia|].
    destruct Hg6 as (Hw & Hgh & Hgp & _), Hps as (Hfb' & Hpw & Hph & Hpp).
    split; [exact Hfb'|]. cbn in *. split_and!; congruence.
  - reflexivity.
  - split; [reflexivity|exact Hhalt].
  - intros j Hj. rewrite (chips_masked _ _ j C). by apply Hop.
  - exact (delivers_same _ _ (proj1 C) (Hdel Hisr3)).
  - destruct C as (_ & _ & Hpit). rewrite Hpit. split; [exact Hmode|exact Hrel].
  - exact Hgates.
  - exists fb, fbs. split; [exact Hfb|].
    destruct (perform_shows banner_outs c _ Hc eq_refl) as (c' & P' & H' & _); [unfold banner_outs; outs_ok|].
    change (k_con k5) with c in P6. rewrite P6 in P'. injection P' as <-. exact H'.
Qed.

(** What allocation leaves of the counters. *)
Lemma counters_ok s F : pmm_rep s F → 0 ≤ s_total_pages s < 2 ^ 64 →
  0 ≤ s_free_pages s < 2 ^ 64 ∧ 0 ≤ s_total_pages s < 2 ^ 64.
Proof.
  intros HF Ht. pose proof (rep_size _ _ HF). pose proof (rep_count _ _ HF).
  unfold PAGES, BITMAP_QWORDS in *. lia.
Qed.

(** With a memory map. *)
Lemma boot_ok es p offset : boot_given lm bi d → bi_memmap bi = Some es → bi_hhdm bi = Some offset →
  memory_given es offset p memory →
  ∃ k F, start lm bi (kernel_boot d memory g i) = Ok (Returned, k) ∧ booted lm bi k ∧
    u_tx (com1 (k_dev k)) = u_tx (com1 d) ++ crlf (boot_log memory_log) ∧
    pmm_rep (k_pmm k) F ∧ heap_rep (4096 * p + offset) ticker_pool (k_heap k) ∧
    s_count (k_sched k) = 2 ∧ s_current (k_sched k) = 0 ∧
    s_tasks (k_sched k) !! 1%nat = Some (ticker_task (4096 * p + offset)) ∧
    fresh_stack (lm_ticker lm) (t_rsp (ticker_task (4096 * p + offset))) (hmem (k_heap k)) ∧
    s_ticks (k_sched k) = 0.
Proof.
  intros Hbi Hes Hoff Hmem. destruct (start_memory_ok (D:=D) bi es offset p memory Hes Hoff Hmem)
    as (s & h & F & Hs & Hh & HF & Ht).
  destruct (ticker_created lm (4096 * p + offset) h Hh (lg_ticker _ (bg_link _ _ _ Hbi)))
    as (s' & h' & E & Hok & Hc & Hcur & Htask & Hfs & Hh' & Hst).
  destruct (start_ok 1 s h s' h' memory_log Hbi Hs (counters_ok s F HF Ht) E Hok)
    as (k & E' & Hb & Hkp & Hkh & Hks & S).
  exists k, F. rewrite Hkp, Hkh, Hks. exact (conj E' (conj Hb (conj (proj2 S) (conj HF (conj Hh' (conj Hc
    (conj Hcur (conj Htask (conj Hfs Hst))))))))).
Qed.

(** Without. *)
Lemma boot_bare_ok : boot_given lm bi d → bi_memmap bi = None ∨ bi_hhdm bi = None →
  ∃ k, start lm bi (kernel_boot d memory g i) = Ok (Returned, k) ∧ booted lm bi k ∧
    u_tx (com1 (k_dev k)) = u_tx (com1 d) ++ crlf (boot_log no_memory_log) ∧
    k_pmm k = pmm_boot ∧ k_heap k = Heap 0 memory ∧
    s_count (k_sched k) = 1 ∧ s_current (k_sched k) = 0.
Proof.
  intros Hbi Hno. destruct (ticker_refused lm memory) as (s' & E & Hok & Hc).
  destruct (start_ok NO_TASK pmm_boot (Heap 0 memory) s' (Heap 0 memory)
    no_memory_log Hbi (no_memory_ok bi memory Hno) ltac:(by split) E Hok)
    as (k & E' & Hb & Hp & Hh & Hs & S).
  exists k. rewrite Hs, Hc. pose proof (so_current _ Hok) as Hcur. rewrite Hc in Hcur.
  split_and!; [exact E'|exact Hb|exact (proj2 S)|exact Hp|exact Hh|done|lia].
Qed.

(** Without a screen the boot ends in a panic. *)
Lemma screenless_ok : bi_revision bi = false ∨ bi_framebuffers bi = None ∨ bi_framebuffers bi = Some [] →
  ∃ k, start lm bi (kernel_boot d memory g i) = Ok (Stopped, k) ∧
    p_halted (k_panic k) = true ∧ p_int (k_panic k) = false ∧ p_fb (k_panic k) = None ∧
    (k_con k, k_pmm k, k_heap k, k_sched k, k_ticks k, k_vfs k, k_kbd k, k_idt k, k_buf k, k_idx k) =
      (fbcon_boot, pmm_boot, Heap 0 memory, sched_boot, 0, vfs_boot, kbd_boot, i, replicate 128 0, 0) ∧
    u_tx (com1 (k_dev k)) = u_tx (com1 d) ++ crlf (cpu_log ++ PANIC_BANNER ++
      (if bi_revision bi then cstr "No framebuffer provided by bootloader!"
       else cstr "Limine base revision unsupported!") ++ PANIC_FOOTER).
Proof.
  intros Hbi. unfold start.
  destruct (start_cpu_ok lm (kernel_boot d memory g i)) as (d1 & g1 & E1 & _ & S1).
  rewrite (bind_ok _ _ _ _ _ E1). clear E1.
  set (k1 := set_dev d1 (set_gdt g1 (kernel_boot d memory g i))).
  assert (∀ msg, printable msg → ∃ k, Shell.stopped (panicking (kernel_panic msg)) k1 = Ok (Stopped, k) ∧
    p_halted (k_panic k) = true ∧ p_int (k_panic k) = false ∧ p_fb (k_panic k) = None ∧
    (k_con k, k_pmm k, k_heap k, k_sched k, k_ticks k, k_vfs k, k_kbd k, k_idt k, k_buf k, k_idx k) =
      (fbcon_boot, pmm_boot, Heap 0 memory, sched_boot, 0, vfs_boot, kbd_boot, i, replicate 128 0, 0) ∧
    u_tx (com1 (k_dev k)) = u_tx (com1 d) ++ crlf (cpu_log ++ PANIC_BANNER ++ msg ++ PANIC_FOOTER)) as Hpanic.
  { intros msg Hmsg.
    destruct (kernel_panic_says msg (panic_view k1) Hmsg ltac:(by left) d1 (proj1 S1))
      as ([] & d2 & ps & E & (Hi & Hh & Hf) & Htx & _).
    exists (panic_back ps (set_dev d2 k1)). split.
    - unfold Shell.stopped, panicking.
      by rewrite (bind_ok _ _ _ () _ (zoom_ok (λ k, (k_dev k, panic_view k)) _ _ k1 _ _ E)).
    - unfold filled in Hf. cbn in Hf. unfold panic_back. destruct (p_fb ps) eqn:Hfb; [done|].
      split; [exact Hh|]. split; [exact Hi|]. split; [exact Hfb|]. split; [reflexivity|].
      rewrite crlf_app, app_assoc. change d with (k_dev (kernel_boot d memory g i)) at 1.
      rewrite <- (proj2 S1). exact Htx. }
  destruct Hbi as [->|Hfb]; cbn [negb].
  { apply Hpanic, printable_check. reflexivity. }
  destruct (bi_revision bi); cbn [negb]; [|apply Hpanic, printable_check; reflexivity].
  destruct Hfb as [-> | ->]; apply Hpanic, printable_check; reflexivity.
Qed.
End boots.

(** ** Interrupts stay off *)

Definition masked_off {D} (k : kernel D) : Prop := p_int (k_panic k) = false.

(** What [_start] does in front of its [sti], in order. *)
Definition before_sti {D} `{PL : Platform D} (lm : link_map) (bi : boot_info)
    (fb : limine_framebuffer) : list (M (kernel D) unit) :=
  [start_cpu lm; start_screen fb; start_memory bi; start_interrupts lm; start_tasks lm; shell_init;
   log (cstr "[M7] Interactive Kernel Shell ready." ++ nl)].

(** At the beginning, and through every stage. *)
Lemma stages_masked {D : Type} `{PL : Platform D} (lm : link_map) (bi : boot_info) fb :
  (∀ d memory g i, masked_off (kernel_boot (D:=D) d memory g i)) ∧
  Forall (λ m, keeps masked_off m) (before_sti (D:=D) lm bi fb).
Proof.
  split; [done|]. unfold before_sti, start_cpu, start_screen, start_memory, start_interrupts, start_tasks,
    shell_init, print_both, color, log, dev, con, files, masked_off.
  repeat apply Forall_cons_2; [..|by apply Forall_nil_2]; ens; try by apply ensures_apart.
  apply (ensures_zoom (λ p, p_int p = false)); [|done..]. by apply ensures_modify.
Qed.

(** ** A machine to try it on *)

Definition demo_link : link_map :=
  LinkMap 0xFFFFFFFF80010000 0xFFFFFFFF80020000 0xFFFFFFFF80011000 0xFFFFFFFF80012000
    (λ v, (0xFFFFFFFF80001000 + 16 * v) mod 2 ^ 64) (λ v, (0xFFFFFFFF80002000 + 64 * v) mod 2 ^ 64)
    0xFFFFFFFF80003000.
Definition demo_fb : limine_framebuffer := FbInfo (fill 0 1280 0) 64 20 256.
Definition demo_boot : boot_info := BootInfo true (Some [demo_fb]) (Some demo_map) (Some 0).
Definition demo_memory : mem := fill 0x100000 POOL 0.

Lemma demo_link_given : link_given demo_link.
Proof.
  split; [intros v; apply Z.mod_pos_bound; lia|intros v; apply Z.mod_pos_bound; lia|].
  cbn [lm_ticker demo_link]. lia.
Qed.

Lemma demo_screen_given : screen_given demo_fb.
Proof.
  split; cbn [fi_width fi_height fi_pitch fi_pixels demo_fb]; change (256 / 4) with 64; [lia..|].
  intros j Hj. apply (fill_mapped 0 1280 0). lia.
Qed.

Lemma demo_boot_given memmap hhdm :
  boot_given demo_link (BootInfo true (Some [demo_fb]) memmap hhdm) demo_board.
Proof.
  split; [reflexivity|exact demo_link_given|reflexivity|]. exists demo_fb, []. split; [reflexivity|].
  exact demo_screen_given.
Qed.

Lemma demo_memory_given : memory_given demo_map 0 256 demo_memory.
Proof.
  split; [exact demo_ok|exact demo_disjoint|unfold HEAP_PAGES, PAGES, BITMAP_QWORDS; lia| | | |].
  - intros j Hj. apply demo_pages. unfold HEAP_PAGES in Hj. lia.
  - intros q e Hq He Hu. assert (256 ≤ q < 512) as Hr by (apply demo_pages; eauto). lia.
  - unfold base_ok, HDR, POOL. split_and!; [lia|by exists 131072|lia].
  - apply fill_mapped.
Qed.

(** * Properties *)

(** C4: given a screen, and a memory map whose lowest usable pages hold a run of 64,
    the boot sequence runs without a fault up to its [sti]. The interrupt flag is
    clear when it starts, and each stage in front of the [sti] leaves it clear. At the
    [sti] the shell has no key to read yet and exactly the log of the README up to
    there is on the serial line: screen, file table, scheduler and keyboard queue are
    well-formed, interrupts on with exactly the timer and the keyboard lines open and
    delivered at the vectors that lead to their stubs, the timer at 100 Hz; the page
    allocator represents a set of free pages, and the ticker task is ready on a seeded
    stack that is the only block taken from the heap; the scheduler has seen no tick.
    What follows, under interrupts, is the subject of [Interleaving]. *)
Theorem kernel_boots (D : Type) (PL : Platform D) (lm : link_map) (bi : boot_info)
    (es : list memmap_entry) (p offset : Z) (d : D) (memory : mem) (g : gdt_state) (i : idt_state)
    (Hbi : boot_given lm bi d) (Hes : bi_memmap bi = Some es) (Hoff : bi_hhdm bi = Some offset)
    (Hmem : memory_given es offset p memory) :
  (masked_off (kernel_boot d memory g i) ∧ ∀ fb, Forall (λ m, keeps masked_off m) (before_sti lm bi fb)) ∧
  ∃ k F, start lm bi (kernel_boot d memory g i) = Ok (Returned, k) ∧ booted lm bi k ∧
    u_tx (com1 (k_dev k)) = u_tx (com1 d) ++ crlf (boot_log memory_log) ∧
    pmm_rep (k_pmm k) F ∧ heap_rep (4096 * p + offset) ticker_pool (k_heap k) ∧
    s_count (k_sched k) = 2 ∧ s_current (k_sched k) = 0 ∧
    s_tasks (k_sched k) !! 1%nat = Some (ticker_task (4096 * p + offset)) ∧
    fresh_stack (lm_ticker lm) (t_rsp (ticker_task (4096 * p + offset))) (hmem (k_heap k)) ∧
    s_ticks (k_sched k) = 0.
Proof.
  split; [|exact (boot_ok lm bi d memory g i es p offset Hbi Hes Hoff Hmem)].
  split; [done|]. intros fb. exact (proj2 (stages_masked lm bi fb)).
Qed.

Lemma kernel_boots_witness :
  ∃ (k : kernel board), start demo_link demo_boot
      (kernel_boot demo_board demo_memory gdt_boot (IdtState [] 0 0)) = Ok (Returned, k) ∧
    booted demo_link demo_boot k ∧ heap_rep 0x100000 ticker_pool (k_heap k).
Proof.
  destruct (kernel_boots board board_platform demo_link demo_boot demo_map 256 0 demo_board demo_memory
    gdt_boot (IdtState [] 0 0) (demo_boot_given _ _) eq_refl eq_refl demo_memory_given)
    as (_ & k & F & E & Hb & _ & _ & Hh & _).
  exists k. split; [exact E|]. split; [exact Hb|exact Hh].
Defined.

(** Without a memory map, or without the higher half's offset, the kernel
    boots all the same, with a warning in its log: the shell waits for input as
    usual, but the heap stays empty, the ticker's creation fails and the shell's task is the only one. *)
Theorem boot_without_memory (D : Type) (PL : Platform D) (lm : link_map) (bi : boot_info)
    (d : D) (memory : mem) (g : gdt_state) (i : idt_state)
    (Hbi : boot_given lm bi d) (Hno : bi_memmap bi = None ∨ bi_hhdm bi = None) :
  ∃ k, start lm bi (kernel_boot d memory g i) = Ok (Returned, k) ∧ booted lm bi k ∧
    u_tx (com1 (k_dev k)) = u_tx (com1 d) ++ crlf (boot_log no_memory_log) ∧
    k_pmm k = pmm_boot ∧ k_heap k = Heap 0 memory ∧
    s_count (k_sched k) = 1 ∧ s_current (k_sched k) = 0.
Proof. exact (boot_bare_ok lm bi d memory g i Hbi Hno). Qed.

Lemma boot_without_memory_witness :
  ∃ (k : kernel board), start demo_link (BootInfo true (Some [demo_fb]) None None)
      (kernel_boot demo_board ∅ gdt_boot (IdtState [] 0 0)) = Ok (Returned, k) ∧ booted demo_link (BootInfo true (Some [demo_fb]) None None) k.
Proof.
  destruct (boot_without_memory board board_platform demo_link (BootInfo true (Some [demo_fb]) None None)
    demo_board ∅ gdt_boot (IdtState [] 0 0) (demo_boot_given _ _)) as (k & E & Hb & _).
  - left. reflexivity.
  - exists k. split; [exact E|exact Hb].
Defined.

(** C12: when the boot protocol's revision is not supported, or no framebuffer is
    handed over, the boot stops in a kernel panic that names the reason on the serial
    line, with interrupts off and without a screen to paint; no variable but the
    segment descriptors and those of the panic code has changed. *)
Theorem boot_without_screen (D : Type) (PL : Platform D) (lm : link_map) (bi : boot_info)
    (d : D) (memory : mem) (g : gdt_state) (i : idt_state)
    (Hbi : bi_revision bi = false ∨ bi_framebuffers bi = None ∨ bi_framebuffers bi = Some []) :
  ∃ k, start lm bi (kernel_boot d memory g i) = Ok (Stopped, k) ∧
    p_halted (k_panic k) = true ∧ p_int (k_panic k) = false ∧ p_fb (k_panic k) = None ∧
    (k_con k, k_pmm k, k_heap k, k_sched k, k_ticks k, k_vfs k, k_kbd k, k_idt k, k_buf k, k_idx k) =
      (fbcon_boot, pmm_boot, Heap 0 memory, sched_boot, 0, vfs_boot, kbd_boot, i, replicate 128 0, 0) ∧
    u_tx (com1 (k_dev k)) = u_tx (com1 d) ++ crlf (cpu_log ++ PANIC_BANNER ++
      (if bi_revision bi then cstr "No framebuffer provided by bootloader!"
       else cstr "Limine base revision unsupported!") ++ PANIC_FOOTER).
Proof. by apply screenless_ok. Qed.

Lemma boot_without_screen_witness :
  ∃ (k : kernel board), start demo_link (BootInfo true (Some []) None None)
      (kernel_boot demo_board ∅ gdt_boot (IdtState [] 0 0)) = Ok (Stopped, k) ∧
    p_halted (k_panic k) = true.
Proof.
  destruct (boot_without_screen board board_platform demo_link (BootInfo true (Some []) None None)
    demo_board ∅ gdt_boot (IdtState [] 0 0)) as (k & E & Hh & _).
  - right. right. reflexivity.
  - exists k. split; [exact E|exact Hh].
Defined.
