(* ===== verification/Limine.v ===== *)
(** * The boot protocol ([kernel/limine.h], [kernel/kernel_main.cpp])

    The requests the kernel is linked with, the structures the loader answers
    them with, and what [_start] reads of these through its pointers: the
    [boot_info] that [Boot] starts from is read from bytes in memory. *)
From stdpp Require Import base tactics strings gmap numbers list.
From S2P Require Import Prelude CString Memory Layout Protocol Interfaces Pmm HeapSpec Heap HeapTheorems Sched.
From S2P Require Import Platform Pic Keyboard Vfs Serial Framebuffer Gdt Panic Idt Kernel Shell Session Boot.

Local Open Scope Z_scope.

(** ** Data *)

(** The structures of [limine.h] as the kernel is compiled. *)
Abbreviation limine_hhdm_request := (limine_hhdm_request kernel_config).
Abbreviation limine_framebuffer_struct := (limine_framebuffer_struct kernel_config).
Abbreviation limine_framebuffer_response := (limine_framebuffer_response kernel_config).
Abbreviation limine_framebuffer_request := (limine_framebuffer_request kernel_config).
Abbreviation limine_memmap_response := (limine_memmap_response kernel_config).
Abbreviation limine_memmap_request := (limine_memmap_request kernel_config).

(** *** [kernel_main.cpp] *)

(** The static variables as they are linked: the three words of
    [LIMINE_BASE_REVISION(2)], and three requests without an answer. *)
Definition limine_base_revision : list Z := LIMINE_BASE_REVISION 2.
Definition framebuffer_request : list Z := LIMINE_FRAMEBUFFER_REQUEST ++ [0; 0].
Definition memmap_request : list Z := LIMINE_MEMMAP_REQUEST ++ [0; 0].
Definition hhdm_request : list Z := LIMINE_HHDM_REQUEST ++ [0; 0].

(** Where the linker has put them. *)
Record requests := Requests { rq_revision : Z; rq_framebuffer : Z; rq_memmap : Z; rq_hhdm : Z }.

(** ** Operations *)

Section reads.
(** The video memory behind an address. *)
Context (rq : requests) (vram : Z → gmap Z Z).

(** [LIMINE_BASE_REVISION_SUPPORTED]. *)
Definition base_revision_supported : M mem bool :=
  v ← ld 8 (rq_revision rq + 16); mret (v =? 0).

(** Item 4 of [_start]: the response, its count, its first framebuffer and the
    four fields that are passed on. *)
Definition read_framebuffers : M mem (option (list limine_framebuffer)) :=
  r ← get_field limine_framebuffer_request (rq_framebuffer rq) "response";
  if r =? 0 then mret None else
  n ← get_field limine_framebuffer_response r "framebuffer_count";
  if n <? 1 then mret (Some []) else
  fbs ← get_field limine_framebuffer_response r "framebuffers";
  fb ← ld 8 fbs;
  a ← get_field limine_framebuffer_struct fb "address";
  w ← get_field limine_framebuffer_struct fb "width";
  h ← get_field limine_framebuffer_struct fb "height";
  p ← get_field limine_framebuffer_struct fb "pitch";
  mret (Some [FbInfo (vram a) w h p]).

(** [entries[i]], and the three fields [pmm_init] reads. *)
Definition read_entry (entries i : Z) : M mem memmap_entry :=
  e ← ld 8 (entries + 8 * i);
  b ← get_field limine_memmap_entry e "base";
  l ← get_field limine_memmap_entry e "length";
  t ← get_field limine_memmap_entry e "type";
  mret (Entry b l t).

Fixpoint read_entries (entries : Z) (idxs : list Z) : M mem (list memmap_entry) :=
  match idxs with
  | [] => mret []
  | i :: idxs => e ← read_entry entries i; es ← read_entries entries idxs; mret (e :: es)
  end.

(** Item 5: both responses, or none. *)
Definition read_memory : M mem (option (list memmap_entry) * option Z) :=
  rm ← get_field limine_memmap_request (rq_memmap rq) "response";
  if rm =? 0 then mret (None, None) else
  rh ← get_field limine_hhdm_request (rq_hhdm rq) "response";
  if rh =? 0 then mret (None, None) else
  offset ← get_field limine_hhdm_response rh "offset";
  entries ← get_field limine_memmap_response rm "entries";
  count ← get_field limine_memmap_response rm "entry_count";
  es ← read_entries entries (range 0 count);
  mret (Some es, Some offset).

(** The reads of [_start] in their order, none behind a failed check. *)
Definition read_boot : M mem boot_info :=
  ok ← base_revision_supported;
  if negb ok then mret (BootInfo false None None None) else
  fbs ← read_framebuffers;
  match fbs with
  | None | Some [] => mret (BootInfo true fbs None None)
  | Some _ => mo ← read_memory; mret (BootInfo true fbs mo.1 mo.2)
  end.
End reads.

(** [_start] on a memory that holds the loader's answers, in a place that nothing
    of the boot sequence writes to. *)
Definition start_from {D} `{PL : Platform D} (rq : requests) (vram : Z → gmap Z Z) (lm : link_map)
    (d : D) (memory : mem) (g : gdt_state) (i : idt_state) : res (outcome * kernel D) :=
  match read_boot rq vram memory with
  | Ok (bi, _) => start lm bi (kernel_boot d memory g i)
  | Fault => Fault
  | NoFuel => NoFuel
  end.

(** ** Specification: what the loader promises *)

Section promises.
Context (rq : requests) (vram : Z → gmap Z Z) (bi : boot_info).

Definition framebuffer_at (m : mem) (p : Z) (fb : limine_framebuffer) : Prop :=
  ∃ a, field_is limine_framebuffer_struct p "address" a m ∧ vram a = fi_pixels fb ∧
    field_is limine_framebuffer_struct p "width" (fi_width fb) m ∧
    field_is limine_framebuffer_struct p "height" (fi_height fb) m ∧
    field_is limine_framebuffer_struct p "pitch" (fi_pitch fb) m.
Definition entry_at (m : mem) (p : Z) (e : memmap_entry) : Prop :=
  field_is limine_memmap_entry p "base" (e_base e) m ∧
  field_is limine_memmap_entry p "length" (e_length e) m ∧
  field_is limine_memmap_entry p "type" (e_type e) m.

(** The response is a null pointer, or leads to a structure. *)
Definition response_is {A} (rqs : cstruct) (p : Z) (o : option A) (at_ : Z → A → Prop) (m : mem) : Prop :=
  ∃ r, field_is rqs p "response" r m ∧
    match o with None => r = 0 | Some a => r ≠ 0 ∧ at_ r a end.

(** An array of pointers to structures, with its length. *)
Definition array_at {A} (resp : cstruct) (count ptrs : string) (at_ : Z → A → Prop) (m : mem)
    (r : Z) (l : list A) : Prop :=
  ∃ arr ps, field_is resp r count (Z.of_nat (length l)) m ∧ field_is resp r ptrs arr m ∧
    words_at arr ps m ∧ Forall2 at_ ps l.

Record answered (m : mem) : Prop := {
  an_revision : ∃ v, load 8 (rq_revision rq + 16) m = Some v ∧ (v = 0 ↔ bi_revision bi = true);
  an_framebuffers : response_is limine_framebuffer_request (rq_framebuffer rq) (bi_framebuffers bi)
    (array_at limine_framebuffer_response "framebuffer_count" "framebuffers" (framebuffer_at m) m) m;
  an_memmap : response_is limine_memmap_request (rq_memmap rq) (bi_memmap bi)
    (array_at limine_memmap_response "entry_count" "entries" (entry_at m) m) m;
  an_hhdm : response_is limine_hhdm_request (rq_hhdm rq) (bi_hhdm bi)
    (λ r offset, field_is limine_hhdm_response r "offset" offset m) m
}.
End promises.

(** What is left of the answers when a check fails or a pointer is null, and of
    the list of framebuffers. *)
Definition seen (bi : boot_info) : boot_info :=
  if bi_revision bi then
    match bi_framebuffers bi with
    | Some (fb :: _) =>
        match bi_memmap bi, bi_hhdm bi with
        | Some es, Some offset => BootInfo true (Some [fb]) (Some es) (Some offset)
        | _, _ => BootInfo true (Some [fb]) None None
        end
    | o => BootInfo true o None None
    end
  else BootInfo false None None None.

(** * Lemmas *)

(** It is all that the boot sequence looks at. *)
Lemma start_seen {D} `{PL : Platform D} lm bi (k : kernel D) : start lm (seen bi) k = start lm bi k.
Proof.
  destruct bi as [[] [[|fb fbs]|] [es|] [offset|]]; try reflexivity.
Qed.

(** The loader can tell the kernel's requests, and before it has been there the
    revision counts as not supported. *)
Lemma linked_requests :
  (λ w, r_name <$> identify kernel_config (take 4 w)) <$> [framebuffer_request; memmap_request; hhdm_request] =
    Some <$> ["FRAMEBUFFER"; "MEMMAP"; "HHDM"]%string ∧
  LIMINE_BASE_REVISION_SUPPORTED limine_base_revision = false ∧
  LIMINE_LOADED_BASE_REV_VALID limine_base_revision = false.
Proof. split_and!; vm_compute; reflexivity. Qed.

Section reads.
Context (rq : requests) (vram : Z → gmap Z Z) (bi : boot_info) (m : mem).

Lemma read_entry_ok entries lo p e :
  load 8 (entries + 8 * lo) m = Some p → entry_at m p e → read_entry entries lo m = Ok (e, m).
Proof.
  intros Hp (Hb & Hl & Ht). unfold read_entry. rewrite (bind_ok _ _ _ _ _ (ld_ok _ _ _ _ Hp)).
  rewrite (bind_ok _ _ _ _ _ Hb), (bind_ok _ _ _ _ _ Hl), (bind_ok _ _ _ _ _ Ht). by destruct e.
Qed.

Lemma read_entries_ok entries ps l : Forall2 (entry_at m) ps l → ∀ lo,
  words_at (entries + 8 * lo) ps m →
  read_entries entries (range lo (Z.of_nat (length l))) m = Ok (l, m).
Proof.
  induction 1 as [|p e ps l He _ IH]; intros lo Hw; [done|]. cbn [length].
  rewrite range_cons by lia. cbn [read_entries].
  assert (load 8 (entries + 8 * lo) m = Some p) as Hp.
  { rewrite <- (Hw 0%nat p eq_refl). f_equal. lia. }
  rewrite (bind_ok _ _ _ _ _ (read_entry_ok _ _ _ _ Hp He)).
  replace (Z.of_nat (S (length l)) - 1) with (Z.of_nat (length l)) by lia.
  rewrite (bind_ok _ _ _ l m); [done|]. apply IH.
  intros i w Hi. rewrite <- (Hw (S i) w Hi). f_equal. lia.
Qed.

(** A word that is null exactly when there is no answer. *)
Lemma nonzero r : r ≠ 0 → (r =? 0) = false.
Proof. apply Z.eqb_neq. Qed.

Lemma read_framebuffers_ok : answered rq vram bi m →
  read_framebuffers rq vram m = Ok (take 1 <$> bi_framebuffers bi, m).
Proof.
  intros [_ (r & Hr & Ha) _ _]. unfold read_framebuffers. rewrite (bind_ok _ _ _ _ _ Hr).
  destruct (bi_framebuffers bi) as [fbs|]; [|by subst r].
  destruct Ha as (Hnz & arr & ps & Hn & Harr & Hw & Hps). rewrite (nonzero r Hnz).
  rewrite (bind_ok _ _ _ _ _ Hn). destruct Hps as [|p fb ps fbs (a & Ha & Hv & Hwd & Hh & Hp)]; [done|].
  destruct (Z.ltb_spec (Z.of_nat (length (fb :: fbs))) 1); [cbn [length] in *; lia|].
  rewrite (bind_ok _ _ _ _ _ Harr).
  assert (load 8 arr m = Some p) as Hl.
  { rewrite <- (Hw 0%nat p eq_refl). f_equal. lia. }
  rewrite (bind_ok _ _ _ _ _ (ld_ok _ _ _ _ Hl)).
  rewrite (bind_ok _ _ _ _ _ Ha), (bind_ok _ _ _ _ _ Hwd), (bind_ok _ _ _ _ _ Hh), (bind_ok _ _ _ _ _ Hp).
  rewrite Hv. by destruct fb.
Qed.

Lemma read_memory_ok : answered rq vram bi m →
  read_memory rq m = Ok (match bi_memmap bi, bi_hhdm bi with
    | Some es, Some offset => (Some es, Some offset) | _, _ => (None, None) end, m).
Proof.
  intros [_ _ (rm & Hrm & Hm) (rh & Hrh & Hh)]. unfold read_memory. rewrite (bind_ok _ _ _ _ _ Hrm).
  destruct (bi_memmap bi) as [es|]; [|by subst rm].
  destruct Hm as (Hnz & arr & ps & Hn & Harr & Hw & Hps). rewrite (nonzero rm Hnz).
  rewrite (bind_ok _ _ _ _ _ Hrh). destruct (bi_hhdm bi) as [offset|]; [|by subst rh].
  destruct Hh as [Hnz' Hoff]. rewrite (nonzero rh Hnz').
  rewrite (bind_ok _ _ _ _ _ Hoff), (bind_ok _ _ _ _ _ Harr), (bind_ok _ _ _ _ _ Hn).
  rewrite (bind_ok _ _ _ es m); [done|]. apply (read_entries_ok _ ps); [exact Hps|].
  by replace (arr + 8 * 0) with arr by lia.
Qed.

Lemma read_boot_ok : answered rq vram bi m → read_boot rq vram m = Ok (seen bi, m).
Proof.
  intros H. destruct (an_revision _ _ _ _ H) as (v & Hv & Hv0). unfold read_boot, seen.
  rewrite (bind_ok _ _ _ (bi_revision bi) m).
  2:{ unfold base_revision_supported. rewrite (bind_ok _ _ _ _ _ (ld_ok _ _ _ _ Hv)).
      unfold mret, M_ret. do 2 f_equal. apply eq_true_iff_eq. by rewrite Z.eqb_eq. }
  destruct (bi_revision bi); [|done]. cbn [negb].
  rewrite (bind_ok _ _ _ _ _ (read_framebuffers_ok H)).
  destruct (bi_framebuffers bi) as [[|fb fbs]|]; [done| |done]. cbn [fmap option_fmap option_map take].
  rewrite (bind_ok _ _ _ _ _ (read_memory_ok H)).
  by destruct (bi_memmap bi) as [es|], (bi_hhdm bi) as [offset|].
Qed.

(** A request as it is linked has a null pointer for its response. *)
Lemma linked_response (rqs : cstruct) p id :
  field_at rqs "response" = Some (40, 8) → length id = 4%nat → words_at p (id ++ [0; 0]) m →
  get_field rqs p "response" m = Ok (0, m).
Proof.
  intros Hf Hl Hw. eapply get_field_ok; [exact Hf|].
  rewrite <- (Hw 5%nat 0); [done|]. rewrite lookup_app_r by lia. by rewrite Hl.
Qed.
End reads.

(** ** Answers to try it on *)

(** Words in a memory. *)
Definition write_words (l : list (Z * Z)) (m : mem) : mem :=
  foldl (λ m aw, default m (store 8 aw.1 aw.2 m)) m l.
Definition words_from (p : Z) (ws : list Z) : list (Z * Z) := imap (λ i w, (p + 8 * Z.of_nat i, w)) ws.

Definition demo_requests : requests := Requests 0x1000 0x1018 0x1048 0x1078.
Definition demo_linked : list (Z * Z) :=
  words_from 0x1000 limine_base_revision ++ words_from 0x1018 framebuffer_request ++
  words_from 0x1048 memmap_request ++ words_from 0x1078 hhdm_request.

(** The revision is accepted, and the three responses follow the requests: one
    framebuffer, three memory map entries, and the offset. *)
Definition demo_answers : mem := write_words (demo_linked ++
  [(0x1010, 0); (0x1040, 0x10B0); (0x1070, 0x1150); (0x10A0, 0x1140)] ++
  words_from 0x10B0 [0; 1; 0x10D0] ++ words_from 0x10D0 [0x10E0] ++
  words_from 0x10E0 [0xA0000; 64; 20; 256] ++ words_from 0x1140 [0; 0] ++
  words_from 0x1150 [0; 3; 0x1170] ++ words_from 0x1170 [0x1190; 0x11A8; 0x11C0] ++
  words_from 0x1190 (concat ((λ e, [e_base e; e_length e; e_type e]) <$> demo_map)))
  (fill 0x1000 512 0).
Definition demo_vram (a : Z) : gmap Z Z := fi_pixels demo_fb.

Ltac read_word := eapply get_field_ok; [reflexivity|vm_compute; reflexivity].
Ltac read_words := repeat (apply words_cons; [vm_compute; reflexivity|]); apply words_nil.

Lemma demo_answered : answered demo_requests demo_vram demo_boot demo_answers.
Proof.
  split.
  - exists 0. split; [vm_compute; reflexivity|done].
  - exists 0x10B0. split; [read_word|]. split; [lia|]. exists 0x10D0, [0x10E0].
    split; [read_word|]. split; [read_word|]. split; [read_words|].
    constructor; [|constructor]. exists 0xA0000. split_and!; [read_word|reflexivity|read_word..].
  - exists 0x1150. split; [read_word|]. split; [lia|]. exists 0x1170, [0x1190; 0x11A8; 0x11C0].
    split; [read_word|]. split; [read_word|]. split; [read_words|].
    repeat (constructor; [split_and!; read_word|]). constructor.
  - exists 0x1140. split; [read_word|]. split; [lia|]. read_word.
Qed.

(** * Properties *)

(** C10: the boot sequence reads what the loader wrote: on a memory with the loader's
    answers laid out as in [limine.h], [_start] follows the pointers without a
    fault, reads the fields at their offsets, and goes on as from the answers
    themselves; a list of framebuffers counts by its first. *)
Theorem start_reads_answers (D : Type) (PL : Platform D) (rq : requests) (vram : Z → gmap Z Z)
    (lm : link_map) (bi : boot_info) (d : D) (memory : mem) (g : gdt_state) (i : idt_state)
    (H : answered rq vram bi memory) :
  start_from rq vram lm d memory g i = start lm bi (kernel_boot d memory g i).
Proof. unfold start_from. rewrite (read_boot_ok _ _ _ _ H). apply start_seen. Qed.

Lemma start_reads_answers_witness :
  start_from demo_requests demo_vram demo_link demo_board demo_answers gdt_boot (IdtState [] 0 0) =
    start demo_link demo_boot (kernel_boot demo_board demo_answers gdt_boot (IdtState [] 0 0)).
Proof.
  exact (start_reads_answers board board_platform demo_requests demo_vram demo_link demo_boot
    demo_board demo_answers gdt_boot (IdtState [] 0 0) demo_answered).
Defined.

(** A loader that does not answer: with the static variables as they are linked,
    apart from the word that says whether the revision is supported, the kernel
    stops in a panic, with the reason on the serial line and nothing drawn. *)
Theorem unanswered_panics (D : Type) (PL : Platform D) (rq : requests) (vram : Z → gmap Z Z)
    (lm : link_map) (v : Z) (d : D) (memory : mem) (g : gdt_state) (i : idt_state)
    (Hv : words_at (rq_revision rq) (<[2%nat := v]> limine_base_revision) memory)
    (Hfb : words_at (rq_framebuffer rq) framebuffer_request memory) :
  ∃ k, start_from rq vram lm d memory g i = Ok (Stopped, k) ∧
    p_halted (k_panic k) = true ∧ p_int (k_panic k) = false ∧ p_fb (k_panic k) = None ∧
    (k_con k, k_pmm k, k_heap k, k_sched k, k_ticks k, k_vfs k, k_kbd k, k_idt k, k_buf k, k_idx k) =
      (fbcon_boot, pmm_boot, Heap 0 memory, sched_boot, 0, vfs_boot, kbd_boot, i, replicate 128 0, 0) ∧
    u_tx (com1 (k_dev k)) = u_tx (com1 d) ++ crlf (cpu_log ++ PANIC_BANNER ++
      (if v =? 0 then cstr "No framebuffer provided by bootloader!"
       else cstr "Limine base revision unsupported!") ++ PANIC_FOOTER).
Proof.
  assert (read_boot rq vram memory = Ok (BootInfo (v =? 0) None None None, memory)) as E.
  { unfold read_boot. rewrite (bind_ok _ _ _ (v =? 0) memory).
    2:{ unfold base_revision_supported. rewrite (bind_ok _ _ _ v memory); [done|].
        apply ld_ok. exact (Hv 2%nat v eq_refl). }
    destruct (v =? 0); [|done]. cbn [negb]. rewrite (bind_ok _ _ _ None memory); [done|].
    unfold read_framebuffers. rewrite (bind_ok _ _ _ 0 memory); [done|].
    by apply (linked_response _ _ _ LIMINE_FRAMEBUFFER_REQUEST). }
  unfold start_from. rewrite E.
  apply (screenless_ok lm (BootInfo (v =? 0) None None None)). right. by left.
Qed.

Lemma unanswered_panics_witness :
  ∃ (k : kernel board), start_from demo_requests demo_vram demo_link demo_board
      (write_words demo_linked (fill 0x1000 512 0)) gdt_boot (IdtState [] 0 0) = Ok (Stopped, k) ∧
    p_halted (k_panic k) = true.
Proof.
  destruct (unanswered_panics board board_platform demo_requests demo_vram demo_link 2 demo_board
    (write_words demo_linked (fill 0x1000 512 0)) gdt_boot (IdtState [] 0 0)) as (k & E & Hh & _).
  - change (<[2%nat := 2]> limine_base_revision) with limine_base_revision.
    unfold limine_base_revision, LIMINE_BASE_REVISION. read_words.
  - unfold framebuffer_request, LIMINE_FRAMEBUFFER_REQUEST, LIMINE_COMMON_MAGIC. cbn [app]. read_words.
  - exists k. split; [exact E|exact Hh].
Defined.
