(* ===== verification/Running.v ===== *)
(** * Interrupts on the whole kernel

    What happens from the moment a device raises its line to the [iretq]: the
    controller passes the interrupt on or holds it off, the processor
    acknowledges it and goes through the gate of its vector, the stub serves it,
    and it ends in the task it came in or in another one.  The shell's state between
    interrupts, and what the interrupt flag becomes over a task switch. *)
From stdpp Require Import base tactics strings gmap numbers list.
From S2P Require Import Prelude CString Memory Interfaces Pmm HeapSpec Heap HeapTheorems Sched.
From S2P Require Import SchedTheorems Platform Pic Keyboard Vfs Serial Framebuffer Gdt Panic Idt.
From S2P Require Import Kernel Shell ShellReplies Session Boot.

Local Open Scope Z_scope.

(** ** Operations *)

(** The kernel, whose [p_int] is the processor's interrupt flag, and the flag
    saved in the interrupt frame of every task that was switched away from. *)
Record live (D : Type) := Live { l_kernel : kernel D; l_saved : gmap Z bool }.
#[global] Arguments Live {D} _ _.
#[global] Arguments l_kernel {D} _.
#[global] Arguments l_saved {D} _.

Definition set_int {D} (b : bool) (k : kernel D) : kernel D :=
  let p := k_panic k in
  set_panic (PanicState (p_fb p) (p_width p) (p_height p) (p_pitch p) b (p_halted p)) k.

(** The line of the first controller on which it comes. *)
Definition irq_line (i : irq) : Z := match i with TimerIrq => 0 | KeyboardIrq => 1 end.

(** The stub behind the gate of a vector, of the two that [idt_init] installs for
    interrupts. *)
Definition stub_of (v : Z) : option irq :=
  if v =? 32 then Some TimerIrq else if v =? 33 then Some KeyboardIrq else None.

Section live.
Context {D : Type} `{PL : Platform D}.

Definition on_kernel {A} (m : M (kernel D) A) : M (live D) A :=
  zoom l_kernel (λ k m, Live k (l_saved m)) m.

(** How an interrupt ends whose handler found the scheduler as [before].  Without
    a switch [iretq] brings the flag back.  A switch leaves the current frame
    behind; a task that was switched away from before continues into its own
    [iretq], and one that never ran starts through the [ret] of
    [context_switch], with the flag as the interrupt gate has left it. *)
Definition resume (before : sched) (m : live D) : live D :=
  let k := l_kernel m in
  if s_current (k_sched k) =? s_current before then m
  else
    let saved := <[s_current before := true]> (l_saved m) in
    match saved !! s_current (k_sched k) with
    | Some fl => Live (set_int fl k) (delete (s_current (k_sched k)) saved)
    | None => Live (set_int false k) saved
    end.

(** An interrupt on its line is taken now: the flag is set and the controller passes
    it on. *)
Definition accepts (i : irq) (m : live D) : bool :=
  p_int (k_panic (l_kernel m)) && pic_accepts (irq_line i) (pic1 (k_dev (l_kernel m))).

(** An interrupt that is taken, from its acknowledgement to the [iretq] or to
    another task. *)
Definition interrupt (i : irq) : M (live D) unit :=
  m ← get;
  v ← on_kernel (dev (inta (irq_line i)));
  match stub_of v with
  | Some j =>
      on_kernel (serve j) ≫= λ _,
      modify (resume (k_sched (l_kernel m)))
  | None => fault
  end.
End live.

(** * Lemmas *)

Section lives.
Context {D : Type} `{PL : Platform D} (fs : list file).

(** The shell runs with interrupts on and delivered, and no other task has run. *)
Record shell_runs (m : live D) (q : list Z) : Prop := {
  sr_ready : ready (l_kernel m) fs q;
  sr_current : s_current (k_sched (l_kernel m)) = 0;
  sr_int : p_int (k_panic (l_kernel m)) = true;
  sr_delivers : delivers (k_dev (l_kernel m));
  sr_saved : l_saved m = ∅
}.

(** A task that never ran is current, with interrupts off. *)
Definition stalled (m : live D) : Prop :=
  p_int (k_panic (l_kernel m)) = false ∧ s_current (k_sched (l_kernel m)) = 1.

Lemma on_kernel_ok {A} (f : M (kernel D) A) (m : live D) a k' :
  f (l_kernel m) = Ok (a, k') → on_kernel f m = Ok (a, Live k' (l_saved m)).
Proof. intros E. exact (zoom_ok _ _ _ m _ _ E). Qed.

Lemma line_range i : 0 ≤ irq_line i < 2.
Proof. by destruct i. Qed.

Lemma runs_accepts i m q : shell_runs m q → accepts i m = true.
Proof.
  intros H. unfold accepts. rewrite (sr_int _ _ H). cbn [andb].
  apply delivers_accepts; [exact (sr_delivers _ _ H)|apply line_range].
Qed.

(** The acknowledged interrupt is served by its own stub, on a kernel with other
    devices, and leaves the controller as it was. *)
Lemma interrupt_ok i m q : ready (l_kernel m) fs q → delivers (k_dev (l_kernel m)) →
  ∃ d, com1 d = com1 (k_dev (l_kernel m)) ∧ ready (set_dev d (l_kernel m)) fs q ∧
    ∀ k', serve i (set_dev d (l_kernel m)) = Ok ((), k') →
      interrupt i m = Ok ((), resume (k_sched (l_kernel m)) (Live k' (l_saved m))) ∧
      delivers (k_dev k').
Proof.
  intros H Hd.
  destruct (inta_ok (irq_line i) (k_dev (l_kernel m))) as (d & E & H1 & _ & _ & Hu).
  { pose proof (line_range i). lia. } { by destruct i. }
  { apply delivers_accepts; [exact Hd|apply line_range]. }
  exists d. split; [exact Hu|]. split.
  { destruct H as [[] ? ? ? ? ?]. split; try done. split; try done. cbn. by rewrite Hu. }
  intros k' Es. split.
  - unfold interrupt. rewrite (bind_ok _ _ _ m m) by done.
    rewrite (bind_ok _ _ _ (p_vector (pic1 (k_dev (l_kernel m))) + irq_line i)
      (Live (set_dev d (l_kernel m)) (l_saved m))).
    2:{ apply on_kernel_ok. unfold dev, zoom. by rewrite E. }
    rewrite (dl_vector _ Hd). assert (stub_of (32 + irq_line i) = Some i) as -> by by destruct i.
    by rewrite (bind_ok _ _ _ _ _ (on_kernel_ok _ (Live (set_dev d (l_kernel m)) (l_saved m)) _ _ Es)).
  - apply (delivers_ended (k_dev (l_kernel m)) _ (irq_line i) (line_range i) Hd).
    rewrite (serve_ends _ _ _ Es). cbn [k_dev set_dev]. by rewrite H1.
Qed.

Lemma ready_int b k q : ready k fs q → ready (set_int b k) fs q.
Proof. intros H. destruct H as [[] ? ? ? ? ?]. by split. Qed.

Lemma resume_dev before (m : live D) : k_dev (l_kernel (resume before m)) = k_dev (l_kernel m).
Proof. unfold resume. destruct (_ =? _); [done|]. by destruct (_ !! _). Qed.

Lemma resume_ready before m q : ready (l_kernel m) fs q → ready (l_kernel (resume before m)) fs q.
Proof.
  intros H. unfold resume. destruct (_ =? _); [done|]. destruct (_ !! _); by apply ready_int.
Qed.

(** *** What an interrupt does in the shell *)

Lemma interrupt_stays i m q d k1 q1 :
  shell_runs m q →
  (∀ k', serve i (set_dev d (l_kernel m)) = Ok ((), k') →
    interrupt i m = Ok ((), resume (k_sched (l_kernel m)) (Live k' (l_saved m))) ∧
    delivers (k_dev k')) →
  serve i (set_dev d (l_kernel m)) = Ok ((), k1) → ready k1 fs q1 →
  k_panic k1 = k_panic (l_kernel m) → s_current (k_sched k1) = 0 →
  interrupt i m = Ok ((), Live k1 (l_saved m)) ∧ shell_runs (Live k1 (l_saved m)) q1.
Proof.
  intros [Hr Hc Hi Hd Hs] Hint E H1 Hp Hc1. destruct (Hint k1 E) as [Ei Hd1]. split.
  - rewrite Ei. unfold resume. cbn [l_kernel l_saved]. by rewrite Hc, Hc1.
  - split; cbn [l_kernel l_saved]; [done|done|congruence|done|done].
Qed.

Lemma interrupt_key m q : shell_runs m q →
  ∃ m' q', interrupt KeyboardIrq m = Ok ((), m') ∧ shell_runs m' q' ∧ q `prefix_of` q' ∧
    k_sched (l_kernel m') = k_sched (l_kernel m).
Proof.
  intros H. destruct (interrupt_ok KeyboardIrq m q (sr_ready _ _ H) (sr_delivers _ _ H))
    as (d & _ & Hr & Hint).
  destruct (irq1_ok fs _ q Hr) as (k1 & q1 & E & Hr1 & Hq & _ & _ & _ & [= _ _ Hks _ _ Hkp]).
  destruct (interrupt_stays KeyboardIrq m q d k1 q1 H Hint E Hr1 Hkp) as [E' H1].
  { rewrite Hks. exact (sr_current _ _ H). }
  by exists (Live k1 (l_saved m)), q1.
Qed.

(** A tick within the time slice, or with a single task. *)
Lemma interrupt_tick m q : shell_runs m q →
  ¬ slice_ends (k_sched (l_kernel m)) ∨ s_count (k_sched (l_kernel m)) ≤ 1 →
  ∃ m', interrupt TimerIrq m = Ok ((), m') ∧ shell_runs m' q ∧
    k_sched (l_kernel m') = ticked (k_sched (l_kernel m)).
Proof.
  intros H Hno. destruct (interrupt_ok TimerIrq m q (sr_ready _ _ H) (sr_delivers _ _ H))
    as (d & _ & Hr & Hint).
  destruct (irq0_ok fs _ q Hr) as (k1 & E & Hr1 & _ & _ & _ & _ & Hkp & sw & Et).
  cbn [k_sched set_dev] in Et. rewrite (tick_idle _ Hno) in Et. injection Et as _ Hks.
  destruct (interrupt_stays TimerIrq m q d k1 q H Hint E Hr1 Hkp) as [E' H1].
  { rewrite <- Hks. exact (sr_current _ _ H). }
  by exists (Live k1 (l_saved m)).
Qed.

(** The end of the shell's first time slice, with a task that is READY. *)
Lemma interrupt_switch m q : shell_runs m q →
  slice_ends (k_sched (l_kernel m)) → s_count (k_sched (l_kernel m)) = 2 →
  state_of (k_sched (l_kernel m)) 1 = READY →
  ∃ m', interrupt TimerIrq m = Ok ((), m') ∧ stalled m' ∧ ready (l_kernel m') fs q ∧
    delivers (k_dev (l_kernel m')) ∧
    s_ticks (k_sched (l_kernel m')) = s_ticks (ticked (k_sched (l_kernel m))).
Proof.
  intros H Hs Hc Hrdy. pose proof (sr_current _ _ H) as Hcur.
  destruct (interrupt_ok TimerIrq m q (sr_ready _ _ H) (sr_delivers _ _ H)) as (d & _ & Hr & Hint).
  destruct (irq0_ok fs _ q Hr) as (k1 & E & Hr1 & _ & _ & _ & _ & Hkp & sw & Et).
  cbn [k_sched set_dev] in Et. destruct (Hint k1 E) as [Ei Hd1].
  destruct (tick_slice (k_sched (l_kernel m)) (sh_sched _ _ (rd_shell _ _ _ (sr_ready _ _ H))) Hs
    ltac:(lia)) as [(next & (j & Hj & -> & _) & E2)|[Hnone _]].
  2:{ exfalso. apply (Hnone 1); [lia|]. by rewrite Hcur, Hc. }
  assert ((s_current (k_sched (l_kernel m)) + j) `mod` s_count (k_sched (l_kernel m)) = 1) as Hn.
  { rewrite Hc in Hj. assert (j = 1) as -> by lia. by rewrite Hcur, Hc. }
  rewrite Hn in E2. rewrite E2 in Et. injection Et as _ Hks.
  exists (Live (set_int false k1) (<[0 := true]> ∅)). split; [|split; [|split; [|split]]].
  - rewrite Ei. unfold resume. cbn [l_kernel l_saved].
    rewrite <- Hks, Hcur, (sr_saved _ _ H). cbn [s_current switched upd set_tasks set_current Z.eqb].
    by rewrite lookup_insert_ne, lookup_empty by done.
  - split; [done|]. cbn [l_kernel set_int set_panic k_sched]. by rewrite <- Hks.
  - by apply ready_int.
  - exact Hd1.
  - cbn [l_kernel set_int set_panic k_sched]. by rewrite <- Hks.
Qed.

(** *** No switch in the next [n] ticks *)

Definition calm (s : sched) (n : Z) : Prop := s_count s ≤ 1 ∨ 0 ≤ s_ticks s ∧ s_ticks s + n ≤ 1.

Lemma calm_tick s n : calm s n → 1 ≤ n → ¬ slice_ends s ∨ s_count s ≤ 1.
Proof.
  intros [Hc|[H0 Hn]] H1; [by right|left]. rewrite slice_parity.
  assert (s_ticks s = 0) as -> by lia. done.
Qed.

Lemma calm_ticked s n : calm s n → 1 ≤ n → calm (ticked s) (n - 1).
Proof.
  intros [Hc|[H0 Hn]] H1; [by left|right].
  change (s_ticks (ticked s)) with (u32 (s_ticks s + 1)). rewrite u32_small by lia. lia.
Qed.

Lemma calm_less s n n' : calm s n → n' ≤ n → calm s n'.
Proof. intros [|]; [by left|right; lia]. Qed.
End lives.

(** *** After the boot *)

Lemma booted_runs {D} `{PL : Platform D} lm bi (k : kernel D) : booted lm bi k →
  s_current (k_sched k) = 0 → shell_runs boot_files (Live k ∅) [].
Proof.
  intros H Hc. split; [exact (bt_ready _ _ _ H)|exact Hc|exact (proj1 (bt_running _ _ _ H))| |done].
  exact (bt_delivers _ _ _ H).
Qed.
