(* ===== verification/Steps.v ===== *)
(** * Computations in steps

    A program as the sequence of its steps, between which something else may
    happen: [prog] is a computation that can be stopped after every step, [run]
    executes it in one go, and [wp] is a rely-guarantee logic for what it does
    when the state changes between the steps. *)
From stdpp Require Import base tactics list.
From S2P Require Import Prelude Ensures.

(** ** Programs *)

(** [Final m] does not come back from [m]. *)
Inductive prog (S A : Type) : Type :=
| Done (a : A)
| Step (B : Type) (m : M S B) (f : B → prog S A)
| Final (m : M S unit).
#[global] Arguments Done {S A} _.
#[global] Arguments Step {S A B} _ _.
#[global] Arguments Final {S A} _.

#[global] Instance prog_ret (S : Type) : MRet (prog S) := λ A a, Done a.
#[global] Instance prog_bind (S : Type) : MBind (prog S) := λ A B g,
  fix bind p :=
    match p with
    | Done a => g a
    | Step m f => Step m (λ b, bind (f b))
    | Final m => Final m
    end.

(** A single step. *)
Definition atomic {S A} (m : M S A) : prog S A := Step m Done.

(** Read the state. *)
Definition look {S} : prog S S := atomic get.

Fixpoint steps_each {S A} (l : list A) (body : A → prog S unit) : prog S unit :=
  match l with
  | [] => mret tt
  | i :: l => body i ≫= λ _, steps_each l body
  end.

(** All steps in one go; [None] if the program does not come back. *)
Fixpoint run {S A} (p : prog S A) : M S (option A) :=
  match p with
  | Done a => mret (Some a)
  | Step m f => b ← m; run (f b)
  | Final m => m ≫= λ _, mret None
  end.

(** * The same computation *)

(** In one go, [p] is [m]. *)
Definition amounts {S A} (p : prog S A) (m : M S A) : Prop :=
  ∀ s, run p s = (m ≫= λ a, mret (Some a)) s.

Section amounts.
Context {S : Type}.

Lemma run_bind {A B} (p : prog S A) (g : A → prog S B) s :
  run (p ≫= g) s = (run p ≫= λ o, match o with Some a => run (g a) | None => mret None end) s.
Proof.
  revert s; induction p as [a|C m f IH|m]; intros s; [done| |].
  - cbn. unfold mbind at 1 3 4, M_bind. destruct (m s) as [[c s']| |]; [|done..]. apply IH.
  - cbn. unfold mbind, M_bind. by destruct (m s) as [[c s']| |].
Qed.

Lemma amounts_ret {A} (a : A) : amounts (S:=S) (mret a) (mret a).
Proof. done. Qed.

Lemma amounts_atomic {A} (m : M S A) : amounts (atomic m) m.
Proof. done. Qed.

Lemma amounts_bind {A B} (p : prog S A) (g : A → prog S B) m k :
  amounts p m → (∀ a, amounts (g a) (k a)) → amounts (p ≫= g) (m ≫= k).
Proof.
  intros Hp Hg s. rewrite run_bind. unfold mbind at 1, M_bind. rewrite Hp.
  unfold mbind, M_bind, mret, M_ret. destruct (m s) as [[a s']| |]; [|done..]. apply Hg.
Qed.

Lemma amounts_each {A} (l : list A) (body : A → prog S unit) (body' : A → M S unit) :
  (∀ x, amounts (body x) (body' x)) → amounts (steps_each l body) (for_each l body').
Proof. intros H. induction l as [|x l IH]; [done|]. by apply amounts_bind. Qed.

Lemma amounts_ext {A} (p : prog S A) m m' : (∀ s, m s = m' s) → amounts p m → amounts p m'.
Proof. intros E H s. rewrite H. by apply bind_cong. Qed.
End amounts.

(** * Interference *)

(** Between two steps the ghost state [X] and the state may change as [R] allows;
    every step that is followed by another changes the state as [G] allows.
    [wp p Φ x s]: then no step of [p] faults or hangs, and its end finds [Φ]. *)
Section wp.
Context {X S : Type} (R : X → S → X → S → Prop) (G : S → S → Prop).

Fixpoint wp {A} (p : prog S A) (Φ : option A → X → S → Prop) (x : X) (s : S) : Prop :=
  match p with
  | Done a => ∀ x' s', R x s x' s' → Φ (Some a) x' s'
  | Step m f => ∀ x' s', R x s x' s' →
      ∃ b s'', m s' = Ok (b, s'') ∧ G s' s'' ∧ wp (f b) Φ x' s''
  | Final m => ∀ x' s', R x s x' s' → ∃ s'', m s' = Ok ((), s'') ∧ Φ None x' s''
  end.

Context (Rrefl : ∀ x s, R x s x s).
Context (Rtrans : ∀ x1 s1 x2 s2 x3 s3, R x1 s1 x2 s2 → R x2 s2 x3 s3 → R x1 s1 x3 s3).

Lemma wp_stable {A} (p : prog S A) Φ x s x' s' : wp p Φ x s → R x s x' s' → wp p Φ x' s'.
Proof. destruct p; cbn [wp]; eauto. Qed.

Lemma wp_bind {A B} (p : prog S A) (g : A → prog S B) Φ x s :
  wp p (λ o x' s', match o with Some a => wp (g a) Φ x' s' | None => Φ None x' s' end) x s →
  wp (p ≫= g) Φ x s.
Proof.
  revert x s; induction p as [a|C m f IH|m]; intros x s H; [by apply H| |exact H].
  intros x' s' Hr. destruct (H x' s' Hr) as (b & s'' & E & Hg & Hw).
  exists b, s''. split; [exact E|]. split; [exact Hg|]. by apply IH.
Qed.

Lemma wp_mono {A} (p : prog S A) (Φ Ψ : option A → X → S → Prop) x s :
  (∀ o x' s', Φ o x' s' → Ψ o x' s') → wp p Φ x s → wp p Ψ x s.
Proof.
  intros HΦ. revert x s; induction p as [a|C m f IH|m]; intros x s H x' s' Hr; cbn [wp] in *; [by eauto|..].
  - destruct (H x' s' Hr) as (b & s'' & E & Hg & Hw). eauto 6.
  - destruct (H x' s' Hr) as (s'' & E & Hw). eauto.
Qed.

Lemma wp_step {A B} (m : M S B) (f : B → prog S A) Φ x s :
  (∀ x' s', R x s x' s' → ∃ b s'', m s' = Ok (b, s'') ∧ G s' s'' ∧ wp (f b) Φ x' s'') →
  wp (atomic m ≫= f) Φ x s.
Proof. done. Qed.
End wp.

(** * State invariants of programs *)

(** Every step keeps [P], and the result has [Q]. *)
Fixpoint steps_ensure {S A} (P : S → Prop) (p : prog S A) (Q : A → Prop) : Prop :=
  match p with
  | Done a => Q a
  | Step m f => ∃ R, ensures P m R ∧ ∀ b, R b → steps_ensure P (f b) Q
  | Final m => keeps P m
  end.

(** Only the state matters. *)
Abbreviation steps_keep P p := (steps_ensure P p (λ _, True)).

Section invariants.
Context {S : Type} (P : S → Prop).

Lemma steps_ret {A} (a : A) (Q : A → Prop) : Q a → steps_ensure P (mret a) Q.
Proof. done. Qed.

Lemma steps_atomic {A} (m : M S A) Q : ensures P m Q → steps_ensure P (atomic m) Q.
Proof. intros Hm. by exists Q. Qed.

Lemma steps_bind {A B} (p : prog S A) (g : A → prog S B) Q R :
  steps_ensure P p Q → (∀ a, Q a → steps_ensure P (g a) R) → steps_ensure P (p ≫= g) R.
Proof.
  intros Hp Hg. revert Hp; induction p as [a|C m f IH|m]; cbn; [by apply Hg| |done].
  intros (T & Hm & Hf). exists T. split; [exact Hm|]. intros b Hb. by apply IH, Hf.
Qed.

Lemma steps_each_keep {A} (l : list A) (body : A → prog S unit) :
  (∀ x, x ∈ l → steps_keep P (body x)) → steps_keep P (steps_each l body).
Proof.
  induction l as [|x l IH]; intros Hb; [done|]. apply (steps_bind _ _ (λ _, True)).
  - apply Hb, list_elem_of_here.
  - intros _ _. apply IH. intros y Hy. by apply Hb, list_elem_of_further.
Qed.
End invariants.

(** Decompose a program; what is left are its steps and side conditions. *)
Ltac steps_ens := repeat
  match goal with
  | |- steps_ensure _ (mret _) _ => apply steps_ret
  | |- True => exact I
  | |- steps_ensure _ (Final _) _ => cbn [steps_ensure]
  | |- steps_ensure _ (mbind _ look) _ =>
      eapply steps_bind; [apply steps_atomic, ensures_get|cbv beta; intros ? ?]
  | |- steps_ensure _ (if ?b then _ else _) _ => destruct b eqn:?
  | |- steps_ensure _ (match ?x with _ => _ end) _ => destruct x eqn:?
  | |- steps_keep _ (steps_each _ _) => apply steps_each_keep; intros ? ?
  | |- steps_ensure _ (mbind _ _) _ => eapply (steps_bind _ _ _ (λ _, True)); [|cbv beta; intros ? _]
  | |- steps_keep _ (atomic _) => apply steps_atomic
  | |- steps_keep _ _ => solve [eauto with ensures nocore]
  | |- keeps _ _ => progress ens
  end.
