(* ===== verification/ShellSteps.v ===== *)
(** * The shell in steps ([kernel/shell/shell.cpp])

    [shell.cpp] once more, now as programs whose steps are the reads and writes of
    single variables, the drawing of one character, and the wait for and the
    output of one character on the serial line: where [Shell] has computations,
    this file has the points at which an interrupt may come.  In one go the
    steps are the computations of [Shell]. *)
From stdpp Require Import base tactics strings gmap numbers list.
From S2P Require Import Prelude CString Digits Memory Interfaces Pmm Heap Sched Platform Pic Keyboard Vfs.
From S2P Require Import Serial Framebuffer Panic Kernel Shell Steps.

Local Open Scope Z_scope.

(** ** Operations *)

Section steps.
Context {D : Type} `{PL : Platform D}.
Abbreviation prg := (prog (kernel D)).

(** *** Output *)

Fixpoint fb_print_steps (s : list Z) : prg unit :=
  match s with
  | [] => mret tt
  | c :: s => if c =? 0 then mret tt else atomic (con (fb_putchar c)) ≫= λ _, fb_print_steps s
  end.

Definition write_serial_steps (c : Z) : prg unit :=
  atomic (dev (wait_transmit SERIAL_FUEL)) ≫= λ _, atomic (dev (outb COM1 c)).

Fixpoint print_serial_steps (s : list Z) : prg unit :=
  match s with
  | [] => mret tt
  | c :: s =>
      if c =? 0 then mret tt else
      (if c =? 10 then write_serial_steps 13 else mret tt) ≫= λ _,
      write_serial_steps c ≫= λ _,
      print_serial_steps s
  end.

Definition print_both_steps (s : list Z) : prg unit :=
  fb_print_steps s ≫= λ _, print_serial_steps s.

(** The digits are computed in the local buffer. *)
Definition print_u64_dec_steps (v : Z) : prg unit :=
  if v =? 0 then atomic (con (fb_putchar 48)) else
  buf ← atomic (con (on_local (replicate 21 0) (dec_buffer v)));
  fb_print_steps buf.
Definition fb_print_dec_steps (prefix : list Z) (val : Z) : prg unit :=
  fb_print_steps prefix ≫= λ _, print_u64_dec_steps val ≫= λ _, atomic (con (fb_putchar 10)).

Definition color_steps (fg : Z) : prg unit := atomic (color fg).

(** *** Commands *)

Definition help_steps : prg unit :=
  color_steps COLOR_CYAN ≫= λ _,
  print_both_steps (cstr "Available NovaOS Shell Commands:" ++ nl) ≫= λ _,
  color_steps COLOR_WHITE ≫= λ _,
  steps_each help_text print_both_steps.

Definition clear_steps : prg unit :=
  atomic (con fb_clear) ≫= λ _,
  color_steps COLOR_GREEN ≫= λ _,
  print_both_steps (cstr "=== NovaOS Interactive Shell ===" ++ nl) ≫= λ _,
  color_steps COLOR_WHITE.

Definition meminfo_steps : prg unit :=
  color_steps COLOR_YELLOW ≫= λ _,
  k ← look;
  fb_print_dec_steps (cstr "PMM Free Pages : ") (pmm_free_pages (k_pmm k)) ≫= λ _,
  k ← look;
  fb_print_dec_steps (cstr "PMM Total Pages: ") (pmm_total_pages (k_pmm k)) ≫= λ _,
  k ← look;
  fb_print_dec_steps (cstr "PMM Used (KB)  : ") (pmm_used_bytes (k_pmm k) / 1024) ≫= λ _,
  color_steps COLOR_WHITE.

Definition ticks_steps : prg unit :=
  color_steps COLOR_YELLOW ≫= λ _,
  k ← look;
  fb_print_dec_steps (cstr "Timer Ticks: ") (pit_ticks (k_ticks k)) ≫= λ _,
  color_steps COLOR_WHITE.

Definition tasks_steps : prg unit :=
  color_steps COLOR_YELLOW ≫= λ _,
  k ← look;
  fb_print_dec_steps (cstr "Active Tasks: ") (sched_task_count (k_sched k)) ≫= λ _,
  k ← look;
  fb_print_dec_steps (cstr "Current Task ID: ") (sched_current_id (k_sched k)) ≫= λ _,
  color_steps COLOR_WHITE.

Definition node_steps (i : Z) : prg unit :=
  node ← atomic (files (arr_get i));
  print_both_steps (cstr "  ") ≫= λ _,
  print_both_steps (n_name node) ≫= λ _,
  fb_print_dec_steps (cstr "  (") (n_size node) ≫= λ _,
  print_both_steps (cstr " bytes)" ++ nl).

Definition ls_steps : prg unit :=
  color_steps COLOR_CYAN ≫= λ _,
  print_both_steps (cstr "RAM Disk Files:" ++ nl) ≫= λ _,
  nodes ← atomic (files (vfs_list 16));
  color_steps COLOR_WHITE ≫= λ _,
  steps_each nodes node_steps.

Definition cat_steps (fname : list Z) : prg unit :=
  node ← atomic (files (vfs_open fname));
  match node with
  | Some i =>
      node ← atomic (files (arr_get i));
      color_steps COLOR_GREEN ≫= λ _,
      print_both_steps (n_data node) ≫= λ _,
      last ← atomic (of_option (n_data node !! Z.to_nat (u64 (n_size node - 1))));
      (if negb (last =? 10) then print_both_steps nl else mret tt) ≫= λ _,
      color_steps COLOR_WHITE
  | None =>
      color_steps COLOR_RED ≫= λ _,
      print_both_steps (cstr "File not found: ") ≫= λ _,
      print_both_steps fname ≫= λ _,
      print_both_steps nl ≫= λ _,
      color_steps COLOR_WHITE
  end.

Definition unknown_steps (cmdline : list Z) : prg unit :=
  color_steps COLOR_RED ≫= λ _,
  print_both_steps (cstr "Unknown command: '") ≫= λ _,
  print_both_steps cmdline ≫= λ _,
  print_both_steps (cstr "'. Type 'help' for commands." ++ nl) ≫= λ _,
  color_steps COLOR_WHITE.

(** [reboot] and [panic] do not come back. *)
Definition reboot_steps : prg unit :=
  print_both_steps (cstr "Rebooting system..." ++ nl) ≫= λ _,
  Final (dev (outb 0x64 0xFE)).

Definition execute_steps (cmdline : list Z) : prg unit :=
  let cmdline := skip_spaces cmdline in
  if chr cmdline =? 0 then mret tt else
  if streql cmdline (cstr "help") then help_steps
  else if streql cmdline (cstr "clear") then clear_steps
  else if streql cmdline (cstr "meminfo") then meminfo_steps
  else if streql cmdline (cstr "ticks") then ticks_steps
  else if streql cmdline (cstr "tasks") then tasks_steps
  else if streql cmdline (cstr "ls") then ls_steps
  else if strstarts cmdline (cstr "cat ") then cat_steps (skip_spaces (drop 4 cmdline))
  else if strstarts cmdline (cstr "echo ") then
    print_both_steps (drop 5 cmdline) ≫= λ _, print_both_steps nl
  else if streql cmdline (cstr "reboot") then reboot_steps
  else if streql cmdline (cstr "panic") then
    Final (panicking (kernel_panic
      (cstr "Explicit user-triggered kernel panic via shell command!")))
  else unknown_steps cmdline.

(** *** The input loop *)

Definition prompt_steps : prg unit :=
  color_steps COLOR_CYAN ≫= λ _,
  print_both_steps (cstr "NovaOS> ") ≫= λ _,
  color_steps COLOR_WHITE.

Definition char_steps (c : Z) : prg unit :=
  if c =? 10 then
    atomic (con (fb_putchar 10)) ≫= λ _,
    k ← look;
    atomic (put_buf (k_idx k) 0) ≫= λ _,
    k ← look;
    execute_steps (k_buf k) ≫= λ _,
    atomic (modify (set_idx 0)) ≫= λ _,
    prompt_steps
  else if c =? 8 then
    k ← look;
    if 0 <? k_idx k then
      atomic (modify (set_idx (k_idx k - 1))) ≫= λ _, atomic (con (fb_putchar 8))
    else mret tt
  else if (32 <=? c) && (c <=? 126) then
    k ← look;
    if k_idx k <? 128 - 1 then
      atomic (put_buf (k_idx k) c) ≫= λ _,
      atomic (modify (set_idx (k_idx k + 1))) ≫= λ _,
      atomic (con (fb_putchar c))
    else mret tt
  else mret tt.
End steps.

(** * Lemmas *)

(** *** In one go *)

Section together.
Context {D : Type} `{PL : Platform D}.

(** The outcome of a computation that may not come back. *)
Definition comes_back (o : outcome) : option unit :=
  match o with Returned => Some tt | Stopped => None end.
Definition amounts_out (p : prog (kernel D) unit) (m : M (kernel D) outcome) : Prop :=
  ∀ k, run p k = (m ≫= λ o, mret (comes_back o)) k.

Lemma out_returned p m : amounts p m → amounts_out p (returned m).
Proof.
  intros H k. rewrite H. unfold returned, mbind, M_bind, mret, M_ret.
  by destruct (m k) as [[[] k']| |].
Qed.

Lemma out_bind {A} (p : prog (kernel D) A) g (m : M (kernel D) A) f :
  amounts p m → (∀ a, amounts_out (g a) (f a)) → amounts_out (p ≫= g) (m ≫= f).
Proof.
  intros Hp Hg k. rewrite run_bind. unfold mbind at 1, M_bind. rewrite Hp.
  unfold mbind, M_bind, mret, M_ret. destruct (m k) as [[a k']| |]; [|done..]. apply Hg.
Qed.

Lemma zoom_bind {S T A B} (prj : T → S) upd (m : M S A) (f : A → M S B) t :
  (∀ s t, prj (upd s t) = s) → (∀ s s' t, upd s' (upd s t) = upd s' t) →
  zoom prj upd (m ≫= f) t = (zoom prj upd m ≫= λ a, zoom prj upd (f a)) t.
Proof.
  intros Hp Hu. unfold zoom, mbind, M_bind. destruct (m (prj t)) as [[a s]| |]; [|done..].
  rewrite Hp. destruct (f a s) as [[b s']| |]; [|done..]. by rewrite Hu.
Qed.

Lemma con_bind {A B} (m : M fbcon A) (f : A → M fbcon B) (k : kernel D) :
  con (m ≫= f) k = (con m ≫= λ a, con (f a)) k.
Proof. by apply zoom_bind. Qed.
Lemma dev_bind {A B} (m : M D A) (f : A → M D B) (k : kernel D) :
  dev (m ≫= f) k = (dev m ≫= λ a, dev (f a)) k.
Proof. by apply zoom_bind. Qed.
Lemma con_ret {A} (a : A) (k : kernel D) : con (mret a) k = Ok (a, k).
Proof. by destruct k. Qed.
Lemma dev_ret {A} (a : A) (k : kernel D) : dev (mret a) k = Ok (a, k).
Proof. by destruct k. Qed.

(** A bind of the component is one of the kernel. *)
Lemma amounts_con_bind {A B} (p : prog (kernel D) A) g (m : M fbcon A) (f : A → M fbcon B) :
  amounts p (con m) → (∀ a, amounts (g a) (con (f a))) → amounts (p ≫= g) (con (m ≫= f)).
Proof.
  intros Hp Hg. eapply amounts_ext; [intros k; symmetry; apply con_bind|]. by apply amounts_bind.
Qed.
Lemma amounts_dev_bind {A B} (p : prog (kernel D) A) g (m : M D A) (f : A → M D B) :
  amounts p (dev m) → (∀ a, amounts (g a) (dev (f a))) → amounts (p ≫= g) (dev (m ≫= f)).
Proof.
  intros Hp Hg. eapply amounts_ext; [intros k; symmetry; apply dev_bind|]. by apply amounts_bind.
Qed.
Lemma amounts_con_ret {A} (a : A) : amounts (S:=kernel D) (mret a) (con (mret a)).
Proof. eapply amounts_ext; [|apply amounts_ret]. intros k. by rewrite con_ret. Qed.
Lemma amounts_dev_ret {A} (a : A) : amounts (S:=kernel D) (mret a) (dev (mret a)).
Proof. eapply amounts_ext; [|apply amounts_ret]. intros k. by rewrite dev_ret. Qed.

Lemma print_amounts s : amounts (S:=kernel D) (fb_print_steps s) (con (fb_print s)).
Proof.
  induction s as [|c s IH]; cbn [fb_print_steps fb_print]; [apply amounts_con_ret|].
  destruct (c =? 0); [apply amounts_con_ret|]. by apply amounts_con_bind.
Qed.

Lemma serial_char_amounts c : amounts (write_serial_steps c) (dev (write_serial_char c)).
Proof. by apply amounts_dev_bind. Qed.

Lemma serial_amounts s : amounts (print_serial_steps s) (dev (print_serial s)).
Proof.
  induction s as [|c s IH]; cbn [print_serial_steps print_serial]; [apply amounts_dev_ret|].
  destruct (c =? 0); [apply amounts_dev_ret|]. apply amounts_dev_bind.
  - destruct (c =? 10); [apply serial_char_amounts|apply amounts_dev_ret].
  - intros _. apply amounts_dev_bind; [apply serial_char_amounts|by intros _].
Qed.

Lemma both_amounts s : amounts (print_both_steps s) (print_both s).
Proof. apply amounts_bind; [apply print_amounts|intros _; apply serial_amounts]. Qed.

Lemma dec_amounts p v : amounts (S:=kernel D) (fb_print_dec_steps p v) (con (fb_print_dec p v)).
Proof.
  apply amounts_con_bind; [apply print_amounts|intros _]. apply amounts_con_bind; [|by intros _].
  unfold print_u64_dec_steps, print_u64_dec. destruct (v =? 0); [done|].
  apply amounts_con_bind; [done|apply print_amounts].
Qed.

(** Drawing does not change what a later read of another variable finds. *)
Lemma amounts_drawn {A B} (p : prog (kernel D) A) g (m : M fbcon A) (f : A → M (kernel D) B) k :
  amounts p (con m) →
  (∀ a c, run (g a) (set_con c k) = (f a ≫= λ b, mret (Some b)) (set_con c k)) →
  run (p ≫= g) k = ((con m ≫= f) ≫= λ b, mret (Some b)) k.
Proof.
  intros Hp Hg. rewrite run_bind. unfold mbind at 1, M_bind. rewrite Hp.
  unfold con, zoom, mbind, M_bind, mret, M_ret.
  destruct (m (k_con k)) as [[a c]| |]; [|done..]. apply Hg.
Qed.

Lemma run_look {B} (g : kernel D → prog (kernel D) B) k : run (look ≫= g) k = run (g k) k.
Proof. done. Qed.
Lemma get_bind {A B} (f : kernel D → M (kernel D) A) (h : A → M (kernel D) B) k :
  ((get ≫= f) ≫= h) k = (f k ≫= h) k.
Proof. done. Qed.

Ltac drawn := apply amounts_drawn; [apply dec_amounts|intros _ ?; rewrite ?run_look].
Lemma meminfo_amounts : amounts meminfo_steps (cmd_meminfo (D:=D)).
Proof.
  apply amounts_bind; [done|intros _ k]. rewrite run_look, get_bind. do 3 drawn. done.
Qed.
Lemma tasks_amounts : amounts tasks_steps (cmd_tasks (D:=D)).
Proof.
  apply amounts_bind; [done|intros _ k]. rewrite run_look, get_bind. do 2 drawn. done.
Qed.

Lemma ticks_amounts : amounts ticks_steps (cmd_ticks (D:=D)).
Proof.
  apply amounts_bind; [done|intros _]. apply amounts_bind; [done|intros k].
  apply amounts_bind; [apply dec_amounts|by intros _].
Qed.

Lemma node_amounts i : amounts (node_steps i) (list_node i).
Proof.
  apply amounts_bind; [done|intros node]. do 2 (apply amounts_bind; [apply both_amounts|intros _]).
  apply amounts_bind; [apply dec_amounts|intros _; apply both_amounts].
Qed.

Lemma ls_amounts : amounts ls_steps (cmd_ls (D:=D)).
Proof.
  apply amounts_bind; [done|intros _]. apply amounts_bind; [apply both_amounts|intros _].
  do 2 (apply amounts_bind; [done|intros ?]). apply amounts_each, node_amounts.
Qed.

Lemma cat_amounts name : amounts (cat_steps name) (cmd_cat name).
Proof.
  apply amounts_bind; [done|intros [i|]].
  - do 2 (apply amounts_bind; [done|intros ?]). apply amounts_bind; [apply both_amounts|intros _].
    apply amounts_bind; [done|intros last]. apply amounts_bind; [|by intros _].
    destruct (negb _); [apply both_amounts|done].
  - apply amounts_bind; [done|intros ?].
    do 3 (apply amounts_bind; [apply both_amounts|intros _]). done.
Qed.

Lemma help_amounts : amounts help_steps (cmd_help (D:=D)).
Proof.
  apply amounts_bind; [done|intros _]. apply amounts_bind; [apply both_amounts|intros _].
  apply amounts_bind; [done|intros _]. apply amounts_each, both_amounts.
Qed.

Lemma clear_amounts : amounts clear_steps (cmd_clear (D:=D)).
Proof.
  do 2 (apply amounts_bind; [done|intros _]). by apply amounts_bind; [apply both_amounts|intros _].
Qed.

Lemma unknown_amounts cmd : amounts (unknown_steps cmd) (cmd_unknown cmd).
Proof.
  apply amounts_bind; [done|intros _].
  do 3 (apply amounts_bind; [apply both_amounts|intros _]). done.
Qed.

Lemma prompt_amounts : amounts prompt_steps (prompt (D:=D)).
Proof.
  apply amounts_bind; [done|intros _]. by apply amounts_bind; [apply both_amounts|intros _].
Qed.

(** What does not come back. *)
Lemma out_final m : amounts_out (Final m) (stopped m).
Proof.
  intros k. unfold stopped, mbind, M_bind, mret, M_ret. cbn. unfold mbind, M_bind.
  by destruct (m k) as [[[] k']| |].
Qed.

Lemma out_then p q m f : amounts_out p m → amounts_out q f →
  amounts_out (p ≫= λ _, q) (m ≫= λ o, match o with Stopped => mret Stopped | Returned => f end).
Proof.
  intros Hp Hq k. rewrite run_bind. unfold mbind at 1, M_bind. rewrite Hp.
  unfold mbind, M_bind, mret, M_ret. destruct (m k) as [[[] k']| |]; [|done..]. apply Hq.
Qed.

Lemma reboot_amounts : amounts_out reboot_steps (stopped (cmd_reboot (D:=D))).
Proof.
  intros k. unfold reboot_steps. rewrite (out_bind _ _ _ _ (both_amounts _) (λ _, out_final _)).
  unfold stopped, cmd_reboot, mbind, M_bind. by destruct (print_both _ k) as [[[] ?]| |].
Qed.

Lemma execute_amounts cmdline : amounts_out (execute_steps cmdline) (shell_execute cmdline).
Proof.
  unfold execute_steps, shell_execute. cbv zeta.
  destruct (_ =? 0); [done|].
  repeat match goal with |- amounts_out (if ?b then _ else _) _ => destruct b end;
    first [apply reboot_amounts | apply out_final | apply out_returned].
  - apply help_amounts.
  - apply clear_amounts.
  - apply meminfo_amounts.
  - apply ticks_amounts.
  - apply tasks_amounts.
  - apply ls_amounts.
  - apply cat_amounts.
  - by apply amounts_bind; [apply both_amounts|intros _; apply both_amounts].
  - apply unknown_amounts.
Qed.
End together.

(** * Properties *)

(** The shell in steps is the shell: in one go the steps of its reaction to a
    character do, on every state, what [shell_char] does, faults included, and they
    come back exactly when it returns. *)
Theorem char_steps_run (D : Type) (PL : Platform D) (c : Z) (k : kernel D) :
  run (char_steps c) k = (shell_char c ≫= λ o, mret (comes_back o)) k.
Proof.
  revert k. change (amounts_out (char_steps c) (shell_char c)). unfold char_steps, shell_char.
  destruct (c =? 10); [|destruct (c =? 8); [|destruct (_ && _); [|done]]];
    apply out_bind; try done; intros a.
  - do 3 (apply out_bind; [done|intros ?]). apply out_then; [apply execute_amounts|].
    apply out_bind; [done|intros _]. by apply (out_returned prompt_steps prompt), prompt_amounts.
  - destruct (0 <? _); [|done]. apply out_bind; [done|intros _]. by apply out_returned.
  - destruct (_ <? _); [|done]. do 2 (apply out_bind; [done|intros _]). by apply out_returned.
Qed.
