(* ===== verification/Preempt.v ===== *)
(** * What the steps of the shell rely on

    What interrupts may change between the steps of [ShellSteps], what the steps
    may change, and the rules for what a program of the shell shows on the screen
    and sends on the serial line, whatever comes in between. *)
From stdpp Require Import base tactics relations strings gmap numbers list.
From S2P Require Import Prelude CString Digits Memory Interfaces Pmm HeapSpec Heap HeapTheorems Sched.
From S2P Require Import SchedTheorems Platform Pic Keyboard Vfs Serial Framebuffer Terminal Gdt Panic Idt.
From S2P Require Import Kernel Shell ShellReplies Display Session Boot Running Steps ShellSteps.

Local Open Scope Z_scope.

(** ** Specification *)

Section spec.
Context {D : Type} `{PL : Platform D} (fs : list file).
Implicit Types k : kernel D.

Definition alive k : Prop := ∃ q, ready k fs q.

(** [k'] comes after [k], [x' - x] ticks later, with any keys typed since; what
    the commands read is the same apart from the clock and the current task. *)
Record later (x : Z) k (x' : Z) k' : Prop := {
  la_count : x ≤ x';
  la_ticks : u64 (k_ticks k') = u64 (k_ticks k + (x' - x));
  la_pmm : k_pmm k' = k_pmm k;
  la_vfs : k_vfs k' = k_vfs k;
  la_tasks : s_count (k_sched k') = s_count (k_sched k);
  la_alive : alive k → alive k'
}.

(** What an interrupt may change: nothing of the screen, the serial line and the
    line being edited. *)
Record rely (x : Z) k (x' : Z) k' : Prop := {
  re_later : later x k x' k';
  re_con : k_con k' = k_con k;
  re_com : com1 (k_dev k') = com1 (k_dev k);
  re_buf : k_buf k' = k_buf k;
  re_idx : k_idx k' = k_idx k
}.

(** What a step of the shell leaves alone, the interrupt controller included. *)
Definition kept k k' : Prop := core k' = core k ∧ pic1 (k_dev k') = pic1 (k_dev k).

(** What it may change. *)
Definition guarantee k k' : Prop := kept k k' ∧ ∀ q, ready k fs q → ready k' fs q.

(** Between [k] and [k'] the console did [m], and [t] was sent. *)
Definition emits k k' (m : M fbcon unit) (t : list Z) : Prop :=
  m (k_con k) = Ok ((), k_con k') ∧ u_tx (com1 (k_dev k')) = u_tx (com1 (k_dev k)) ++ t.

Definition shown k k' (outs : list out) : Prop := emits k k' (perform outs) (crlf (serial_of outs)).
End spec.

(** * Lemmas *)

Section laws.
Context {D : Type} `{PL : Platform D} (fs : list file).
Implicit Types k : kernel D.
Abbreviation later := (later fs).
Abbreviation rely := (rely fs).
Abbreviation alive := (alive fs).
Abbreviation guarantee := (guarantee fs).
Abbreviation wp := (wp rely guarantee).

Lemma later_refl x k : later x k x k.
Proof. split; try done. f_equal. lia. Qed.

Lemma later_trans x1 k1 x2 k2 x3 k3 : later x1 k1 x2 k2 → later x2 k2 x3 k3 → later x1 k1 x3 k3.
Proof.
  intros [] []. split; try congruence; [lia| |auto].
  rewrite la_ticks1. unfold u64 in *. rewrite Z.add_mod, la_ticks0, <- Z.add_mod by done.
  f_equal. lia.
Qed.

Lemma rely_refl x k : rely x k x k.
Proof. split; try done. apply later_refl. Qed.
Lemma rely_trans x1 k1 x2 k2 x3 k3 : rely x1 k1 x2 k2 → rely x2 k2 x3 k3 → rely x1 k1 x3 k3.
Proof. intros [] []. split; try congruence. by eapply later_trans. Qed.

Lemma later_step x k k' : guarantee k k' → later x k x k'.
Proof.
  intros [[[= ? ? Hs ? ? ?] _] Hr]. split; try congruence; [done| |].
  - f_equal. lia.
  - intros [q ?]. by exists q; apply Hr.
Qed.

Lemma emits_trans k1 k2 k3 m m' t t' :
  emits k1 k2 m t → emits k2 k3 m' t' → emits k1 k3 (m ≫= λ _, m') (t ++ t').
Proof.
  intros [E1 T1] [E2 T2]. split; [by rewrite (bind_ok _ _ _ _ _ E1)|]. by rewrite T2, T1, app_assoc.
Qed.

Lemma emits_ext k k' m m' t : (∀ s, m s = m' s) → emits k k' m t → emits k k' m' t.
Proof. intros H [E T]. split; [by rewrite <- H|done]. Qed.

(** Interrupts on either side are not seen. *)
Lemma emits_rely x1 k1 x2 k2 x3 k3 x4 k4 m t :
  rely x1 k1 x2 k2 → emits k2 k3 m t → rely x3 k3 x4 k4 → emits k1 k4 m t.
Proof.
  intros [_ C1 D1 _ _] [E T] [_ C2 D2 _ _]. unfold emits. by rewrite C2, D2, <- C1, <- D1.
Qed.

(** *** What a program says *)

(** The line being edited stays as it is. *)
Definition during (x : Z) k (x' : Z) k' : Prop :=
  later x k x' k' ∧ k_buf k' = k_buf k ∧ k_idx k' = k_idx k.

Lemma during_refl x k : during x k x k.
Proof. split; [apply later_refl|done]. Qed.
Lemma during_trans x1 k1 x2 k2 x3 k3 : during x1 k1 x2 k2 → during x2 k2 x3 k3 → during x1 k1 x3 k3.
Proof. intros (? & ? & ?) (? & ? & ?). split; [by eapply later_trans|]. split; congruence. Qed.
Lemma during_rely x k x' k' : rely x k x' k' → during x k x' k'.
Proof. intros []. by split. Qed.

(** At any time after [k0], [p] comes back having done [m] to the console and
    sent [t]. *)
Definition utters {A} (x0 : Z) k0 (p : prog (kernel D) A) (a : A) (m : M fbcon unit) (t : list Z) : Prop :=
  ∀ x k Φ, during x0 k0 x k →
    (∀ x' k', during x k x' k' → emits k k' m t → Φ (Some a) x' k') → wp p Φ x k.

Lemma utters_ret {A} x0 k0 (a : A) : utters x0 k0 (mret a) a (mret tt) [].
Proof.
  intros x k Φ _ H x' k' Hr. apply H; [by apply during_rely|].
  apply (emits_rely x k x k x k x' k'); [apply rely_refl| |exact Hr]. split; [done|]. by rewrite app_nil_r.
Qed.

Lemma utters_bind {A B} x0 k0 (p : prog (kernel D) A) (g : A → prog (kernel D) B) a b m m' t t' :
  utters x0 k0 p a m t → utters x0 k0 (g a) b m' t' →
  utters x0 k0 (p ≫= g) b (m ≫= λ _, m') (t ++ t').
Proof.
  intros Hp Hg x k Φ H0 H. apply wp_bind; [apply rely_refl|]. apply Hp; [done|]. intros x1 k1 H1 E1.
  apply Hg; [by eapply during_trans|]. intros x2 k2 H2 E2. apply H; [by eapply during_trans|].
  by eapply emits_trans.
Qed.

Lemma utters_ext {A} x0 k0 (p : prog (kernel D) A) a m m' t :
  (∀ s, m s = m' s) → utters x0 k0 p a m t → utters x0 k0 p a m' t.
Proof. intros E Hp x k Φ H0 H. apply Hp; [done|]. intros x' k' H1 He. apply H; [done|]. by eapply emits_ext. Qed.

(** A step that is right whatever the keys is one the others can rely on. *)
Lemma ready_step {A} (f : M (kernel D) A) a k (P : kernel D → Prop) : alive k →
  (∀ q, ready k fs q → ∃ k', f k = Ok (a, k') ∧ ready k' fs q ∧ kept k k' ∧ P k') →
  ∃ k', f k = Ok (a, k') ∧ guarantee k k' ∧ P k'.
Proof.
  intros [q H] Hf. destruct (Hf q H) as (k' & E & _ & Hc & HP). exists k'.
  split; [exact E|]. split; [|exact HP]. split; [exact Hc|]. intros q' H'.
  destruct (Hf q' H') as (k2 & E2 & H2 & _). rewrite E in E2. by injection E2 as <-.
Qed.

Lemma utters_step {A} x0 k0 (f : M (kernel D) A) a m t : alive k0 →
  (∀ k q, ready k fs q → k_vfs k = k_vfs k0 → ∃ k', f k = Ok (a, k') ∧ ready k' fs q ∧ kept k k' ∧
     k_buf k' = k_buf k ∧ k_idx k' = k_idx k ∧ emits k k' m t) →
  utters x0 k0 (atomic f) a m t.
Proof.
  intros Ha Hf x k Φ H0 H x1 k1 H1.
  pose proof (during_trans _ _ _ _ _ _ H0 (during_rely _ _ _ _ H1)) as [H01 _].
  destruct (ready_step f a k1 _ (la_alive _ _ _ _ _ H01 Ha)
    (λ q Hq, Hf k1 q Hq (la_vfs _ _ _ _ _ H01))) as (k2 & E & Hg & Hb & Hi & Hem).
  exists a, k2. split; [exact E|]. split; [exact Hg|]. intros x3 k3 H3. apply H.
  - eapply during_trans; [by apply during_rely|].
    eapply during_trans; [|by apply during_rely]. split; [by apply later_step|done].
  - by eapply emits_rely.
Qed.

(** A step that only talks. *)
Lemma utters_talk x0 k0 (f : M (kernel D) unit) outs : alive k0 →
  (∀ k, speaks f () k outs) →
  utters x0 k0 (atomic f) () (perform outs) (crlf (serial_of outs)).
Proof.
  intros Ha Hf. apply utters_step; [done|]. intros k q H _. pose proof (rd_shell _ _ _ H) as Hs.
  destruct (Hf k (sh_con _ _ Hs) (sh_com _ _ Hs)) as (c & d & E & P & Hc & Hg & Ht & Hl & Hp1 & _).
  exists (set_con c (set_dev d k)). split; [exact E|]. split; [by apply ready_talk|].
  split; [by split|]. by split_and!.
Qed.

(** *** Characters *)

Lemma utters_putchar x0 k0 c : alive k0 → c ≠ 9 →
  utters x0 k0 (atomic (con (fb_putchar c))) () (fb_putchar c) [].
Proof.
  intros Ha Hc. apply utters_step; [done|]. intros k q H _.
  destruct (putchar_con fs c k q H Hc) as (c1 & E & P & Hr). exists (set_con c1 k).
  split; [exact E|]. split; [exact Hr|]. split; [by split|].
  do 2 (split; [done|]). split; [exact P|]. by rewrite app_nil_r.
Qed.

Lemma utters_print x0 k0 s : alive k0 → no_tab (c_text s) →
  utters x0 k0 (fb_print_steps s) () (fb_print s) [].
Proof.
  intros Ha. induction s as [|c s IH]; cbn [fb_print_steps fb_print c_text]; [intros _; apply utters_ret|].
  destruct (c =? 0); [intros _; apply utters_ret|]. intros [Hc Hs]%Forall_cons_iff.
  apply (utters_bind x0 k0 _ _ () () _ _ [] []); [by apply utters_putchar|by apply IH].
Qed.

(** A change of the devices that keeps the serial line open. *)
Lemma ready_dev k d q : ready k fs q → u_dlab (com1 d) = false → ready (set_dev d k) fs q.
Proof.
  intros H Hl. pose proof (ready_talk fs k (k_con k) d q H (sh_con _ _ (rd_shell _ _ _ H))
    ltac:(done) Hl) as Hr. by destruct k.
Qed.

Lemma utters_dev {x0 k0} (f : M D unit) t : alive k0 →
  (∀ d, u_dlab (com1 d) = false → ∃ d', f d = Ok ((), d') ∧ u_tx (com1 d') = u_tx (com1 d) ++ t ∧
     u_dlab (com1 d') = false ∧ pic1 d' = pic1 d) →
  utters x0 k0 (atomic (dev f)) () (mret tt) t.
Proof.
  intros Ha Hf. apply utters_step; [done|]. intros k q H _.
  destruct (Hf (k_dev k) (sh_com _ _ (rd_shell _ _ _ H))) as (d & E & Ht & Hl & Hp1).
  exists (set_dev d k). split; [unfold dev, zoom; by rewrite E|]. split; [by apply ready_dev|].
  split; [by split|]. by split_and!.
Qed.

(** What the console does for nothing. *)
Lemma utters_silent {A B} x0 k0 (p : prog (kernel D) A) (g : A → prog (kernel D) B) a b t t' :
  utters x0 k0 p a (mret tt) t → utters x0 k0 (g a) b (mret tt) t' →
  utters x0 k0 (p ≫= g) b (mret tt) (t ++ t').
Proof. intros Hp Hg. exact (utters_bind x0 k0 p g a b _ _ t t' Hp Hg). Qed.

Lemma utters_serial_char x0 k0 c : alive k0 → 0 ≤ c < 256 →
  utters x0 k0 (write_serial_steps c) () (mret tt) [c].
Proof.
  intros Ha Hc. apply (utters_silent x0 k0 _ _ () () [] [c]).
  - apply utters_dev; [done|]. intros d Hl. destruct (wait_ok SERIAL_FUEL d) as (d' & E & Ht & ? & ? & _);
      [unfold SERIAL_FUEL; pose proof (com1_busy d); lia|done|]. eauto.
  - apply utters_dev; [done|]. intros d Hl.
    destruct (outb_ok COM1 c d Hc eq_refl) as (d2 & b & E2 & _ & Hp1 & _ & _ & Hu).
    change (COM1 =? 0x3F8) with true in Hu. cbv iota in Hu. exists d2. split; [exact E2|].
    rewrite Hu. unfold uart_data. rewrite Hl. by split_and!.
Qed.

Lemma utters_serial x0 k0 s : alive k0 → bytes (c_text s) →
  utters x0 k0 (print_serial_steps s) () (mret tt) (crlf (c_text s)).
Proof.
  intros Ha. induction s as [|c s IH]; cbn [print_serial_steps c_text]; [intros _; apply utters_ret|].
  destruct (Z.eqb_spec c 0); [intros _; apply utters_ret|]. intros [Hc Hs]%Forall_cons_iff. cbn [crlf].
  replace ((if c =? 10 then [13; 10] else [c]) ++ crlf (c_text s))
    with ((if c =? 10 then [13] else []) ++ [c] ++ crlf (c_text s)) by (by destruct (Z.eqb_spec c 10) as [->|]).
  apply (utters_silent x0 k0 _ _ () ()).
  - destruct (c =? 10); [by apply utters_serial_char|apply utters_ret].
  - apply (utters_silent x0 k0 _ _ () ()); [by apply utters_serial_char|by apply IH].
Qed.

(** *** Outputs *)

Section outputs.
Context (x0 : Z) (k0 : kernel D) (Ha : alive k0).

Definition tells (p : prog (kernel D) unit) (outs : list out) : Prop :=
  utters x0 k0 p () (perform outs) (crlf (serial_of outs)).

Lemma tells_ret : tells (mret tt) [].
Proof. apply utters_ret. Qed.

Lemma tells_bind p q o1 o2 : tells p o1 → tells q o2 → tells (p ≫= λ _, q) (o1 ++ o2).
Proof.
  intros Hp Hq. unfold tells. rewrite serial_app, crlf_app.
  eapply utters_ext; [intros s; symmetry; apply perform_app|]. by apply (utters_bind _ _ _ _ () ()).
Qed.

Lemma tells_seq p q o outs : tells p [o] → tells q outs → tells (p ≫= λ _, q) (o :: outs).
Proof. exact (tells_bind p q [o] outs). Qed.

Lemma tells_color fg : tells (color_steps fg) [Colour fg].
Proof. apply utters_talk; [exact Ha|]. apply speaks_color. Qed.
Lemma tells_clear : tells (atomic (con fb_clear)) [Clear].
Proof. apply utters_talk; [exact Ha|]. apply speaks_clear. Qed.

Lemma tells_print t : plain (c_text t) → tells (print_both_steps t) [Both (c_text t)].
Proof.
  intros Ht. unfold tells, serial_of. cbn [fmap list_fmap serial1 concat]. rewrite app_nil_r.
  eapply utters_ext; [|apply (utters_bind x0 k0 _ _ () () (fb_print t) (mret tt) []);
    [apply (utters_print _ _ t Ha), plain_no_tab, Ht|apply (utters_serial _ _ t Ha), plain_bytes, Ht]].
  intros s. apply bind_cong; [symmetry; apply fb_print_text|done].
Qed.

Lemma tells_plain t : plain t → tells (print_both_steps t) [Both t].
Proof. intros Ht. rewrite <- (plain_text t Ht) at 2. apply tells_print. by rewrite plain_text. Qed.

(** The digits go through a local buffer. *)
Lemma utters_decimal v : 0 ≤ v < 2 ^ 64 →
  utters x0 k0 (print_u64_dec_steps v) () (fb_print (decimal v)) [].
Proof.
  intros Hv. unfold print_u64_dec_steps. destruct (Z.eqb_spec v 0) as [->|Hne].
  { eapply utters_ext; [|by apply (utters_putchar _ _ 48)]. intros s. by rewrite (fb_print_one 48). }
  destruct (dec_buffer_ok v (replicate 21 0)) as (rest & E); [lia|done|].
  pose proof (decimal_plain v Hv) as Hd.
  assert (c_text (decimal v ++ 0 :: rest) = decimal v) as Ht by by apply c_text_app, plain_no_nul.
  eapply utters_ext; [|apply (utters_bind x0 k0 _ _ (decimal v ++ 0 :: rest) () (mret tt) (fb_print (decimal v ++ 0 :: rest)) [] [])].
  - intros s. transitivity (fb_print (c_text (decimal v ++ 0 :: rest)) s); [|by rewrite Ht].
    exact (eq_sym (fb_print_text (decimal v ++ 0 :: rest) s)).
  - apply utters_step; [exact Ha|]. intros k q H _. exists k.
    split; [unfold con, zoom, on_local; rewrite E; by destruct k|]. split; [done|].
    split; [by split|]. do 2 (split; [done|]). split; [done|]. by rewrite app_nil_r.
  - apply utters_print; [exact Ha|]. rewrite Ht. by apply plain_no_tab.
Qed.

Lemma tells_number label v : plain (cstr label) → 0 ≤ v < 2 ^ 64 →
  tells (fb_print_dec_steps (cstr label) v) [number_line label v].
Proof.
  intros Hp Hv. eapply utters_ext; [|apply (utters_bind x0 k0 _ _ () () (fb_print (cstr label)) (fb_print (decimal v) ≫= λ _, fb_putchar 10) [] []);
    [apply utters_print; [exact Ha|]|apply (utters_bind x0 k0 _ _ () () _ _ [] []);
      [by apply utters_decimal|by apply (utters_putchar _ _ 10)]]].
  - intros s. cbn [perform for_each perform1]. unfold number_line. cbn [for_each perform1].
    unfold perform. cbn [for_each perform1]. unfold mbind at 3, M_bind.
    rewrite fb_print_app by by apply plain_no_nul.
    unfold mbind, M_bind. destruct (fb_print (cstr label) s) as [[[] s1]| |]; [|done..].
    rewrite fb_print_app by by apply plain_no_nul, decimal_plain. unfold mbind, M_bind.
    destruct (fb_print (decimal v) s1) as [[[] s2]| |]; [|done..].
    rewrite (fb_print_one 10) by done. by destruct (fb_putchar 10 s2) as [[[] ?]| |].
  - rewrite plain_text by done. by apply plain_no_tab.
Qed.

(** *** Reading variables *)

Lemma tells_silent {A} (p : prog (kernel D) A) a g outs :
  utters x0 k0 p a (mret tt) [] → tells (g a) outs → tells (p ≫= g) outs.
Proof. intros Hp Hg. exact (utters_bind x0 k0 p g a () (mret tt) _ [] _ Hp Hg). Qed.

(** A step that only computes a value. *)
Lemma utters_value {A} (f : M (kernel D) A) a :
  (∀ k, k_vfs k = k_vfs k0 → f k = Ok (a, k)) → utters x0 k0 (atomic f) a (mret tt) [].
Proof.
  intros Hf. apply utters_step; [exact Ha|]. intros k q H Hv. exists k.
  split; [by apply Hf|]. split; [done|]. split; [by split|]. do 2 (split; [done|]).
  split; [done|]. by rewrite app_nil_r.
Qed.

Lemma utters_files {A} (m : M vfs A) a : m (k_vfs k0) = Ok (a, k_vfs k0) →
  utters x0 k0 (atomic (files m)) a (mret tt) [].
Proof. intros E. apply utters_value. intros k Hv. unfold files, zoom. rewrite Hv, E, <- Hv. by destruct k. Qed.

Lemma wp_look {A} (g : kernel D → prog (kernel D) A) Φ x k :
  (∀ x1 k1, during x k x1 k1 → rely x k x1 k1 → wp (g k1) Φ x1 k1) → wp (look ≫= g) Φ x k.
Proof.
  intros Hg x1 k1 H1. exists k1, k1. split; [done|]. split; [by split|].
  apply Hg; [by apply during_rely|done].
Qed.

Lemma tells_look (g : kernel D → prog (kernel D) unit) outs :
  (∀ x k, during x0 k0 x k → tells (g k) outs) → tells (look ≫= g) outs.
Proof.
  intros Hg x k Φ H0 H. apply wp_look. intros x1 k1 H1 H1'.
  pose proof (during_trans _ _ _ _ _ _ H0 H1) as H01. apply (Hg x1 k1 H01); [exact H01|].
  intros x2 k2 H2 E2. apply H; [by eapply during_trans|].
  eapply emits_rely; [exact H1'|exact E2|apply rely_refl with (x := x2)].
Qed.

Lemma tells_each {A} (l : list A) body (o : A → list out) :
  (∀ a, a ∈ l → tells (body a) (o a)) → tells (steps_each l body) (concat (o <$> l)).
Proof.
  induction l as [|a l IH]; intros H; [apply tells_ret|]. cbn [steps_each fmap list_fmap concat].
  apply tells_bind; [apply H, list_elem_of_here|]. apply IH. intros b Hb. by apply H, list_elem_of_further.
Qed.

(** *** What depends on the time of reading *)

(** What is shown is computed from a state [k1] in between. *)
Definition replies (p : prog (kernel D) unit) (outs : kernel D → list out) : Prop :=
  ∀ x k Φ, during x0 k0 x k →
    (∀ x1 k1 x' k', during x0 k0 x1 k1 → x1 ≤ x' → during x k x' k' → shown k k' (outs k1) →
       Φ (Some tt) x' k') → wp p Φ x k.

Lemma tells_replies p o outs : tells p o → outs k0 = o → replies p outs.
Proof.
  intros Hp Ho x k Φ H0 H. apply Hp; [done|]. intros x' k' H1 He.
  apply (H x0 k0); [apply during_refl| |done|by rewrite Ho].
  pose proof (la_count _ _ _ _ _ (proj1 H0)). pose proof (la_count _ _ _ _ _ (proj1 H1)). lia.
Qed.

Lemma replies_ext p outs outs' :
  (∀ x1 k1, during x0 k0 x1 k1 → outs k1 = outs' k1) → replies p outs → replies p outs'.
Proof.
  intros E Hp x k Φ H0 H. apply Hp; [done|]. intros x1 k1 x' k' H1. rewrite (E _ _ H1). by apply H.
Qed.

Lemma replies_seq p q o outs : tells p [o] → replies q outs →
  replies (p ≫= λ _, q) (λ k1, o :: outs k1).
Proof.
  intros Hp Hq x k Φ H0 H. apply wp_bind; [apply rely_refl|]. apply Hp; [done|]. intros x2 k2 H2 E2.
  apply Hq; [by eapply during_trans|]. intros x1 k1 x' k' H1 Hx H' E'.
  apply (H x1 k1); [done|done|by eapply during_trans|].
  unfold shown. change (o :: outs k1) with ([o] ++ outs k1). rewrite serial_app, crlf_app.
  eapply emits_ext; [intros s; symmetry; apply perform_app|]. by eapply emits_trans.
Qed.

Lemma replies_peek (g : kernel D → prog (kernel D) unit) outs :
  (∀ x k, during x0 k0 x k → replies (g k) outs) → replies (look ≫= g) outs.
Proof.
  intros Hg x k Φ H0 H. apply wp_look. intros x2 k2 H2 H2'.
  pose proof (during_trans _ _ _ _ _ _ H0 H2) as H02. apply (Hg x2 k2 H02); [exact H02|].
  intros x1 k1 x' k' H1 Hx H' E'. apply (H x1 k1); [done|done|by eapply during_trans|].
  eapply emits_rely; [exact H2'|exact E'|apply rely_refl with (x := x')].
Qed.

Lemma replies_look (g : kernel D → prog (kernel D) unit) outs :
  (∀ x k, during x0 k0 x k → tells (g k) (outs k)) → replies (look ≫= g) outs.
Proof.
  intros Hg x k Φ H0 H. apply wp_look. intros x1 k1 H1 H1'.
  pose proof (during_trans _ _ _ _ _ _ H0 H1) as H01. apply (Hg x1 k1 H01); [exact H01|].
  intros x' k' H' E'. apply (H x1 k1); [done| |by eapply during_trans|].
  - exact (la_count _ _ _ _ _ (proj1 H')).
  - eapply emits_rely; [exact H1'|exact E'|apply rely_refl with (x := x')].
Qed.

(** It does not come back. *)
Definition halts (p : prog (kernel D) unit) : Prop :=
  ∀ x k Φ, during x0 k0 x k → (∀ x' k', Φ None x' k') → wp p Φ x k.

Lemma halts_seq p o q : tells p o → halts q → halts (p ≫= λ _, q).
Proof.
  intros Hp Hq x k Φ H0 H. apply wp_bind; [apply rely_refl|]. apply Hp; [done|]. intros x1 k1 H1 _.
  apply Hq; [by eapply during_trans|exact H].
Qed.

Lemma halts_final (m : M (kernel D) unit) :
  (∀ k, shell_ok k fs → ∃ k', m k = Ok ((), k')) → halts (Final m).
Proof.
  intros Hm x k Φ H0 H x1 k1 H1.
  destruct (la_alive _ _ _ _ _ (proj1 (during_trans _ _ _ _ _ _ H0 (during_rely _ _ _ _ H1))) Ha) as [q Hq].
  destruct (Hm k1 (rd_shell _ _ _ Hq)) as (k' & E). eauto.
Qed.
End outputs.
End laws.
