(* ===== verification/Handling.v ===== *)
(** * Interrupts between the steps of the shell

    The steps of a program with interrupts between them: whatever comes, as long as
    no task switch does, a command shows what it shows undisturbed, a character is
    handled, and a program does under every schedule what the logic of [Steps]
    promises. *)
From stdpp Require Import base tactics relations strings gmap numbers list.
From S2P Require Import Prelude CString Digits Memory Ensures Interfaces Pmm HeapSpec Heap HeapTheorems Sched.
From S2P Require Import SchedTheorems Platform Pic Keyboard Vfs Serial Framebuffer Terminal Gdt Panic Idt.
From S2P Require Import Kernel Shell ShellReplies Display Session Boot Running Steps ShellSteps Preempt.

Local Open Scope Z_scope.

(** ** Operations *)

Section handle.
Context {D : Type} `{PL : Platform D}.

(** An interrupt that comes now, taken if it is not held off. *)
Definition take_irq (i : irq) : M (live D) unit :=
  m ← get; if accepts i m then interrupt i else mret tt.

(** The steps of a program, with the interrupts of the first list before its
    first step, those of the second list before the second, and so on; what is
    left of the lists comes after the last step.  No interrupt switches tasks. *)
Fixpoint handle {A} (p : prog (kernel D) A) (sch : list (list irq)) : M (live D) (option A) :=
  match p with
  | Done a => for_each (concat sch) take_irq ≫= λ _, mret (Some a)
  | Step m f =>
      for_each (default [] (head sch)) take_irq ≫= λ _,
      b ← on_kernel m; handle (f b) (tail sch)
  | Final m =>
      for_each (default [] (head sch)) take_irq ≫= λ _,
      on_kernel m ≫= λ _, mret None
  end.
End handle.

Definition timers (irqs : list irq) : Z := Z.of_nat (length (filter (λ i, i = TimerIrq) irqs)).

(** * Lemmas *)

Section commands.
Context {D : Type} `{PL : Platform D} (fs : list file).
Context (x0 : Z) (k0 : kernel D) (Ha : alive fs k0).
Abbreviation tells := (tells fs x0 k0).
Abbreviation replies := (replies fs x0 k0).

Ltac tell1 := lazymatch goal with
  | |- Preempt.tells _ _ _ _ [Colour _] => apply tells_color; exact Ha
  | |- Preempt.tells _ _ _ _ [Clear] => apply tells_clear; exact Ha
  | |- Preempt.tells _ _ _ _ [Both _] => apply tells_plain; [exact Ha|plain_text]
  | |- Preempt.tells _ _ _ _ [number_line _ _] =>
      apply tells_number; [exact Ha|plain_text|first [assumption|lia]]
  end.
Ltac tell := repeat match goal with
  | |- Preempt.tells _ _ _ (mbind _ _) (_ :: _) => apply tells_seq; [tell1|]
  end.

Lemma help_text_plain : Forall plain help_text.
Proof. unfold help_text. repeat (apply List.Forall_cons; [by apply plain_check|]). constructor. Qed.

Lemma both_each l : Forall plain l → tells (steps_each l print_both_steps) (Both <$> l).
Proof.
  induction 1 as [|t l Ht _ IH]; [apply tells_ret|].
  apply tells_seq; [by apply tells_plain|exact IH].
Qed.

Lemma help_tells : tells help_steps reply_help.
Proof. unfold help_steps, reply_help. do 3 (apply tells_seq; [tell1|]). apply both_each, help_text_plain. Qed.

Lemma clear_tells : tells clear_steps reply_clear.
Proof. unfold clear_steps, reply_clear. tell. tell1. Qed.

Lemma unknown_tells cmd : plain (c_text cmd) → tells (unknown_steps cmd) (reply_unknown (c_text cmd)).
Proof.
  intros Hc. unfold unknown_steps, reply_unknown. tell.
  apply tells_seq; [by apply tells_print|]. tell. tell1.
Qed.

Lemma echo_tells t : plain (c_text t) →
  tells (print_both_steps t ≫= λ _, print_both_steps nl) [Both (c_text t); Both nl].
Proof. intros Ht. apply tells_seq; [by apply tells_print|]. tell1. Qed.

Lemma prompt_tells : tells prompt_steps prompt_outs.
Proof. unfold prompt_steps, prompt_outs. tell. tell1. Qed.

Lemma meminfo_tells : tells meminfo_steps (reply_meminfo k0).
Proof.
  destruct Ha as [q Hq]. pose proof (sh_pmm _ _ (rd_shell _ _ _ Hq)) as [? ?].
  assert (0 ≤ pmm_used_bytes (k_pmm k0) / 1024 < 2 ^ 64).
  { unfold pmm_used_bytes.
    pose proof (u64_range (u64 (s_total_pages (k_pmm k0) - s_free_pages (k_pmm k0)) * 4096)).
    Z.div_mod_to_equations. lia. }
  unfold meminfo_steps, reply_meminfo. tell.
  do 3 (apply tells_look; intros ? ? [Hd _]; rewrite (la_pmm _ _ _ _ _ Hd); clear Hd; tell).
  tell1.
Qed.

(** The number of tasks stays; the clock and the current task are read at once. *)
Lemma ticks_replies : replies ticks_steps reply_ticks.
Proof.
  unfold ticks_steps, reply_ticks. apply replies_seq; [tell1|]. apply replies_look.
  intros x k [Hd _]. destruct (la_alive _ _ _ _ _ Hd Ha) as [q Hq].
  pose proof (sh_ticks _ _ (rd_shell _ _ _ Hq)). tell. tell1.
Qed.

Lemma tasks_replies : replies tasks_steps reply_tasks.
Proof.
  unfold tasks_steps, reply_tasks.
  assert (∀ x k, during fs x0 k0 x k → s_count (k_sched k) = s_count (k_sched k0) ∧
    0 ≤ s_count (k_sched k) < 2 ^ 64 ∧ 0 ≤ s_current (k_sched k) < 2 ^ 64) as Hs.
  { intros x k [Hd _]. destruct (la_alive _ _ _ _ _ Hd Ha) as [q Hq].
    pose proof (so_count _ (sh_sched _ _ (rd_shell _ _ _ Hq))).
    pose proof (so_current _ (sh_sched _ _ (rd_shell _ _ _ Hq))). unfold MAX_TASKS in *.
    split; [exact (la_tasks _ _ _ _ _ Hd)|]. lia. }
  apply (replies_ext _ _ _ _ (λ k1, [Colour COLOR_YELLOW; number_line "Active Tasks: " (s_count (k_sched k0));
    number_line "Current Task ID: " (s_current (k_sched k1)); Colour COLOR_WHITE])).
  { intros x1 k1 H1. by destruct (Hs x1 k1 H1) as (-> & _). }
  apply replies_seq; [tell1|]. apply replies_peek. intros x2 k2 H2.
  destruct (Hs x2 k2 H2) as (Hc & Hn & _). unfold sched_task_count. rewrite Hc in *.
  apply replies_seq; [tell1|]. apply replies_look. intros x1 k1 H1.
  destruct (Hs x1 k1 H1) as (_ & _ & Hcur). tell. tell1.
Qed.

Lemma k0_ok : shell_ok k0 fs.
Proof. destruct Ha as [q Hq]. exact (rd_shell _ _ _ Hq). Qed.

(** The listing: one group of outputs per slot in use. *)
Lemma node_tells i f : fs !! Z.to_nat i = Some f → 0 ≤ i → tells (node_steps i) (reply_file f).
Proof.
  intros Hf Hi. destruct (vr_files _ _ (sh_vfs _ _ k0_ok) _ _ Hf) as (v & Hv & <-).
  pose proof (Forall_lookup_1 _ _ _ _ (sh_files _ _ k0_ok) Hf) as (Hn & _ & Hs & Hs').
  cbn [f_name f_size node_of] in Hn, Hs, Hs'.
  assert (0 ≤ n_size v < 2 ^ 64) by lia. unfold node_steps, reply_file.
  apply (tells_silent _ _ _ _ v); [apply utters_files; [exact Ha|by apply arr_get_ok]|]. tell.
  apply tells_seq; [by apply tells_print|]. tell. tell1.
Qed.

Lemma ls_tells : tells ls_steps (reply_ls fs).
Proof.
  unfold ls_steps, reply_ls. tell. pose proof (sh_vfs _ _ k0_ok) as Hrep. pose proof (vr_max _ _ Hrep).
  apply (tells_silent _ _ _ _ (range 0 (Z.of_nat (length fs)))).
  { apply utters_files; [exact Ha|]. refine (eq_trans (list_ok (k_vfs k0) fs 16 Hrep ltac:(lia)) _).
    by rewrite Z.min_r by lia. }
  tell. rewrite <- (concat_range reply_file (λ i, default [] (reply_file <$> fs !! Z.to_nat i)) fs 0).
  - apply tells_each. intros i Hi%elem_of_range.
    destruct (lookup_lt_is_Some_2 fs (Z.to_nat i)) as [f Hf]; [lia|]. rewrite Hf.
    apply (node_tells i f Hf). lia.
  - intros i f Hf. rewrite Z.add_0_l, Nat2Z.id. by rewrite Hf.
Qed.

Lemma cat_tells name : plain (c_text name) → tells (cat_steps name) (reply_cat fs (c_text name)).
Proof.
  intros Hname. unfold cat_steps, reply_cat.
  eapply tells_silent; [apply utters_files; [exact Ha|exact (open_ok _ _ name (sh_vfs _ _ k0_ok))]|].
  unfold named. destruct (list_find (λ f, f_name f = c_text name) fs) as [[i f]|] eqn:Hfind;
    cbn [fmap option_fmap option_map compose fst].
  - apply list_find_Some in Hfind as (Hf & _ & _).
    destruct (vr_files _ _ (sh_vfs _ _ k0_ok) _ _ Hf) as (v & Hv & <-).
    pose proof (Forall_lookup_1 _ _ _ _ (sh_files _ _ k0_ok) Hf) as (_ & Hd & Hs & Hs').
    cbn [f_data f_size node_of] in *.
    apply (tells_silent _ _ _ _ v).
    { apply utters_files; [exact Ha|]. apply arr_get_ok; [lia|by rewrite Nat2Z.id]. }
    cbn [app]. apply tells_seq; [tell1|]. apply tells_seq; [by apply tells_print|].
    rewrite (last_of_data (n_data v) (n_size v)) by lia.
    destruct (lookup_lt_is_Some_2 (n_data v) (Z.to_nat (u64 (n_size v - 1)))) as [c Hc];
      [rewrite u64_small; lia|]. rewrite Hc.
    apply (tells_silent _ _ _ _ c); [by apply utters_value|]. apply tells_bind; [|tell1].
    destruct (Z.eqb_spec c 10) as [->|Hc10]; cbn [negb].
    + rewrite decide_True by done. apply tells_ret.
    + rewrite decide_False by congruence. tell1.
  - do 2 (apply tells_seq; [tell1|]). apply tells_seq; [by apply tells_print|]. tell. tell1.
Qed.

(** *** Dispatch *)

(** It comes back and has shown [outs], or stops. *)
Definition answers (p : prog (kernel D) unit) (stop : bool) (outs : kernel D → list out) : Prop :=
  if stop then halts fs x0 k0 p else replies p outs.

Lemma reboot_halts : halts fs x0 k0 reboot_steps.
Proof.
  apply (halts_seq _ _ _ _ [Both (cstr "Rebooting system..." ++ nl)]); [tell1|].
  apply halts_final; [exact Ha|]. intros k _.
  destruct (outb_ok 0x64 0xFE (k_dev k)) as (d' & b & E & _); [lia|done|].
  exists (set_dev d' k). unfold dev, zoom. by rewrite E.
Qed.

Lemma panic_halts msg : printable msg → halts fs x0 k0 (Final (panicking (kernel_panic msg))).
Proof.
  intros Hm. apply halts_final; [exact Ha|]. intros k Hok.
  destruct (kernel_panic_says msg (panic_view k) Hm (panic_view_ok _ _ Hok) (k_dev k) (sh_com _ _ Hok))
    as ([] & d & p & E & _).
  exists (panic_back p (set_dev d k)). unfold panicking, zoom. by rewrite E.
Qed.

(** A command given by its name: decide it on both sides. *)
Ltac named_command :=
  match goal with
  | |- context [decide (?x = ?l)] =>
      let E := fresh "E" in
      destruct (decide (x = l)) as [E|E];
      [rewrite (bool_decide_eq_true_2 _ E), E|rewrite (bool_decide_eq_false_2 _ E)]
  end.
Ltac constant := eapply tells_replies; [|reflexivity]; cbv beta.

Lemma execute_answers line : plain (c_text line) →
  answers (execute_steps line) (stops (command line)) (λ k1, reply k1 fs (command line)).
Proof.
  intros Hp. pose proof (command_plain line Hp) as Hc.
  unfold execute_steps, reply, answers. rewrite command_nil.
  rewrite !streql_command, !strstarts_command by by apply plain_no_nul, plain_check.
  named_command; [constant; apply tells_ret|].
  named_command; [constant; apply help_tells|].
  named_command; [constant; apply clear_tells|].
  named_command; [constant; apply meminfo_tells|].
  named_command; [apply ticks_replies|].
  named_command; [apply tasks_replies|].
  named_command; [constant; apply ls_tells|].
  destruct (decide (cstr "cat " `prefix_of` command line)) as [Hcat|Hcat].
  { rewrite (bool_decide_eq_true_2 _ Hcat).
    rewrite (argument_returns _ _ Hcat) by (apply (bool_decide_unpack _); vm_compute; exact I).
    pose proof (rest_of_command line (cstr "cat ") Hcat) as Hr.
    change (length (cstr "cat ")) with 4%nat in Hr.
    constant. rewrite <- Hr, <- skip_spaces_text. apply cat_tells.
    rewrite skip_spaces_text, Hr. by apply skip_spaces_plain, plain_drop. }
  rewrite (bool_decide_eq_false_2 _ Hcat).
  destruct (decide (cstr "echo " `prefix_of` command line)) as [Hecho|Hecho].
  { rewrite (bool_decide_eq_true_2 _ Hecho).
    rewrite (argument_returns _ _ Hecho) by (apply (bool_decide_unpack _); vm_compute; exact I).
    pose proof (rest_of_command line (cstr "echo ") Hecho) as Hr.
    change (length (cstr "echo ")) with 5%nat in Hr.
    constant. rewrite <- Hr. apply echo_tells. rewrite Hr. by apply plain_drop. }
  rewrite (bool_decide_eq_false_2 _ Hecho).
  named_command; [apply reboot_halts|].
  destruct (decide (command line = cstr "panic")) as [Hpan|Hpan].
  { rewrite (bool_decide_eq_true_2 _ Hpan), Hpan. apply panic_halts. by apply printable_check. }
  rewrite (bool_decide_eq_false_2 _ Hpan).
  assert (stops (command line) = false) as ->.
  { unfold stops. by rewrite !bool_decide_eq_false_2. }
  constant. unfold command. rewrite <- skip_spaces_text.
  apply unknown_tells. by rewrite skip_spaces_text.
Qed.
End commands.

(** *** A character *)

Section characters.
Context {D : Type} `{PL : Platform D} (fs : list file).
Implicit Types k : kernel D.
Abbreviation wp := (wp (rely fs) (guarantee fs)).

(** The screen and the serial line are as they were. *)
Definition still k k' : Prop := k_con k' = k_con k ∧ com1 (k_dev k') = com1 (k_dev k).

Lemma still_rely x k x' k' : rely fs x k x' k' → still k k'.
Proof. by intros []. Qed.
Lemma still_trans k1 k2 k3 : still k1 k2 → still k2 k3 → still k1 k3.
Proof. unfold still. intuition congruence. Qed.
Lemma emits_still k1 k2 k3 m t : still k1 k2 → emits k2 k3 m t → emits k1 k3 m t.
Proof. unfold still, emits. intros [-> ->]. done. Qed.

Lemma line_eq k k' : k_buf k' = k_buf k → k_idx k' = k_idx k → line k' = line k.
Proof. unfold line. by intros -> ->. Qed.

(** Writing what is there. *)
Lemma set_idx_same k i : k_idx k = i → set_idx i k = k.
Proof. intros <-. by destruct k. Qed.
Lemma set_buf_same k b : k_buf k = b → set_buf b k = k.
Proof. intros <-. by destruct k. Qed.

(** A step on the shell's own line. *)
Lemma wp_line (f : M (kernel D) unit) (g : unit → prog (kernel D) unit) b i Φ x k :
  alive fs k → length b = 128%nat → 0 ≤ i ≤ 127 → Forall (λ c, visible c = true) (take (Z.to_nat i) b) →
  (∀ k1, k_buf k1 = k_buf k → k_idx k1 = k_idx k → f k1 = Ok ((), set_idx i (set_buf b k1))) →
  (∀ x' k', later fs x k x' k' → k_buf k' = b → k_idx k' = i → still k k' → wp (g ()) Φ x' k') →
  wp (atomic f ≫= g) Φ x k.
Proof.
  intros Ha Hb Hi Hl Hf Hg x1 k1 [Hla Hcon Hcom Hbuf Hidx].
  assert (guarantee fs k1 (set_idx i (set_buf b k1))) as Hgu.
  { split; [by split|]. intros q Hq. by apply ready_line. }
  exists (), (set_idx i (set_buf b k1)). split; [by apply Hf|]. split; [exact Hgu|].
  apply Hg; [|done..]. eapply later_trans; [exact Hla|]. by apply later_step.
Qed.

(** A character drawn at the end. *)
Lemma wp_putchar c x k (Φ : option unit → Z → kernel D → Prop) : alive fs k → c ≠ 9 → c ≠ 0 →
  (∀ x' k', during fs x k x' k' → shown k k' [Screen [c]] → Φ (Some tt) x' k') →
  wp (atomic (con (fb_putchar c))) Φ x k.
Proof.
  intros Ha H9 H0 H. apply (utters_putchar fs x k c Ha H9); [apply during_refl|].
  intros x' k' Hd He. apply H; [done|]. eapply emits_ext; [|exact He].
  intros s. cbn. unfold mbind, M_bind. destruct (Z.eqb_spec c 0); [done|].
  by destruct (fb_putchar c s) as [[[] ?]| |].
Qed.

Lemma visible_wp c x k (Φ : option unit → Z → kernel D → Prop) : alive fs k → visible c = true →
  (∀ x' k', later fs x k x' k' → line k' = edit (line k) c → shown k k' (echo k fs c) →
     Φ (Some tt) x' k') → wp (char_steps c) Φ x k.
Proof.
  intros Ha Hv HΦ. destruct (Ha) as [q Hq]. pose proof (line_length fs k q Hq) as Hlen.
  pose proof (rd_idx _ _ _ Hq) as Hi. pose proof (rd_buf _ _ _ Hq) as Hb.
  pose proof (rd_line _ _ _ Hq) as Hline.
  unfold char_steps, edit, echo in *. rewrite Hv in HΦ. unfold visible in Hv. rewrite Hv.
  apply andb_true_iff in Hv as Hr.
  destruct (Z.eqb_spec c 10); [lia|]. destruct (Z.eqb_spec c 8); [lia|].
  apply (wp_look fs). intros x1 k1 [Hd1 [Hb1 Hi1]] Hr1. rewrite Hi1.
  rewrite Hlen in HΦ. change (128 - 1) with 127.
  destruct (Z.ltb_spec (k_idx k) 127) as [Hlt|Hge]; cbn [andb] in HΦ.
  2:{ intros x' k' Hr'. pose proof (rely_trans fs _ _ _ _ _ _ Hr1 Hr') as [Hla Hc Hcom Hbf Hix].
      apply HΦ; [done|by apply line_eq|]. split; cbn; [by rewrite Hc|]. by rewrite Hcom, app_nil_r. }
  set (b := <[Z.to_nat (k_idx k) := c]> (k_buf k)).
  assert (take (Z.to_nat (k_idx k + 1)) b = line k ++ [c]) as Htake.
  { replace (Z.to_nat (k_idx k + 1)) with (S (Z.to_nat (k_idx k))) by lia.
    rewrite (take_S_r _ _ c) by (apply list_lookup_insert_eq; lia).
    unfold b, line. by rewrite take_insert_ge by lia. }
  assert (length b = 128%nat) as Hlb by (unfold b; by rewrite length_insert).
  apply (wp_line _ _ b (k_idx k)); [by apply (la_alive _ _ _ _ _ Hd1)|done|lia| | |].
  { unfold b. by rewrite take_insert_ge by lia. }
  { intros k2 Hb2 Hi2. rewrite put_buf_ok by (rewrite ?Hb2, ?Hb1; lia). rewrite Hb2, Hb1.
    by rewrite set_idx_same by (cbn; congruence). }
  intros x2 k2 Hd2 Hb2 Hi2 Hs2.
  apply (wp_line _ _ b (k_idx k + 1)); [by apply (la_alive _ _ _ _ _ Hd2), (la_alive _ _ _ _ _ Hd1)|done|lia| | |].
  { rewrite Htake. apply Forall_app. split; [done|]. by apply List.Forall_cons; [unfold visible|]. }
  { intros k3 Hb3 _. by rewrite set_buf_same by congruence. }
  intros x3 k3 Hd3 Hb3 Hi3 Hs3.
  assert (later fs x k x3 k3) as Hd by (eapply later_trans; [exact Hd1|]; by eapply later_trans).
  apply wp_putchar; [by apply (la_alive _ _ _ _ _ Hd)|lia|lia|]. intros x' k' [Hd' [Hb' Hi']] He.
  apply HΦ; [by eapply later_trans| |].
  - unfold line at 1. by rewrite Hb', Hi', Hb3, Hi3.
  - eapply emits_still; [|exact He]. eapply still_trans; [by eapply still_rely|]. by eapply still_trans.
Qed.

Lemma backspace_wp x k (Φ : option unit → Z → kernel D → Prop) : alive fs k →
  (∀ x' k', later fs x k x' k' → line k' = edit (line k) 8 → shown k k' (echo k fs 8) →
     Φ (Some tt) x' k') → wp (char_steps 8) Φ x k.
Proof.
  intros Ha HΦ. destruct (Ha) as [q Hq]. pose proof (line_length fs k q Hq) as Hlen.
  pose proof (rd_idx _ _ _ Hq) as Hi. pose proof (rd_line _ _ _ Hq) as Hline.
  unfold char_steps, edit, echo in *. cbn [Z.eqb Pos.eqb] in *.
  apply (wp_look fs). intros x1 k1 [Hd1 [Hb1 Hi1]] Hr1. rewrite Hi1.
  destruct (Z.ltb_spec 0 (k_idx k)) as [Hlt|Hge].
  2:{ assert (line k = []) as Hnil by (apply length_zero_iff_nil; lia). rewrite Hnil in HΦ.
      intros x' k' Hr'. pose proof (rely_trans fs _ _ _ _ _ _ Hr1 Hr') as [Hla Hc Hcom Hbf Hix].
      apply HΦ; [done|rewrite (line_eq k); done|]. split; cbn; [by rewrite Hc|]. by rewrite Hcom, app_nil_r. }
  rewrite bool_decide_eq_false_2 in HΦ by (intros Hnil; rewrite Hnil in Hlen; cbn in Hlen; lia).
  assert (take (Z.to_nat (k_idx k - 1)) (k_buf k) = take (pred (length (line k))) (line k)) as Htake.
  { unfold line at 2. rewrite take_take. f_equal. lia. }
  apply (wp_line _ _ (k_buf k) (k_idx k - 1)); [by apply (la_alive _ _ _ _ _ Hd1)|apply Hq|lia| | |].
  { rewrite Htake. by apply Forall_take. }
  { intros k2 Hb2 _. by rewrite set_buf_same by congruence. }
  intros x2 k2 Hd2 Hb2 Hi2 Hs2.
  assert (later fs x k x2 k2) as Hd by by eapply later_trans.
  apply wp_putchar; [by apply (la_alive _ _ _ _ _ Hd)|done|done|]. intros x' k' [Hd' [Hb' Hi']] He.
  apply HΦ; [by eapply later_trans| |].
  - unfold line at 1. by rewrite Hb', Hi', Hb2, Hi2.
  - eapply emits_still; [|exact He]. eapply still_trans; [by eapply still_rely|done].
Qed.

(** The rest of the turn after [shell_execute]. *)
Lemma prompt_wp x k (Φ : option unit → Z → kernel D → Prop) : alive fs k →
  (∀ x' k', later fs x k x' k' → line k' = [] → shown k k' prompt_outs → Φ (Some tt) x' k') →
  wp (atomic (modify (set_idx 0)) ≫= λ _, prompt_steps) Φ x k.
Proof.
  intros Ha HΦ. destruct (Ha) as [q Hq].
  apply (wp_line _ _ (k_buf k) 0); [done|apply Hq|lia|constructor| |].
  { intros k1 Hb1 _. by rewrite set_buf_same by congruence. }
  intros x1 k1 Hd1 Hb1 Hi1 Hs1. assert (alive fs k1) as Ha1 by by apply (la_alive _ _ _ _ _ Hd1).
  apply (prompt_tells fs x1 k1 Ha1); [apply during_refl|]. intros x' k' [Hd' [Hb' Hi']] He.
  apply HΦ; [by eapply later_trans| |by eapply emits_still].
  unfold line. by rewrite Hi', Hi1.
Qed.

Lemma shown_app k1 k2 k3 o1 o2 : shown k1 k2 o1 → shown k2 k3 o2 → shown k1 k3 (o1 ++ o2).
Proof.
  intros H1 H2. unfold shown. rewrite serial_app, crlf_app.
  eapply emits_ext; [intros s; symmetry; apply perform_app|]. by eapply emits_trans.
Qed.

Lemma enter_wp x k (Φ : option unit → Z → kernel D → Prop) : alive fs k →
  (stops (command (line k)) = true → ∀ x' k', Φ None x' k') →
  (stops (command (line k)) = false → ∀ x1 k1 x' k', later fs x k x1 k1 → line k1 = line k → x1 ≤ x' →
     later fs x k x' k' → line k' = [] → shown k k' (echo k1 fs 10) → Φ (Some tt) x' k') →
  wp (char_steps 10) Φ x k.
Proof.
  intros Ha HN HΦ. destruct (Ha) as [q Hq]. pose proof (rd_idx _ _ _ Hq) as Hi.
  pose proof (rd_buf _ _ _ Hq) as Hb. pose proof (rd_line _ _ _ Hq) as Hline.
  unfold char_steps. cbn [Z.eqb Pos.eqb]. apply wp_bind; [apply rely_refl|].
  apply wp_putchar; [done..|]. intros x1 k1 [Hd1 [Hb1 Hi1]] He1.
  apply (wp_look fs). intros x2 k2 [Hd2 [Hb2 Hi2]] Hr2. rewrite Hi2, Hi1.
  set (b := <[Z.to_nat (k_idx k) := 0]> (k_buf k)).
  assert (take (Z.to_nat (k_idx k)) b = line k) as Htake.
  { unfold b, line. by rewrite take_insert_ge by lia. }
  assert (later fs x k x2 k2) as Hd02 by by eapply later_trans.
  apply (wp_line _ _ b (k_idx k)); [by apply (la_alive _ _ _ _ _ Hd02)|unfold b; by rewrite length_insert|lia| | |].
  { by rewrite Htake. }
  { intros k3 Hb3 Hi3. rewrite put_buf_ok by (rewrite ?Hb3, ?Hb2, ?Hb1; lia). rewrite Hb3, Hb2, Hb1.
    by rewrite set_idx_same by (cbn; congruence). }
  intros x3 k3 Hd3 Hb3 Hi3 Hs3. apply (wp_look fs). intros x4 k4 [Hd4 [Hb4 Hi4]] Hr4.
  assert (later fs x k x4 k4) as Hd04 by (eapply later_trans; [exact Hd02|]; by eapply later_trans).
  assert (alive fs k4) as Ha4 by by apply (la_alive _ _ _ _ _ Hd04).
  assert (line k4 = line k) as Hl4 by (rewrite <- Htake; unfold line; by rewrite Hb4, Hb3, Hi4, Hi3).
  assert (c_text (k_buf k4) = line k) as Ht4.
  { rewrite Hb4, Hb3. exact (buf_text fs k q Hq). }
  assert (shown k k4 [Screen nl]) as He4.
  { destruct He1 as [E T]. destruct (still_trans _ _ _ (still_rely _ _ _ _ Hr2)
      (still_trans _ _ _ Hs3 (still_rely _ _ _ _ Hr4))) as [Hc Hcom].
    split; [by rewrite Hc|by rewrite Hcom]. }
  assert (plain (c_text (k_buf k4))) as Hp by (rewrite Ht4; by apply visible_plain).
  assert (command (k_buf k4) = command (line k)) as Hcmd.
  { unfold command. rewrite Ht4. f_equal. symmetry. apply plain_text. by rewrite <- Ht4. }
  pose proof (execute_answers fs x4 k4 Ha4 (k_buf k4) Hp) as Hex. rewrite Hcmd in Hex. unfold answers in Hex.
  apply wp_bind; [apply rely_refl|]. destruct (stops (command (line k))) eqn:Hstop.
  { apply Hex; [apply during_refl|]. by apply HN. }
  apply Hex; [apply during_refl|]. intros xr kr x5 k5 [Hdr [Hbr Hir]] Hle [Hd5 _] He5.
  apply prompt_wp; [by apply (la_alive _ _ _ _ _ Hd5)|]. intros x6 k6 Hd6 Hl6 He6.
  assert (line kr = line k) as Hlr by (rewrite <- Hl4; by apply line_eq).
  apply (HΦ eq_refl xr kr); [by eapply later_trans|exact Hlr| | |exact Hl6|].
  - pose proof (la_count _ _ _ _ _ Hd6). lia.
  - eapply later_trans; [exact Hd04|]. by eapply later_trans.
  - unfold echo, answer. cbn [Z.eqb Pos.eqb]. rewrite Hlr, Hstop.
    apply (shown_app k k4 k6 [Screen nl]); [exact He4|]. by eapply shown_app.
Qed.

(** Any character of the queue. *)
Lemma char_wp c x k (Φ : option unit → Z → kernel D → Prop) : alive fs k → key c = true →
  (c = 10 ∧ stops (command (line k)) = true → ∀ x' k', Φ None x' k') →
  (¬ (c = 10 ∧ stops (command (line k)) = true) →
     ∀ x1 k1 x' k', later fs x k x1 k1 → line k1 = line k → x1 ≤ x' →
     later fs x k x' k' → line k' = edit (line k) c → shown k k' (echo k1 fs c) → Φ (Some tt) x' k') →
  wp (char_steps c) Φ x k.
Proof.
  intros Ha Hk HN HΦ. destruct (decide (c = 10)) as [->|Hc10].
  { apply enter_wp; [exact Ha|auto|]. intros Hst. apply HΦ. intros [_ ?]. congruence. }
  specialize (HΦ ltac:(tauto)).
  assert (∀ x' k', later fs x k x' k' → line k' = edit (line k) c → shown k k' (echo k fs c) →
    Φ (Some tt) x' k') as Hend.
  { intros x' k' Hd. apply (HΦ x k); [apply later_refl|done|exact (la_count _ _ _ _ _ Hd)|exact Hd]. }
  destruct (decide (c = 8)) as [->|Hc8]; [by apply backspace_wp|].
  destruct (visible c) eqn:Hv; [by apply visible_wp|].
  unfold char_steps, edit, echo in *. rewrite Hv in Hend. unfold visible in Hv. rewrite Hv.
  destruct (Z.eqb_spec c 10), (Z.eqb_spec c 8); try done.
  intros x' k' [Hla Hc Hcom Hbf Hix]. apply Hend; [done|by apply line_eq|].
  split; cbn; [by rewrite Hc|]. by rewrite Hcom, app_nil_r.
Qed.
End characters.

(** *** Interrupts *)

(** What an interrupt service routine has no access to. *)
Definition apart {D} (k0 k : kernel D) : Prop :=
  k_buf k = k_buf k0 ∧ k_idx k = k_idx k0 ∧ k_pmm k = k_pmm k0 ∧ k_vfs k = k_vfs k0.

Section interrupts.
Context {D : Type} `{PL : Platform D} (fs : list file).
Implicit Types k : kernel D.

Lemma serve_apart i k0 : keeps (apart k0) (serve i).
Proof. destruct i; cbn [serve]; [unfold irq0|unfold irq1]; ens; by apply ensures_apart. Qed.

Lemma tick_count s o s' : sched_ok s → Sched.sched_tick s = Ok (o, s') → s_count s' = s_count s.
Proof.
  intros Hok. destruct (decide (slice_ends s)) as [Hs|Hs]; [destruct (Z.le_gt_cases (s_count s) 1) as [Hc|Hc]|].
  - rewrite (tick_idle s) by by right. by intros [= _ <-].
  - destruct (tick_slice s Hok Hs Hc) as [(next & _ & E)|[_ E]]; rewrite E; by intros [= _ <-].
  - rewrite (tick_idle s) by by left. by intros [= _ <-].
Qed.

Lemma serve_rely i k k' q x : ready k fs q → serve i k = Ok ((), k') →
  rely fs x k (x + timers [i]) k'.
Proof.
  intros H E. destruct (serve_apart i k k () k' ltac:(by split_and!) E) as [(Hb & Hi & Hp & Hv) _].
  assert (k_con k' = k_con k ∧ com1 (k_dev k') = com1 (k_dev k) ∧
    u64 (k_ticks k') = u64 (k_ticks k + timers [i]) ∧ s_count (k_sched k') = s_count (k_sched k))
    as (Hcon & Hcom & Ht & Hc).
  { destruct i; cbn [serve] in E.
    - destruct (irq0_ok fs k q H) as (k1 & E1 & _ & _ & Hc & Hd & Ht & _ & sw & Es).
      rewrite E in E1. injection E1 as <-. split; [done|]. split; [done|]. split.
      + rewrite Ht. apply u64_small, u64_range.
      + eapply tick_count; [|exact Es]. exact (sh_sched _ _ (rd_shell _ _ _ H)).
    - destruct (irq1_ok fs k q H) as (k1 & q1 & E1 & _ & _ & _ & Hc & Hd & [= _ _ Hs Ht _ _]).
      rewrite E in E1. injection E1 as <-. split; [done|]. split; [done|]. split; [|by rewrite Hs].
      rewrite Ht. f_equal. change (timers [KeyboardIrq]) with 0. lia. }
  split; try done. split; try done.
  - unfold timers. lia.
  - rewrite Ht. f_equal. lia.
  - intros [q1 H1]. destruct (serve_ok fs i k q1 H1) as (k1 & q2 & E1 & H2 & _).
    rewrite E in E1. injection E1 as <-. by exists q2.
Qed.

Lemma set_int_rely b k x : rely fs x k x (set_int b k).
Proof.
  split; try done. split; try done; [f_equal; cbn; lia|]. intros [q H]. exists q. by apply ready_int.
Qed.

Lemma interrupt_rely i m m' q x : ready (l_kernel m) fs q → delivers (k_dev (l_kernel m)) →
  interrupt i m = Ok ((), m') →
  rely fs x (l_kernel m) (x + timers [i]) (l_kernel m').
Proof.
  intros H Hd E. destruct (interrupt_ok fs i m q H Hd) as (d & Hu & Hr & Hint).
  destruct (serve_ok fs i _ q Hr) as (k' & q' & E' & _).
  rewrite (proj1 (Hint k' E')) in E. injection E as <-.
  assert (rely fs x (l_kernel m) x (set_dev d (l_kernel m))) as Hack.
  { split; try done. split; try done; [f_equal; cbn; lia|]. intros [q1 H1]. exists q1.
    apply ready_dev; [exact H1|]. rewrite Hu. exact (sh_com _ _ (rd_shell _ _ _ H1)). }
  eapply rely_trans; [exact Hack|].
  eapply rely_trans; [exact (serve_rely _ _ _ _ x Hr E')|]. unfold resume. cbn [l_kernel l_saved].
  destruct (_ =? _); [apply rely_refl|]. destruct (_ !! _); apply set_int_rely.
Qed.

Lemma timers_nonneg l : 0 ≤ timers l.
Proof. unfold timers. lia. Qed.

(** Without a switch the shell goes on after every interrupt. *)
Lemma take_ok i m q x n : shell_runs fs m q → calm (k_sched (l_kernel m)) (timers [i] + n) → 0 ≤ n →
  ∃ m' q', take_irq i m = Ok ((), m') ∧ shell_runs fs m' q' ∧ q `prefix_of` q' ∧
    rely fs x (l_kernel m) (x + timers [i]) (l_kernel m') ∧ calm (k_sched (l_kernel m')) n.
Proof.
  intros H Hc Hn. unfold take_irq. rewrite (bind_ok _ _ _ m m) by done.
  rewrite (runs_accepts fs i m q H).
  pose proof (λ m' E, interrupt_rely i m m' q x (sr_ready _ _ _ H) (sr_delivers _ _ _ H) E) as Hrely.
  destruct i.
  - change (timers [TimerIrq]) with 1 in Hc.
    destruct (interrupt_tick fs m q H (calm_tick _ _ Hc ltac:(lia))) as (m' & E & H' & Hs).
    exists m', q. split; [exact E|]. split; [exact H'|]. split; [done|]. split; [by apply Hrely|].
    rewrite Hs. replace n with (1 + n - 1) by lia. apply calm_ticked; [exact Hc|lia].
  - destruct (interrupt_key fs m q H) as (m' & q' & E & H' & Hq & Hs). exists m', q'.
    split; [exact E|]. split; [exact H'|]. split; [done|]. split; [by apply Hrely|].
    rewrite Hs. exact Hc.
Qed.

Lemma timers_app l1 l2 : timers (l1 ++ l2) = timers l1 + timers l2.
Proof. unfold timers. rewrite filter_app, length_app. lia. Qed.

Lemma takes_ok irqs : ∀ m q x n, shell_runs fs m q →
  calm (k_sched (l_kernel m)) (timers irqs + n) → 0 ≤ n →
  ∃ m' q', for_each irqs take_irq m = Ok ((), m') ∧ shell_runs fs m' q' ∧ q `prefix_of` q' ∧
    rely fs x (l_kernel m) (x + timers irqs) (l_kernel m') ∧ calm (k_sched (l_kernel m')) n.
Proof.
  induction irqs as [|i irqs IH]; intros m q x n H Hc Hn; cbn [for_each].
  { exists m, q. split; [done|]. split; [done|]. split; [done|].
    change (timers []) with 0 in *. replace (x + 0) with x by lia. split; [apply rely_refl|exact Hc]. }
  change (i :: irqs) with ([i] ++ irqs) in *. rewrite timers_app in *.
  pose proof (timers_nonneg irqs) as Hirqs. rewrite <- Z.add_assoc in Hc.
  destruct (take_ok i m q x _ H Hc ltac:(lia)) as (m1 & q1 & E1 & H1 & Hq1 & Hr1 & Hc1).
  cbn [for_each app]. rewrite (bind_ok _ _ _ _ _ E1).
  destruct (IH m1 q1 (x + timers [i]) n H1 Hc1 Hn) as (m' & q' & E & H' & Hq & Hr & Hc').
  exists m', q'. split; [exact E|]. split; [exact H'|]. split; [by etrans|].
  replace (x + (timers [i] + timers irqs)) with (x + timers [i] + timers irqs) by lia.
  split; [by eapply rely_trans|exact Hc'].
Qed.

(** A step of the shell leaves the rest of the kernel as it was. *)
Lemma guarantee_runs m q k' : shell_runs fs m q → guarantee fs (l_kernel m) k' →
  shell_runs fs (Live k' (l_saved m)) q.
Proof.
  intros [H Hc Hi Hd Hs] [[[= _ _ Hks _ _ Hkp] Hp] Hr].
  split; cbn [l_kernel l_saved]; [by apply Hr|congruence|congruence|by eapply delivers_same|done].
Qed.

(** The logic's promise, for every schedule. *)
Lemma handle_ok {A} (p : prog (kernel D) A) Φ n : 0 ≤ n → ∀ sch m q x,
  wp (rely fs) (guarantee fs) p Φ x (l_kernel m) → shell_runs fs m q →
  calm (k_sched (l_kernel m)) (timers (concat sch) + n) →
  ∃ o m' x', handle p sch m = Ok (o, m') ∧ x ≤ x' ≤ x + timers (concat sch) ∧
    Φ o x' (l_kernel m') ∧
    (is_Some o → x' = x + timers (concat sch) ∧ calm (k_sched (l_kernel m')) n ∧
       ∃ q', shell_runs fs m' q' ∧ q `prefix_of` q').
Proof.
  intros Hn. induction p as [a|B f g IH|f]; intros sch m q x Hw H Hc; cbn [handle wp] in *.
  - destruct (takes_ok (concat sch) m q x n H Hc Hn) as (m' & q' & E & H' & Hq & Hr & Hc').
    exists (Some a), m', (x + timers (concat sch)). rewrite (bind_ok _ _ _ _ _ E).
    split; [done|]. split; [unfold timers; lia|]. split; [by apply Hw|]. intros _. eauto 6.
  - set (irqs := default [] (head sch)).
    assert (timers (concat sch) = timers irqs + timers (concat (tail sch))) as Hsum.
    { destruct sch; [done|]. cbn [concat]. by rewrite timers_app. }
    pose proof (timers_nonneg irqs) as Hirqs. pose proof (timers_nonneg (concat (tail sch))) as Htl.
    rewrite Hsum, <- Z.add_assoc in Hc.
    destruct (takes_ok irqs m q x _ H Hc ltac:(lia)) as (m1 & q1 & E & H1 & Hq & Hr & Hc1).
    rewrite (bind_ok _ _ _ _ _ E). destruct (Hw _ _ Hr) as (b & k2 & E2 & Hg & Hw2).
    rewrite (bind_ok _ _ _ _ _ (on_kernel_ok _ m1 _ _ E2)).
    destruct (IH b (tail sch) (Live k2 (l_saved m1)) q1 (x + timers irqs) Hw2)
      as (o & m' & x' & E' & Hx & HΦ & Hs).
    { by apply guarantee_runs. }
    { cbn [l_kernel]. by destruct Hg as [[[= _ _ -> _ _ _] _] _]. }
    exists o, m', x'. split; [exact E'|]. split; [lia|]. split; [exact HΦ|].
    intros Ho. destruct (Hs Ho) as (-> & Hc' & q' & H' & Hq'). split; [lia|]. split; [exact Hc'|].
    exists q'. split; [done|]. by etrans.
  - set (irqs := default [] (head sch)).
    assert (timers irqs ≤ timers (concat sch)) as Hsum.
    { destruct sch; [done|]. cbn [concat]. rewrite timers_app. unfold timers. cbn. lia. }
    destruct (takes_ok irqs m q x n H) as (m1 & q1 & E & H1 & Hq & Hr & _);
      [eapply calm_less; [exact Hc|lia]|exact Hn|].
    rewrite (bind_ok _ _ _ _ _ E). destruct (Hw _ _ Hr) as (k2 & E2 & HΦ).
    rewrite (bind_ok _ _ _ _ _ (on_kernel_ok _ m1 _ _ E2)).
    eexists None, _, (x + timers irqs). split; [done|]. pose proof (timers_nonneg irqs). split; [lia|].
    split; [exact HΦ|]. by intros [].
Qed.
End interrupts.

(** *** The time at which a command reads the clock *)

Section reading.
Context {D : Type} `{PL : Platform D} (fs : list file).
Implicit Types k : kernel D.

Lemma reply_ext k k' cmd : k_pmm k' = k_pmm k → k_ticks k' = k_ticks k →
  s_count (k_sched k') = s_count (k_sched k) → s_current (k_sched k') = s_current (k_sched k) →
  reply k' fs cmd = reply k fs cmd.
Proof. intros Hp Ht Hn Hc. unfold reply, reply_meminfo, reply_ticks, reply_tasks. by rewrite Hp, Ht, Hn, Hc. Qed.

Lemma alone_current k : alive fs k → s_count (k_sched k) ≤ 1 → s_current (k_sched k) = 0.
Proof.
  intros [q H] Hc. pose proof (so_current _ (sh_sched _ _ (rd_shell _ _ _ H))). lia.
Qed.

Lemma later_ticks x k x' k' : alive fs k → later fs x k x' k' → k_ticks k' = u64 (k_ticks k + (x' - x)).
Proof.
  intros Ha H. destruct (la_alive _ _ _ _ _ H Ha) as [q Hq].
  pose proof (sh_ticks _ _ (rd_shell _ _ _ Hq)). rewrite <- (la_ticks _ _ _ _ _ H).
  symmetry. by apply u64_small.
Qed.

(** With one task, all that a later state shows differently is the clock. *)
Lemma echo_later x k x' k' c : alive fs k → s_count (k_sched k) ≤ 1 → later fs x k x' k' →
  line k' = line k → echo k' fs c = echo (set_ticks (u64 (k_ticks k + (x' - x))) k) fs c.
Proof.
  intros Ha Hc H Hl. unfold echo, answer.
  change (line (set_ticks _ k)) with (line k). rewrite Hl.
  rewrite (reply_ext (set_ticks (u64 (k_ticks k + (x' - x))) k) k'); [done|..]; cbn [k_pmm k_ticks k_sched set_ticks].
  - exact (la_pmm _ _ _ _ _ H).
  - by apply later_ticks.
  - exact (la_tasks _ _ _ _ _ H).
  - rewrite !alone_current; [done..|by apply (la_alive _ _ _ _ _ H)|].
    by rewrite (la_tasks _ _ _ _ _ H).
Qed.
End reading.
