(* ===== verification/Interleaving.v ===== *)
(** * The running kernel, interrupts at any point

    From the [sti] of [_start] on, interrupts come between any two steps of the task
    that runs, where a step reads or writes a variable, draws a character, waits for
    the serial line or sends a byte.  The first task is [_start], which sends one more
    message and becomes the shell: it is a program counter, the ticker's task its loop
    counter, the kernel a step relation, and the theorems are about every reachable
    state. *)
From stdpp Require Import base tactics relations strings gmap numbers list.
From S2P Require Import Prelude CString Memory Interfaces Pmm HeapSpec Heap HeapTheorems Sched.
From S2P Require Import SchedTheorems Platform Pic Keyboard Vfs Serial Framebuffer Gdt Panic Idt.
From S2P Require Import Kernel Shell ShellReplies Session Boot Running Steps ShellSteps Preempt Handling.

Local Open Scope Z_scope.

(** ** Operations *)

(** Where the first task is. *)
Inductive point (D : Type) :=
| Entering         (* before the first prompt *)
| Looping          (* before [keyboard_has_char()] in the loop *)
| Calling          (* it was true; before the test in [keyboard_getchar] *)
| Reading (c : Z)  (* [c] is read from the buffer, [kb_tail] is still the old one *)
| Taken (c : Z)    (* [keyboard_getchar] has returned [c] *)
| Busy (p : prog (kernel D) unit) (next : point D)  (* [p] is left to do, then [next] *)
| Drowsy           (* before [hlt] *)
| Asleep           (* in [hlt] *)
| Off.             (* [reboot] or [panic] was executed *)
#[global] Arguments Entering {D}.
#[global] Arguments Looping {D}.
#[global] Arguments Calling {D}.
#[global] Arguments Reading {D} _.
#[global] Arguments Taken {D} _.
#[global] Arguments Busy {D} _ _.
#[global] Arguments Drowsy {D}.
#[global] Arguments Asleep {D}.
#[global] Arguments Off {D}.

(** Go on with [p], if there is anything to do. *)
Definition settle {D} (p : prog (kernel D) unit) (next : point D) : point D :=
  match p with Done _ => next | _ => Busy p next end.

(** The loop of [background_ticker_task]: a [nop] and [++i], or the next round. *)
Definition TICKER_ROUND : Z := 50000000.
Definition background_ticker_task (i : Z) : Z := if i <? TICKER_ROUND then i + 1 else 0.

(** The kernel, the shell's point, and the [i] of the ticker. *)
Definition config (D : Type) : Type := live D * point D * Z.

(** The [hlt] of the shell's task ends with the interrupt. *)
Definition wake {D} (p : point D) : point D := match p with Asleep => Looping | _ => p end.

(** The points at which the task can go on by itself. *)
Definition awake {D} (p : point D) : Prop := p ≠ Asleep ∧ p ≠ Off.

Section interleaving.
Context {D : Type} `{PL : Platform D}.

(** [_start] after its [sti]: the message, and the call of [shell_task]. *)
Definition after_sti : point D := settle (print_serial_steps sti_message) Entering.

(** The task's next step.  In [Calling] with an empty buffer [keyboard_getchar]
    would wait and test again. *)
Definition shell_step (p : point D) : M (kernel D) (point D) :=
  match p with
  | Entering => mret (settle prompt_steps Looping)
  | Looping =>
      k ← get;
      mret (if keyboard_has_char (k_kbd k) then Calling else Drowsy)
  | Calling =>
      k ← get;
      if negb (keyboard_has_char (k_kbd k)) then mret Calling
      else c ← keys read_key; mret (Reading c)
  | Reading c => keys advance_tail ≫= λ _, mret (Taken c)
  | Taken c => mret (settle (char_steps c) Drowsy)
  | Busy (Done _) next => mret next
  | Busy (Step m f) next => b ← m; mret (settle (f b) next)
  | Busy (Final m) _ => m ≫= λ _, mret Off
  | Drowsy => mret Asleep
  | Asleep => mret Asleep
  | Off => mret Off
  end.

(** A step of the kernel: one of the shell's task or of the ticker's, while it is
    the current one, or an interrupt that is not held off. *)
Inductive kstep : config D → config D → Prop :=
| step_shell m p m' p' n :
    sched_current_id (k_sched (l_kernel m)) = 0 → awake p →
    on_kernel (shell_step p) m = Ok (p', m') →
    kstep (m, p, n) (m', p', n)
| step_ticker m p n :
    sched_current_id (k_sched (l_kernel m)) = 1 → p ≠ Off →
    kstep (m, p, n) (m, p, background_ticker_task n)
| step_irq i m p m' n :
    p ≠ Off → accepts i m = true →
    interrupt i m = Ok ((), m') →
    kstep (m, p, n) (m', if s_current (k_sched (l_kernel m)) =? 0 then wake p else p, n).
End interleaving.

(** ** Specification *)

(** What each point knows of the keys typed and not yet taken. *)
Definition at_point {D} (p : point D) (q : list Z) : Prop :=
  match p with
  | Calling => q ≠ []
  | Reading c => head q = Some c
  | Taken c => key c = true
  | _ => True
  end.

(** No step from here faults or hangs, and the controller passes either interrupt on. *)
Definition progresses {D} `{PL : Platform D} (m : live D) (p : point D) : Prop :=
  (awake p → ∃ p' m', on_kernel (shell_step p) m = Ok (p', m')) ∧
  ∀ i, pic_accepts (irq_line i) (pic1 (k_dev (l_kernel m))) = true ∧
    ∃ m', interrupt i m = Ok ((), m').

(** The values of the ticker's [i]. *)
Definition ticking (n : Z) : Prop := 0 ≤ n ≤ TICKER_ROUND.

(** * Lemmas *)

Lemma ticker_range n : ticking n → ticking (background_ticker_task n).
Proof.
  unfold ticking, background_ticker_task, TICKER_ROUND. intros H.
  destruct (Z.ltb_spec n 50000000); lia.
Qed.

Lemma ticking_0 : ticking 0.
Proof. done. Qed.

Section points.
Context {D : Type} `{PL : Platform D} (fs : list file).

(** The keyboard's part of a well-formed kernel may change. *)
Lemma ready_kbd kb k q q' : ready k fs q → kb_rep kb q' → Forall (λ c, key c = true) q' →
  ready (set_kbd kb k) fs q'.
Proof. intros H Hr Hk. destruct H as [[] ? ? ? ? ?]. by split. Qed.

(** Where the task goes on after a program. *)
Definition resting (p : point D) : Prop := p = Entering ∨ p = Looping ∨ p = Drowsy.
Ltac rest H := destruct H as [->|[->| ->]].

(** What is left of a program can be done, whatever comes in between. *)
Definition knows (p : point D) (k : kernel D) : Prop :=
  match p with
  | Busy p next => (∃ x, wp (rely fs) (guarantee fs) p (λ _ _ _, True) x k) ∧
      resting next
  | _ => True
  end.

Lemma settle_knows p next x k : wp (rely fs) (guarantee fs) p (λ _ _ _, True) x k →
  resting next → knows (settle p next) k.
Proof. intros Hw Hn. destruct p; cbn; [by rest Hn|eauto..]. Qed.

Lemma settle_at p (next : point D) q : resting next → at_point (settle p next) q.
Proof. intros Hn. destruct p; [by rest Hn|done..]. Qed.

Lemma knows_rely p k k' : (∀ x, ∃ x', rely fs x k x' k') → knows p k → knows (wake p) k' ∧ knows p k'.
Proof.
  intros Hr. destruct p as [| | | | |p next| | |]; try done. intros [[x Hw] Hn].
  destruct (Hr x) as (x' & Hx).
  assert (knows (Busy p next) k') by (split; [exists x'; by eapply wp_stable, Hx; [apply rely_trans|]|done]).
  by split.
Qed.

(** A step that takes no key: the queue [q] stays. *)
Ltac keeps q := split; [reflexivity|right; exists q; by split_and!].

Lemma busy_step p next k q : ready k fs q → knows (Busy p next) k →
  ∃ p' k', shell_step (Busy p next) k = Ok (p', k') ∧
    (p' = Off ∨ ∃ q', ready k' fs q' ∧ at_point p' q' ∧ knows p' k' ∧ kept k k').
Proof.
  intros H [[x Hw] Hn]. destruct p as [a|B m f|m]; cbn [shell_step wp] in *.
  - exists next, k. split; [done|]. right. exists q. by rest Hn.
  - destruct (Hw x k (rely_refl fs x k)) as (b & k' & E & [Hk Hr] & Hw').
    exists (settle (f b) next), k'. rewrite (bind_ok _ _ _ _ _ E). split; [done|]. right. exists q.
    split; [by apply Hr|]. split; [by apply settle_at|]. split; [by eapply settle_knows|done].
  - destruct (Hw x k (rely_refl fs x k)) as (k' & E & _).
    exists Off, k'. rewrite (bind_ok _ _ _ _ _ E). split; [done|by left].
Qed.

Lemma point_step p k q : ready k fs q → at_point p q → knows p k → awake p →
  ∃ p' k', shell_step p k = Ok (p', k') ∧
    (p' = Off ∨ ∃ q', ready k' fs q' ∧ at_point p' q' ∧ knows p' k' ∧ kept k k').
Proof.
  intros H Hp Hkn [Ha Ho]. assert (alive fs k) as Hal by by exists q.
  destruct p as [| | |c|c|p next| | |]; [..|by apply (busy_step p next k q)| | |];
    cbn [shell_step at_point] in *.
  - exists (settle prompt_steps Looping), k. split; [done|]. right. exists q.
    split; [done|]. split; [by apply settle_at; right; left|]. split; [|done].
    eapply (settle_knows _ _ 0); [|by right; left]. by apply (prompt_tells fs 0 k Hal); [apply during_refl|].
  - rewrite (bind_ok _ _ _ k k) by done. rewrite (has_char_rep _ _ (rd_kbd _ _ _ H)).
    destruct (decide (q = [])) as [Hq|Hq].
    + rewrite bool_decide_eq_true_2 by done. exists Drowsy, k. keeps q.
    + rewrite bool_decide_eq_false_2 by done. exists Calling, k. keeps q.
  - rewrite (bind_ok _ _ _ k k) by done. rewrite (has_char_rep _ _ (rd_kbd _ _ _ H)).
    rewrite bool_decide_eq_false_2 by done. cbn [negb]. destruct q as [|c q]; [done|].
    rewrite (bind_ok _ _ _ c k).
    + exists (Reading c), k. keeps (c :: q).
    + unfold keys, zoom. rewrite (read_key_ok _ _ _ (rd_kbd _ _ _ H)). by destruct k.
  - destruct q as [|c' q]; [done|]. injection Hp as ->.
    destruct (advance_ok _ _ _ (rd_kbd _ _ _ H)) as (kb & E & Hr & _).
    pose proof (rd_keys _ _ _ H) as [Hc Hq]%Forall_cons_iff.
    exists (Taken c), (set_kbd kb k). split; [unfold mbind, M_bind, keys, zoom; by rewrite E|].
    right. exists q. split; [by eapply ready_kbd|done].
  - exists (settle (char_steps c) Drowsy), k. split; [done|]. right. exists q.
    split; [done|]. split; [by apply settle_at; right; right|]. split; [|done].
    eapply (settle_knows _ _ 0); [|by right; right]. by apply char_wp.
  - exists Asleep, k. keeps q.
  - done.
  - done.
Qed.

(** An interrupt leaves a point what it knows. *)
Lemma at_point_prefix (p : point D) q q' : at_point p q → q `prefix_of` q' → at_point p q'.
Proof. intros H [l ->]. destruct p; cbn in *; try done; by destruct q. Qed.

Lemma wake_point (b : bool) (p : point D) q : at_point p q → at_point (if b then wake p else p) q.
Proof. by destruct b, p. Qed.

Lemma interrupt_total i m q : ready (l_kernel m) fs q → delivers (k_dev (l_kernel m)) →
  ∃ m', interrupt i m = Ok ((), m').
Proof.
  intros H Hd. destruct (interrupt_ok fs i m q H Hd) as (d & _ & Hr & Hint).
  destruct (serve_ok fs i _ q Hr) as (k' & q' & E & _). eexists. exact (proj1 (Hint k' E)).
Qed.

Lemma ready_progresses m p q : ready (l_kernel m) fs q → delivers (k_dev (l_kernel m)) →
  at_point p q → knows p (l_kernel m) → progresses m p.
Proof.
  intros H Hd Hp Hkn. split.
  2:{ intros i. split; [apply delivers_accepts; [exact Hd|apply line_range]|by eapply interrupt_total]. }
  intros Ha. destruct (point_step p _ q H Hp Hkn Ha) as (p' & k' & E & _).
  exists p', (Live k' (l_saved m)). by apply on_kernel_ok.
Qed.

(** *** The schedules of [handle] are among the interleavings *)

Lemma takes_path irqs : ∀ m m' q (p : point D) n, shell_runs fs m q →
  calm (k_sched (l_kernel m)) (timers irqs) →
  p ≠ Off → wake p = p → for_each irqs take_irq m = Ok ((), m') → rtc kstep (m, p, n) (m', p, n).
Proof.
  induction irqs as [|i irqs IH]; intros m m' q p n H Hc Ho Hw E; cbn [for_each] in E.
  { injection E as <-. apply rtc_refl. }
  change (i :: irqs) with ([i] ++ irqs) in Hc. rewrite timers_app in Hc.
  destruct (take_ok fs i m q 0 _ H Hc (timers_nonneg _)) as (m1 & q1 & E1 & H1 & _ & _ & Hc1).
  rewrite (bind_ok _ _ _ _ _ E1) in E. apply rtc_l with (m1, p, n); [|by apply (IH m1 m' q1)].
  unfold take_irq in E1. rewrite (bind_ok _ _ _ m m), (runs_accepts fs i m q H) in E1 by done.
  pose proof (step_irq i m p m1 n Ho (runs_accepts fs i m q H) E1) as Hs. rewrite Hw in Hs.
  by destruct (_ =? 0).
Qed.

Lemma handle_path p Φ c : 0 ≤ c → ∀ sch m q x n next o m',
  wp (rely fs) (guarantee fs) p Φ x (l_kernel m) →
  shell_runs fs m q → calm (k_sched (l_kernel m)) (timers (concat sch) + c) → resting next →
  handle p sch m = Ok (o, m') →
  rtc kstep (m, settle p next, n) (m', if o is Some _ then next else Off, n).
Proof.
  intros Hc0. assert (∀ (p : prog (kernel D) unit) next, resting next →
    settle p next ≠ Off ∧ wake (settle p next) = settle p next) as Hset.
  { intros p0 next Hn. by destruct p0; rest Hn. }
  induction p as [a|B f g IH|f]; intros sch m q x n next o m' Hw H Hc Hn E; cbn [handle] in E;
    apply bind_inv in E as ([] & m1 & E1 & E).
  { injection E as <- <-. destruct (Hset (Done a) next Hn).
    apply (takes_path (concat sch) _ _ q); [exact H|eapply calm_less; [exact Hc|lia]|done..]. }
  all: assert (timers (concat sch) = timers (default [] (head sch)) + timers (concat (tail sch))) as Hsum
    by (destruct sch; [done|cbn [concat]; by rewrite timers_app]).
  all: pose proof (timers_nonneg (concat (tail sch))) as Htl.
  all: rewrite Hsum, <- Z.add_assoc in Hc.
  all: destruct (takes_ok fs (default [] (head sch)) m q x (timers (concat (tail sch)) + c) H Hc ltac:(lia))
    as (m1' & q1 & E1' & H1 & _ & Hr & Hc1); rewrite E1 in E1'; injection E1' as <-.
  all: match goal with |- rtc kstep (_, settle ?p _, _) _ =>
    destruct (Hset p next Hn) as [Ho Hwk];
    transitivity (m1, settle p next, n);
      [apply (takes_path (default [] (head sch)) _ _ q); [exact H|eapply calm_less; [exact Hc|lia]|done..]|] end.
  all: assert (sched_current_id (k_sched (l_kernel m1)) = 0) as Hcur by exact (sr_current _ _ _ H1).
  - destruct (Hw _ _ Hr) as (b & k2 & E2 & Hg & Hw2).
    rewrite (bind_ok _ _ _ _ _ (on_kernel_ok _ m1 _ _ E2)) in E.
    apply rtc_l with (Live k2 (l_saved m1), settle (g b) next, n).
    + apply step_shell; [done|done|]. apply on_kernel_ok. cbn [settle shell_step].
      by rewrite (bind_ok _ _ _ _ _ E2).
    + eapply (IH b); [exact Hw2|by apply guarantee_runs| |exact Hn|exact E].
      cbn [l_kernel]. by destruct Hg as [[[= _ _ -> _ _ _] _] _].
  - destruct (Hw _ _ Hr) as (k2 & E2 & _). apply bind_inv in E as ([] & m2 & E & [= <- <-]).
    rewrite (on_kernel_ok _ m1 _ _ E2) in E. injection E as <-.
    apply rtc_once, step_shell; [done|done|]. apply on_kernel_ok. cbn [settle shell_step].
    by rewrite (bind_ok _ _ _ _ _ E2).
Qed.

(** *** A step and an interrupt while the first task goes on *)

Lemma going_step m p q m' p' : shell_runs fs m q → at_point p q ∧ knows p (l_kernel m) → awake p →
  on_kernel (shell_step p) m = Ok (p', m') →
  p' = Off ∨ ∃ q', shell_runs fs m' q' ∧ (at_point p' q' ∧ knows p' (l_kernel m')) ∧
    k_sched (l_kernel m') = k_sched (l_kernel m).
Proof.
  intros [Hr Hc Hi Hd Hs] [Hp Hkn] Ha E.
  destruct (point_step p _ q Hr Hp Hkn Ha) as (p1 & k1 & E1 & Hstep).
  rewrite (on_kernel_ok _ m _ _ E1) in E. injection E as <- <-.
  destruct Hstep as [->|(q1 & H1 & Hp1 & Hk1 & [= _ _ Hks _ _ Hkp] & Hpic)]; [by left|].
  right. exists q1. split; [|split; [by split|done]].
  split; cbn [l_kernel l_saved]; [done|congruence|congruence|by eapply delivers_same|done].
Qed.

Lemma going_irq i m p q m' q' b : shell_runs fs m q → at_point p q ∧ knows p (l_kernel m) →
  interrupt i m = Ok ((), m') → q `prefix_of` q' →
  at_point (if b : bool then wake p else p) q' ∧ knows (if b then wake p else p) (l_kernel m').
Proof.
  intros Hm [Hp Hkn] E Hq. split; [by eapply wake_point, at_point_prefix|].
  assert (knows (wake p) (l_kernel m') ∧ knows p (l_kernel m')) as [? ?]; [|by destruct b].
  eapply knows_rely; [|exact Hkn]. intros x. eexists.
  exact (interrupt_rely fs i m m' q x (sr_ready _ _ _ Hm) (sr_delivers _ _ _ Hm) E).
Qed.

(** *** The two phases of the kernel *)

(** The shell has the processor, in its first time slice or as the only task. *)
Definition shell_phase (m : live D) (p : point D) (q : list Z) : Prop :=
  shell_runs fs m q ∧ (at_point p q ∧ knows p (l_kernel m)) ∧ 0 ≤ s_ticks (k_sched (l_kernel m)) ≤ 1 ∧
  s_count (k_sched (l_kernel m)) = 2 ∧ state_of (k_sched (l_kernel m)) 1 = READY.

(** The second task has it, for good. *)
Definition ticker_phase (m : live D) (p : point D) (q : list Z) : Prop :=
  stalled m ∧ (ready (l_kernel m) fs q ∧ delivers (k_dev (l_kernel m))) ∧
  (at_point p q ∧ knows p (l_kernel m)) ∧ s_ticks (k_sched (l_kernel m)) = 2.

Definition phase (x : config D) : Prop :=
  ticking x.2 ∧ (x.1.2 = Off ∨ ∃ q, shell_phase x.1.1 x.1.2 q ∨ ticker_phase x.1.1 x.1.2 q).

(** In its phase the ticker loops, and nothing else happens. *)
Lemma ticker_phase_step m p q n y : ticker_phase m p q →
  kstep (m, p, n) y → y = (m, p, background_ticker_task n).
Proof.
  intros [[Hi Hc] _] Hy. inversion Hy; subst; [|done|].
  - unfold sched_current_id in *. congruence.
  - unfold accepts in *. by rewrite Hi in *.
Qed.

Lemma ticker_phase_runs m p q n y : ticker_phase m p q → p ≠ Off →
  rtc kstep (m, p, n) y ↔ ∃ k, y = (m, p, Nat.iter k background_ticker_task n).
Proof.
  intros H Ho. split.
  - intros Hy. remember (m, p, n) as x eqn:Hx. revert n Hx.
    induction Hy as [x|x x1 y Hs _ IH]; intros n ->; [by exists 0%nat|].
    destruct (IH _ (ticker_phase_step _ _ _ _ _ H Hs)) as [k ->].
    exists (S k). by rewrite Nat.iter_succ_r.
  - intros [k ->]. induction k as [|k IH]; [apply rtc_refl|].
    rewrite Nat.iter_succ. eapply rtc_r; [exact IH|]. apply step_ticker; [|exact Ho].
    by destruct H as ((_ & Hc) & _).
Qed.

Lemma shell_phase_step m p q m' p' : shell_phase m p q → awake p →
  on_kernel (shell_step p) m = Ok (p', m') →
  p' = Off ∨ ∃ q', shell_phase m' p' q'.
Proof.
  intros (Hm & Hp & Hs) Ha E.
  destruct (going_step m p q m' p' Hm Hp Ha E) as [->|(q1 & H1 & Hp1 & Hks)]; [by left|].
  right. exists q1. split; [exact H1|]. split; [exact Hp1|]. by rewrite Hks.
Qed.

Lemma shell_phase_irq i m p q m' : shell_phase m p q → interrupt i m = Ok ((), m') →
  let p' := if s_current (k_sched (l_kernel m)) =? 0 then wake p else p in
  ∃ q', shell_phase m' p' q' ∨ ticker_phase m' p' q'.
Proof.
  intros (Hm & Hp & Ht & Hcnt & Hrdy) E. cbn zeta.
  pose proof (λ q', going_irq i m p q m' q' (s_current (k_sched (l_kernel m)) =? 0) Hm Hp E) as Hp'.
  destruct i.
  - destruct (decide (slice_ends (k_sched (l_kernel m)))) as [Hs|Hs];
      pose proof Hs as Hpar; rewrite slice_parity in Hpar.
    + destruct (interrupt_switch fs m q Hm Hs Hcnt Hrdy) as (m1 & E1 & Hst & Hr1 & Hd1 & Ht1).
      rewrite E1 in E. injection E as <-. exists q. right. split; [exact Hst|].
      split; [by split|]. split; [by apply Hp'|]. rewrite Ht1.
      change (s_ticks (ticked ?s)) with (u32 (s_ticks s + 1)).
      assert (s_ticks (k_sched (l_kernel m)) = 1) as -> by (Z.div_mod_to_equations; lia). done.
    + destruct (interrupt_tick fs m q Hm (or_introl Hs)) as (m1 & E1 & H1 & Hks).
      rewrite E1 in E. injection E as <-. exists q. left. split; [exact H1|].
      split; [by apply Hp'|]. rewrite Hks. split; [|done].
      change (s_ticks (ticked ?s)) with (u32 (s_ticks s + 1)).
      assert (s_ticks (k_sched (l_kernel m)) = 0) as -> by (Z.div_mod_to_equations; lia). done.
  - destruct (interrupt_key fs m q Hm) as (m1 & q1 & E1 & H1 & Hq & Hks).
    rewrite E1 in E. injection E as <-. exists q1. left. split; [exact H1|].
    split; [by apply Hp'|]. by rewrite Hks.
Qed.

Lemma phase_step x y : phase x → kstep x y → phase y.
Proof.
  intros [Hn Hx] Hs. destruct Hs as [m p m' p' n Hc0 Ha E|m p n _ Ho|i m p m' n Ho Hi E];
    cbn [fst snd] in *.
  - split; [exact Hn|]. cbn [fst snd]. destruct Hx as [Hoff|(q & [Hx|[[_ Hc] _]])].
    + by destruct Ha.
    + destruct (shell_phase_step _ _ _ _ _ Hx Ha E) as [?|[q' ?]]; eauto.
    + unfold sched_current_id in *. congruence.
  - split; [by apply ticker_range|exact Hx].
  - split; [exact Hn|]. cbn [fst snd]. destruct Hx as [Hoff|(q & [Hx|[[Hi' _] _]])];
      [done| |unfold accepts in Hi; by rewrite Hi' in Hi].
    right. by eapply shell_phase_irq.
Qed.

Lemma shell_phased m p q n : shell_phase m p q → ticking n → phase (m, p, n).
Proof. intros H Hn. split; [exact Hn|]. right. exists q. by left. Qed.

Lemma phase_reachable x y : phase x → rtc kstep x y → phase y.
Proof. intros Hx. induction 1; eauto using phase_step. Qed.

(** A tick in the shell's phase is counted. *)
Lemma shell_phase_tick m p q n : shell_phase m p q → p ≠ Off →
  ∃ m', kstep (m, p, n) (m', wake p, n) ∧
    s_ticks (k_sched (l_kernel m')) = s_ticks (k_sched (l_kernel m)) + 1.
Proof.
  intros (Hm & _ & Ht & Hcnt & Hrdy) Ho.
  assert (∃ m', interrupt TimerIrq m = Ok ((), m') ∧
    s_ticks (k_sched (l_kernel m')) = s_ticks (ticked (k_sched (l_kernel m)))) as (m' & E & Hs).
  { destruct (decide (slice_ends (k_sched (l_kernel m)))) as [Hs|Hs].
    - destruct (interrupt_switch fs m q Hm Hs Hcnt Hrdy) as (m1 & E1 & _ & _ & _ & Ht1). by exists m1.
    - destruct (interrupt_tick fs m q Hm (or_introl Hs)) as (m1 & E1 & _ & Hks).
      exists m1. by rewrite Hks. }
  exists m'. split.
  - pose proof (step_irq TimerIrq m p m' n Ho (runs_accepts fs _ m q Hm) E) as Hstep.
    by rewrite (sr_current _ _ _ Hm) in Hstep.
  - rewrite Hs. change (s_ticks (ticked ?s)) with (u32 (s_ticks s + 1)). by rewrite u32_small by lia.
Qed.

Lemma wake_on (p : point D) : p ≠ Off → wake p ≠ Off.
Proof. by destruct p. Qed.

(** Two ticks later the second task has the processor. *)
Lemma shell_phase_ends m p q n : shell_phase m p q → ticking n → p ≠ Off →
  ∃ m' p', rtc kstep (m, p, n) (m', p', n) ∧ p' ≠ Off ∧ s_ticks (k_sched (l_kernel m')) = 2.
Proof.
  intros Hm Hn Ho. destruct (shell_phase_tick m p q n Hm Ho) as (m1 & Hs1 & Ht1).
  pose proof (wake_on p Ho) as Ho1.
  destruct (phase_step _ _ (shell_phased _ _ _ n Hm Hn) Hs1) as (_ & [?|(q1 & [Hm1|Hm1])]); [done|..].
  - cbn [fst snd] in Hm1. destruct (shell_phase_tick m1 _ q1 n Hm1 Ho1) as (m2 & Hs2 & Ht2).
    destruct (decide (s_ticks (k_sched (l_kernel m1)) = 0)) as [H0|H0].
    + destruct Hm as (_ & _ & ? & _). lia.
    + exists m2, (wake (wake p)). split; [by eapply rtc_l, rtc_once|]. split; [by apply wake_on|].
      destruct Hm1 as (_ & _ & ? & _). lia.
  - exists m1, (wake p). split; [by apply rtc_once|]. split; [done|]. by destruct Hm1 as (_ & _ & _ & ?).
Qed.

Lemma phase_ready m p n : phase (m, p, n) → p ≠ Off →
  ∃ q, ready (l_kernel m) fs q ∧ at_point p q ∧ progresses m p.
Proof.
  intros (_ & [?|(q & [([Hr _ _ Hd _] & [Hp Hk] & _)|(_ & [Hr Hd] & [Hp Hk] & _)])]) Ho; [done|exists q..].
  all: split; [exact Hr|]; split; [exact Hp|]; by eapply ready_progresses.
Qed.

(** *** A single task *)

(** The shell has the processor for good. *)
Definition lone_phase (x : config D) : Prop :=
  ticking x.2 ∧ (x.1.2 = Off ∨ ∃ q, shell_runs fs x.1.1 q ∧
    (at_point x.1.2 q ∧ knows x.1.2 (l_kernel x.1.1)) ∧ s_count (k_sched (l_kernel x.1.1)) ≤ 1).

Lemma lone_irq i m p q : shell_runs fs m q → at_point p q ∧ knows p (l_kernel m) →
  s_count (k_sched (l_kernel m)) ≤ 1 → ∃ m' q', interrupt i m = Ok ((), m') ∧ shell_runs fs m' q' ∧
    (at_point (wake p) q' ∧ knows (wake p) (l_kernel m')) ∧ s_count (k_sched (l_kernel m')) ≤ 1.
Proof.
  intros Hm Hp Hc.
  destruct (take_ok fs i m q 0 0 Hm (or_introl Hc) ltac:(lia)) as (m' & q' & E & H' & Hq & Hr & _).
  unfold take_irq in E. rewrite (bind_ok _ _ _ m m), (runs_accepts fs i m q Hm) in E by done.
  exists m', q'. split; [exact E|]. split; [exact H'|].
  split; [exact (going_irq i m p q m' q' true Hm Hp E Hq)|].
  by rewrite (la_tasks _ _ _ _ _ (re_later _ _ _ _ _ Hr)).
Qed.

Lemma lone_step x y : lone_phase x → kstep x y → lone_phase y.
Proof.
  intros [Hn Hx] Hs. destruct Hs as [m p m' p' n Hc0 Ha E|m p n _ Ho|i m p m' n Ho Hi E];
    cbn [fst snd] in *.
  - split; [exact Hn|]. cbn [fst snd]. destruct Hx as [Hoff|(q & Hm & Hp & Hc)]; [by destruct Ha|].
    destruct (going_step m p q m' p' Hm Hp Ha E) as [->|(q1 & H1 & Hp1 & Hks)]; [by left|].
    right. exists q1. split; [exact H1|]. split; [exact Hp1|]. by rewrite Hks.
  - split; [by apply ticker_range|exact Hx].
  - split; [exact Hn|]. cbn [fst snd]. destruct Hx as [Hoff|(q & Hm & Hp & Hc)]; [done|].
    destruct (lone_irq i m p q Hm Hp Hc) as (m1 & q1 & E1 & H1). rewrite E in E1. injection E1 as <-.
    right. exists q1. by rewrite (sr_current _ _ _ Hm).
Qed.

Lemma lone_reachable x y : lone_phase x → rtc kstep x y → lone_phase y.
Proof. intros Hx. induction 1; eauto using lone_step. Qed.
End points.

(** *** From power-on *)

Section from_boot.
Context {D : Type} `{PL : Platform D} (lm : link_map) (bi : boot_info)
  (d : D) (memory : mem) (g : gdt_state) (i : idt_state).

(** The message of [_start] is sent like any other text. *)
Lemma sti_message_says x k : alive boot_files k → utters boot_files x k
  (print_serial_steps sti_message) () (mret tt) (crlf sti_message).
Proof.
  intros Ha. assert (plain sti_message) as Hp by by apply plain_check.
  pose proof (utters_serial boot_files x k sti_message Ha) as H. rewrite (plain_text _ Hp) in H.
  by apply H, plain_bytes.
Qed.

Lemma after_sti_knows k q : ready k boot_files q →
  at_point (D:=D) after_sti q ∧ knows boot_files after_sti k.
Proof.
  intros Hr. split; [apply settle_at; by left|].
  eapply (settle_knows boot_files _ _ 0); [|by left].
  apply (sti_message_says 0 k); [by exists q|apply during_refl|done].
Qed.

Lemma booted_phase es p offset : boot_given lm bi d → bi_memmap bi = Some es →
  bi_hhdm bi = Some offset → memory_given es offset p memory →
  ∃ k, start lm bi (kernel_boot d memory g i) = Ok (Returned, k) ∧
    shell_phase boot_files (Live k ∅) after_sti [].
Proof.
  intros Hbi Hes Hoff Hmem. destruct (boot_ok lm bi d memory g i es p offset Hbi Hes Hoff Hmem)
    as (k & F & E & Hb & _ & _ & _ & Hc & Hcur & Htask & _ & Ht).
  exists k. split; [exact E|].
  split; [exact (booted_runs lm bi k Hb Hcur)|].
  split; [exact (after_sti_knows k [] (bt_ready _ _ _ Hb))|]. cbn [l_kernel].
  split; [by rewrite Ht|]. split; [exact Hc|]. unfold state_of.
  change (Z.to_nat 1) with 1%nat. by rewrite Htask.
Qed.

Lemma bare_phase : boot_given lm bi d → bi_memmap bi = None ∨ bi_hhdm bi = None →
  ∃ k, start lm bi (kernel_boot d memory g i) = Ok (Returned, k) ∧
    lone_phase boot_files (Live k ∅, after_sti, 0).
Proof.
  intros Hbi Hno. destruct (boot_bare_ok lm bi d memory g i Hbi Hno) as (k & E & Hb & _ & _ & _ & Hc & Hcur).
  exists k. split; [exact E|]. split; [apply ticking_0|]. right. exists []. cbn [fst snd].
  split; [exact (booted_runs lm bi k Hb Hcur)|].
  split; [exact (after_sti_knows k [] (bt_ready _ _ _ Hb))|]. cbn [l_kernel]. by rewrite Hc.
Qed.
End from_boot.

(** * Properties *)

(** C1: whatever the order in which the steps of the shell and of the ticker, the
    timer and the keyboard interleave from the [sti] of the boot sequence on, with
    interrupts also between the test of the key queue, the read of a key and the step
    of [kb_tail], and in its handling and in the prompt between any two characters
    drawn, bytes sent and variables accessed, every reachable state is well-formed,
    the key that is read is the oldest one of the queue, neither the shell's next step
    nor an interrupt faults or hangs, and the interrupt controller holds neither
    interrupt off, until [reboot] or [panic] is executed; the ticker's counter stays
    in its bounds, far from the end of an [int]. *)
Theorem interleaved_safe (D : Type) (PL : Platform D) (lm : link_map) (bi : boot_info)
    (es : list memmap_entry) (p0 offset : Z) (d : D) (memory : mem) (g : gdt_state) (i : idt_state)
    (Hbi : boot_given lm bi d) (Hes : bi_memmap bi = Some es) (Hoff : bi_hhdm bi = Some offset)
    (Hmem : memory_given es offset p0 memory) :
  ∃ k, start lm bi (kernel_boot d memory g i) = Ok (Returned, k) ∧
    ∀ m p n, rtc kstep (Live k ∅, after_sti, 0) (m, p, n) → p ≠ Off →
      0 ≤ n ≤ TICKER_ROUND ∧
      ∃ q, ready (l_kernel m) boot_files q ∧ at_point p q ∧ progresses m p.
Proof.
  destruct (booted_phase lm bi d memory g i es p0 offset Hbi Hes Hoff Hmem) as (k & E & Hk).
  exists k. split; [exact E|]. intros m p n Hr Ho.
  pose proof (phase_reachable boot_files _ _ (shell_phased _ _ _ _ _ Hk ticking_0) Hr) as Hm.
  split; [exact (proj1 Hm)|].
  exact (phase_ready boot_files m p n Hm Ho).
Qed.

Lemma interleaved_safe_witness :
  ∃ (k : kernel board) m, start demo_link demo_boot
      (kernel_boot demo_board demo_memory gdt_boot (IdtState [] 0 0)) = Ok (Returned, k) ∧
    interrupt KeyboardIrq (Live k ∅) = Ok ((), m) ∧ progresses (Live k ∅) after_sti.
Proof.
  destruct (interleaved_safe board board_platform demo_link demo_boot demo_map 256 0 demo_board
    demo_memory gdt_boot (IdtState [] 0 0) (demo_boot_given _ _) eq_refl eq_refl demo_memory_given)
    as (k & E & H).
  destruct (H _ _ _ (rtc_refl _ _) ltac:(discriminate)) as (_ & q & _ & _ & Hp).
  destruct (proj2 (proj2 Hp KeyboardIrq)) as (m & Em). exists k, m.
  split; [exact E|]. split; [exact Em|exact Hp].
Defined.

(** C3: under any such interleaving the kernel serves at most two timer interrupts: up
    to the first the shell has the processor with interrupts on; with the second,
    which can always come, the ticker task has it with interrupts off: from there the
    reachable states are exactly those in which the ticker has counted on, round after
    round, and the kernel takes no further step, be it of the shell or an interrupt,
    wherever in its turn the shell was. *)
Theorem interleaved_stalls (D : Type) (PL : Platform D) (lm : link_map) (bi : boot_info)
    (es : list memmap_entry) (p0 offset : Z) (d : D) (memory : mem) (g : gdt_state) (i : idt_state)
    (Hbi : boot_given lm bi d) (Hes : bi_memmap bi = Some es) (Hoff : bi_hhdm bi = Some offset)
    (Hmem : memory_given es offset p0 memory) :
  ∃ k, start lm bi (kernel_boot d memory g i) = Ok (Returned, k) ∧
    ∀ m p n, rtc kstep (Live k ∅, after_sti, 0) (m, p, n) → p ≠ Off →
      let s := k_sched (l_kernel m) in let on := p_int (k_panic (l_kernel m)) in
      (0 ≤ s_ticks s ≤ 1 ∧ s_current s = 0 ∧ on = true ∧
         ∃ m' p', rtc kstep (m, p, n) (m', p', n) ∧ p' ≠ Off ∧
           s_ticks (k_sched (l_kernel m')) = 2) ∨
      (s_ticks s = 2 ∧ s_current s = 1 ∧ on = false ∧
         ∀ x, rtc kstep (m, p, n) x ↔ ∃ j, x = (m, p, Nat.iter j background_ticker_task n)).
Proof.
  destruct (booted_phase lm bi d memory g i es p0 offset Hbi Hes Hoff Hmem) as (k & E & Hk).
  exists k. split; [exact E|]. intros m p n Hr Ho.
  destruct (phase_reachable boot_files _ _ (shell_phased _ _ _ _ _ Hk ticking_0) Hr)
    as (Hn & [?|(q & [Hm|Hm])]); cbn [fst snd] in *; [done|left|right].
  - pose proof (shell_phase_ends boot_files m p q n Hm Hn Ho) as Hend.
    destruct Hm as ([_ Hc Hi _] & _ & Ht & _). exact (conj Ht (conj Hc (conj Hi Hend))).
  - pose proof (λ y, ticker_phase_runs boot_files m p q n y Hm Ho) as Hruns.
    destruct Hm as ([Hi Hc] & _ & _ & Ht). exact (conj Ht (conj Hc (conj Hi Hruns))).
Qed.

Lemma interleaved_stalls_witness :
  ∃ (k : kernel board) m p n, start demo_link demo_boot
      (kernel_boot demo_board demo_memory gdt_boot (IdtState [] 0 0)) = Ok (Returned, k) ∧
    rtc kstep (Live k ∅, after_sti, 0) (m, p, n) ∧
    ∀ x, rtc kstep (m, p, n) x → x.1 = (m, p).
Proof.
  destruct (interleaved_stalls board board_platform demo_link demo_boot demo_map 256 0 demo_board
    demo_memory gdt_boot (IdtState [] 0 0) (demo_boot_given _ _) eq_refl eq_refl demo_memory_given)
    as (k & E & H).
  destruct (H _ _ _ (rtc_refl _ _) ltac:(discriminate))
    as [(_ & _ & _ & m & p & Hr & Ho & Ht)|(_ & _ & _ & Hruns)].
  - destruct (H m p 0 Hr Ho) as [(Hle & _)|(_ & _ & _ & Hruns)]; [exfalso; rewrite Ht in Hle; lia|].
    exists k, m, p, 0. split; [exact E|]. split; [exact Hr|].
    intros x Hx. apply Hruns in Hx as [j ->]. reflexivity.
  - exists k, (Live k ∅), after_sti, 0. split; [exact E|]. split; [apply rtc_refl|].
    intros x Hx. apply Hruns in Hx as [j ->]. reflexivity.
Defined.

(** C2: interrupts while a character is handled: with the shell as the only task, on
    every schedule of timer and keyboard interrupts between the drawing of any two
    characters, the output of any two bytes and the accesses to any two variables,
    which is one of the interleavings above, the handling ends without a fault, by
    coming back unless the line says [reboot] or [panic]; the line, the screen and the
    serial line are then exactly those of a handling without interrupts, but for the
    count that [ticks] prints, which is one the clock had meanwhile; no tick and no
    key that was queued is lost. *)
Theorem preempted_char (D : Type) (PL : Platform D) (fs : list file) (m : live D) (q : list Z)
    (c : Z) (sch : list (list irq)) (H : shell_runs fs m q)
    (Hone : s_count (k_sched (l_kernel m)) ≤ 1) (Hc : key c = true) :
  let k := l_kernel m in
  ∃ o m', handle (char_steps c) sch m = Ok (o, m') ∧
    (∀ n, rtc kstep (m, Taken c, n) (m', if o is Some _ then Drowsy else Off, n)) ∧
    (o = None ↔ c = 10 ∧ stops (command (line k)) = true) ∧
    (o = Some () → let k' := l_kernel m' in
       line k' = edit (line k) c ∧
       k_ticks k' = u64 (k_ticks k + timers (concat sch)) ∧
       (∃ q', shell_runs fs m' q' ∧ q `prefix_of` q') ∧
       ∃ j, 0 ≤ j ≤ timers (concat sch) ∧
         shown k k' (echo (set_ticks (u64 (k_ticks k + j)) k) fs c)).
Proof.
  intros k. assert (alive fs k) as Ha by (exists q; exact (sr_ready _ _ _ H)).
  set (Φ := λ (o : option unit) (x' : Z) (k' : kernel D),
    (o = None ↔ c = 10 ∧ stops (command (line k)) = true) ∧
    (o = Some () → later fs 0 k x' k' ∧ line k' = edit (line k) c ∧
       ∃ j, 0 ≤ j ≤ x' ∧ shown k k' (echo (set_ticks (u64 (k_ticks k + j)) k) fs c))).
  assert (wp (rely fs) (guarantee fs) (char_steps c) Φ 0 k) as Hw.
  { apply char_wp; [done|done|by intros Hst x' k'|].
    intros Hst x1 k1 x' k' H1 Hl1 Hx H' Hl' He. split; [by split|]. intros _.
    split; [exact H'|]. split; [exact Hl'|]. exists x1. pose proof (la_count _ _ _ _ _ H1).
    split; [lia|]. rewrite (echo_later fs 0 k x1 k1 c Ha Hone H1 Hl1) in He.
    by replace (k_ticks k + (x1 - 0)) with (k_ticks k + x1) in He by lia. }
  assert (calm (k_sched (l_kernel m)) (timers (concat sch) + 0)) as Hcalm by by left.
  destruct (handle_ok fs _ _ 0 ltac:(lia) sch m q 0 Hw H Hcalm) as (o & m' & x' & E & _ & [Ho HΦ] & Hs).
  exists o, m'. split; [exact E|]. split.
  { intros n. apply rtc_l with (m, settle (char_steps c) Drowsy, n).
    - apply step_shell; [exact (sr_current _ _ _ H)|by split|].
      clear. unfold on_kernel, zoom. cbn [shell_step]. by destruct m.
    - eapply (handle_path fs _ _ 0 ltac:(lia) sch m q 0); [exact Hw|exact H|exact Hcalm|by right; right|exact E]. }
  split; [exact Ho|]. intros Hret.
  destruct (HΦ Hret) as (Hl & Hline & j & Hj & Hshow). destruct (Hs ltac:(by rewrite Hret)) as (-> & _ & Hq).
  split; [exact Hline|]. split.
  { rewrite (later_ticks fs 0 k _ _ Ha Hl). f_equal. lia. }
  split; [exact Hq|]. exists j. split; [lia|exact Hshow].
Qed.

Lemma preempted_char_witness :
  ∃ m m' : live board, handle (char_steps 97) [[TimerIrq]; [KeyboardIrq; TimerIrq]] m = Ok (Some (), m') ∧
    line (l_kernel m) = [] ∧ line (l_kernel m') = [97] ∧
    k_ticks (l_kernel m') = u64 (k_ticks (l_kernel m) + 2).
Proof.
  destruct (boot_bare_ok demo_link (BootInfo true (Some [demo_fb]) None None) demo_board ∅ gdt_boot
    (IdtState [] 0 0) (demo_boot_given _ _) (or_introl eq_refl)) as (k & _ & Hb & _ & _ & _ & Hc & Hcur).
  destruct (preempted_char board board_platform boot_files (Live k ∅) [] 97 [[TimerIrq]; [KeyboardIrq; TimerIrq]]
    (booted_runs _ _ k Hb Hcur)) as (o & m' & E & _ & Ho & Hr).
  - cbn [l_kernel]. rewrite Hc. reflexivity.
  - reflexivity.
  - cbn [l_kernel] in *. rewrite (bt_line _ _ _ Hb) in *.
    destruct o as [[]|]; [|destruct (proj1 Ho eq_refl); discriminate].
    destruct (Hr eq_refl) as (Hl & Ht & _). exists (Live k ∅), m'. cbn [l_kernel].
    rewrite (bt_line _ _ _ Hb). split; [exact E|]. split; [reflexivity|]. split; [exact Hl|exact Ht].
Defined.

(** C13: the kernel without a memory map has no second task and keeps listening: in
    every state that is reachable under any interleaving of the shell's steps with
    interrupts, whatever has been typed, unless [reboot] or [panic] was executed, the
    shell is the current task, the interrupt flag is set and the interrupt controller,
    all earlier interrupts ended, passes on a timer or a keyboard interrupt at once;
    it is served without a fault; the state is well-formed, and the shell's own next
    step does not fault or hang either. *)
Theorem lone_shell_listens (D : Type) (PL : Platform D) (lm : link_map) (bi : boot_info)
    (d : D) (memory : mem) (g : gdt_state) (i : idt_state)
    (Hbi : boot_given lm bi d) (Hno : bi_memmap bi = None ∨ bi_hhdm bi = None) :
  ∃ k, start lm bi (kernel_boot d memory g i) = Ok (Returned, k) ∧
    ∀ m p n, rtc kstep (Live k ∅, after_sti, 0) (m, p, n) → p ≠ Off →
      s_current (k_sched (l_kernel m)) = 0 ∧ p_int (k_panic (l_kernel m)) = true ∧
      p_isr (pic1 (k_dev (l_kernel m))) = 0 ∧
      (∀ j, accepts j m = true ∧ ∃ m', kstep (m, p, n) (m', wake p, n) ∧ interrupt j m = Ok ((), m')) ∧
      ∃ q, ready (l_kernel m) boot_files q ∧ at_point p q ∧ progresses m p.
Proof.
  destruct (bare_phase lm bi d memory g i Hbi Hno) as (k & E & Hk).
  exists k. split; [exact E|]. intros m p n Hr Ho.
  destruct (lone_reachable boot_files _ _ Hk Hr) as (_ & [?|(q & Hm & Hp & Hc)]); cbn [fst snd] in *; [done|].
  split; [exact (sr_current _ _ _ Hm)|]. split; [exact (sr_int _ _ _ Hm)|].
  split; [exact (dl_isr _ (sr_delivers _ _ _ Hm))|]. split.
  - intros j. split; [by eapply runs_accepts|].
    destruct (lone_irq boot_files j m p q Hm Hp Hc) as (m' & q' & E' & _). exists m'. split; [|exact E'].
    pose proof (step_irq j m p m' n Ho (runs_accepts boot_files j m q Hm) E') as Hs.
    by rewrite (sr_current _ _ _ Hm) in Hs.
  - exists q. destruct Hp as [Hp Hk']. split; [exact (sr_ready _ _ _ Hm)|]. split; [exact Hp|].
    by eapply ready_progresses; [exact (sr_ready _ _ _ Hm)|exact (sr_delivers _ _ _ Hm)|..].
Qed.

Lemma lone_shell_listens_witness :
  ∃ (k : kernel board) m1 m2, start demo_link (BootInfo true (Some [demo_fb]) None None)
      (kernel_boot demo_board ∅ gdt_boot (IdtState [] 0 0)) = Ok (Returned, k) ∧
    kstep (Live k ∅, after_sti, 0) (m1, after_sti, 0) ∧ kstep (m1, after_sti, 0) (m2, after_sti, 0).
Proof.
  destruct (lone_shell_listens board board_platform demo_link (BootInfo true (Some [demo_fb]) None None)
    demo_board ∅ gdt_boot (IdtState [] 0 0) (demo_boot_given _ _) (or_introl eq_refl)) as (k & E & H).
  destruct (H _ _ _ (rtc_refl _ _) ltac:(discriminate)) as (_ & _ & _ & H1 & _).
  destruct (H1 KeyboardIrq) as (_ & m1 & S1 & _).
  destruct (H _ _ _ (rtc_once _ _ S1) ltac:(discriminate)) as (_ & _ & _ & H2 & _).
  destruct (H2 TimerIrq) as (_ & m2 & S2 & _).
  exists k, m1, m2. split; [exact E|]. split; [exact S1|exact S2].
Defined.
