(* ===== verification/Screen.v ===== *)
(** * The first screen

    What the user sees of a booted kernel: the boot sequence, the console, the
    text terminal, the shell and the interrupts that come from the boot's [sti] on
    put together. *)
From stdpp Require Import base tactics relations strings gmap numbers list.
From S2P Require Import Prelude CString Memory Interfaces Pmm HeapSpec Heap HeapTheorems Sched.
From S2P Require Import SchedTheorems Platform Pic Keyboard Vfs Serial Framebuffer Terminal Gdt Panic Idt.
From S2P Require Import Kernel Shell ShellReplies Display Session Boot Running Steps ShellSteps Preempt.
From S2P Require Import Handling Interleaving.

Local Open Scope Z_scope.

(** ** Specification *)

(** The screen with the first prompt, row by row. *)
Definition first_rows : list (list Z) := [
  []; cstr "=== NovaOS Interactive Shell ==="; cstr "Type 'help' to see available commands."; [];
  cstr "NovaOS>"].

(** Either the loader provides a memory map with enough pages, or none at all. *)
Definition memory_usable (bi : boot_info) (memory : mem) : Prop :=
  (∃ es offset p, bi_memmap bi = Some es ∧ bi_hhdm bi = Some offset ∧
     memory_given es offset p memory) ∨
  bi_memmap bi = None ∨ bi_hhdm bi = None.

(** What is logged about the memory. *)
Definition logged (bi : boot_info) : list (list Z) :=
  match bi_memmap bi, bi_hhdm bi with Some _, Some _ => memory_log | _, _ => no_memory_log end.

(** The shell's first time slice is not over, or there is no other task. *)
Definition undisturbed (bi : boot_info) (irqs : list irq) : Prop :=
  timers irqs ≤ 1 ∨ bi_memmap bi = None ∨ bi_hhdm bi = None.

(** * Lemmas *)

(** A text that is written out. *)
Ltac no_nul_text := first [by repeat constructor|by apply letters_no_nul, letters_check].

(** The banner and the prompt on an empty page. *)
Lemma first_text cols rows : 40 ≤ cols → 5 ≤ rows →
  term_text (term_perform (banner_outs ++ prompt_outs) (blank_term cols rows COLOR_WHITE COLOR_DARK)) =
    first_rows ++ replicate (Z.to_nat rows - 5) [].
Proof.
  intros Hc Hr. unfold term_perform, banner_outs, prompt_outs. cbn [app foldl term_out].
  rewrite !term_print_app by no_nul_text.
  assert (laid cols rows (blank_term cols rows COLOR_WHITE COLOR_DARK) []) as H by (apply laid_blank; lia).
  apply (laid_color _ _ _ _ COLOR_GREEN), laid_nl in H; [|cbn; lia].
  apply (laid_line _ _ _ _ (cstr "=== NovaOS Interactive Shell ===")) in H;
    [|by apply letters_check|cbn; lia|cbn; lia].
  apply (laid_color _ _ _ _ COLOR_WHITE) in H.
  apply (laid_line _ _ _ _ (cstr "Type 'help' to see available commands.")) in H;
    [|by apply letters_check|cbn; lia|cbn; lia].
  apply laid_nl in H; [|cbn; lia]. apply (laid_color _ _ _ _ COLOR_CYAN) in H.
  apply (laid_text _ _ _ _ (cstr "NovaOS> ")) in H; [|by apply letters_check|cbn; lia].
  rewrite text_color, H. reflexivity.
Qed.

(** More outputs on a screen that shows some. *)
Lemma screen_after (c c' : fbcon) o1 o2 t :
  shows_term c (term_perform o1 t) → perform o2 c = Ok ((), c') → t_bg t = COLOR_DARK →
  Forall out_ok o2 → shows_term c' (term_perform (o1 ++ o2) t).
Proof.
  intros H P Hbg Ho. rewrite term_perform_app.
  destruct (perform_shows o2 c _ H) as (c1 & P1 & H1 & _); [by rewrite perform_bg|done|].
  rewrite P in P1. by injection P1 as ->.
Qed.

Lemma prompt_ok : Forall out_ok prompt_outs.
Proof. unfold prompt_outs. outs_ok. Qed.

(** A text is sent and drawn under every schedule without a task switch. *)
Lemma says_path {D} `{PL : Platform D} fs (p : prog (kernel D) unit) f t sch n (m : live D) q :
  (∀ k, alive fs k → utters fs 0 k p () f t) → shell_runs fs m q → 0 ≤ n →
  calm (k_sched (l_kernel m)) (timers (concat sch) + n) →
  ∃ m' q', handle p sch m = Ok (Some (), m') ∧ shell_runs fs m' q' ∧
    emits (l_kernel m) (l_kernel m') f t ∧ calm (k_sched (l_kernel m')) n ∧
    ∀ next c, resting next → rtc kstep (m, settle p next, c) (m', next, c).
Proof.
  intros Hp H Hn Hc. assert (alive fs (l_kernel m)) as Ha by (exists q; exact (sr_ready _ _ _ H)).
  assert (wp (rely fs) (guarantee fs) p (λ o _ k', o = Some () ∧ emits (l_kernel m) k' f t) 0 (l_kernel m))
    as Hw by (by apply (Hp _ Ha); [apply during_refl|]).
  destruct (handle_ok fs p _ n Hn sch m q 0 Hw H Hc) as (o & m' & x' & E & _ & [-> He] & Hs).
  destruct (Hs ltac:(done)) as (_ & Hc' & q' & H' & _). exists m', q'.
  split; [exact E|]. split; [exact H'|]. split; [exact He|]. split; [exact Hc'|].
  intros next c Hnext. exact (handle_path fs p _ n Hn sch m q 0 c next _ m' Hw H Hc Hnext E).
Qed.

Section from_boot.
Context {D : Type} `{PL : Platform D} (lm : link_map) (bi : boot_info)
  (d : D) (memory : mem) (g : gdt_state) (i : idt_state).

Lemma some_boot irqs : boot_given lm bi d → memory_usable bi memory → undisturbed bi irqs →
  ∃ k, start lm bi (kernel_boot d memory g i) = Ok (Returned, k) ∧ booted lm bi k ∧
    u_tx (com1 (k_dev k)) = u_tx (com1 d) ++ crlf (boot_log (logged bi)) ∧
    s_current (k_sched k) = 0 ∧ calm (k_sched k) (timers irqs).
Proof.
  intros Hbi Hmem Hirqs. assert (bi_memmap bi = None ∨ bi_hhdm bi = None →
    ∃ k, start lm bi (kernel_boot d memory g i) = Ok (Returned, k) ∧ booted lm bi k ∧
      u_tx (com1 (k_dev k)) = u_tx (com1 d) ++ crlf (boot_log (logged bi)) ∧
      s_current (k_sched k) = 0 ∧ calm (k_sched k) (timers irqs)) as Hbare.
  { intros Hno. destruct (boot_bare_ok lm bi d memory g i Hbi Hno) as (k & E & Hb & Hu & _ & _ & Hc & Hcur).
    exists k. unfold logged. split; [exact E|]. split; [exact Hb|].
    split; [by destruct Hno as [-> | ->]; repeat case_match|]. split; [exact Hcur|]. left. by rewrite Hc. }
  destruct Hmem as [(es & offset & p & Hes & Hoff & Hmem)|Hno]; [|by apply Hbare].
  destruct Hirqs as [Hirqs|Hno]; [|by apply Hbare].
  destruct (boot_ok lm bi d memory g i es p offset Hbi Hes Hoff Hmem)
    as (k & F & E & Hb & Hu & _ & _ & _ & Hcur & _ & _ & Ht).
  exists k. unfold logged. rewrite Hes, Hoff. split; [exact E|]. split; [exact Hb|]. split; [exact Hu|].
  split; [exact Hcur|]. right. rewrite Ht. lia.
Qed.

(** The last message of the boot sequence, then the prompt. *)
Lemma first_prompt (k : kernel D) sch1 sch2 : booted lm bi k → s_current (k_sched k) = 0 →
  calm (k_sched k) (timers (concat (sch1 ++ sch2))) →
  ∃ m1 m, handle (print_serial_steps sti_message) sch1 (Live k ∅) = Ok (Some (), m1) ∧
    handle prompt_steps sch2 m1 = Ok (Some (), m) ∧
    (∀ n, rtc kstep (Live k ∅, after_sti, n) (m, Looping, n)) ∧
    emits k (l_kernel m) (mret tt ≫= λ _, perform prompt_outs)
      (crlf sti_message ++ crlf (serial_of prompt_outs)).
Proof.
  intros Hb Hcur Hc. rewrite concat_app, timers_app in Hc.
  destruct (says_path boot_files (print_serial_steps sti_message) (mret tt) (crlf sti_message) sch1
    (timers (concat sch2)) (Live k ∅) [] (λ k0, sti_message_says 0 k0) (booted_runs lm bi k Hb Hcur)
    (timers_nonneg _) Hc) as (m1 & q1 & E1 & H1 & He1 & Hc1 & P1).
  destruct (says_path boot_files prompt_steps (perform prompt_outs) (crlf (serial_of prompt_outs)) sch2 0 m1 q1
    (λ k0, prompt_tells boot_files 0 k0) H1 ltac:(lia)) as (m & q & E & H & He & _ & P).
  { by rewrite Z.add_0_r. }
  exists m1, m. split; [exact E1|]. split; [exact E|]. split; [|by eapply emits_trans].
  intros n. transitivity (m1, Entering (D:=D), n); [by apply P1; left|].
  apply rtc_l with (m1, settle prompt_steps Looping, n); [|by apply P; right; left].
  apply step_shell; [exact (sr_current _ _ _ H1)|by split|]. clear. unfold on_kernel, zoom. cbn [shell_step].
  by destruct m1.
Qed.
End from_boot.

(** * Properties *)

(** C8: on every screen of at least 40 columns and 5 rows, whatever interrupts come
    between the steps of the boot sequence's last message and of the prompt, as long
    as they do not end the shell's first time slice (at most one of them is a timer
    interrupt, or there is no memory map and so no second task; with two, and a memory
    map, the other task takes the processor for good), the kernel reaches the input
    loop, and then the user sees the shell's banner and the first prompt at the top of
    an otherwise empty screen: the pixels are the picture of a terminal with exactly
    these rows of text.  The serial line has received the whole log and the prompt. *)
Theorem first_screen (D : Type) (PL : Platform D) (lm : link_map) (bi : boot_info)
    (fb : limine_framebuffer) (fbs : list limine_framebuffer)
    (d : D) (memory : mem) (g : gdt_state) (i : idt_state) (sch1 sch2 : list (list irq))
    (Hbi : boot_given lm bi d) (Hmem : memory_usable bi memory)
    (Hfb : bi_framebuffers bi = Some (fb :: fbs))
    (Hw : 320 ≤ fi_width fb) (Hh : 50 ≤ fi_height fb)
    (Hirqs : undisturbed bi (concat (sch1 ++ sch2))) :
  ∃ k m1 m t, start lm bi (kernel_boot d memory g i) = Ok (Returned, k) ∧
    handle (print_serial_steps sti_message) sch1 (Live k ∅) = Ok (Some (), m1) ∧
    handle prompt_steps sch2 m1 = Ok (Some (), m) ∧
    (∀ n, rtc kstep (Live k ∅, after_sti, n) (m, Looping, n)) ∧
    shows_term (k_con (l_kernel m)) t ∧
    term_text t = first_rows ++ replicate (Z.to_nat (fi_height fb / 10) - 5) [] ∧
    u_tx (com1 (k_dev (l_kernel m))) =
      u_tx (com1 d) ++ crlf (boot_log (logged bi) ++ sti_message ++ cstr "NovaOS> ").
Proof.
  destruct (some_boot lm bi d memory g i _ Hbi Hmem Hirqs) as (k & E & Hb & Hu & Hcur & Hc).
  destruct (first_prompt lm bi k sch1 sch2 Hb Hcur Hc) as (m1 & m & E1 & E2 & P & [Hcon Htx]).
  destruct (bt_screen _ _ _ Hb) as (fb' & fbs' & Hfb' & Hs). rewrite Hfb in Hfb'. injection Hfb' as <- <-.
  exists k, m1, m. eexists. split; [exact E|]. split; [exact E1|]. split; [exact E2|]. split; [exact P|].
  split; [|split].
  - exact (screen_after (k_con k) _ banner_outs prompt_outs _ Hs Hcon eq_refl prompt_ok).
  - unfold boot_blank. apply first_text; Z.div_mod_to_equations; lia.
  - rewrite Htx, Hu, <- app_assoc. by rewrite !crlf_app.
Qed.

(** A loader's screen of 320 by 50 pixels, without a memory map. *)
Definition wide_fb : limine_framebuffer := FbInfo (fill 0 16000 0) 320 50 1280.

Lemma wide_given : boot_given demo_link (BootInfo true (Some [wide_fb]) None None) demo_board.
Proof.
  split; [reflexivity|exact demo_link_given|reflexivity|]. exists wide_fb, []. split; [reflexivity|].
  unfold wide_fb. generalize (fill_mapped 0 16000 0). generalize (fill 0 16000 0). intros m Hm.
  split; cbn [fi_width fi_height fi_pitch fi_pixels]; change (1280 / 4) with 320; [lia..|].
  intros j Hj. apply Hm. lia.
Qed.

Lemma first_screen_witness :
  ∃ (k : kernel board) m1 m t, start demo_link (BootInfo true (Some [wide_fb]) None None)
      (kernel_boot demo_board ∅ gdt_boot (IdtState [] 0 0)) = Ok (Returned, k) ∧
    handle (print_serial_steps sti_message) [[TimerIrq]; []; [TimerIrq; KeyboardIrq]] (Live k ∅) =
      Ok (Some (), m1) ∧
    handle prompt_steps [[]; [TimerIrq]] m1 = Ok (Some (), m) ∧
    shows_term (k_con (l_kernel m)) t ∧ term_text t = first_rows.
Proof.
  destruct (first_screen board board_platform demo_link (BootInfo true (Some [wide_fb]) None None)
    wide_fb [] demo_board ∅ gdt_boot (IdtState [] 0 0) [[TimerIrq]; []; [TimerIrq; KeyboardIrq]]
    [[]; [TimerIrq]] wide_given (or_intror (or_introl eq_refl)) eq_refl
    ltac:(cbn [fi_width wide_fb]; lia) ltac:(cbn [fi_height wide_fb]; lia)
    (or_intror (or_introl eq_refl))) as (k & m1 & m & t & E & E1 & E2 & _ & Hs & Ht & _).
  exists k, m1, m, t. split; [exact E|]. split; [exact E1|]. split; [exact E2|].
  split; [exact Hs|]. rewrite Ht. reflexivity.
Defined.
