(* ===== verification/Types.v ===== *)
(** * The types of the kernel's variables

    Integers are modelled as [Z]; here is what keeps them honest: every static
    variable of the kernel holds a value of its C type in every state a run
    reaches, whatever the memory map, the devices and the interrupts. *)
From stdpp Require Import base tactics relations strings gmap numbers list.
From S2P Require Import Prelude CString Digits Memory Ensures Interfaces Pmm HeapSpec Heap Sched.
From S2P Require Import Platform Pic Keyboard Vfs Serial Framebuffer Gdt Panic Idt.
From S2P Require Import Kernel Shell ShellReplies Session Boot Running Steps ShellSteps Preempt Handling Interleaving.

Local Open Scope Z_scope.

Abbreviation byte_list := (Forall (wide 8)).

(** ** The console *)

(** [uint32_t] throughout, the pixels included. *)
Record con_typed (s : fbcon) : Prop := {
  ct_pixels : map_Forall (λ _ v, wide 32 v) (s_fb s);
  ct_size : wide 32 (s_width s) ∧ wide 32 (s_height s) ∧ wide 32 (s_pitch_p s);
  ct_grid : wide 32 (s_cols s) ∧ wide 32 (s_rows s);
  ct_cursor : wide 32 (s_cur_col s) ∧ wide 32 (s_cur_row s);
  ct_colours : wide 32 (s_fg s) ∧ wide 32 (s_bg s)
}.

Lemma cursor_typed c r s : wide 32 c → wide 32 r → con_typed s → con_typed (set_cursor c r s).
Proof. intros ? ? []. by split. Qed.
#[local] Hint Resolve cursor_typed : ensures.

Lemma fb_put_typed i v : wide 32 v → keeps con_typed (fb_put i v).
Proof.
  intros Hv s u s' [] E. unfold fb_put in E. destruct (s_fb s !! i); [|done].
  injection E as <- <-. split; [|done]. split; [|done..]. by apply map_Forall_insert_2.
Qed.

Lemma fb_get_typed i : ensures con_typed (fb_get i) (wide 32).
Proof.
  intros s v s' Hs E. unfold fb_get, of_option in E. destruct (s_fb s !! i) eqn:Hi; [|done].
  injection E as <- <-. split; [done|]. exact (ct_pixels _ Hs i _ Hi).
Qed.
#[local] Hint Resolve fb_put_typed fb_get_typed : ensures.

(** The fields of a typed console. *)
#[local] Hint Extern 2 (wide 32 _) => match goal with H : con_typed ?s |- _ =>
  let H' := fresh in pose proof H as H'; destruct H' as [_ (? & ? & ?) [? ?] [? ?] [? ?]];
  cbn [s_width s_height s_pitch_p s_cols s_rows s_cur_col s_cur_row s_fg s_bg] in *; assumption end
  : ensures.

Lemma draw_glyph_typed px py c fg bg : wide 32 fg → wide 32 bg →
  keeps con_typed (draw_glyph px py c fg bg).
Proof. intros Hf Hb. unfold draw_glyph, glyph_pixel. ens. Qed.
#[local] Hint Resolve draw_glyph_typed : ensures.

Lemma scroll_up_typed : keeps con_typed scroll_up.
Proof. unfold scroll_up. ens. Qed.
#[local] Hint Resolve scroll_up_typed : ensures.

Lemma next_row_typed : keeps con_typed next_row.
Proof. unfold next_row. ens; eauto with ensures. Qed.
#[local] Hint Resolve next_row_typed : ensures.

Lemma put_plain_typed c : keeps con_typed (put_plain c).
Proof. unfold put_plain. ens; eauto with ensures. Qed.
#[local] Hint Resolve put_plain_typed : ensures.

Lemma tab_loop_typed fuel : ∀ stop, keeps con_typed (tab_loop fuel stop).
Proof. induction fuel as [|fuel IH]; intros stop; cbn [tab_loop]; ens; auto. Qed.
#[local] Hint Resolve tab_loop_typed : ensures.

Lemma fb_putchar_typed c : keeps con_typed (fb_putchar c).
Proof.
  unfold fb_putchar. ens; [eauto with ensures|]. destruct (Z.ltb_spec 0 (s_cur_col s)); [|done].
  apply cursor_typed; [|eauto with ensures|done]. destruct H0 as [_ _ _ [? _] _].
  unfold wide in *. lia.
Qed.
#[local] Hint Resolve fb_putchar_typed : ensures.

Lemma fb_print_typed u : keeps con_typed (fb_print u).
Proof. induction u as [|c u IH]; cbn [fb_print]; ens. Qed.
#[local] Hint Resolve fb_print_typed : ensures.

Lemma on_local_keeps {T} (P : T → Prop) buf {A} (m : M (list Z) A) : keeps P (on_local buf m).
Proof. intros s a s' Hs E. unfold on_local in E. destruct (m buf) as [[? ?]| |]; naive_solver. Qed.
#[local] Hint Resolve on_local_keeps : ensures.

Lemma print_dec_typed u v : keeps con_typed (fb_print_dec u v).
Proof. unfold fb_print_dec, print_u64_dec. ens. Qed.

Lemma fb_clear_typed : keeps con_typed fb_clear.
Proof. unfold fb_clear. ens; eauto with ensures. Qed.

Lemma set_color_typed fg bg : wide 32 fg → wide 32 bg → keeps con_typed (fb_set_color fg bg).
Proof. intros Hf Hb. unfold fb_set_color. ens. by destruct H as [? ? ? ? _]. Qed.
#[local] Hint Resolve print_dec_typed fb_clear_typed set_color_typed : ensures.

Lemma fb_init_typed fb w h p : map_Forall (λ _ v, wide 32 v) fb → wide 32 w → wide 32 h → wide 32 p →
  keeps con_typed (fb_init fb w h p).
Proof.
  intros Hfb Hw Hh Hp. unfold fb_init. ens. destruct H as [_ _ _ ? ?].
  split; [done|split_and!; [done|done|by apply wide_div]|split; by apply wide_div|done|done].
Qed.
#[local] Hint Resolve fb_init_typed : ensures.

(** ** The page allocator: [uint64_t] throughout *)

Record pmm_typed (s : pmm) : Prop := {
  pt_bitmap : map_Forall (λ _ v, wide 64 v) (bitmap s);
  pt_total : wide 64 (s_total_pages s);
  pt_free : wide 64 (s_free_pages s);
  pt_hhdm : wide 64 (g_hhdm_offset s)
}.

Lemma bm_get_typed i : ensures pmm_typed (bm_get i) (wide 64).
Proof.
  intros s v s' Hs E. unfold bm_get, of_option in E. destruct (bitmap s !! i) eqn:Hi; [|done].
  injection E as <- <-. split; [done|]. exact (pt_bitmap _ Hs i _ Hi).
Qed.

Lemma bm_put_typed i v : wide 64 v → keeps pmm_typed (bm_put i v).
Proof.
  intros Hv s u s' [] E. unfold bm_put in E. destruct (bitmap s !! i); [|done].
  injection E as <- <-. split; [|done]. split; [|done..]. by apply map_Forall_insert_2.
Qed.
#[local] Hint Resolve bm_get_typed bm_put_typed : ensures.

Lemma bit_mask p : wide 64 (Z.shiftl 1 (p mod 64)).
Proof.
  pose proof (Z.mod_pos_bound p 64 ltac:(lia)). unfold wide.
  rewrite Z.shiftl_mul_pow2 by lia. rewrite Z.mul_1_l. split; [lia|].
  apply Z.pow_lt_mono_r; lia.
Qed.

Lemma bit_set_typed p : keeps pmm_typed (bit_set p).
Proof. unfold bit_set. ens. apply bm_put_typed, wide_lor; [lia|done|apply bit_mask]. Qed.
Lemma bit_clear_typed p : keeps pmm_typed (bit_clear p).
Proof. unfold bit_clear. ens. apply bm_put_typed, wide_land; [lia|done|apply u64_range]. Qed.
Lemma bit_test_typed p : keeps pmm_typed (bit_test p).
Proof. unfold bit_test. ens. Qed.
Lemma free_incr_typed : keeps pmm_typed free_incr.
Proof. unfold free_incr. ens. destruct H. split; cbn; auto with ensures. Qed.
Lemma free_decr_typed : keeps pmm_typed free_decr.
Proof. unfold free_decr. ens. destruct H. split; cbn; auto with ensures. Qed.
#[local] Hint Resolve bit_set_typed bit_clear_typed bit_test_typed free_incr_typed free_decr_typed : ensures.

Lemma mark_pages_typed fuel : ∀ addr limit, keeps pmm_typed (mark_pages fuel addr limit).
Proof. induction fuel as [|fuel IH]; intros addr limit; cbn [mark_pages]; ens; auto. Qed.
#[local] Hint Resolve mark_pages_typed : ensures.

Lemma set_total_typed n s : wide 64 n → pmm_typed s → pmm_typed (set_total n s).
Proof. intros ? []. by split. Qed.

#[local] Transparent pmm_init.
Lemma pmm_init_typed offset es : wide 64 offset → keeps pmm_typed (pmm_init offset es).
Proof.
  intros Ho. unfold pmm_init, count_entry, mark_entry, reserve_page. ens.
  - by destruct H.
  - destruct (_ <? _); [|done]. apply set_total_typed; [|done]. apply wide_div; [lia|apply wide_u64].
  - destruct (_ <? _); [|done]. by apply set_total_typed.
Qed.

#[local] Opaque pmm_init.

Lemma alloc_scan_typed qis : ensures pmm_typed (alloc_scan qis) (wide 64).
Proof. induction qis as [|qi qis IH]; cbn [alloc_scan]; ens; auto with ensures. Qed.
Lemma pmm_alloc_typed : ensures pmm_typed pmm_alloc (wide 64).
Proof. apply alloc_scan_typed. Qed.
#[local] Hint Resolve pmm_init_typed pmm_alloc_typed : ensures.

(** ** The heap: a pointer, and bytes *)

Record heap_typed (h : heap) : Prop := {
  ht_head : wide 64 (s_head h);
  ht_bytes : bytes_ok (hmem h)
}.

Lemma zoom_hmem_typed {A} (m : M mem A) Q : ensures bytes_ok m Q → ensures heap_typed (zoom hmem set_hmem m) Q.
Proof. intros Hm. eapply ensures_zoom; [exact Hm|by intros ? []|]. intros m' h ? []. by split. Qed.

Lemma split_block_typed cur size : keeps bytes_ok (split_block cur size).
Proof.
  unfold split_block, set_magic, get_size, set_size, Heap.set_free, get_next, set_next, set_prev. ens.
Qed.
#[local] Hint Resolve split_block_typed : ensures.

Lemma kmalloc_scan_typed fuel : ∀ size cur, ensures bytes_ok (kmalloc_scan fuel size cur) (wide 64).
Proof.
  induction fuel as [|fuel IH]; intros size cur; cbn [kmalloc_scan];
    unfold get_magic, get_free, get_size, Heap.set_free, get_next; ens; auto with ensures.
Qed.
Lemma kmalloc_typed size : ensures heap_typed (kmalloc size) (wide 64).
Proof. unfold kmalloc. ens; [done|]. apply zoom_hmem_typed, kmalloc_scan_typed. Qed.

Lemma zero_bytes_typed n : ∀ b, keeps bytes_ok (zero_bytes n b).
Proof. induction n as [|n IH]; intros b; cbn [zero_bytes]; ens; auto. Qed.
#[local] Hint Resolve kmalloc_typed zero_bytes_typed : ensures.

Lemma put_head_typed head : keeps bytes_ok (put_head head).
Proof. unfold put_head, set_magic, set_size, Heap.set_free, set_next, set_prev. ens. Qed.

Definition pmm_heap_typed (t : pmm * heap) : Prop := pmm_typed t.1 ∧ heap_typed t.2.

Lemma heap_init_typed : keeps pmm_heap_typed heap_init.
Proof.
  assert (ensures pmm_heap_typed page_alloc (wide 64)) as Hp.
  { unfold page_alloc. eapply ensures_zoom; [apply pmm_alloc_typed|by intros ? []|].
    intros s t ? []. by split. }
  unfold heap_init. ens; eauto using ensures_keeps.
  - destruct H1 as [? []]. split; [done|]. split; [apply wide_u64|done].
  - eapply ensures_zoom; [apply put_head_typed|by intros ? [? []]|].
    intros m t Hm [? []]. split; [done|]. by split.
Qed.

(** ** The scheduler *)

Record task_typed (t : Task) : Prop := {
  tt_rsp : wide 64 (t_rsp t);
  tt_stack : wide 64 (t_stack_base t);
  tt_id : wide 32 (t_id t);
  tt_name : byte_list (t_name t)
}.

Record sched_typed (s : sched) : Prop := {
  st_tasks : Forall task_typed (s_tasks s);
  st_count : wide 32 (s_count s);
  st_current : wide 32 (s_current s);
  st_ticks : wide 32 (Sched.s_ticks s)
}.

Lemma tasks_zoom {A} (m : M (list Task) A) Q : ensures (Forall task_typed) m Q →
  ensures sched_typed (zoom s_tasks set_tasks m) Q.
Proof. intros Hm. eapply ensures_zoom; [exact Hm|by intros ? []|]. intros l s ? []. by split. Qed.

Lemma task_typed_get i : ensures sched_typed (task i) task_typed.
Proof. apply tasks_zoom, arr_get_ensures. Qed.

Lemma upd_task_typed i f : (∀ t, task_typed t → task_typed (f t)) → keeps sched_typed (upd_task i f).
Proof. intros Hf. apply tasks_zoom. ens. Qed.

(** One field of a task. *)
#[local] Hint Extern 4 (task_typed _) => match goal with H : task_typed _ |- _ =>
  destruct H; split; cbn; auto with ensures end : ensures.
#[local] Hint Resolve upd_task_typed : ensures.

Lemma copy_loop_typed src : ∀ i max, byte_list src → keeps byte_list (copy_loop i max src).
Proof.
  induction src as [|c src IH]; intros i max Hs; cbn [copy_loop]; ens.
  - apply arr_put_ensures. by inversion Hs.
  - apply IH. by inversion Hs.
Qed.

#[local] Hint Resolve copy_loop_typed : ensures.

Lemma copy_str_typed src max : byte_list src → keeps byte_list (copy_str src max).
Proof. intros Hs. unfold copy_str. ens. Qed.

Lemma copy_name_typed i name : byte_list name → keeps sched_typed (copy_name i name).
Proof.
  intros Hn. unfold copy_name. eapply ensures_bind; [apply task_typed_get|]. intros t Ht.
  destruct (copy_str name SIZEOF_NAME (t_name t)) as [[u n]| |] eqn:E; ens.
  apply upd_task_typed. destruct (copy_str_typed name SIZEOF_NAME Hn _ _ _ (tt_name _ Ht) E).
  auto with ensures.
Qed.

Lemma count_typed n s : wide 32 n → sched_typed s → sched_typed (set_count n s).
Proof. intros ? []. by split. Qed.
Lemma current_typed n s : wide 32 n → sched_typed s → sched_typed (set_current n s).
Proof. intros ? []. by split. Qed.
#[local] Hint Resolve st_count st_current copy_name_typed task_typed_get count_typed current_typed : ensures.

Lemma literal_typed s : forallb (λ c, (0 <=? c) && (c <? 256)) s = true → byte_list s.
Proof.
  intros H. apply list.Forall_forall. intros c Hc. apply list_elem_of_In in Hc.
  rewrite List.forallb_forall in H. apply H in Hc. unfold wide. change (2 ^ 8) with 256. lia.
Qed.

Lemma sched_init_typed : keeps sched_typed sched_init.
Proof.
  unfold sched_init. ens; eauto with ensures. by apply copy_name_typed, literal_typed.
Qed.

Lemma next_typed s v : sched_typed s → wide 32 (u32 v `mod` s_count s).
Proof. intros [_ [? _] _ _]. by apply wide_mod, wide_u32. Qed.
#[local] Hint Resolve next_typed : ensures.

Lemma find_ready_typed n : ∀ next, wide 32 next → ensures sched_typed (find_ready n next) (wide 32).
Proof.
  induction n as [|n IH]; intros next Hn; cbn [find_ready]; ens; try done.
  apply IH. auto with ensures.
Qed.
#[local] Hint Resolve find_ready_typed : ensures.

Lemma sched_tick_typed : keeps sched_typed sched_tick.
Proof.
  unfold sched_tick. ens; eauto with ensures.
  - destruct H. split; cbn; auto with ensures.
Qed.

Definition sys_typed (t : sched * heap) : Prop := sched_typed t.1 ∧ heap_typed t.2.

Lemma on_sched_typed {A} (m : M sched A) Q : ensures sched_typed m Q → ensures sys_typed (on_sched m) Q.
Proof. intros Hm. eapply ensures_zoom; [exact Hm|by intros ? []|]. intros s t ? []. by split. Qed.
Lemma on_heap_typed {A} (m : M heap A) Q : ensures heap_typed m Q → ensures sys_typed (on_heap m) Q.
Proof. intros Hm. eapply ensures_zoom; [exact Hm|by intros ? []|]. intros s t ? []. by split. Qed.
Lemma on_mem_typed {A} (m : M mem A) Q : ensures bytes_ok m Q → ensures sys_typed (on_mem m) Q.
Proof. intros Hm. by apply on_heap_typed, zoom_hmem_typed. Qed.

Lemma push_words_typed vs : ∀ sp, wide 64 sp → ensures bytes_ok (push_words vs sp) (wide 64).
Proof.
  induction vs as [|v vs IH]; intros sp Hsp; cbn [push_words]; [by apply ensures_ret|].
  apply (ensures_bind _ _ _ (wide 64)); [|exact IH]. unfold push_word. ens. apply wide_u64.
Qed.
#[local] Hint Resolve on_sched_typed on_heap_typed on_mem_typed push_words_typed : ensures.

Lemma initial_stack_typed i entry : keeps sys_typed (setup_initial_stack i entry).
Proof. unfold setup_initial_stack, zero_mem. ens. Qed.
#[local] Hint Resolve initial_stack_typed ensures_get : ensures.

Lemma create_task_typed entry name : byte_list name → keeps sys_typed (sched_create_task entry name).
Proof.
  intros Hn. unfold sched_create_task. ens. apply on_sched_typed. ens. auto with ensures.
Qed.

(** ** The keyboard: characters, and two [size_t] indices *)

Record kbd_typed (k : kbd) : Prop := {
  kt_buf : byte_list (kb_buf k);
  kt_head : wide 64 (kb_head k);
  kt_tail : wide 64 (kb_tail k)
}.

Lemma put_char_typed c : wide 8 c → keeps kbd_typed (put_char c).
Proof.
  intros Hc. unfold put_char. ens.
  - eapply ensures_zoom; [by apply arr_put_ensures|by intros ? []|]. intros b k ? []. by split.
  - destruct H1. split; cbn; [done|apply wide_mod; [done|apply wide_u64]|done].
Qed.

Lemma table_typed t sc : byte_list t → ensures kbd_typed (table t sc) (wide 8).
Proof. intros Ht. apply ensures_of_option. intros c Hc. by eapply Forall_lookup_1. Qed.

#[local] Hint Resolve put_char_typed : ensures.

Lemma decoded_typed sc k : ensures kbd_typed (
    if sc <? 128 then
      a ← table sc_to_ascii sc;
      let upper := xorb (shift_held k) (caps_locked k) && ((97 <=? a) && (a <=? 122)) in
      if shift_held k then table sc_to_ascii_shift sc
      else if upper then mret (a - 32) else mret a
    else mret 0) (wide 8).
Proof.
  destruct (sc <? 128); [|by apply ensures_ret].
  eapply ensures_bind; [by apply table_typed, literal_typed|]. intros c Hc. cbv zeta.
  destruct (shift_held k); [by apply table_typed, literal_typed|].
  ens; [|done]. unfold wide in *. lia.
Qed.
#[local] Hint Resolve decoded_typed : ensures.

Lemma kb_scan_typed sc : keeps kbd_typed (kb_scan sc).
Proof. unfold kb_scan. ens; by destruct H. Qed.

Lemma read_key_typed : ensures kbd_typed read_key (wide 8).
Proof.
  unfold read_key. ens. eapply ensures_zoom; [apply arr_get_ensures|by intros ? []|].
  intros b k ? []. by split.
Qed.
Lemma advance_tail_typed : keeps kbd_typed advance_tail.
Proof.
  unfold advance_tail. ens. destruct H. split; cbn; [done..|apply wide_mod; [done|apply wide_u64]].
Qed.
#[local] Hint Resolve kb_scan_typed read_key_typed advance_tail_typed : ensures.

Lemma keyboard_getchar_keeps wakes : ensures kbd_typed (keyboard_getchar wakes) (λ r, wide 8 r.1).
Proof.
  induction wakes as [|sc wakes IH]; cbn [keyboard_getchar]; ens; auto with ensures.
Qed.

(** ** The files *)

Record node_typed (f : VFSNode) : Prop := {
  nt_name : byte_list (n_name f);
  nt_data : byte_list (n_data f);
  nt_size : wide 64 (n_size f)
}.

Lemma fill_slot_typed i name data size : byte_list name → byte_list data → wide 64 size →
  keeps (Forall node_typed) (fill_slot i name data size).
Proof.
  intros Hn Hd Hs. unfold fill_slot. eapply ensures_bind; [apply arr_get_ensures|]. intros f Hf.
  destruct (strncpy_local name MAX_FILENAME (n_name f)) as [[u n]| |] eqn:E; ens.
  apply arr_put_ensures. split; cbn; [|done..].
  assert (keeps byte_list (strncpy_local name MAX_FILENAME)) as Hcp.
  { unfold strncpy_local. ens. }
  exact (proj1 (Hcp _ _ _ (nt_name _ Hf) E)).
Qed.

Lemma create_file_typed name data size : byte_list name → byte_list data → wide 64 size →
  keeps (Forall node_typed) (vfs_create_file name data size).
Proof.
  intros Hn Hd Hs. unfold vfs_create_file. generalize (range 0 MAX_VFS_FILES) as idx.
  induction idx as [|i idx IH]; cbn [create_scan]; ens; eauto using ensures_keeps, arr_get_ensures.
  by apply fill_slot_typed.
Qed.

Lemma vfs_init_typed : keeps (Forall node_typed) vfs_init.
Proof.
  unfold vfs_init. ens; try (apply create_file_typed; [by apply literal_typed..|]);
    auto with ensures.
  apply arr_put_ensures. by destruct H0.
Qed.

Lemma vfs_open_typed name : keeps (Forall node_typed) (vfs_open name).
Proof.
  unfold vfs_open. generalize (range 0 MAX_VFS_FILES) as idx.
  induction idx as [|i idx IH]; cbn [open_scan]; ens; eauto using ensures_keeps, arr_get_ensures.
Qed.
Lemma vfs_list_typed n : keeps (Forall node_typed) (vfs_list n).
Proof.
  unfold vfs_list. generalize (range 0 MAX_VFS_FILES) as idx. generalize 0 as c.
  intros c idx; revert c; induction idx as [|i idx IH]; intros c; cbn [list_scan]; ens; auto.
Qed.
#[local] Hint Resolve vfs_open_typed vfs_list_typed : ensures.

(** ** The panic screen *)

Record panic_typed (p : panic_state) : Prop := {
  qt_size : wide 32 (p_width p) ∧ wide 32 (p_height p) ∧ wide 32 (p_pitch p);
  qt_pixels : ∀ fb, p_fb p = Some fb → map_Forall (λ _ v, wide 32 v) fb
}.

Lemma panic_put_typed i v : wide 32 v → keeps panic_typed (panic_put i v).
Proof.
  intros Hv p u p' [Hs Hp] E. unfold panic_put in E. destruct (p_fb p) as [fb|] eqn:Hfb; [|done].
  destruct (fb !! i); [|done]. injection E as <- <-. split; [|done]. split; [done|].
  intros fb' [= <-]. apply map_Forall_insert_2; [done|by apply Hp].
Qed.
Lemma flags_typed b h p : panic_typed p →
  panic_typed (PanicState (p_fb p) (p_width p) (p_height p) (p_pitch p) b h).
Proof. by intros []. Qed.
#[local] Hint Resolve panic_put_typed flags_typed : ensures.

Lemma fill_screen_typed color : wide 32 color → keeps panic_typed (fill_screen color).
Proof. intros Hc. unfold fill_screen. ens. Qed.

Section devices.
Context {D : Type} `{PL : Platform D}.

Definition report_typed (t : D * panic_state) : Prop := panic_typed t.2.

Lemma on_panic_typed (m : M panic_state unit) : keeps panic_typed m → keeps report_typed (on_panic (D:=D) m).
Proof. intros Hm. eapply ensures_zoom; [exact Hm|done|]. by intros p t ?. Qed.
Lemma print_typed u : keeps report_typed (print (D:=D) u).
Proof. by apply ensures_apart. Qed.
#[local] Hint Resolve print_typed : ensures.

Lemma kernel_panic_typed msg : keeps report_typed (kernel_panic (D:=D) msg).
Proof.
  unfold kernel_panic, cli, halt_forever. ens; apply on_panic_typed; [ens| |ens]; auto with ensures.
  by apply fill_screen_typed.
Qed.
End devices.
#[local] Hint Resolve kernel_panic_typed : ensures.

(** ** The descriptor tables *)

Record entry_typed (e : GDTEntry) : Prop := {
  et_limit : wide 16 (limit_low e);
  et_base : wide 16 (base_low e) ∧ wide 8 (base_mid e) ∧ wide 8 (base_high e);
  et_flags : wide 8 (access e) ∧ wide 8 (granularity e)
}.
Definition system_typed (e : GDTSystemEntry) : Prop :=
  entry_typed (se_low e) ∧ wide 32 (base_upper e) ∧ wide 32 (se_reserved e).
Record tss_typed (t : TSS) : Prop := {
  ts_reserved : wide 32 (tss_reserved0 t) ∧ wide 64 (tss_reserved1 t) ∧ wide 64 (tss_reserved2 t) ∧
    wide 16 (tss_reserved3 t);
  ts_stacks : Forall (wide 64) (tss_rsp t) ∧ Forall (wide 64) (tss_ist t);
  ts_iomap : wide 16 (iomap_base t)
}.

Record gdt_typed (s : gdt_state) : Prop := {
  gt_entries : Forall entry_typed (gdt s) ∧ Forall entry_typed (full_gdt s).1;
  gt_system : system_typed (tss_descriptor s) ∧ system_typed (full_gdt s).2;
  gt_tss : tss_typed (kernel_tss s);
  gt_gdtr : wide 16 (gdtr_limit s) ∧ wide 64 (gdtr_base s);
  gt_selectors : wide 16 (seg_cs s) ∧ Forall (wide 16) (seg_data s) ∧ wide 16 (task_reg s)
}.

(** The fields of an entry as they are written. *)
Ltac entry_fields := cbn [set_gdt_entry set_tss_descriptor limit_low base_low base_mid access
  granularity base_high se_low base_upper se_reserved].

Lemma set_gdt_entry_typed base limit acc gran : wide 8 acc → entry_typed (set_gdt_entry base limit acc gran).
Proof. intros Ha. split; entry_fields; auto with ensures. Qed.

Lemma set_tss_typed base limit : system_typed (set_tss_descriptor base limit).
Proof. split; [split|split]; entry_fields; auto with ensures. Qed.

Lemma gdt_init_typed tss stack table : wide 64 table → keeps gdt_typed (gdt_init tss stack table).
Proof.
  intros Ht s u s' _ [= <- <-]. split; [|done].
  assert (∀ l, Forall (λ e, ∃ b l a g, e = set_gdt_entry b l a g ∧ wide 8 a) l → Forall entry_typed l) as Hl.
  { intros l Hl. eapply Forall_impl; [exact Hl|]. intros e (b & li & a & g & -> & Ha).
    by apply set_gdt_entry_typed. }
  split; cbn [gdt full_gdt fst snd tss_descriptor kernel_tss gdtr_limit gdtr_base seg_cs seg_data task_reg].
  - split; apply Hl; repeat (apply List.Forall_cons; [by repeat eexists|]); done.
  - split; apply set_tss_typed.
  - split; cbn; [done|split|done]; repeat (apply List.Forall_cons; [by auto with ensures|]); done.
  - split; [done|exact Ht].
  - split; [done|]. split; [|done]. repeat (apply List.Forall_cons; [done|]). done.
Qed.

Record gate_typed (g : IDTEntry) : Prop := {
  gt_offset : wide 16 (offset_low g) ∧ wide 16 (offset_mid g) ∧ wide 32 (offset_high g);
  gt_selector : wide 16 (selector g);
  gt_attr : wide 8 (ist g) ∧ wide 8 (type_attr g);
  gt_reserved : wide 32 (gate_reserved g)
}.

Record idt_typed (s : idt_state) : Prop := {
  it_gates : Forall gate_typed (idt s);
  it_idtr : wide 16 (idtr_limit s) ∧ wide 64 (idtr_base s)
}.

Lemma set_gate_typed v h flags : wide 8 flags → keeps idt_typed (idt_set_gate v h flags).
Proof.
  intros Hf. unfold idt_set_gate.
  eapply ensures_zoom; [apply (arr_put_ensures gate_typed)|by intros ? []|].
  - split; cbn [offset_low offset_mid offset_high selector ist type_attr gate_reserved];
      auto with ensures.
  - intros l s ? []. by split.
Qed.

Lemma idt_init_typed isr irq table : wide 64 table → keeps idt_typed (idt_init isr irq table).
Proof.
  intros Ht. unfold idt_init. ens; try (by apply set_gate_typed);
    match goal with H : idt_typed _ |- _ => destruct H end; split; try done.
  apply Forall_replicate. by repeat split.
Qed.

(** ** The whole kernel *)

Record kernel_typed {D} (k : kernel D) : Prop := {
  kn_con : con_typed (k_con k);
  kn_pmm : pmm_typed (k_pmm k);
  kn_heap : heap_typed (k_heap k);
  kn_sched : sched_typed (k_sched k);
  kn_ticks : wide 64 (k_ticks k);
  kn_vfs : Forall node_typed (k_vfs k);
  kn_kbd : kbd_typed (k_kbd k);
  kn_panic : panic_typed (k_panic k);
  kn_gdt : gdt_typed (k_gdt k);
  kn_idt : idt_typed (k_idt k);
  kn_line : byte_list (k_buf k) ∧ wide 64 (k_idx k)
}.

Section kernel.
Context {D : Type} `{PL : Platform D}.
Abbreviation typed := (kernel_typed (D:=D)).

(** *** The components on the whole state *)

Lemma con_keeps {A} (m : M fbcon A) : keeps con_typed m → keeps typed (con m).
Proof. intros Hm. eapply ensures_zoom; [exact Hm|by intros ? []|]. intros c k ? []. by split. Qed.
Lemma dev_keeps {A} (m : M D A) : keeps typed (dev m).
Proof. apply ensures_apart. intros d k []. by split. Qed.
Lemma keys_ensures {A} (m : M kbd A) Q : ensures kbd_typed m Q → ensures typed (keys m) Q.
Proof. intros Hm. eapply ensures_zoom; [exact Hm|by intros ? []|]. intros c k ? []. by split. Qed.
Lemma files_ensures {A} (m : M vfs A) Q : ensures (Forall node_typed) m Q → ensures typed (files m) Q.
Proof. intros Hm. eapply ensures_zoom; [exact Hm|by intros ? []|]. intros c k ? []. by split. Qed.

Lemma panic_view_typed k : typed k → panic_typed (panic_view k).
Proof.
  intros []. unfold panic_view. destruct (p_fb (k_panic k)); [|done].
  destruct kn_panic0. split; [done|]. intros fb [= <-]. by destruct kn_con0.
Qed.

Lemma panicking_keeps (m : M (D * panic_state) unit) : keeps report_typed m → keeps typed (panicking m).
Proof.
  intros Hm. eapply ensures_zoom; [exact Hm|by apply panic_view_typed|].
  intros [d p] k Hp []. unfold panic_back. cbn [snd] in *.
  destruct (p_fb p) as [fb|] eqn:Hfb; [|by split]. split; try done.
  destruct kn_con0. split; try done. by apply (qt_pixels _ Hp).
Qed.
#[local] Hint Resolve con_keeps dev_keeps keys_ensures files_ensures panicking_keeps : ensures.

(** *** The shell *)

Lemma print_both_typed u : keeps typed (print_both u).
Proof. unfold print_both. ens. Qed.
Lemma color_typed fg : wide 32 fg → keeps typed (color fg).
Proof. intros Hf. unfold color. ens. Qed.
#[local] Hint Resolve print_both_typed color_typed : ensures.

Lemma returned_typed m : keeps typed m → keeps typed (returned m).
Proof. intros Hm. unfold returned. ens. Qed.
Lemma stopped_typed m : keeps typed m → keeps typed (Shell.stopped m).
Proof. intros Hm. unfold Shell.stopped. ens. Qed.
#[local] Hint Resolve returned_typed stopped_typed : ensures.

Lemma idx_typed i k : wide 64 i → typed k → typed (set_idx i k).
Proof. intros Hi []. split; try done. cbn. tauto. Qed.

Lemma put_buf_typed i c : wide 8 c → keeps typed (put_buf i c).
Proof.
  intros Hc. eapply ensures_zoom; [by apply (arr_put_ensures (wide 8))|intros ? []; tauto|].
  intros b k ? []. split; try done. cbn. tauto.
Qed.

#[local] Hint Resolve idx_typed put_buf_typed : ensures.

(** *** The shell in steps *)

Lemma fb_steps_typed u : steps_keep typed (fb_print_steps u).
Proof. induction u as [|c u IH]; cbn [fb_print_steps]; steps_ens. Qed.
Lemma write_steps_typed c : steps_keep typed (write_serial_steps c).
Proof. unfold write_serial_steps. steps_ens. Qed.
#[local] Hint Resolve fb_steps_typed write_steps_typed : ensures.
Lemma serial_steps_typed u : steps_keep typed (print_serial_steps u).
Proof. induction u as [|c u IH]; cbn [print_serial_steps]; steps_ens. Qed.
#[local] Hint Resolve serial_steps_typed : ensures.
Lemma both_steps_typed u : steps_keep typed (print_both_steps u).
Proof. unfold print_both_steps. steps_ens. Qed.
Lemma dec_steps_typed u v : steps_keep typed (fb_print_dec_steps u v).
Proof. unfold fb_print_dec_steps, print_u64_dec_steps. steps_ens. Qed.
#[local] Hint Resolve both_steps_typed dec_steps_typed : ensures.

Lemma color_steps_typed fg : wide 32 fg → steps_keep typed (color_steps fg).
Proof. intros Hf. unfold color_steps. steps_ens. Qed.
#[local] Hint Resolve color_steps_typed : ensures.

Lemma execute_steps_typed cmdline : steps_keep typed (execute_steps cmdline).
Proof.
  unfold execute_steps, help_steps, clear_steps, meminfo_steps, ticks_steps, tasks_steps, ls_steps,
    node_steps, cat_steps, unknown_steps, reboot_steps. cbv zeta. steps_ens.
Qed.
#[local] Hint Resolve execute_steps_typed : ensures.

Lemma prompt_steps_typed : steps_keep typed prompt_steps.
Proof. unfold prompt_steps. steps_ens. Qed.
#[local] Hint Resolve prompt_steps_typed : ensures.

Lemma char_steps_typed c : wide 8 c → steps_keep typed (char_steps c).
Proof.
  intros Hc. unfold char_steps. steps_ens; auto with ensures;
    match goal with H : typed ?k |- context [k_idx ?k] => destruct (kn_line _ H) as [_ ?] end;
    (apply idx_typed; [unfold wide in *; lia|done]).
Qed.

Fixpoint point_typed (p : point D) : Prop :=
  match p with
  | Reading c | Taken c => wide 8 c
  | Busy p next => steps_keep typed p ∧ point_typed next
  | _ => True
  end.

Lemma settle_typed p next : steps_keep typed p → point_typed next → point_typed (settle p next).
Proof. by destruct p. Qed.

Lemma shell_step_typed p : point_typed p → ensures typed (shell_step p) point_typed.
Proof.
  intros Hp. destruct p as [| | |c|c|[u|B m f|m] next| | |]; cbn [shell_step point_typed] in *.
  6-8: cbn [steps_ensure] in Hp.
  7: { destruct Hp as [(R & Hm & Hf) Hn]. eapply ensures_bind; [exact Hm|]. intros b Hb.
       apply ensures_ret, settle_typed; auto. }
  all: ens; try done; try (by apply settle_typed; auto using prompt_steps_typed, char_steps_typed).
  - by destruct (keyboard_has_char _).
  - by destruct Hp.
  - by destruct Hp.
Qed.

(** *** Interrupts *)

Lemma serve_typed i : keeps typed (serve i).
Proof.
  destruct i; cbn [serve]; [unfold irq0|unfold irq1]; ens.
  - eapply (ensures_zoom (wide 64)); [|by intros ? []|].
    + unfold pit_tick_handler. ens. apply wide_u64.
    + intros v k ? []. by split.
  - eapply (ensures_zoom sched_typed); [|by intros ? []|].
    + eapply ensures_bind; [apply sched_tick_typed|]. intros o _. by apply ensures_ret.
    + intros v k ? []. by split.
  - eapply (ensures_zoom (λ t, kbd_typed t.2)); [|by intros ? []|].
    + unfold keyboard_irq_handler. eapply ensures_bind; [by apply ensures_apart|]. intros sc _.
      by eapply ensures_zoom; [apply kb_scan_typed|..].
    + intros v k ? []. by split.
Qed.

Lemma set_int_typed b k : typed k → typed (set_int b k).
Proof. intros []. split; try done. by apply flags_typed. Qed.

Lemma on_kernel_keeps {A} (f : M (kernel D) A) (m : live D) a m' : keeps typed f → typed (l_kernel m) →
  on_kernel f m = Ok (a, m') → typed (l_kernel m') ∧ l_saved m' = l_saved m.
Proof.
  intros Hf Hm E. unfold on_kernel, zoom in E. destruct (f (l_kernel m)) as [[u k]| |] eqn:Ef; [|done..].
  injection E as _ <-. split; [exact (proj1 (Hf _ _ _ Hm Ef))|done].
Qed.

Lemma interrupt_typed i (m m' : live D) : typed (l_kernel m) → interrupt i m = Ok ((), m') →
  typed (l_kernel m').
Proof.
  intros Hm E. unfold interrupt in E. rewrite (bind_ok _ _ _ m m) in E by done.
  apply bind_inv in E as (v & m0 & E0 & E).
  pose proof (proj1 (on_kernel_keeps _ m v m0 (dev_keeps _) Hm E0)) as H0.
  destruct (stub_of v) as [j|]; [|done]. apply bind_inv in E as ([] & m1 & E1 & [= <-]).
  pose proof (proj1 (on_kernel_keeps _ m0 () m1 (serve_typed j) H0 E1)) as H1.
  unfold resume. repeat case_match; cbn [l_kernel]; by try apply set_int_typed.
Qed.

(** *** The boot sequence *)

Lemma panic_fb_typed fb w h p : map_Forall (λ _ v, wide 32 v) fb → wide 32 w → wide 32 h → wide 32 p →
  keeps panic_typed (set_panic_framebuffer (Some fb) w h p).
Proof. intros. unfold set_panic_framebuffer. ens. split; [done|]. by intros ? [= <-]. Qed.

Record loader_typed (lm : link_map) (bi : boot_info) : Prop := {
  lt_link : wide 64 (lm_gdt lm) ∧ wide 64 (lm_idt lm);
  lt_framebuffers : ∀ fb fbs, bi_framebuffers bi = Some (fb :: fbs) →
    map_Forall (λ _ v, wide 32 v) (fi_pixels fb);
  lt_hhdm : ∀ offset, bi_hhdm bi = Some offset → wide 64 offset
}.

Lemma log_typed u : keeps typed (log u).
Proof. apply dev_keeps. Qed.
#[local] Hint Resolve log_typed : ensures.

Lemma start_screen_typed fb : map_Forall (λ _ v, wide 32 v) (fi_pixels fb) → keeps typed (start_screen fb).
Proof.
  intros Hfb. unfold start_screen. ens; auto with ensures.
  eapply ensures_zoom; [by apply panic_fb_typed; auto with ensures|by intros ? []|].
  intros p k ? []. by split.
Qed.

Lemma start_memory_typed bi : (∀ offset, bi_hhdm bi = Some offset → wide 64 offset) →
  keeps typed (start_memory bi).
Proof.
  intros Hh. unfold start_memory. ens.
  - eapply ensures_zoom; [by apply pmm_init_typed, Hh|by intros ? []|]. intros p k ? []. by split.
  - eapply ensures_zoom; [apply heap_init_typed|by intros ? []|]. intros p k [] []. by split.
Qed.

Lemma start_tasks_typed lm : keeps typed (start_tasks lm).
Proof.
  unfold start_tasks. ens.
  - apply files_ensures, vfs_init_typed.
  - eapply ensures_zoom; [apply sched_init_typed|by intros ? []|]. intros p k ? []. by split.
  - eapply ensures_zoom; [by apply create_task_typed, literal_typed|by intros ? []|].
    intros p k [] []. by split.
Qed.
#[local] Hint Resolve start_tasks_typed : ensures.

Lemma start_typed lm bi : loader_typed lm bi → keeps typed (start lm bi).
Proof.
  intros [[Hg Hi] Hfb Hh].
  assert (keeps typed (zoom k_gdt set_gdt (gdt_init (lm_tss lm) (lm_stack lm) (lm_gdt lm)))) as Hgdt.
  { eapply ensures_zoom; [by apply gdt_init_typed|by intros ? []|]. intros v k ? []. by split. }
  assert (keeps typed (zoom k_idt set_kidt (idt_init (lm_isr_stub lm) (lm_irq_stub lm) (lm_idt lm)))) as Hidt.
  { eapply ensures_zoom; [by apply idt_init_typed|by intros ? []|]. intros v k ? []. by split. }
  unfold start, start_cpu. ens. apply returned_typed.
  eapply ensures_bind; [by eapply start_screen_typed, Hfb|]. intros [] _.
  eapply ensures_bind; [by apply start_memory_typed|]. intros [] _.
  unfold start_interrupts, start_shell, Shell.shell_init, sti. ens.
  eapply ensures_zoom; [|by intros ? []|intros p k ? []; by split]. ens. auto with ensures.
Qed.

#[local] Transparent pmm_boot.
Lemma boot_typed d memory g i : bytes_ok memory → gdt_typed g → idt_typed i →
  typed (kernel_boot d memory g i).
Proof.
  intros Hm Hg Hi. assert (∀ n, 0 ≤ n → wide n 0) as H0 by (intros n Hn; unfold wide; lia).
  split; cbn [kernel_boot k_con k_pmm k_heap k_sched k_ticks k_vfs k_kbd k_panic k_gdt k_idt k_buf k_idx].
  - split; [apply map_Forall_empty|..]; repeat split; done.
  - split; [|by apply H0..]. intros j v Hj. pose proof (pmm_boot_wf j) as Hw.
    rewrite Hj in Hw. exact (proj2 Hw).
  - split; [by apply H0|exact Hm].
  - split; [|by apply H0..]. apply Forall_replicate. split; [by apply H0..|]. apply Forall_replicate. by apply H0.
  - by apply H0.
  - apply Forall_replicate. split; [|done|by apply H0]. apply Forall_replicate. by apply H0.
  - split; [|by apply H0..]. apply Forall_replicate. by apply H0.
  - split; [|done]. by repeat split.
  - exact Hg.
  - exact Hi.
  - split; [|by apply H0]. apply Forall_replicate. by apply H0.
Qed.
#[local] Opaque pmm_boot.

(** *** Every step *)

Definition config_typed (x : config D) : Prop :=
  kernel_typed (l_kernel x.1.1) ∧ point_typed x.1.2 ∧ wide 31 x.2.

Lemma step_typed x y : config_typed x → kstep x y → config_typed y.
Proof.
  intros (Hk & Hp & Hn) Hs. destruct Hs as [m p m' p' n _ _ E|m p n _ _|i m p m' n _ _ E];
    cbn [fst snd] in *.
  - unfold on_kernel, zoom in E. destruct (shell_step p (l_kernel m)) as [[p1 k]| |] eqn:E1; [|done..].
    injection E as <- <-. destruct (shell_step_typed p Hp _ _ _ Hk E1) as [? ?]. by split.
  - split; [done|]. split; [done|]. cbn. unfold background_ticker_task, TICKER_ROUND, wide in *.
    destruct (Z.ltb_spec n 50000000); lia.
  - split; [by eapply interrupt_typed|]. split; [|done]. cbn. destruct (_ =? 0); [|done]. by destruct p.
Qed.
End kernel.

(** * Properties *)

(** C5: type soundness: whatever the devices and the memory, when the tables the
    loader hands over hold values of their C types, every variable of the kernel
    holds a value of its C type in every state of every interleaving of tasks and
    interrupts: the counters and cursors, every pixel, bitmap word, byte of memory
    and table entry, the character between the shell's steps and the ticker's
    [int], which never overflows. *)
Theorem state_typed (D : Type) (PL : Platform D) (lm : link_map) (bi : boot_info) (d : D)
    (memory : mem) (g : gdt_state) (i : idt_state) (k : kernel D)
    (Hbi : loader_typed lm bi) (Hm : bytes_ok memory) (Hg : gdt_typed g) (Hi : idt_typed i)
    (Hk : start lm bi (kernel_boot d memory g i) = Ok (Returned, k)) :
  ∀ x, rtc kstep (Live k ∅, after_sti, 0) x → config_typed x.
Proof.
  assert (config_typed (Live k ∅, after_sti, 0)) as H0.
  { split; [|split; [by apply settle_typed; auto using serial_steps_typed|done]]. exact (proj1 (start_typed lm bi Hbi _ _ _ (boot_typed d memory g i Hm Hg Hi) Hk)). }
  intros x Hx. revert H0. induction Hx; eauto using step_typed.
Qed.

Lemma demo_loader_typed : loader_typed demo_link demo_boot.
Proof.
  split; [by split; apply wide_check| |].
  - intros fb fbs [= <- <-]. apply fill_wide. by apply wide_check.
  - intros o [= <-]. by apply wide_check.
Qed.

Lemma gdt_boot_typed : gdt_typed gdt_boot.
Proof.
  assert (∀ n, 0 ≤ n → wide n 0) as H0 by (intros n Hn; unfold wide; lia).
  assert (entry_typed (MkEntry 0 0 0 0 0 0)) by (split; [|split_and!..]; by apply H0).
  split; cbn [gdt_boot gdt full_gdt fst snd tss_descriptor kernel_tss gdtr_limit gdtr_base seg_cs seg_data task_reg].
  - by split.
  - split; (split; [done|split; by apply H0]).
  - split; [split_and!; by apply H0|split; by apply Forall_replicate, H0|by apply H0].
  - split; by apply H0.
  - split_and!; [by apply H0|done|by apply H0].
Qed.

Lemma state_typed_witness :
  ∃ (k : kernel board) m, start demo_link demo_boot
      (kernel_boot demo_board demo_memory gdt_boot (IdtState [] 0 0)) = Ok (Returned, k) ∧
    interrupt KeyboardIrq (Live k ∅) = Ok ((), m) ∧ config_typed (m, after_sti, 0).
Proof.
  destruct (booted_phase demo_link demo_boot demo_board demo_memory gdt_boot (IdtState [] 0 0)
    demo_map 256 0 (demo_boot_given _ _) eq_refl eq_refl demo_memory_given) as (k & E & Hk).
  destruct Hk as (Hk & _). pose proof (runs_accepts boot_files KeyboardIrq (Live k ∅) [] Hk) as Hacc.
  destruct Hk as [Hr Hc _ Hd _].
  destruct (interrupt_total boot_files KeyboardIrq (Live k ∅) [] Hr Hd) as (m & Em).
  exists k, m. split; [exact E|]. split; [exact Em|].
  assert (rtc kstep (Live k ∅, after_sti, 0) (m, after_sti, 0)) as Hs.
  { apply rtc_once. pose proof (step_irq KeyboardIrq (Live k ∅) after_sti m 0 ltac:(discriminate) Hacc Em) as Hs.
    by rewrite Hc in Hs. }
  refine (state_typed board board_platform demo_link demo_boot demo_board demo_memory gdt_boot
    (IdtState [] 0 0) k demo_loader_typed _ gdt_boot_typed _ E _ Hs).
  - apply fill_wide. by apply wide_check.
  - split; [done|]. split; by apply wide_check.
Defined.
